(* ===== verification/_CoqProject ===== *)
-Q . S2P
Prelude.v
Collections.v
JsNumber.v
JsValue.v
Json.v
JsonProps.v
AuthStore.v
AuthSync.v
AuthSession.v
AuthSessionProps.v
HttpClient.v
StatusCodes.v
Flow.v
FlowProps.v
AdvancedCustom.v
AdvancedCustomProps.v
Playground.v
PlaygroundProps.v
PlaygroundStream.v
PlaygroundStreamProps.v
Regex.v
JsCoerce.v
BillingRules.v
BillingRulesProps.v
PlaygroundChat.v
PlaygroundChatProps.v
PlaygroundReply.v
PlaygroundStorage.v
PlaygroundStorageProps.v
Tiers.v
TiersProps.v
ParamOverride.v
ParamOverrideEditor.v
ParamOverrideProps.v
ParamOverrideEditorProps.v
ParamOverrideSaving.v
ModelMapping.v
Permissions.v
NavModules.v
NavSettings.v
NavModulesProps.v
ChannelForm.v
ChannelFormProps.v
ChannelSave.v
ChannelSaveProps.v
ChannelFieldUpdate.v
AdvancedCustomEditor.v
AdvancedCustomEditorProps.v
ChannelTest.v
ChannelTestProps.v
TierEditor.v
TierEditorProps.v
SidebarConfig.v
Passkey.v
