(* ===== verification/Prelude.v ===== *)
(** * Verification of the Omnigate web console (src/web/src)

    Omnigate is a gateway in front of model providers. Its web console is a
    TypeScript application; this library models the parts of it that carry logic of
    their own and proves what makes them correct. Each component is translated from
    its source file, function by function and under the source's names.

    ** The language

    - [Prelude]: strings as sequences of UTF-16 code units ([jstr]) with [trim],
      [split], [includes], decimal printing and parsing; tactics ([break_goal],
      [bool_to_prop]) and the hint databases [js].
    - [Collections]: [Map] and [Set] in insertion order, the stable
      [Array.prototype.sort] as insertion sort on a comparator, sums over lists.
    - [JsNumber]: numbers as IEEE-754 binary64 ([spec_float]). Counters, times and
      codes that the source keeps as integers below 2^53 are [Z] in the components.
    - [JsValue]: values of type [unknown] (what arrives from a server or a text).
    - [Json], [JsonProps]: JSON.parse and JSON.stringify, that printing and parsing
      round-trips, and that the parser's fuel is enough.
    - [Regex]: regular expressions with the backtracking semantics of the language;
      [JsCoerce]: the conversions [String(v)] and [Number(v)], with their TypeErrors.

    ** The components

    - [AuthStore] (stores/auth-store.ts), [AuthSync] (lib/auth-session-sync.ts),
      [AuthSession] and [AuthSessionProps] (lib/auth-session.ts): the state of a
      browser tab and the refresh protocol. Code between two awaits is one step; the
      inductive [trace] of [AuthSession] closes the steps under every
      interleaving of sign-in, rotation, sign-out, profile edits and resumptions of
      the refresh in flight. The refresh runner is parametric in a record of
      operations ([AuthRefreshRuntime]) as in the source. Proved: the tab's
      invariant; that an overtaken refresh changes nothing; that a refresh ends,
      with a bound on its requests; what every response does, by its status and body.
    - [HttpClient] (lib/http-client.ts, lib/server-error-message.ts): sharing of
      GETs in flight, token attachment, the retry after a refresh. Proved: every
      request settles with at most two transmissions; a second 401 signs out;
      requests are not shared across sessions.
    - [Flow], [FlowProps] (features/dashboard/lib/flow.ts, the flow types of
      features/dashboard/types.ts): from usage rows to a Sankey graph. Proved: every
      stage adds up to the summary, flow is conserved at every node, the graph is
      well formed, the node limit holds, filters, highlights and masking do what
      they mean to.
    - [AdvancedCustom], [AdvancedCustomProps]
      (features/channels/lib/advanced-custom.ts): routes of advanced custom
      channels. Proved: the validator against a declarative specification,
      normalization is idempotent, printing and parsing round-trips, built-in
      templates and defaults are valid.
    - [AdvancedCustomEditor], [AdvancedCustomEditorProps]
      (features/channels/components/dialogs/advanced-custom-editor-dialog.tsx): the dialog
      that edits these routes as a table or as text, with the keys of its rows. Proved:
      no handler throws and the rows are the routes with distinct keys in every reachable
      state, what fixing the order of catch-all routes does, and that only a text the
      validator accepts is saved, once.
    - [ChannelTest], [ChannelTestProps]
      (features/channels/components/dialogs/channel-test-dialog.tsx): the dialog that tests
      the models of a channel one by one or in chunks of five, as a transition system over
      the answers of the server. Proved: what a batch has sent and counted in every
      reachable state, that it ends, that stopping is final as long as the dialog stays
      open, and which models are deleted as failed.
    - [StatusCodes] (lib/http-status-code-rules.ts in its module [Rules],
      features/channels/lib/status-code-risk-guard.ts in [RiskGuard]): status code
      ranges and risky redirects. Proved: merging keeps exactly the codes selected,
      the normal form reparses to itself, the reported redirects are exact.
    - [Playground], [PlaygroundProps] (features/playground/lib/message,
      lib/streaming/payload-builder.ts, types.ts): messages and conversations.
      Proved: the think-tag parser against a decomposition of the text, what
      streaming stores, what loading, editing, regenerating and sending do.
    - [PlaygroundStream], [PlaygroundStreamProps]
      (features/playground/hooks/use-stream-request.ts and lib/streaming): the
      stream controller as a transition system. Proved: at most one outcome per
      request, stopping is final, no source is leaked.
    - [PlaygroundChat], [PlaygroundChatProps], [PlaygroundReply]
      (features/playground/hooks/use-chat-handler.ts, use-playground-conversation.ts):
      the chat handler on top of the controller, with the buffer of chunks, its
      timer, plain requests and React's queue of updates ([View]). Proved: the
      stored reply refines what the stream delivered ([assembled] and [shows] are the
      specification),
      stopping is final for the whole chat, and when a stop drops buffered text.
    - [PlaygroundStorage], [PlaygroundStorageProps] (features/playground/lib/storage,
      lib/state, constants.ts, hooks/use-playground-state.ts): what is kept in local
      storage, and the hook that loads and saves it, with React's queues of state
      updates. Proved: the limits on what is loaded, that leaving after a render stores
      the conversation on screen, and that one over the limit of the reader is lost.
    - [BillingRules], [BillingRulesProps] (features/pricing/lib/billing-expr.ts):
      request rules of billing expressions. Proved: what the editor builds parses
      back, except comparisons of parameters, which its own parser rejects; a
      combined expression splits into its parts.
    - [Tiers], [TiersProps] (features/pricing/lib/billing-expr.ts, tier-expr.ts):
      tables of tiered prices, the expression the editor writes for one, and the two
      parsers that read it. Proved: the editor reads back what it writes, the pricing
      page's parser agrees with it, and when a single tier loses a price.
    - [TierEditor], [TierEditorProps]
      (features/system-settings/models/tiered-pricing-editor.tsx): the editor of a model's
      price, as handlers on its state and the effects that run after each render and
      report to the parent. Proved: the effects settle and the parent then holds what is
      shown, what the editor wrote opens unchanged; an expression that the table cannot
      show is replaced by the empty price when it is opened.
    - [ParamOverride], [ParamOverrideEditor], [ParamOverrideProps],
      [ParamOverrideEditorProps], [ParamOverrideSaving]
      (features/channels/components/dialogs/param-override-editor-dialog.tsx): the
      overrides of a channel's request parameters, their JSON text, and the dialog
      that edits them, as handlers on the state and commits of React, with fresh ids.
      Proved: ids stay distinct and the selection valid in every reachable state, what
      is saved opens and saves as the same text, when a save succeeds, what a drop
      moves; quoted values lose their type and edits of prune rules have no effect.
    - [ModelMapping] (features/channels/lib/model-mapping-validation.ts and
      upstream-update-utils.ts): lists of models and mappings between them.
    - [ChannelForm], [ChannelFormProps] (features/channels/lib/channel-form.ts): the
      values of the channel form, the checks of its schema, and the conversions between
      a channel, the form, its two JSON texts and the payloads. [has_members] follows
      every member of the settings through the assignments and deletions that rewrite
      them. Proved: a saved form opens as it was entered, with well-typed values, and
      saves as the same texts.
    - [ChannelSave], [ChannelSaveProps] (the submit handler of
      features/channels/components/drawers/channel-mutate-drawer.tsx,
      hooks/use-channel-mutate-form.ts): a submission as a tree of questions, the drawer
      that runs submissions under its events, and the request. Proved: which fields
      an update sends for which user, that in every run a form is saved only as it was
      checked and confirmed, and that adding the missing models completes the list.
    - [ChannelFieldUpdate] (features/channels/lib/channel-field-update.ts): the delayed
      updates of a channel's fields as a transition system with the browser's timers.
      Proved: the last value edited is sent exactly once, by the end of the delay.
    - [Permissions] (lib/roles.ts, lib/admin-permissions.ts): the permission check and
      the matrix the user editor sends, which decides exactly the actions of the
      catalog.
    - [NavModules] (lib/nav-modules.ts and the guards of its pages), [NavSettings]
      (features/system-settings/maintenance/config.ts), [NavModulesProps]: the modules
      of the header and the sidebar. Proved: what an administrator saves is what the
      guards and the sidebar check do, and a failed request lets nobody in.
    - [SidebarConfig] (hooks/use-sidebar-config.ts): the links of the sidebar under the
      configurations of the administrator and of the user. Proved: a saved configuration
      decides the links, as it decides the guards.
    - [Passkey] (lib/passkey.ts): buffers as base64url texts and back. Proved: bytes
      survive the round trip, in the letters a URL allows.

    The components interact as in the code: [HttpClient] runs [AuthSession]'s steps
    on the tab, [AuthSession] publishes [AuthSync] events and writes [AuthStore];
    [PlaygroundStream] produces the chunks that [PlaygroundChat] buffers and applies
    to the messages of [Playground], which [PlaygroundStorage] keeps. [ChannelForm] checks
    and prints configurations of [AdvancedCustom], and [ChannelSave] uses it with
    [ModelMapping], the risk guard of [StatusCodes] and [Permissions]; the guards of
    [NavModules] read the user of [AuthStore]. [AdvancedCustomEditor] edits the
    configurations of [AdvancedCustom], [TierEditor] the tables of [Tiers] and the rules of
    [BillingRules], and [SidebarConfig] reads the text that [NavSettings] writes.

    ** Parameters

    Code outside the repository is a parameter: [localeCompare], the number format
    of Intl and the chart library's colour schemes in [Flow]; the URL parser in
    [AdvancedCustom], its dialog and [ChannelForm]; the case mapping of the search in
    [ChannelTest]; the schemas' parse functions and the quota of local storage in
    [PlaygroundStorage]; the answers of the server, the browser lock, clocks,
    identifier generators and when React runs an update are inputs. The properties
    on saving assume that the storage is not full and that the schema returns the
    messages it is given; those on the channel form and on the
    navigation modules assume that the server keeps the texts it is sent and sends them
    back; that on shared GETs that session ids are UUIDs, as the gateway issues them; that
    on the tab that the answer to a one-time code, which is applied unchecked, has its
    declared type; the others assume nothing of this kind. The round trips of prices and
    rules are stated for the tables and conditions that the patterns of the readers cover
    ([good_config], [representable]). [Date.now] in the ids of the
    parameter override dialog and the case mapping of its search are parameters too.

    ** Bounds and fuel

    [JSON_parse] has fuel 2 * length + 2, and [parse_value_fuel] shows that more
    changes nothing. The loop of the think-tag parser has fuel length + 1, and
    [think_tags_decompose] covers every text. The refresh runner recurses on the list
    of responses, and [refresh_runner_terminates] shows that eight are always enough
    (a request and three delayed repetitions of it, before and after the one retry
    of a session mismatch). The searches of [Regex] have the length of the text, and
    a repetition never goes on without progress. The effects of [TierEditor] run at most
    four times after a change, and [parent_holds_shown] shows that they have settled then.

    ** Not modelled

    React components, chart styling and tooltips, locale dependent
    formatting, calls that only forward to the API, generated routes, translations,
    the desktop shell and the Go server. [evalExprLocally] of billing expressions, which
    evaluates text as JavaScript, is left out too. Of the channel drawer only the
    submission is modelled, of the passkeys the conversion of buffers. The utilities and
    actions of the channel table, price display, the wallet, usage logs and the remaining
    settings pages are left out: they are labels, locale dependent formatting and calls
    that forward to the API. So are the copying of table filters to the address bar, the
    price estimator and the prompt helper of the price editor, which keep no state that
    the modelled parts read. *)

From Stdlib Require Import Ascii String.
From Stdlib Require Import DecimalN.
From stdpp Require Import base list numbers option sorting.

Export String.StringSyntax.

(** ** Scopes, tactics, hint databases *)

Declare Scope js_scope.
Delimit Scope js_scope with js.
Open Scope Z_scope.

Create HintDb js discriminated.
Create Rewrite HintDb js.

(** Case analysis on the innermost discriminee of a [match] in the goal. *)
Ltac break_goal :=
  match goal with
  | |- context [match ?x with _ => _ end] =>
      lazymatch x with
      | context [match _ with _ => _ end] => fail
      | _ => destruct x eqn:?
      end
  end.

(** The same on a hypothesis. *)
Ltac break_hyp H :=
  match type of H with
  | context [match ?x with _ => _ end] =>
      lazymatch x with
      | context [match _ with _ => _ end] => fail
      | _ => destruct x eqn:?
      end
  end.

(** Turn boolean hypotheses into propositions. *)
Ltac bool_to_prop :=
  repeat match goal with
  | H : andb _ _ = true |- _ => apply andb_true_iff in H; destruct H
  | H : orb _ _ = false |- _ => apply orb_false_iff in H; destruct H
  | H : negb _ = true |- _ => apply negb_true_iff in H
  | H : negb _ = false |- _ => apply negb_false_iff in H
  | H : bool_decide _ = true |- _ => apply bool_decide_eq_true_1 in H
  | H : bool_decide _ = false |- _ => apply bool_decide_eq_false_1 in H
  | H : (_ <? _) = true |- _ => apply Z.ltb_lt in H
  | H : (_ <? _) = false |- _ => apply Z.ltb_ge in H
  | H : (_ <=? _) = true |- _ => apply Z.leb_le in H
  | H : (_ <=? _) = false |- _ => apply Z.leb_gt in H
  | H : (_ =? _) = true |- _ => apply Z.eqb_eq in H
  | H : (_ =? _) = false |- _ => apply Z.eqb_neq in H
  end.

(** ** JavaScript strings: sequences of UTF-16 code units *)

Abbreviation jstr := (list N).

(** [u "..."] is the string literal with the given (UTF-8) text. *)
Fixpoint u (s : string) : jstr :=
  match s with
  | EmptyString => []
  | String a s1 =>
      let b := N_of_ascii a in
      if (b <? 128)%N then b :: u s1
      else match s1 with
      | EmptyString => []
      | String a1 s2 =>
          let b1 := N_of_ascii a1 in
          if (b <? 224)%N then ((b - 192) * 64 + (b1 - 128))%N :: u s2
          else match s2 with
          | EmptyString => []
          | String a2 s3 =>
              let b2 := N_of_ascii a2 in
              if (b <? 240)%N
              then ((b - 224) * 4096 + (b1 - 128) * 64 + (b2 - 128))%N :: u s3
              else match s3 with
              | EmptyString => []
              | String a3 s4 =>
                  let b3 := N_of_ascii a3 in
                  let cp := ((b - 240) * 262144 + (b1 - 128) * 4096
                             + (b2 - 128) * 64 + (b3 - 128) - 65536)%N in
                  (55296 + cp / 1024)%N :: (56320 + cp mod 1024)%N :: u s4
              end
          end
      end
  end.

Arguments u s%_string_scope : simpl never.

(** The same with single quotes standing for double ones. *)
Definition uq (s : string) : jstr := map (fun c => if (c =? 39)%N then 34%N else c) (u s).

Arguments uq s%_string_scope : simpl never.

(** Strict equality of strings, [===]. *)
Definition seqb (a b : jstr) : bool := bool_decide (a = b).

Lemma seqb_eq a b : seqb a b = true <-> a = b.
Proof. apply bool_decide_eq_true. Qed.

Lemma seqb_neq a b : seqb a b = false <-> a <> b.
Proof. apply bool_decide_eq_false. Qed.

Lemma seqb_refl a : seqb a a = true.
Proof. by apply seqb_eq. Qed.

(** A string is falsy exactly when it is empty. *)
Definition str_truthy (s : jstr) : bool :=
  match s with [] => false | _ => true end.

(** [a || b] on strings. *)
Definition str_or (a b : jstr) : jstr := if str_truthy a then a else b.

(** ECMAScript WhiteSpace and LineTerminator: what [trim] and [\s] accept. *)
Definition is_space (c : N) : bool :=
  (((9 <=? c) && (c <=? 13)) || (c =? 32) || (c =? 160) || (c =? 5760)
   || ((8192 <=? c) && (c <=? 8202)) || (c =? 8232) || (c =? 8233)
   || (c =? 8239) || (c =? 8287) || (c =? 12288) || (c =? 65279))%N.

Fixpoint trimStart (s : jstr) : jstr :=
  match s with
  | [] => []
  | c :: s' => if is_space c then trimStart s' else s
  end.

Definition trimEnd (s : jstr) : jstr := reverse (trimStart (reverse s)).

Definition trim (s : jstr) : jstr := trimEnd (trimStart s).

(** A string that [trim] leaves alone: no space at either end. *)
Definition trimmed (s : jstr) : Prop :=
  (forall c s', s = c :: s' -> is_space c = false) /\
  (forall c s', s = s' ++ [c] -> is_space c = false).

Lemma trimStart_suffix s : exists p, s = p ++ trimStart s /\ Forall (fun c => is_space c = true) p.
Proof.
  induction s as [|c s [p [E F]]]; simpl; [by exists []|].
  destruct (is_space c) eqn:Ec; [|by exists []].
  exists (c :: p). split; [simpl; congruence | by constructor].
Qed.

Lemma trimStart_head s c s' : trimStart s = c :: s' -> is_space c = false.
Proof.
  induction s as [|d s IH]; simpl; [done|].
  destruct (is_space d) eqn:Ed; [done|]. by intros [= -> _].
Qed.

Lemma trimStart_id s : (forall c s', s = c :: s' -> is_space c = false) -> trimStart s = s.
Proof. destruct s as [|c s]; [done|]. intros H. simpl. by rewrite (H c s eq_refl). Qed.

Lemma trimEnd_id s : (forall c s', s = s' ++ [c] -> is_space c = false) -> trimEnd s = s.
Proof.
  intros H. unfold trimEnd. rewrite trimStart_id; [apply reverse_involutive|].
  intros c s' E. apply (H c (reverse s')).
  by rewrite <- (reverse_involutive s), E, reverse_cons.
Qed.

Lemma trimEnd_prefix s : exists q, s = trimEnd s ++ q.
Proof.
  destruct (trimStart_suffix (reverse s)) as [p [E _]].
  exists (reverse p). unfold trimEnd.
  by rewrite <- reverse_app, <- E, reverse_involutive.
Qed.

Lemma trimmed_trim s : trimmed (trim s).
Proof.
  unfold trim. split.
  - intros c s' E. destruct (trimEnd_prefix (trimStart s)) as [q Eq].
    rewrite E in Eq. by apply (trimStart_head s c (s' ++ q)).
  - intros c s' E. unfold trimEnd in E.
    apply (f_equal reverse) in E. rewrite reverse_involutive, reverse_app in E.
    by apply trimStart_head in E.
Qed.

Lemma trim_trimmed s : trimmed s -> trim s = s.
Proof. intros [H1 H2]. unfold trim. rewrite trimStart_id; [|done]. by apply trimEnd_id. Qed.

Lemma trim_idemp s : trim (trim s) = trim s.
Proof. apply trim_trimmed, trimmed_trim. Qed.

Lemma trimmed_no_space s : Forall (fun c => is_space c = false) s -> trimmed s.
Proof.
  intros F. split; intros c s' ->.
  - by inversion F.
  - apply Forall_app in F as [_ F]. by inversion F.
Qed.

Lemma trimStart_subset s c : In c (trimStart s) -> In c s.
Proof.
  intros H. destruct (trimStart_suffix s) as [p [E _]]. rewrite E.
  apply in_app_iff. by right.
Qed.

Lemma trim_subset s c : In c (trim s) -> In c s.
Proof.
  intros H. apply trimStart_subset. destruct (trimEnd_prefix (trimStart s)) as [q E].
  rewrite E. apply in_app_iff. by left.
Qed.

#[export] Hint Rewrite trim_idemp seqb_refl : js.

(** ** Splitting and joining *)

(** [s.split(sep)] for a one-unit separator. *)
Fixpoint split (sep : N) (s : jstr) : list jstr :=
  match s with
  | [] => [[]]
  | c :: s' =>
      if (c =? sep)%N then [] :: split sep s'
      else match split sep s' with
           | [] => [[c]]
           | p :: ps => (c :: p) :: ps
           end
  end.

(** [l.join(sep)]. *)
Fixpoint join (sep : jstr) (l : list jstr) : jstr :=
  match l with
  | [] => []
  | [x] => x
  | x :: l' => x ++ sep ++ join sep l'
  end.

Lemma split_nonempty sep s : split sep s <> [].
Proof. destruct s as [|c s]; simpl; [done|]. destruct (c =? sep)%N; [done|]. by destruct (split sep s). Qed.

Lemma split_app_sep sep p s : ~ In sep p -> split sep (p ++ sep :: s) = p :: split sep s.
Proof.
  induction p as [|c p IH]; simpl; intros H.
  - by rewrite N.eqb_refl.
  - destruct (c =? sep)%N eqn:E; [apply N.eqb_eq in E; tauto|].
    rewrite IH; [done|tauto].
Qed.

Lemma split_single sep p : ~ In sep p -> split sep p = [p].
Proof.
  induction p as [|c p IH]; simpl; intros H; [done|].
  destruct (c =? sep)%N eqn:E; [apply N.eqb_eq in E; tauto|].
  rewrite IH; [done|tauto].
Qed.

Lemma split_join sep l :
  l <> [] -> Forall (fun p => ~ In sep p) l -> split sep (join [sep] l) = l.
Proof.
  intros Hne F. induction F as [|p l Hp F IH]; [done|].
  destruct l as [|q l]; [by apply split_single|].
  change (join [sep] (p :: q :: l)) with (p ++ sep :: join [sep] (q :: l)).
  rewrite split_app_sep; [|done]. by rewrite IH.
Qed.

Lemma split_no_sep sep s : Forall (fun p => ~ In sep p) (split sep s).
Proof.
  induction s as [|c s IH]; simpl; [by repeat constructor; intros []|].
  destruct (c =? sep)%N eqn:E.
  - constructor; [by intros []|done].
  - destruct (split sep s) as [|p ps]; constructor; try done.
    + intros [H|[]]. by rewrite H, N.eqb_refl in E.
    + inversion IH; subst. intros [H|H]; [by rewrite H, N.eqb_refl in E|done].
    + by inversion IH.
Qed.

(** ** Searching *)

(** [s.startsWith(p)]. *)
Fixpoint startsWith (s p : jstr) {struct p} : bool :=
  match p with
  | [] => true
  | d :: p' => match s with
               | c :: s' => (c =? d)%N && startsWith s' p'
               | [] => false
               end
  end.

(** [s.indexOf(p)]; [None] is the source's [-1]. *)
Fixpoint indexOf (s p : jstr) : option nat :=
  if startsWith s p then Some 0%nat
  else match s with
       | [] => None
       | _ :: s' => S <$> indexOf s' p
       end.

(** [s.indexOf(p, from)]. *)
Definition indexOfFrom (s p : jstr) (from : nat) : option nat :=
  (fun i => (from + i)%nat) <$> indexOf (drop from s) p.

(** [s.includes(p)]. *)
Definition includes (s p : jstr) : bool :=
  match indexOf s p with Some _ => true | None => false end.

(** [s.slice(a, b)] for nonnegative bounds. *)
Definition slice (a b : nat) (s : jstr) : jstr := take (b - a) (drop a s).

Lemma startsWith_app s p : startsWith s p = true <-> exists q, s = p ++ q.
Proof.
  revert s. induction p as [|d p IH]; intros s; simpl.
  - split; [by exists s | destruct s; done].
  - destruct s as [|c s]; simpl; [split; [done | by intros [q ?]]|].
    rewrite andb_true_iff, N.eqb_eq, IH. split.
    + intros [-> [q ->]]. by exists q.
    + intros [q [= -> ->]]. split; [done | by exists q].
Qed.

Lemma indexOf_bound s p i : indexOf s p = Some i -> (i + length p <= length s)%nat.
Proof.
  revert i. induction s as [|c s IH]; intros i; cbn -[startsWith].
  - destruct (startsWith [] p) eqn:E; [|done]. intros [= <-].
    apply startsWith_app in E as [q E]. by destruct p.
  - destruct (startsWith (c :: s) p) eqn:E.
    + intros [= <-]. apply startsWith_app in E as [q E]. apply (f_equal length) in E.
      rewrite length_app in E. simpl in *. lia.
    + destruct (indexOf s p) as [j|]; simpl; [|done]. intros [= <-].
      specialize (IH j eq_refl). lia.
Qed.

(** ** Decimal numerals *)

Fixpoint uint_str (d : Decimal.uint) : jstr :=
  match d with
  | Decimal.Nil => []
  | Decimal.D0 d => 48%N :: uint_str d | Decimal.D1 d => 49%N :: uint_str d
  | Decimal.D2 d => 50%N :: uint_str d | Decimal.D3 d => 51%N :: uint_str d
  | Decimal.D4 d => 52%N :: uint_str d | Decimal.D5 d => 53%N :: uint_str d
  | Decimal.D6 d => 54%N :: uint_str d | Decimal.D7 d => 55%N :: uint_str d
  | Decimal.D8 d => 56%N :: uint_str d | Decimal.D9 d => 57%N :: uint_str d
  end.

Definition is_digit (c : N) : bool := ((48 <=? c) && (c <=? 57))%N.

Fixpoint str_uint (s : jstr) : Decimal.uint :=
  match s with
  | [] => Decimal.Nil
  | c :: s' =>
      let d := str_uint s' in
      match (c - 48)%N with
      | 0%N => Decimal.D0 d | 1%N => Decimal.D1 d | 2%N => Decimal.D2 d
      | 3%N => Decimal.D3 d | 4%N => Decimal.D4 d | 5%N => Decimal.D5 d
      | 6%N => Decimal.D6 d | 7%N => Decimal.D7 d | 8%N => Decimal.D8 d
      | _ => Decimal.D9 d
      end
  end.

(** [String(n)] for a nonnegative integer. *)
Definition N_str (n : N) : jstr := uint_str (N.to_uint n).

(** [String(n)] for an integer. *)
Definition Z_str (z : Z) : jstr :=
  if z <? 0 then 45%N :: N_str (Z.to_N (- z)) else N_str (Z.to_N z).

(** [Number.parseInt(s, 10)] on a string of digits. *)
Definition parse_digits (s : jstr) : Z := Z.of_N (N.of_uint (str_uint s)).

(** The regular expression [^\d+$]. *)
Definition all_digits (s : jstr) : bool :=
  match s with [] => false | _ => forallb is_digit s end.

Lemma str_uint_str d : str_uint (uint_str d) = d.
Proof. induction d as [|d IH|d IH|d IH|d IH|d IH|d IH|d IH|d IH|d IH|d IH]; simpl; congruence. Qed.

Lemma uint_str_digits d : Forall (fun c => is_digit c = true) (uint_str d).
Proof. induction d; simpl; by constructor. Qed.

Lemma N_str_digits n : Forall (fun c => is_digit c = true) (N_str n).
Proof. apply uint_str_digits. Qed.

Lemma N_str_nonempty n : N_str n <> [].
Proof.
  intros E. assert (str_uint (N_str n) = Decimal.Nil) as E' by by rewrite E.
  unfold N_str in E'. rewrite str_uint_str in E'.
  pose proof (Unsigned.of_to n) as H. rewrite E' in H. cbn in H. subst n. by vm_compute in E'.
Qed.

Lemma Z_str_nonneg z : 0 <= z -> Z_str z = N_str (Z.to_N z).
Proof. intros H. unfold Z_str. destruct (Z.ltb_spec z 0); [lia|done]. Qed.

Lemma parse_digits_Z_str z : 0 <= z -> parse_digits (Z_str z) = z.
Proof.
  intros H. rewrite Z_str_nonneg by done. unfold parse_digits, N_str.
  rewrite str_uint_str, Unsigned.of_to. lia.
Qed.

Lemma all_digits_iff s : all_digits s = true <-> s <> [] /\ Forall (fun c => is_digit c = true) s.
Proof.
  unfold all_digits. destruct s as [|c s]; [naive_solver|].
  rewrite forallb_forall, List.Forall_forall. naive_solver.
Qed.

Lemma all_digits_Z_str z : 0 <= z -> all_digits (Z_str z) = true.
Proof.
  intros H. rewrite Z_str_nonneg by done. apply all_digits_iff.
  split; [apply N_str_nonempty | apply N_str_digits].
Qed.

Lemma digit_not_space c : is_digit c = true -> is_space c = false.
Proof.
  unfold is_digit, is_space. rewrite andb_true_iff, !N.leb_le. intros [H1 H2].
  repeat (apply orb_false_iff; split); try apply N.eqb_neq; try lia;
    apply andb_false_iff; rewrite !N.leb_gt; lia.
Qed.

Lemma trim_nonempty c s : is_space c = false -> trim (c :: s) <> [].
Proof.
  intros Hc. unfold trim. rewrite trimStart_id by (intros ? ? [= -> _]; done).
  unfold trimEnd. destruct (trimStart_suffix (reverse (c :: s))) as (p & Hp & Hs).
  intros H. assert (Hr : trimStart (reverse (c :: s)) = []).
  { rewrite <- (reverse_involutive (trimStart _)), H. done. }
  rewrite Hr, app_nil_r in Hp. rewrite <- Hp in Hs. rewrite List.Forall_forall in Hs.
  assert (Hin : In c (reverse (c :: s))).
  { apply list_elem_of_In, elem_of_reverse. by left. }
  apply Hs in Hin. congruence.
Qed.

(** Where a nonempty pattern is found first: what precedes it does not contain it. *)
Lemma indexOf_Some s p i : p <> [] -> indexOf s p = Some i ->
  exists a b, s = a ++ p ++ b /\ length a = i /\ includes a p = false.
Proof.
  intros Hp. revert i. induction s as [|c s IH]; intros i; cbn -[startsWith].
  - destruct (startsWith [] p) eqn:E; [|done]. apply startsWith_app in E as [q E]. by destruct p.
  - destruct (startsWith (c :: s) p) eqn:E.
    + intros [= <-]. apply startsWith_app in E as [q E]. exists [], q. split; [done|]. split; [done|].
      unfold includes. by destruct p.
    + destruct (indexOf s p) as [j|] eqn:F; simpl; [|done]. intros [= <-].
      destruct (IH j eq_refl) as (a & b & -> & <- & Ha). exists (c :: a), b. split; [done|].
      split; [done|]. unfold includes in *. cbn -[startsWith].
      replace (startsWith (c :: a) p) with false; [by destruct (indexOf a p)|].
      symmetry. apply not_true_iff_false. intros [q Hq]%startsWith_app.
      apply not_true_iff_false in E. apply E, startsWith_app. exists (q ++ p ++ b).
      change (c :: a ++ p ++ b) with ((c :: a) ++ p ++ b). by rewrite Hq, <- app_assoc.
Qed.

Lemma includes_None s p : indexOf s p = None <-> includes s p = false.
Proof. unfold includes. by destruct (indexOf s p). Qed.

Lemma join_nil_app a b : join [] (a ++ b) = join [] a ++ join [] b.
Proof.
  assert (H : forall l, join [] l = concat l).
  { induction l as [|x [|y l] IH]; [done|simpl; by rewrite app_nil_r|]. 
    change (join [] (x :: y :: l)) with (x ++ [] ++ join [] (y :: l)). by rewrite IH. }
  by rewrite !H, concat_app.
Qed.
