(* ===== verification/Collections.v ===== *)
(** * JavaScript collections

    [Map] and [Set] iterate in insertion order, so they are lists here: a map
    an association list without duplicate keys, a set a list without
    duplicates. [Array.prototype.sort] is stable; it is insertion sort on the
    comparator. *)

From stdpp Require Import base list numbers option sorting.
From S2P Require Import Prelude.

(** ** Map *)

Section Map.
Context {K V : Type} `{EqDecision K}.
Implicit Types (m : list (K * V)) (k : K) (v : V).

(** [m.get(k)]. *)
Fixpoint map_get m k : option V :=
  match m with
  | [] => None
  | (k', v) :: m' => if bool_decide (k' = k) then Some v else map_get m' k
  end.

(** [m.has(k)]. *)
Definition map_has m k : bool :=
  match map_get m k with Some _ => true | None => false end.

(** [m.set(k, v)]: in place when the key is there, at the end otherwise. *)
Fixpoint map_set m k v : list (K * V) :=
  match m with
  | [] => [(k, v)]
  | (k', v') :: m' =>
      if bool_decide (k' = k) then (k, v) :: m' else (k', v') :: map_set m' k v
  end.

(** [m.delete(k)]. *)
Fixpoint map_delete m k : list (K * V) :=
  match m with
  | [] => []
  | (k', v') :: m' => if bool_decide (k' = k) then m' else (k', v') :: map_delete m' k
  end.

Definition map_keys m : list K := m.*1.
Definition map_values m : list V := m.*2.

(** A map has no duplicate key. *)
Definition map_ok m : Prop := NoDup (map_keys m).

Lemma map_get_set_eq m k v : map_get (map_set m k v) k = Some v.
Proof.
  induction m as [|[k' v'] m IH]; simpl.
  - by rewrite bool_decide_eq_true_2.
  - destruct (decide (k' = k)) as [->|Hk].
    + rewrite !(bool_decide_eq_true_2 (k = k)) by done. simpl.
      by rewrite (bool_decide_eq_true_2 (k = k)) by done.
    + rewrite (bool_decide_eq_false_2 (k' = k)) by done. simpl.
      by rewrite (bool_decide_eq_false_2 (k' = k)) by done.
Qed.

Lemma map_get_set_ne m k k' v : k <> k' -> map_get (map_set m k v) k' = map_get m k'.
Proof.
  intros Hne. induction m as [|[k1 v1] m IH]; simpl.
  - by rewrite bool_decide_eq_false_2.
  - destruct (decide (k1 = k)) as [->|Hk].
    + rewrite bool_decide_eq_true_2 by done. simpl. by rewrite !bool_decide_eq_false_2.
    + rewrite (bool_decide_eq_false_2 (k1 = k)) by done. simpl. by rewrite IH.
Qed.

Lemma map_get_set m k k' v :
  map_get (map_set m k v) k' = if bool_decide (k = k') then Some v else map_get m k'.
Proof.
  case_bool_decide as E; [subst; apply map_get_set_eq | by apply map_get_set_ne].
Qed.

Lemma map_get_Some_elem m k v : map_get m k = Some v -> (k, v) ∈ m.
Proof.
  induction m as [|[k' v'] m IH]; simpl; [done|].
  case_bool_decide as E; [intros [= ->]; subst; left | intros H; right; auto].
Qed.

Lemma map_get_None m k : map_get m k = None <-> k ∉ map_keys m.
Proof.
  unfold map_keys. induction m as [|[k' v'] m IH]; simpl; [split; [intros _; apply not_elem_of_nil | done]|].
  rewrite not_elem_of_cons, <- IH. case_bool_decide; naive_solver.
Qed.

Lemma map_has_keys m k : map_has m k = true <-> k ∈ map_keys m.
Proof.
  unfold map_has. destruct (map_get m k) as [v|] eqn:E.
  - split; [intros _|done]. apply map_get_Some_elem in E.
    apply list_elem_of_fmap. by exists (k, v).
  - apply map_get_None in E. naive_solver.
Qed.

Lemma map_get_elem m k v : map_ok m -> (k, v) ∈ m -> map_get m k = Some v.
Proof.
  unfold map_ok, map_keys. induction m as [|[k' v'] m IH]; simpl; intros Hok Hin; [by apply elem_of_nil in Hin|].
  apply NoDup_cons in Hok as [Hni Hok]. apply elem_of_cons in Hin as [[= <- <-]|Hin].
  - by rewrite bool_decide_eq_true_2.
  - rewrite bool_decide_eq_false_2; [by apply IH|]. intros ->. apply Hni.
    apply list_elem_of_fmap. by exists (k, v).
Qed.

Lemma map_keys_set m k v :
  map_keys (map_set m k v) = if map_has m k then map_keys m else map_keys m ++ [k].
Proof.
  unfold map_has, map_keys. induction m as [|[k' v'] m IH]; simpl; [done|].
  destruct (decide (k' = k)) as [->|Hk].
  - by rewrite (bool_decide_eq_true_2 (k = k)) by done.
  - rewrite (bool_decide_eq_false_2 (k' = k)) by done.
    rewrite fmap_cons, IH. simpl. by destruct (map_get m k).
Qed.

Lemma map_set_ok m k v : map_ok m -> map_ok (map_set m k v).
Proof.
  unfold map_ok. rewrite map_keys_set. destruct (map_has m k) eqn:E; [done|].
  assert (k ∉ map_keys m) as Hk by (rewrite <- map_has_keys, E; done). intros H. apply NoDup_app. split; [done|]. split; [|apply NoDup_singleton].
  intros x Hx Hx'. apply list_elem_of_singleton in Hx'. by subst.
Qed.

Lemma map_keys_set_elem m k v x : x ∈ map_keys (map_set m k v) <-> x = k \/ x ∈ map_keys m.
Proof.
  rewrite map_keys_set. destruct (map_has m k) eqn:E; [apply map_has_keys in E; naive_solver|].
  rewrite elem_of_app, list_elem_of_singleton. naive_solver.
Qed.
End Map.

#[export] Hint Resolve map_set_ok : js.

(** ** Set *)

Section Set_.
Context {A : Type} `{EqDecision A}.
Implicit Types (s l : list A) (x : A).

Definition set_has s x : bool := bool_decide (x ∈ s).

(** [s.add(x)]. *)
Definition set_add s x : list A := if set_has s x then s else s ++ [x].

(** [new Set(l)], and so [Array.from(new Set(l))]. *)
Definition new_set l : list A := fold_left set_add l [].

Lemma set_has_true s x : set_has s x = true <-> x ∈ s.
Proof. apply bool_decide_eq_true. Qed.

Lemma set_has_false s x : set_has s x = false <-> x ∉ s.
Proof. apply bool_decide_eq_false. Qed.

Lemma elem_of_set_add s x y : y ∈ set_add s x <-> y = x \/ y ∈ s.
Proof.
  unfold set_add. destruct (set_has s x) eqn:E.
  - apply set_has_true in E. naive_solver.
  - rewrite elem_of_app, list_elem_of_singleton. naive_solver.
Qed.

Lemma NoDup_set_add s x : NoDup s -> NoDup (set_add s x).
Proof.
  unfold set_add. destruct (set_has s x) eqn:E; [done|]. apply set_has_false in E.
  intros H. apply NoDup_app. split; [done|]. split; [|apply NoDup_singleton].
  intros y Hy Hy'. apply list_elem_of_singleton in Hy'. by subst.
Qed.

Lemma fold_set_add_elem l s y : y ∈ fold_left set_add l s <-> y ∈ s \/ y ∈ l.
Proof.
  revert s. induction l as [|x l IH]; intros s; simpl.
  - rewrite elem_of_nil. tauto.
  - rewrite IH, elem_of_set_add, elem_of_cons. tauto.
Qed.

Lemma fold_set_add_NoDup l s : NoDup s -> NoDup (fold_left set_add l s).
Proof. revert s. induction l; intros s H; simpl; [done|]. by apply IHl, NoDup_set_add. Qed.

Lemma elem_of_new_set l y : y ∈ new_set l <-> y ∈ l.
Proof. unfold new_set. rewrite fold_set_add_elem, elem_of_nil. tauto. Qed.

Lemma NoDup_new_set l : NoDup (new_set l).
Proof. apply fold_set_add_NoDup, NoDup_nil_2. Qed.

Lemma fold_set_add_app l s : NoDup (s ++ l) -> fold_left set_add l s = s ++ l.
Proof.
  revert s. induction l as [|x l IH]; intros s H; simpl; [by rewrite app_nil_r|].
  assert (x ∉ s) as Hx.
  { intros Hin. apply NoDup_app in H as (_ & H & _). apply (H x Hin). left. }
  unfold set_add at 2. apply set_has_false in Hx. rewrite Hx.
  rewrite IH; by rewrite <- app_assoc.
Qed.

Lemma new_set_NoDup l : NoDup l -> new_set l = l.
Proof. intros H. unfold new_set. by rewrite fold_set_add_app. Qed.

Lemma new_set_idemp l : new_set (new_set l) = new_set l.
Proof. apply new_set_NoDup, NoDup_new_set. Qed.
End Set_.

#[export] Hint Resolve NoDup_new_set NoDup_set_add : js.

(** ** Array.prototype.sort *)

Section Sort.
Context {A : Type} (cmp : A -> A -> Z).

Fixpoint sort_insert (x : A) (l : list A) : list A :=
  match l with
  | [] => [x]
  | y :: l' => if cmp x y <=? 0 then x :: l else y :: sort_insert x l'
  end.

Definition array_sort (l : list A) : list A := foldr sort_insert [] l.

Lemma sort_insert_perm x l : sort_insert x l ≡ₚ x :: l.
Proof.
  induction l as [|y l IH]; simpl; [done|]. destruct (_ <=? _); [done|].
  rewrite IH. apply Permutation_swap.
Qed.

Lemma array_sort_perm l : array_sort l ≡ₚ l.
Proof. induction l as [|x l IH]; simpl; [done|]. by rewrite sort_insert_perm, IH. Qed.

(** With a comparator that never calls two elements "greater" both ways, the
    result is sorted. *)
Context (Htot : forall x y, cmp x y <= 0 \/ cmp y x <= 0).

Lemma sort_insert_sorted x l :
  Sorted (fun x y => cmp x y <= 0) l -> Sorted (fun x y => cmp x y <= 0) (sort_insert x l).
Proof.
  induction l as [|y l IH]; simpl; intros Hs; [by repeat constructor|].
  destruct (Z.leb_spec (cmp x y) 0); [constructor; [done|by constructor]|].
  inversion Hs as [|? ? Hs' Hd]; subst. constructor; [by apply IH|].
  destruct l as [|z l]; simpl in *.
  - constructor. destruct (Htot x y); lia.
  - destruct (Z.leb_spec (cmp x z) 0); constructor.
    + destruct (Htot x y); lia.
    + by inversion Hd.
Qed.

Lemma array_sort_sorted l : Sorted (fun x y => cmp x y <= 0) (array_sort l).
Proof. induction l; simpl; [constructor|]. by apply sort_insert_sorted. Qed.
End Sort.

Lemma sort_insert_id {A} (cmp : A -> A -> Z) x l :
  HdRel (fun x y => cmp x y <= 0) x l -> sort_insert cmp x l = x :: l.
Proof.
  intros H. destruct l as [|y l]; simpl; [done|]. inversion H; subst.
  destruct (Z.leb_spec (cmp x y) 0); [done|lia].
Qed.

Lemma array_sort_id {A} (cmp : A -> A -> Z) l :
  Sorted (fun x y => cmp x y <= 0) l -> array_sort cmp l = l.
Proof.
  induction l as [|x l IH]; intros H; simpl; [done|].
  inversion H; subst. rewrite IH by done. by apply sort_insert_id.
Qed.

Lemma map_set_fresh {K V} `{EqDecision K} (m : list (K * V)) k v :
  k ∉ map_keys m -> map_set m k v = m ++ [(k, v)].
Proof.
  unfold map_keys. induction m as [|[k' v'] m IH]; simpl; [done|].
  rewrite not_elem_of_cons. intros [Hne Hni].
  rewrite bool_decide_eq_false_2 by done. by rewrite IH.
Qed.

Lemma map_get_delete {K V} `{EqDecision K} (m : list (K * V)) k k' : map_ok m ->
  map_get (map_delete m k) k' = if bool_decide (k = k') then None else map_get m k'.
Proof.
  unfold map_ok, map_keys. induction m as [|[k1 v1] m IH]; simpl; intros Hok; [by case_bool_decide|].
  apply NoDup_cons in Hok as [Hni Hok].
  destruct (decide (k1 = k)) as [->|Hne].
  - rewrite (bool_decide_eq_true_2 (k = k)) by done. case_bool_decide; [|done].
    subst. by apply map_get_None.
  - rewrite (bool_decide_eq_false_2 (k1 = k)) by done. simpl. rewrite IH by done.
    case_bool_decide as E1; [subst; by rewrite bool_decide_eq_false_2|done].
Qed.

Lemma map_delete_ok {K V} `{EqDecision K} (m : list (K * V)) k : map_ok m -> map_ok (map_delete m k).
Proof.
  unfold map_ok, map_keys. induction m as [|[k1 v1] m IH]; simpl; intros Hok; [done|].
  apply NoDup_cons in Hok as [Hni Hok]. destruct (bool_decide (k1 = k)); [done|].
  apply NoDup_cons. split; [|by apply IH]. intros Hin. apply Hni. clear -Hin.
  induction m as [|[k2 v2] m IHm]; simpl in *; [done|]. destruct (bool_decide (k2 = k)); [by right|].
  apply elem_of_cons in Hin as [->|Hin]; [left|right; auto].
Qed.

Lemma elem_of_map_delete {K V} `{EqDecision K} (m : list (K * V)) k e : e ∈ map_delete m k -> e ∈ m.
Proof.
  induction m as [|[k1 v1] m IH]; simpl; [done|]. destruct (bool_decide (k1 = k)); [by right|].
  intros [->|H]%elem_of_cons; [left|right; auto].
Qed.

Lemma map_set_same {K V} `{EqDecision K} (m : list (K * V)) k v : map_get m k = Some v -> map_set m k v = m.
Proof.
  induction m as [|[k1 v1] m IH]; simpl; [done|]. case_bool_decide; [by intros [= ->]; subst|].
  intros Hg. by rewrite IH.
Qed.

(** The default order of [Array.prototype.sort] on strings: by UTF-16 unit. *)
Fixpoint str_cmp (a b : jstr) : Z :=
  match a, b with
  | [], [] => 0
  | [], _ => -1
  | _, [] => 1
  | x :: a, y :: b => if (x <? y)%N then -1 else if (y <? x)%N then 1 else str_cmp a b
  end.

Lemma str_cmp_antisym a b : str_cmp b a = - str_cmp a b.
Proof.
  revert b. induction a as [|x a IH]; intros [|y b]; simpl; try done.
  destruct (N.ltb_spec x y), (N.ltb_spec y x); try done; lia.
Qed.

Lemma str_cmp_eq a b : str_cmp a b = 0 -> a = b.
Proof.
  revert b. induction a as [|x a IH]; intros [|y b]; simpl; try done.
  destruct (N.ltb_spec x y), (N.ltb_spec y x); try done.
  intros ->%IH. f_equal. lia.
Qed.

Lemma str_cmp_total a b : str_cmp a b <= 0 \/ str_cmp b a <= 0.
Proof. rewrite (str_cmp_antisym a b). lia. Qed.

(** [l.sort()] on an array of strings. *)
Definition sort_strings (l : list jstr) : list jstr := array_sort str_cmp l.

Lemma sort_strings_sorted l : Sorted (fun a b => str_cmp a b <= 0) (sort_strings l).
Proof. apply array_sort_sorted, str_cmp_total. Qed.

Lemma sort_strings_perm l : sort_strings l ≡ₚ l.
Proof. apply array_sort_perm. Qed.

Lemma str_cmp_trans a b c : str_cmp a b <= 0 -> str_cmp b c <= 0 -> str_cmp a c <= 0.
Proof.
  revert b c. induction a as [|x a IH]; intros [|y b] [|z c]; simpl; try lia.
  destruct (N.ltb_spec x y), (N.ltb_spec y x), (N.ltb_spec y z), (N.ltb_spec z y),
    (N.ltb_spec x z), (N.ltb_spec z x); try lia. apply IH.
Qed.

Lemma Sorted_filter {A} (R : A -> A -> Prop) (f : A -> bool) l :
  Transitive R -> Sorted R l -> Sorted R (List.filter f l).
Proof.
  intros HT Hs. apply StronglySorted_Sorted. apply Sorted_StronglySorted in Hs; [|done].
  induction Hs as [|x l Hs IH F]; simpl; [constructor|]. destruct (f x); [|done].
  constructor; [done|]. rewrite List.Forall_forall in *. intros y [Hy _]%filter_In. auto.
Qed.

(** ** Sums *)

Fixpoint zsum (l : list Z) : Z := match l with [] => 0 | x :: l => x + zsum l end.

Lemma zsum_app a b : zsum (a ++ b) = zsum a + zsum b.
Proof. induction a; simpl; lia. Qed.

#[export] Instance zsum_perm : Proper (Permutation ==> eq) zsum.
Proof. intros a b H. induction H; simpl; lia. Qed.

Lemma zsum_concat ls : zsum (concat ls) = zsum (map zsum ls).
Proof. induction ls as [|l ls IH]; simpl; [done|]. by rewrite zsum_app, IH. Qed.

Lemma zsum_fold_left {A} (f : A -> Z) l z : fold_left (fun s x => s + f x) l z = z + zsum (map f l).
Proof. revert z. induction l as [|x l IH]; intros z; simpl; [lia|]. rewrite IH. lia. Qed.

Lemma zsum_filter {A} (f : A -> Z) (p : A -> bool) l :
  zsum (map f (List.filter p l)) = zsum (map (fun x => if p x then f x else 0) l).
Proof. induction l as [|x l IH]; simpl; [done|]. destruct (p x); simpl; lia. Qed.

Lemma zsum_ext {A} (f g : A -> Z) l : (forall x, x ∈ l -> f x = g x) -> zsum (map f l) = zsum (map g l).
Proof.
  induction l as [|x l IH]; intros H; simpl; [done|].
  rewrite (H x) by (by left). rewrite IH; [done|]. intros y Hy. apply H. by right.
Qed.

Lemma elem_of_map_set {K V} `{EqDecision K} (m : list (K * V)) k v k' v' :
  (k', v') ∈ map_set m k v -> k' = k /\ v' = v \/ (k', v') ∈ m.
Proof.
  induction m as [|[k0 v0] m IH]; simpl.
  - intros H%list_elem_of_singleton. left. by simplify_eq.
  - case_bool_decide; rewrite !elem_of_cons; naive_solver.
Qed.

(** ** Grouping loops

    The loops that look a key up in a map, update what is there (or a fresh
    entry) and store it back. *)
Section GroupBy.
Context {E K V : Type} `{EqDecision K} (key : E -> K) (upd : E -> option V -> V).

Definition group (m : list (K * V)) (es : list E) : list (K * V) :=
  fold_left (fun m e => map_set m (key e) (upd e (map_get m (key e)))) es m.

Lemma group_ok es m : map_ok m -> map_ok (group m es).
Proof. revert m. induction es; simpl; auto with js. Qed.

Lemma group_keys es m k :
  k ∈ map_keys (group m es) <-> k ∈ map_keys m \/ exists e, e ∈ es /\ key e = k.
Proof.
  revert m. induction es as [|e es IH]; intros m; simpl.
  - split; [by left|]. intros [H|(e & H & _)]; [done|]. by apply not_elem_of_nil in H.
  - rewrite IH, map_keys_set_elem. setoid_rewrite elem_of_cons. naive_solver.
Qed.

(** What holds of every fresh entry and is kept by updates holds of the result. *)
Lemma group_inv (P : K -> V -> Prop) es m :
  (forall k v, (k, v) ∈ m -> P k v) ->
  (forall e, e ∈ es -> P (key e) (upd e None)) ->
  (forall e v, e ∈ es -> P (key e) v -> P (key e) (upd e (Some v))) ->
  forall k v, (k, v) ∈ group m es -> P k v.
Proof.
  revert m. induction es as [|e es IH]; intros m Hm Hn Hs; simpl; [done|].
  apply IH.
  - intros k v Hkv. apply elem_of_map_set in Hkv as [[-> ->]|Hkv]; [|by apply Hm].
    destruct (map_get m (key e)) as [v'|] eqn:G.
    + apply Hs; [by left|]. apply Hm. by apply map_get_Some_elem.
    + apply Hn. by left.
  - intros e' He'. apply Hn. by right.
  - intros e' v He'. apply Hs. by right.
Qed.

Definition map_sum (f : K -> V -> Z) (m : list (K * V)) : Z := zsum (map (fun p => f p.1 p.2) m).

Lemma map_sum_set f m k v :
  map_sum f (map_set m k v) = map_sum f m + f k v - default 0 (f k <$> map_get m k).
Proof.
  unfold map_sum. induction m as [|[k' v'] m IH]; simpl; [lia|].
  case_bool_decide; subst; simpl; [lia|]. rewrite IH. lia.
Qed.

(** Where an update adds a weight, the sum of the result is the sum of the
    weights. *)
Lemma group_sum (f : K -> V -> Z) (w : E -> Z) es m :
  (forall e o, e ∈ es -> f (key e) (upd e o) = default 0 (f (key e) <$> o) + w e) ->
  map_sum f (group m es) = map_sum f m + zsum (map w es).
Proof.
  revert m. induction es as [|e es IH]; intros m H; simpl; [lia|].
  rewrite IH by (intros; apply H; by right). rewrite map_sum_set, H by (by left). lia.
Qed.
End GroupBy.

(** ** Sizes *)

Lemma NoDup_subset_length {A} (l k : list A) : NoDup l -> (forall x, x ∈ l -> x ∈ k) ->
  (length l <= length k)%nat.
Proof.
  intros N H. apply NoDup_incl_length; [by apply NoDup_ListNoDup|].
  intros x Hx. apply list_elem_of_In, H. by apply list_elem_of_In.
Qed.

Lemma new_set_length {A} `{EqDecision A} (l : list A) : (length (new_set l) <= length l)%nat.
Proof. apply NoDup_subset_length; [apply NoDup_new_set|]. intros x. apply elem_of_new_set. Qed.

Lemma map_get_map {K V W} `{EqDecision K} (F : V -> W) (m : list (K * V)) k :
  map_get (map (fun '(k, v) => (k, F v)) m) k = F <$> map_get m k.
Proof.
  induction m as [|[k' v'] m IH]; simpl; [done|]. by case_bool_decide.
Qed.

Lemma NoDup_map_filter {A B} (f : A -> B) (p : A -> bool) l :
  NoDup (map f l) -> NoDup (map f (List.filter p l)).
Proof.
  induction l as [|x l IH]; intros N; [constructor|].
  cbn [map List.filter] in *. apply NoDup_cons in N as [Hni N]. destruct (p x); [|by apply IH].
  constructor; [|by apply IH]. intros (y & Hy & Hin)%list_elem_of_fmap.
  apply Hni, list_elem_of_fmap. exists y. split; [done|].
  apply list_elem_of_In in Hin. apply filter_In in Hin as [? _]. by apply list_elem_of_In.
Qed.

Lemma group_snoc {E K V} `{EqDecision K} (key : E -> K) (upd : E -> option V -> V) m es e :
  group key upd m (es ++ [e]) =
  map_set (group key upd m es) (key e) (upd e (map_get (group key upd m es) (key e))).
Proof. unfold group. by rewrite fold_left_app. Qed.

(** Loops that collect a set of values per key. *)
Lemma group_sets {E K A} `{EqDecision K, EqDecision A} (key : E -> K) (val : E -> A) es k :
  match map_get (group key (fun e o => set_add (default [] o) (val e)) [] es) k with
  | Some ids => (exists e, e ∈ es /\ key e = k)
                /\ forall x, x ∈ ids <-> exists e, e ∈ es /\ key e = k /\ val e = x
  | None => ~ exists e, e ∈ es /\ key e = k
  end.
Proof.
  induction es as [|e es IH] using rev_ind.
  - cbn. intros (e & He & _). by apply not_elem_of_nil in He.
  - assert (Hin : forall x, x ∈ es ++ [e] <-> x ∈ es \/ x = e).
    { intros x. by rewrite elem_of_app, list_elem_of_singleton. }
    rewrite group_snoc, map_get_set. case_bool_decide as Hk; [subst k; split|].
    + exists e. split; [|done]. apply Hin. by right.
    + intros x. rewrite elem_of_set_add. setoid_rewrite Hin.
      destruct (map_get _ (key e)) as [ids|]; cbn [default from_option].
      * destruct IH as [_ IH]. unfold id. rewrite IH. naive_solver.
      * rewrite elem_of_nil. naive_solver.
    + destruct (map_get _ k) as [ids|]; [destruct IH as [IH1 IH2]; split|]; setoid_rewrite Hin;
        naive_solver.
Qed.

Lemma fold_left_filter {A B} (f : B -> A -> B) (p : A -> bool) l b :
  fold_left (fun b x => if p x then f b x else b) l b = fold_left f (List.filter p l) b.
Proof. revert b. induction l as [|x l IH]; intros b; simpl; [done|]. by destruct (p x). Qed.

(** Sorting commutes with a map the comparison does not see. *)
Lemma array_sort_map {A B} (f : A -> B) (cmp : A -> A -> Z) (cmp' : B -> B -> Z) l :
  (forall a b, cmp a b = cmp' (f a) (f b)) ->
  map f (array_sort cmp l) = array_sort cmp' (map f l).
Proof.
  intros H. induction l as [|x l IH]; simpl; [done|]. rewrite <- IH.
  generalize (array_sort cmp l). intros s. induction s as [|y s IHs]; simpl; [done|].
  rewrite H. destruct (_ <=? 0); simpl; [done|]. by rewrite IHs.
Qed.

Lemma filter_all {A} (f : A -> bool) l : Forall (fun x => f x = true) l -> List.filter f l = l.
Proof. induction 1 as [|x l Hx _ IH]; simpl; [done|]. by rewrite Hx, IH. Qed.
