(* ===== verification/JsNumber.v ===== *)
(** * JavaScript numbers

    A [number] is an IEEE-754 binary64 value: [spec_float] at precision 53 and
    exponent bound 1024, with the operations the source uses (comparison,
    [Number.isInteger], [Number.isFinite], decimal input and output). Counters,
    timestamps and codes that the source keeps as integers far below 2^53, where
    double arithmetic is exact, are plain [Z] in the component files. *)

From Stdlib Require Import ZArith SpecFloat.
From stdpp Require Import base numbers option list sorting.
From S2P Require Import Prelude.

Abbreviation num := spec_float.

Definition prec : Z := 53.
Definition emax : Z := 1024.

(** The double nearest to an integer. *)
Definition num_of_Z (z : Z) : num := binary_normalize prec emax z 0 false.

Definition num_eqb (a b : num) : bool := SFeqb a b.
Definition num_ltb (a b : num) : bool := SFltb a b.
Definition num_leb (a b : num) : bool := SFleb a b.
Definition num_add (a b : num) : num := SFadd prec emax a b.
Definition num_sub (a b : num) : num := SFsub prec emax a b.

(** [Number.isFinite]. *)
Definition isFinite (n : num) : bool :=
  match n with S754_zero _ | S754_finite _ _ _ => true | _ => false end.

(** [Number.isInteger]. *)
Definition isInteger (n : num) : bool :=
  match n with
  | S754_zero _ => true
  | S754_finite _ m e => (0 <=? e) || (Z.pos m mod 2 ^ (- e) =? 0)
  | _ => false
  end.

(** The integer part of a finite number, toward zero. *)
Definition num_trunc (n : num) : Z :=
  match n with
  | S754_finite s m e =>
      let a := if 0 <=? e then Z.pos m * 2 ^ e else Z.pos m / 2 ^ (- e) in
      if s then - a else a
  | _ => 0
  end.

Definition num_truthy (n : num) : bool :=
  match n with S754_zero _ | S754_nan => false | _ => true end.

(** The double nearest to [(-1)^neg * m * 10^e]: [Number("...")] and JSON
    numerals. The quotient keeps at least 64 bits and a sticky bit, so one
    rounding to 53 bits is the correct one. *)
Definition dec_to_num (neg : bool) (m : N) (e : Z) : num :=
  if (m =? 0)%N then S754_zero neg
  else if 309 <? e then S754_infinity neg
  else if Z.log2 (Z.of_N m) + 4 * e <? -4500 then S754_zero neg
  else
    let sgn z := if neg then - z else z in
    if 0 <=? e then binary_normalize prec emax (sgn (Z.of_N m * 10 ^ e)) 0 neg
    else
      let d := 10 ^ (- e) in
      let k := 64 + Z.log2 d in
      let x := Z.of_N m * 2 ^ k in
      let q := 2 * (x / d) + (if x mod d =? 0 then 0 else 1) in
      binary_normalize prec emax (sgn q) (- (k + 1)) neg.

(** ** Number to string *)

(** [x = n/d] rounded to an integer, ties to even. *)
Definition round_div (n d : Z) : Z :=
  let q := n / d in
  let r := 2 * (n mod d) in
  if r <? d then q else if d <? r then q + 1 else if Z.even q then q else q + 1.

(** The exact value of a positive finite double as a fraction. *)
Definition frac (m : positive) (e : Z) : Z * Z :=
  if 0 <=? e then (Z.pos m * 2 ^ e, 1) else (Z.pos m, 2 ^ (- e)).

(** The least [p] from the estimate on with [x < 10^p]. *)
Fixpoint dec_exp (fuel : nat) (n d p : Z) : Z :=
  match fuel with
  | O => p
  | S f =>
      let below := if 0 <=? p then n <? 10 ^ p * d else n * 10 ^ (- p) <? d in
      if below then p else dec_exp f n d (p + 1)
  end.

(** The shortest digits that read back as the same double, with the position
    of the decimal point. *)
Fixpoint shortest (fuel : nat) (digits : Z) (m : positive) (e p : Z) : Z * Z :=
  let '(n, d) := frac m e in
  let s := digits - p in
  let r := if 0 <=? s then round_div (n * 10 ^ s) d else round_div n (d * 10 ^ (- s)) in
  let '(r, p') := if r =? 10 ^ digits then (r / 10, p + 1) else (r, p) in
  match fuel with
  | O => (r, p')
  | S f =>
      if num_eqb (dec_to_num false (Z.to_N r) (p' - digits)) (S754_finite false m e)
      then (r, p') else shortest f (digits + 1) m e p
  end.

(** Number::toString. *)
Definition num_str_pos (m : positive) (e : Z) : jstr :=
  let '(n, d) := frac m e in
  let p0 := (Z.log2 n - Z.log2 d) * 30103 / 100000 - 1 in
  let p := dec_exp 8 n d p0 in
  let '(r, p) := shortest 17 1 m e p in
  let ds := Z_str r in
  let k := Z.of_nat (length ds) in
  if (k <=? p) && (p <=? 21) then ds ++ repeat 48%N (Z.to_nat (p - k))
  else if (0 <? p) && (p <=? 21) then take (Z.to_nat p) ds ++ u "." ++ drop (Z.to_nat p) ds
  else if (-6 <? p) && (p <=? 0) then u "0." ++ repeat 48%N (Z.to_nat (- p)) ++ ds
  else
    let ex := (if 0 <=? p - 1 then u "e+" else u "e-") ++ Z_str (Z.abs (p - 1)) in
    match ds with
    | [c] => c :: ex
    | c :: ds' => c :: u "." ++ ds' ++ ex
    | [] => ex
    end.

Definition num_str (n : num) : jstr :=
  match n with
  | S754_nan => u "NaN"
  | S754_zero _ => u "0"
  | S754_infinity s => if s then u "-Infinity" else u "Infinity"
  | S754_finite s m e => (if s then u "-" else []) ++ num_str_pos m e
  end.

Example num_str_ex :
  map (fun p => num_str (dec_to_num false (fst p) (snd p)))
    [(1%N, -1); (123456%N, -3); (5%N, -324); (1%N, 21); (1%N, 20); (15%N, -8); (0%N, 0);
     (9007199254740993%N, 0); (3%N, -1); (30000000000000004%N, -17)] =
  [u "0.1"; u "123.456"; u "5e-324"; u "1e+21"; u "100000000000000000000"; u "1.5e-7"; u "0";
   u "9007199254740992"; u "0.3"; u "0.30000000000000004"].
Proof. vm_compute. reflexivity. Qed.

(** The integers the theorems handle as [Z] are exact as doubles. *)
Example num_of_Z_exact :
  forallb (fun z => isInteger (num_of_Z z) && (num_trunc (num_of_Z z) =? z))
    [0; 1; -1; 100; 599; 1700000000; 9007199254740991; -9007199254740991] = true.
Proof. vm_compute. reflexivity. Qed.

Definition num_mul (a b : num) : num := SFmul prec emax a b.
Definition num_div (a b : num) : num := SFdiv prec emax a b.

(** [n.toFixed(f)]: the nearest decimal with [f] fractional digits, the larger
    of two equally near. *)
Definition toFixed (f : nat) (n : num) : jstr :=
  match n with
  | S754_finite s m e =>
      let '(p, q) := frac m e in
      if 10 ^ 21 * q <=? p then num_str n
      else
        let r := (2 * p * 10 ^ Z.of_nat f + q) / (2 * q) in
        let ds := Z_str r in
        let ds := repeat 48%N (f + 1 - length ds) ++ ds in
        let k := (length ds - f)%nat in
        (if s then u "-" else [])
        ++ match f with O => ds | _ => take k ds ++ u "." ++ drop k ds end
  | S754_zero _ => match f with O => u "0" | _ => u "0." ++ repeat 48%N f end
  | _ => num_str n
  end.

Example toFixed_ex :
  map (toFixed 2) [dec_to_num false 34 (-2); dec_to_num false 1005 (-3); dec_to_num false 12 0;
    dec_to_num true 5 (-3); dec_to_num false 125 (-3)] =
  [u "0.34"; u "1.00"; u "12.00"; u "-0.01"; u "0.13"].
Proof. vm_compute. reflexivity. Qed.
