(* ===== verification/JsValue.v ===== *)
(** * JavaScript values of type [unknown]

    What crosses a trust boundary (HTTP bodies, parsed JSON, storage) is a
    [jsval]. An object is its own enumerable string-keyed properties in creation
    order; members inherited from a prototype read as [undefined]. *)

From Stdlib Require Import ZArith SpecFloat.
From stdpp Require Import base numbers option list sorting.
From S2P Require Import Prelude Collections JsNumber.

Inductive jsval :=
| JUndef
| JNull
| JBool (b : bool)
| JNum (n : num)
| JStr (s : jstr)
| JArr (l : list jsval)
| JObj (ps : list (jstr * jsval)).

Section jsval_induction.
Variable P : jsval -> Prop.
Hypothesis Hundef : P JUndef.
Hypothesis Hnull : P JNull.
Hypothesis Hbool : forall b, P (JBool b).
Hypothesis Hnum : forall n, P (JNum n).
Hypothesis Hstr : forall s, P (JStr s).
Hypothesis Harr : forall l, Forall P l -> P (JArr l).
Hypothesis Hobj : forall ps, Forall (fun p => P (snd p)) ps -> P (JObj ps).

(** Induction through arrays and objects. *)
Fixpoint jsval_rect' (v : jsval) : P v :=
  match v with
  | JUndef => Hundef
  | JNull => Hnull
  | JBool b => Hbool b
  | JNum n => Hnum n
  | JStr s => Hstr s
  | JArr l =>
      Harr l ((fix go (l : list jsval) : Forall P l :=
                 match l with
                 | [] => List.Forall_nil _
                 | x :: l' => List.Forall_cons _ x l' (jsval_rect' x) (go l')
                 end) l)
  | JObj ps =>
      Hobj ps ((fix go (ps : list (jstr * jsval)) : Forall (fun p => P (snd p)) ps :=
                  match ps with
                  | [] => List.Forall_nil _
                  | p :: ps' => List.Forall_cons _ p ps' (jsval_rect' (snd p)) (go ps')
                  end) ps)
  end.
End jsval_induction.

(** [Boolean(v)]. *)
Definition truthy (v : jsval) : bool :=
  match v with
  | JUndef | JNull => false
  | JBool b => b
  | JNum n => num_truthy n
  | JStr s => str_truthy s
  | JArr _ | JObj _ => true
  end.

(** [typeof v === 'string'] and its relatives. *)
Definition is_string (v : jsval) : bool := match v with JStr _ => true | _ => false end.
Definition is_number (v : jsval) : bool := match v with JNum _ => true | _ => false end.
Definition is_boolean (v : jsval) : bool := match v with JBool _ => true | _ => false end.

(** [typeof v === 'object']. *)
Definition is_object (v : jsval) : bool :=
  match v with JNull | JArr _ | JObj _ => true | _ => false end.

(** [Array.isArray(v)]. *)
Definition is_array (v : jsval) : bool := match v with JArr _ => true | _ => false end.

(** [v === 's'] for a string literal; [v === true]. *)
Definition is_str (v : jsval) (s : jstr) : bool :=
  match v with JStr t => seqb t s | _ => false end.
Definition is_true (v : jsval) : bool := match v with JBool true => true | _ => false end.

(** A canonical array index: the decimal numeral of an integer below 2^32 - 1. *)
Definition array_index (k : jstr) : option N :=
  let n := N.of_uint (str_uint k) in
  if all_digits k && seqb (N_str n) k && (n <? 4294967295)%N then Some n else None.

(** [v[k]], and [v?.[k]] on null and undefined. *)
Definition get (v : jsval) (k : jstr) : jsval :=
  match v with
  | JObj ps => default JUndef (map_get ps k)
  | JArr l =>
      if seqb k (u "length") then JNum (num_of_Z (Z.of_nat (length l)))
      else match array_index k with
           | Some n => default JUndef (l !! N.to_nat n)
           | None => JUndef
           end
  | _ => JUndef
  end.


(** Own properties in the order of [Object.keys]: array indices ascending, then
    the other keys in creation order. *)
Definition own_entries {V} (ps : list (jstr * V)) : list (jstr * V) :=
  let is_idx (p : jstr * V) := match array_index (fst p) with Some _ => true | None => false end in
  let idx (p : jstr * V) := match array_index (fst p) with Some n => Z.of_N n | None => 0 end in
  array_sort (fun p q => idx p - idx q) (List.filter is_idx ps)
  ++ List.filter (fun p => negb (is_idx p)) ps.

Lemma own_entries_perm {V} (ps : list (jstr * V)) : own_entries ps ≡ₚ ps.
Proof.
  unfold own_entries. rewrite array_sort_perm. induction ps as [|p ps IH]; simpl; [done|].
  destruct (array_index (fst p)); simpl; [by rewrite IH|].
  rewrite <- Permutation_middle. by rewrite IH.
Qed.

(** [String(v)] for values without a [toString] of their own. *)
Fixpoint to_str (v : jsval) : jstr :=
  match v with
  | JUndef => u "undefined"
  | JNull => u "null"
  | JBool true => u "true"
  | JBool false => u "false"
  | JNum n => num_str n
  | JStr s => s
  | JArr l => join (u ",") (map (fun x => match x with JUndef | JNull => [] | _ => to_str x end) l)
  | JObj _ => u "[object Object]"
  end.
