(* ===== verification/Json.v ===== *)
(** * JSON.parse and JSON.stringify

    The ECMAScript JSON grammar on code-unit strings. [JSON_parse] returns [None]
    where the source's call throws. Its fuel is twice the length of the text plus two:
    every two nested calls consume at least one unit, and more fuel changes nothing
    ([JsonProps.parse_value_fuel]). *)

From Stdlib Require Import ZArith SpecFloat.
From stdpp Require Import base numbers option list sorting.
From S2P Require Import Prelude Collections JsNumber JsValue.

(** ** Printing *)

Definition hex_digit (n : N) : N := if (n <? 10)%N then (48 + n)%N else (87 + n)%N.

Definition esc_unicode (c : N) : jstr :=
  u "\u" ++ [hex_digit (c / 4096); hex_digit (c / 256 mod 16); hex_digit (c / 16 mod 16);
             hex_digit (c mod 16)]%N.

Definition is_high (c : N) : bool := ((55296 <=? c) && (c <=? 56319))%N.
Definition is_low (c : N) : bool := ((56320 <=? c) && (c <=? 57343))%N.

(** One code unit that is not part of a surrogate pair. *)
Definition quote_unit (c : N) : jstr :=
  if (c =? 34)%N then [92; 34]%N
  else if (c =? 92)%N then [92; 92]%N
  else if (c =? 8)%N then u "\b"
  else if (c =? 12)%N then u "\f"
  else if (c =? 10)%N then u "\n"
  else if (c =? 13)%N then u "\r"
  else if (c =? 9)%N then u "\t"
  else if (c <? 32)%N || is_high c || is_low c then esc_unicode c
  else [c].

Fixpoint quote_body (s : jstr) : jstr :=
  match s with
  | [] => []
  | c :: s' =>
      match s' with
      | d :: s'' => if is_high c && is_low d then c :: d :: quote_body s''
                    else quote_unit c ++ quote_body s'
      | [] => quote_unit c
      end
  end.

Definition quote (s : jstr) : jstr := 34%N :: quote_body s ++ [34%N].

(** The members or elements of a container, on lines of their own when there is
    a gap. *)
Definition wrap (gap indent : jstr) (op cl : N) (items : list jstr) : jstr :=
  match items with
  | [] => [op; cl]
  | _ =>
      match gap with
      | [] => op :: join (u ",") items ++ [cl]
      | _ =>
          let inner := indent ++ gap in
          op :: 10%N :: inner ++ join (u "," ++ 10%N :: inner) items ++ 10%N :: indent ++ [cl]
      end
  end.

(** SerializeJSONProperty; [None] is [undefined]. *)
Fixpoint serialize (gap indent : jstr) (v : jsval) : option jstr :=
  match v with
  | JUndef => None
  | JNull => Some (u "null")
  | JBool b => Some (if b then u "true" else u "false")
  | JNum n => Some (if isFinite n then num_str n else u "null")
  | JStr s => Some (quote s)
  | JArr l =>
      Some (wrap gap indent 91 93
              (map (fun x => default (u "null") (serialize gap (indent ++ gap) x)) l))
  | JObj ps =>
      let member p :=
        (fun t => quote (fst p) ++ (match gap with [] => u ":" | _ => u ": " end) ++ t) <$> snd p in
      Some (wrap gap indent 123 125
              (omap member
                 (own_entries (map (fun p => (fst p, serialize gap (indent ++ gap) (snd p))) ps))))
  end.

Definition JSON_stringify (v : jsval) : option jstr := serialize [] [] v.

(** [JSON.stringify(v, null, 2)]. *)
Definition JSON_stringify_indent (v : jsval) : option jstr := serialize (u "  ") [] v.

(** ** Parsing *)

(** JSON whitespace. *)
Definition json_space (c : N) : bool := ((c =? 32) || (c =? 9) || (c =? 10) || (c =? 13))%N.

Fixpoint skip_ws (s : jstr) : jstr :=
  match s with
  | c :: s' => if json_space c then skip_ws s' else s
  | [] => []
  end.

Definition hex_value (c : N) : option N :=
  if is_digit c then Some (c - 48)%N
  else if ((97 <=? c) && (c <=? 102))%N then Some (c - 87)%N
  else if ((65 <=? c) && (c <=? 70))%N then Some (c - 55)%N
  else None.

(** The characters of a string literal after its opening quote, up to and with
    the closing one. *)
Fixpoint parse_string (s : jstr) : option (jstr * jstr) :=
  match s with
  | [] => None
  | c :: s' =>
      let put x r := prod_map (cons x) id <$> r in
      if (c =? 34)%N then Some ([], s')
      else if (c <? 32)%N then None
      else if (c =? 92)%N then
        match s' with
        | e :: s'' =>
            if ((e =? 34) || (e =? 92) || (e =? 47))%N then put e (parse_string s'')
            else if (e =? 98)%N then put 8%N (parse_string s'')
            else if (e =? 102)%N then put 12%N (parse_string s'')
            else if (e =? 110)%N then put 10%N (parse_string s'')
            else if (e =? 114)%N then put 13%N (parse_string s'')
            else if (e =? 116)%N then put 9%N (parse_string s'')
            else if (e =? 117)%N then
              match s'' with
              | h1 :: h2 :: h3 :: h4 :: rest =>
                  match hex_value h1, hex_value h2, hex_value h3, hex_value h4 with
                  | Some a, Some b, Some d, Some f =>
                      put (a * 4096 + b * 256 + d * 16 + f)%N (parse_string rest)
                  | _, _, _, _ => None
                  end
              | _ => None
              end
            else None
        | [] => None
        end
      else put c (parse_string s')
  end.

(** The longest prefix of digits. *)
Fixpoint span_digits (s : jstr) : jstr * jstr :=
  match s with
  | c :: s' => if is_digit c then prod_map (cons c) id (span_digits s') else ([], s)
  | [] => ([], [])
  end.

(** The exponent part, if any: its value and the rest. *)
Definition parse_exponent (s : jstr) : option (Z * jstr) :=
  match s with
  | c :: s' =>
      if ((c =? 101) || (c =? 69))%N then
        let '(sg, s1) := match s' with
          | d :: s'' => if (d =? 45)%N then (-1, s'') else if (d =? 43)%N then (1, s'') else (1, s')
          | [] => (1, s')
          end in
        let '(ds, rest) := span_digits s1 in
        match ds with [] => None | _ => Some (sg * parse_digits ds, rest) end
      else Some (0, s)
  | [] => Some (0, s)
  end.

(** A JSON number without its sign. *)
Definition parse_number (neg : bool) (s : jstr) : option (jsval * jstr) :=
  let '(ds, s1) := span_digits s in
  let int_ok := match ds with
    | [] => false | [_] => true | d :: _ => negb (d =? 48)%N end in
  if negb int_ok then None
  else
    let '(fr_ok, fr, s2) := match s1 with
      | c :: s1' => if (c =? 46)%N then let '(f, r) := span_digits s1' in
                                        (match f with [] => false | _ => true end, f, r)
                    else (true, [], s1)
      | [] => (true, [], s1)
      end in
    if negb fr_ok then None
    else match parse_exponent s2 with
         | Some (e, rest) =>
             Some (JNum (dec_to_num neg (Z.to_N (parse_digits (ds ++ fr)))
                           (e - Z.of_nat (length fr))), rest)
         | None => None
         end.

Definition strip (p : jstr) (s : jstr) : option jstr :=
  if startsWith s p then Some (drop (length p) s) else None.

Fixpoint parse_value (fuel : nat) (s : jstr) : option (jsval * jstr) :=
  match fuel with
  | O => None
  | S f =>
      match skip_ws s with
      | [] => None
      | c :: s' =>
          if (c =? 34)%N then prod_map JStr id <$> parse_string s'
          else if (c =? 91)%N then
            match skip_ws s' with
            | d :: r => if (d =? 93)%N then Some (JArr [], r)
                        else prod_map JArr id <$> parse_elements f s'
            | [] => None
            end
          else if (c =? 123)%N then
            match skip_ws s' with
            | d :: r => if (d =? 125)%N then Some (JObj [], r)
                        else prod_map JObj id <$> parse_members f s' []
            | [] => None
            end
          else if (c =? 45)%N then parse_number true s'
          else if is_digit c then parse_number false (c :: s')
          else match strip (u "null") (c :: s'), strip (u "true") (c :: s'),
                     strip (u "false") (c :: s') with
               | Some r, _, _ => Some (JNull, r)
               | None, Some r, _ => Some (JBool true, r)
               | None, None, Some r => Some (JBool false, r)
               | None, None, None => None
               end
      end
  end
with parse_elements (fuel : nat) (s : jstr) : option (list jsval * jstr) :=
  match fuel with
  | O => None
  | S f =>
      match parse_value f s with
      | Some (v, r) =>
          match skip_ws r with
          | c :: r' => if (c =? 44)%N then prod_map (cons v) id <$> parse_elements f r'
                       else if (c =? 93)%N then Some ([v], r') else None
          | [] => None
          end
      | None => None
      end
  end
with parse_members (fuel : nat) (s : jstr) (acc : list (jstr * jsval))
    : option (list (jstr * jsval) * jstr) :=
  match fuel with
  | O => None
  | S f =>
      match skip_ws s with
      | q :: s1 =>
          if negb (q =? 34)%N then None
          else match parse_string s1 with
          | Some (k, s2) =>
              match skip_ws s2 with
              | d :: s3 =>
                  if negb (d =? 58)%N then None
                  else match parse_value f s3 with
                  | Some (v, r) =>
                      match skip_ws r with
                      | c :: r' =>
                          if (c =? 44)%N then parse_members f r' (map_set acc k v)
                          else if (c =? 125)%N then Some (map_set acc k v, r') else None
                      | [] => None
                      end
                  | None => None
                  end
              | [] => None
              end
          | None => None
          end
      | [] => None
      end
  end.

Definition JSON_parse (s : jstr) : option jsval :=
  match parse_value (2 * length s + 2) s with
  | Some (v, r) => match skip_ws r with [] => Some v | _ => None end
  | None => None
  end.

Example JSON_parse_ex :
  JSON_parse (uq " {'a' : [1, -2.5e1, true, null], 'b':{}, 'a':'x\n' } ") =
  Some (JObj [(u "a", JStr [120; 10]%N); (u "b", JObj [])]).
Proof. vm_compute. reflexivity. Qed.
