(* ===== verification/JsonProps.v ===== *)
(** * JSON round trip

    Parsing what [JSON.stringify] printed gives the value back, for values made
    of null, booleans, strings, arrays and objects whose keys are distinct and
    not array indices. *)

From Stdlib Require Import ZArith SpecFloat.
From stdpp Require Import base numbers option list sorting.
From S2P Require Import Prelude Collections JsNumber JsValue Json.

(** ** Strings *)

Definition put (x : N) (r : option (jstr * jstr)) : option (jstr * jstr) := prod_map (cons x) id <$> r.

Lemma hex_value_digit n : (n < 16)%N -> hex_value (hex_digit n) = Some n.
Proof.
  intros H.
  assert (Hall : forallb (fun k => bool_decide (hex_value (hex_digit (N.of_nat k)) = Some (N.of_nat k)))
    (seq 0 16) = true) by reflexivity.
  rewrite forallb_forall in Hall. specialize (Hall (N.to_nat n)).
  rewrite N2Nat.id in Hall. apply (bool_decide_eq_true_1 _), Hall, in_seq. lia.
Qed.

Lemma hex_recompose c : (c < 65536)%N ->
  (c / 4096 * 4096 + c / 256 mod 16 * 256 + c / 16 mod 16 * 16 + c mod 16 = c)%N.
Proof.
  intros H. pose proof (N.div_mod' c 16). pose proof (N.div_mod' (c / 16) 16).
  pose proof (N.div_mod' (c / 256) 16).
  assert (c / 16 / 16 = c / 256)%N by (by rewrite N.Div0.div_div).
  assert (c / 256 / 16 = c / 4096)%N by (by rewrite N.Div0.div_div). lia.
Qed.

Lemma parse_esc_unicode c t : (c < 65536)%N ->
  parse_string (esc_unicode c ++ t) = put c (parse_string t).
Proof.
  intros H. unfold esc_unicode. change (u "\u") with [92; 117]%N.
  cbn [app]. cbn -[hex_value hex_digit N.div N.modulo].
  assert (c / 4096 < 16)%N by (apply N.Div0.div_lt_upper_bound; lia).
  rewrite !hex_value_digit; try done; try (apply N.mod_upper_bound; lia).
  by rewrite hex_recompose.
Qed.

Lemma parse_plain c t : (c =? 34)%N = false -> (c =? 92)%N = false -> (c <? 32)%N = false ->
  parse_string (c :: t) = put c (parse_string t).
Proof. intros H1 H2 H3. cbn. by rewrite H1, H3, H2. Qed.

Lemma parse_quote_unit c t : (c < 65536)%N ->
  parse_string (quote_unit c ++ t) = put c (parse_string t).
Proof.
  intros H. unfold quote_unit.
  repeat match goal with
  | |- context [if (c =? ?k)%N then _ else _] =>
      let E := fresh "E" in destruct (c =? k)%N eqn:E; [apply N.eqb_eq in E; subst c; done|]
  end.
  destruct ((c <? 32)%N || is_high c || is_low c) eqn:G; [by apply parse_esc_unicode|].
  apply orb_false_iff in G as [G _]. apply orb_false_iff in G as [G _].
  by apply parse_plain.
Qed.

Lemma parse_quote_body s t : Forall (fun c => c < 65536)%N s ->
  parse_string (quote_body s ++ 34%N :: t) = Some (s, t).
Proof.
  remember (length s) as n eqn:Hn. assert (length s <= n)%nat as Hle by lia. clear Hn.
  revert s Hle. induction n as [|n IH]; intros s Hle F.
  { destruct s; [done|simpl in Hle; lia]. }
  destruct s as [|c [|d s]]; [done| |].
  - inversion F; subst. cbn [quote_body]. by rewrite parse_quote_unit.
  - inversion F as [|? ? Hc F']; subst.
    change (quote_body (c :: d :: s)) with
      (if is_high c && is_low d then c :: d :: quote_body s
       else quote_unit c ++ quote_body (d :: s)).
    destruct (is_high c && is_low d) eqn:E.
    + unfold is_high, is_low in E. rewrite !andb_true_iff, !N.leb_le in E.
      cbn [app]. rewrite !parse_plain; try apply N.eqb_neq; try apply N.ltb_ge; try lia.
      inversion F'; subst. rewrite IH; [done|simpl in Hle; lia|done].
    + rewrite <- app_assoc, parse_quote_unit by done.
      rewrite IH; [done|simpl in *; lia|done].
Qed.

(** ** Whitespace *)

Lemma skip_ws_app w s : Forall (fun c => json_space c = true) w -> skip_ws (w ++ s) = skip_ws s.
Proof. induction 1 as [|c w Hc F IH]; simpl; [done|]. by rewrite Hc. Qed.

Lemma parse_value_ws f w s : Forall (fun c => json_space c = true) w ->
  parse_value f (w ++ s) = parse_value f s.
Proof. intros H. destruct f; simpl; [done|]. by rewrite skip_ws_app. Qed.

Lemma parse_elements_ws f w s : Forall (fun c => json_space c = true) w ->
  parse_elements f (w ++ s) = parse_elements f s.
Proof. intros H. destruct f; simpl; [done|]. by rewrite parse_value_ws. Qed.

Lemma parse_members_ws f w s acc : Forall (fun c => json_space c = true) w ->
  parse_members f (w ++ s) acc = parse_members f s acc.
Proof. intros H. destruct f; simpl; [done|]. by rewrite skip_ws_app. Qed.

(** ** Values *)

(** What can follow a number without being read as part of it. *)
Definition num_next (c : N) : bool := is_digit c || ((c =? 46) || (c =? 101) || (c =? 69))%N.
Definition stops (r : jstr) : Prop := match r with [] => True | c :: _ => num_next c = false end.

(** The text printed for a number reads back as the number. The negative zero is
    the finite double for which it does not. *)
Definition num_reads (n : num) : Prop :=
  isFinite n = true /\
  match num_str n with
  | c :: s => if (c =? 45)%N then parse_number true s = Some (JNum n, [])
              else parse_number false (c :: s) = Some (JNum n, [])
  | [] => False
  end.

Example num_reads_ex :
  Forall num_reads [num_of_Z 0; num_of_Z 4096; dec_to_num false 7 (-1); dec_to_num true 25 (-4);
    dec_to_num false 5 (-324); dec_to_num false 1 21].
Proof.
  repeat (apply List.Forall_cons; [split; vm_compute; reflexivity|]). apply List.Forall_nil.
Qed.

(** What the round trip covers. *)
Fixpoint json_ok (v : jsval) : Prop :=
  match v with
  | JUndef => False
  | JNum n => num_reads n
  | JNull | JBool _ => True
  | JStr s => Forall (fun c => c < 65536)%N s
  | JArr l => foldr (fun x P => json_ok x /\ P) True l
  | JObj ps =>
      NoDup ps.*1 /\ Forall (fun p => array_index (fst p) = None) ps /\
      foldr (fun p P => (Forall (fun c => c < 65536)%N (fst p) /\ json_ok (snd p)) /\ P) True ps
  end.

Definition spaces (w : jstr) : Prop := Forall (fun c => json_space c = true) w.

(** [t] is a text that parses to [v] in any context in which a number ends, with fuel
    for its length,
    and starts with neither a space nor a closing bracket. *)
Definition prints (t : jstr) (v : jsval) : Prop :=
  (forall f r, (2 * length t <= f)%nat -> stops r -> parse_value f (t ++ r) = Some (v, r)) /\
  exists c t', t = c :: t' /\ json_space c = false /\ c <> 93%N.

Lemma skip_ws_id c s : json_space c = false -> skip_ws (c :: s) = c :: s.
Proof. intros H. simpl. by rewrite H. Qed.

Lemma stops_spaces w c r : spaces w -> num_next c = false -> stops (w ++ c :: r).
Proof.
  intros [|d w' Hd _] Hc; [done|]. simpl. revert Hd. unfold json_space, num_next, is_digit.
  rewrite !orb_true_iff, !N.eqb_eq. by intros [[[-> | ->] | ->] | ->].
Qed.

Lemma span_digits_app s r : stops r -> (span_digits s).2 = [] ->
  span_digits (s ++ r) = ((span_digits s).1, r).
Proof.
  intros Hr. induction s as [|c s IH]; simpl.
  - intros _. destruct r as [|c r]; simpl; [done|]. simpl in Hr. unfold num_next in Hr.
    apply orb_false_iff in Hr as [-> _]. done.
  - destruct (is_digit c); [|done]. simpl. intros H. by rewrite (IH H).
Qed.

Lemma span_digits_app_ne s r c s' : (span_digits s).2 = c :: s' ->
  span_digits (s ++ r) = ((span_digits s).1, c :: s' ++ r).
Proof.
  induction s as [|d s IH]; simpl; [done|].
  destruct (is_digit d); simpl; [|by intros [= -> ->]]. intros H. by rewrite (IH H).
Qed.

Lemma span_digits_rest s c s' : (span_digits s).2 = c :: s' -> is_digit c = false.
Proof.
  induction s as [|d s IH]; simpl; [done|].
  destruct (is_digit d) eqn:E; simpl; [done|]. by intros [= <- _].
Qed.

Lemma parse_exponent_app s e r : stops r -> parse_exponent s = Some (e, []) ->
  parse_exponent (s ++ r) = Some (e, r).
Proof.
  intros Hr. destruct s as [|c s]; cbn [parse_exponent app].
  - intros [= <-]. destruct r as [|c r]; [done|]. simpl in Hr. unfold num_next in Hr.
    rewrite !orb_false_iff in Hr. destruct Hr as (_ & [_ H1] & H2). simpl. by rewrite H1, H2.
  - destruct ((c =? 101) || (c =? 69))%N; [|by intros [=]].
    assert (forall sg t, (let '(ds, rest) := span_digits t in
              match ds with [] => None | _ => Some (sg * parse_digits ds, rest) end) = Some (e, []) ->
            (let '(ds, rest) := span_digits (t ++ r) in
              match ds with [] => None | _ => Some (sg * parse_digits ds, rest) end) = Some (e, r)) as Hd.
    { intros sg t. destruct (span_digits t) as [ds rest] eqn:E. destruct ds as [|d ds]; [done|].
      intros [= <- ->]. rewrite span_digits_app by (rewrite ?E; done). by rewrite E. }
    destruct s as [|d s]; [done|]. cbn [app].
    destruct (d =? 45)%N; [by apply Hd|]. destruct (d =? 43)%N; [by apply Hd|].
    by apply (Hd 1 (d :: s)).
Qed.

Lemma parse_number_app neg s v r : stops r -> parse_number neg s = Some (v, []) ->
  parse_number neg (s ++ r) = Some (v, r).
Proof.
  intros Hr. unfold parse_number. destruct (span_digits s) as [ds s1] eqn:E.
  destruct s1 as [|c s1].
  - rewrite span_digits_app by (rewrite ?E; done). rewrite E. cbn [fst].
    destruct (negb _); [done|]. cbn [negb].
    intros H. destruct (parse_exponent []) as [[e rest]|] eqn:Ee; [|done].
    injection H as <- ->. apply (parse_exponent_app [] e r Hr) in Ee. cbn [app] in Ee.
    destruct r as [|d r].
    + cbn [negb]. by rewrite Ee.
    + simpl in Hr. unfold num_next in Hr. rewrite !orb_false_iff in Hr.
      destruct Hr as (_ & [H1 _] & _). rewrite H1. cbn [negb]. by rewrite Ee.
  - rewrite (span_digits_app_ne s r c s1) by (by rewrite E). rewrite E. cbn [fst].
    destruct (negb _); [done|]. destruct (c =? 46)%N.
    + destruct (span_digits s1) as [f r1] eqn:E1. destruct r1 as [|c1 r1].
      * rewrite span_digits_app by (rewrite ?E1; done). rewrite E1. cbn [fst].
        destruct (negb _); [done|]. destruct (parse_exponent []) as [[e rest]|] eqn:Ee; [|done].
        intros [= <- ->]. apply (parse_exponent_app [] e r Hr) in Ee. cbn [app] in Ee. by rewrite Ee.
      * rewrite (span_digits_app_ne s1 r c1 r1) by (by rewrite E1). rewrite E1. cbn [fst].
        destruct (negb _); [done|].
        destruct (parse_exponent (c1 :: r1)) as [[e rest]|] eqn:Ee; [|done].
        intros [= <- ->]. apply (parse_exponent_app _ e r Hr) in Ee. cbn [app] in Ee. by rewrite Ee.
    + cbn [negb]. destruct (parse_exponent (c :: s1)) as [[e rest]|] eqn:Ee; [|done].
      intros [= <- ->]. apply (parse_exponent_app _ e r Hr) in Ee. cbn [app] in Ee. by rewrite Ee.
Qed.

Lemma parse_number_head neg c s res : parse_number neg (c :: s) = Some res -> is_digit c = true.
Proof. unfold parse_number. simpl. by destruct (is_digit c). Qed.

Lemma digit_neq c d : is_digit c = true -> is_digit d = false -> (c =? d)%N = false.
Proof. intros Hc Hd. apply N.eqb_neq. intros ->. by rewrite Hc in Hd. Qed.

Lemma prints_num n : num_reads n -> prints (num_str n) (JNum n).
Proof.
  intros [_ H]. destruct (num_str n) as [|c s]; [done|].
  destruct (c =? 45)%N eqn:Ec.
  - apply N.eqb_eq in Ec as ->. split; [|by eexists _, _]. intros [|f] r Hf Hr; [simpl in Hf; lia|].
    cbn [parse_value app]. rewrite skip_ws_id by done. cbn -[parse_number]. by apply parse_number_app.
  - assert (is_digit c = true) as Hd by (by eapply parse_number_head). split.
    + intros [|f] r Hf Hr; [simpl in Hf; lia|]. cbn [parse_value app].
      rewrite skip_ws_id by (unfold json_space; by rewrite !(digit_neq c)).
      rewrite !(digit_neq c), Hd by done. by apply (parse_number_app false (c :: s)).
    + exists c, s. split; [done|]. split; [unfold json_space; by rewrite !(digit_neq c)|].
      by intros ->.
Qed.

Lemma parse_elements_prints ts vs w w' r f :
  spaces w -> spaces w' -> ts <> [] -> Forall2 prints ts vs ->
  (2 * length (join (u "," ++ w) ts) + 1 <= f)%nat ->
  parse_elements f (join (u "," ++ w) ts ++ w' ++ 93%N :: r) = Some (vs, r).
Proof.
  intros Hw Hw' Hne HF. revert f. induction HF as [|t v ts vs Hp HF IH]; intros f Hf; [done|].
  destruct Hp as [Hp (c & t' & Ht & _ & _)].
  destruct f as [|f]; [lia|]. destruct HF as [|t2 v2 ts vs Hp2 HF].
  - simpl in Hf. cbn -[u parse_value]. rewrite Hp by (lia || by apply stops_spaces).
    by rewrite skip_ws_app.
  - change (join (u "," ++ w) (t :: t2 :: ts))
      with (t ++ (u "," ++ w) ++ join (u "," ++ w) (t2 :: ts)) in *.
    change (u "," ++ w) with (44%N :: w) in *.
    rewrite !length_app in Hf. simpl length in Hf at 2.
    assert (1 <= length t)%nat by (subst t; simpl; lia).
    rewrite <- !app_assoc. cbn [parse_elements]. rewrite Hp by (lia || done).
    cbn [app]. rewrite skip_ws_id by done. change (44 =? 44)%N with true. cbn iota.
    rewrite parse_elements_ws by done. rewrite IH by (done || lia). done.
Qed.

(** A member of an object literal. *)
Definition member_text (colon : jstr) (t : jstr) (p : jstr * jsval) : Prop :=
  Forall (fun c => c < 65536)%N (fst p) /\
  exists t0, t = quote (fst p) ++ colon ++ t0 /\ prints t0 (snd p).

Lemma quote_length k : (2 <= length (quote k))%nat.
Proof. unfold quote. simpl. rewrite length_app. simpl. lia. Qed.

Lemma parse_member f colon w p t r acc :
  spaces w -> colon = 58%N :: w -> member_text colon t p -> (2 * length t <= f)%nat -> stops r ->
  parse_members (S f) (t ++ r) acc =
    match skip_ws r with
    | c :: r' => if (c =? 44)%N then parse_members f r' (map_set acc (fst p) (snd p))
                 else if (c =? 125)%N then Some (map_set acc (fst p) (snd p), r') else None
    | [] => None
    end.
Proof.
  intros Hw -> (Hk & t0 & -> & Hp & _) Hf Hr. rewrite !length_app in Hf.
  unfold quote. cbn [app parse_members]. rewrite skip_ws_id by done.
  change (negb (34 =? 34)%N) with false. cbn iota.
  rewrite <- !app_assoc. cbn [app]. rewrite parse_quote_body by done.
  rewrite skip_ws_id by done. change (negb (58 =? 58)%N) with false. cbn iota.
  rewrite <- app_assoc, parse_value_ws by done. by rewrite Hp by (lia || done).
Qed.

Lemma parse_members_prints colon w0 w w' ts ps acc r f :
  spaces w0 -> spaces w -> spaces w' -> colon = 58%N :: w0 -> ts <> [] ->
  Forall2 (member_text colon) ts ps -> NoDup (acc.*1 ++ ps.*1) ->
  (2 * length (join (u "," ++ w) ts) + 1 <= f)%nat ->
  parse_members f (join (u "," ++ w) ts ++ w' ++ 125%N :: r) acc = Some (acc ++ ps, r).
Proof.
  intros Hw0 Hw Hw' Hc Hne HF. revert f acc.
  induction HF as [|t [k v] ts ps Hm HF IH]; intros f acc Hnd Hf; [done|].
  assert (k ∉ map_keys acc) as Hfresh.
  { intros Hin. apply NoDup_app in Hnd as (_ & Hd & _). apply (Hd k Hin). left. }
  destruct f as [|f]; [lia|]. destruct HF as [|t2 p2 ts ps Hm2 HF].
  - change (join (u "," ++ w) [t]) with t in *.
    rewrite (parse_member f _ w0 (k, v)) by (done || lia || by apply stops_spaces).
    rewrite skip_ws_app by done. simpl. by rewrite map_set_fresh.
  - change (join (u "," ++ w) (t :: t2 :: ts))
      with (t ++ (u "," ++ w) ++ join (u "," ++ w) (t2 :: ts)) in *.
    change (u "," ++ w) with (44%N :: w) in *.
    rewrite !length_app in Hf. simpl length in Hf at 2.
    rewrite <- !app_assoc. rewrite (parse_member f _ w0 (k, v)) by (done || lia).
    cbn [app]. rewrite skip_ws_id by done. change (44 =? 44)%N with true. cbn iota.
    rewrite parse_members_ws by done. simpl fst. simpl snd. rewrite map_set_fresh by done.
    rewrite IH; [by rewrite <- app_assoc|done| |lia].
    rewrite fmap_app. simpl. by rewrite <- app_assoc.
Qed.

Lemma own_entries_id {V} (ps : list (jstr * V)) :
  Forall (fun p => array_index (fst p) = None) ps -> own_entries ps = ps.
Proof.
  intros H. unfold own_entries.
  assert (forall f : jstr * V -> bool, (forall p, In p ps -> f p = false) -> List.filter f ps = []) as Hn.
  { intros f Hf. clear H. induction ps as [|p ps IH]; simpl; [done|].
    rewrite (Hf p) by (by left). apply IH. intros q Hq. apply Hf. by right. }
  rewrite List.Forall_forall in H. rewrite Hn; [|intros p Hp; by rewrite (H p Hp)]. simpl.
  clear Hn. induction ps as [|p ps IH]; simpl; [done|].
  rewrite (H p) by (by left). simpl. rewrite IH; [done|]. intros q Hq. apply H. by right.
Qed.

Lemma wrap_shape gap indent op cl t ts :
  spaces gap -> spaces indent ->
  exists w0 w w', spaces w0 /\ spaces w /\ spaces w' /\
    wrap gap indent op cl (t :: ts) = op :: w0 ++ join (u "," ++ w) (t :: ts) ++ w' ++ [cl].
Proof.
  intros Hg Hi. unfold wrap. destruct gap as [|g gap].
  - exists [], [], []. split_and!; [constructor..|]. by rewrite app_nil_r.
  - assert (spaces (10%N :: indent ++ g :: gap)) by (constructor; [done|by apply Forall_app]).
    exists (10%N :: indent ++ g :: gap), (10%N :: indent ++ g :: gap), (10%N :: indent).
    split_and!; [done|done|by constructor|reflexivity].
Qed.

Lemma wrap_array gap indent ts vs :
  spaces gap -> spaces indent -> Forall2 prints ts vs ->
  prints (wrap gap indent 91 93 ts) (JArr vs).
Proof.
  intros Hg Hi HF. split; [|unfold wrap; destruct ts, gap; by eexists _, _].
  intros [|f] r Hf Hr; [unfold wrap in Hf; destruct ts, gap; simpl in Hf; lia|].
  destruct HF as [|t v ts vs Hp HF]; [done|].
  destruct (wrap_shape gap indent 91 93 t ts Hg Hi) as (w0 & w & w' & Hw0 & Hw & Hw' & E).
  rewrite E in *. cbn [length] in Hf. rewrite !length_app in Hf. cbn [length] in Hf.
  destruct Hp as [Hp (c & t' & Ht & Hc & Hc')].
  assert (forall s, exists s', join (u "," ++ w) (t :: ts) ++ s = c :: s') as Hhd.
  { intros s. subst t. destruct ts; by eexists. }
  cbn [parse_value app]. rewrite skip_ws_id by done. cbn -[parse_elements skip_ws u join].
  rewrite <- !app_assoc. rewrite skip_ws_app by done.
  destruct (Hhd (w' ++ [93%N] ++ r)) as [s' Es]. rewrite Es, skip_ws_id by done.
  rewrite (proj2 (N.eqb_neq c 93)) by done. rewrite <- Es.
  rewrite parse_elements_ws by done. cbn [app].
  rewrite (parse_elements_prints (t :: ts) (v :: vs)); try done; [|lia].
  constructor; [|done]. split; [done|]. by exists c, t'.
Qed.

Lemma wrap_object gap indent colon wc ts ps :
  spaces gap -> spaces indent -> spaces wc -> colon = 58%N :: wc ->
  Forall2 (member_text colon) ts ps -> NoDup ps.*1 ->
  prints (wrap gap indent 123 125 ts) (JObj ps).
Proof.
  intros Hg Hi Hwc Hcol HF Hnd. split; [|unfold wrap; destruct ts, gap; by eexists _, _].
  intros [|f] r Hf Hr; [unfold wrap in Hf; destruct ts, gap; simpl in Hf; lia|].
  destruct HF as [|t p ts ps Hm HF]; [done|].
  destruct (wrap_shape gap indent 123 125 t ts Hg Hi) as (w0 & w & w' & Hw0 & Hw & Hw' & E).
  rewrite E in *. cbn [length] in Hf. rewrite !length_app in Hf. cbn [length] in Hf.
  assert (forall s, exists s', join (u "," ++ w) (t :: ts) ++ s = 34%N :: s') as Hhd.
  { intros s. destruct Hm as (_ & t0 & -> & _). destruct ts; by eexists. }
  cbn [parse_value app]. rewrite skip_ws_id by done. cbn -[parse_members skip_ws u join].
  rewrite <- !app_assoc. rewrite skip_ws_app by done.
  destruct (Hhd (w' ++ [125%N] ++ r)) as [s' Es]. rewrite Es, skip_ws_id by done.
  change (34 =? 125)%N with false. cbn iota. rewrite <- Es.
  rewrite parse_members_ws by done. cbn [app].
  rewrite (parse_members_prints colon wc w w' (t :: ts) (p :: ps)); try done; [by constructor|lia].
Qed.

(** ** The round trip *)

Lemma json_ok_arr l : json_ok (JArr l) <-> Forall json_ok l.
Proof.
  simpl. induction l as [|x l IH]; simpl; [by split|]. rewrite IH, Forall_cons. done.
Qed.

Lemma json_ok_obj ps : json_ok (JObj ps) <->
  NoDup ps.*1 /\ Forall (fun p => array_index (fst p) = None) ps /\
  Forall (fun p => Forall (fun c => c < 65536)%N (fst p) /\ json_ok (snd p)) ps.
Proof.
  simpl. do 2 apply and_iff_compat_l. induction ps as [|x l IH]; simpl; [by split|].
  rewrite IH, (Forall_cons _ x). done.
Qed.

Lemma serialize_arr gap indent l :
  serialize gap indent (JArr l) =
    Some (wrap gap indent 91 93
            (map (fun x => default (u "null") (serialize gap (indent ++ gap) x)) l)).
Proof. reflexivity. Qed.

Lemma serialize_obj gap indent ps :
  serialize gap indent (JObj ps) =
    Some (wrap gap indent 123 125
      (omap (fun p => (fun t => quote (fst p) ++ (match gap with [] => u ":" | _ => u ": " end) ++ t)
                      <$> snd p)
         (own_entries (map (fun p => (fst p, serialize gap (indent ++ gap) (snd p))) ps)))).
Proof. reflexivity. Qed.

Lemma serialize_prints v : json_ok v -> forall gap indent, spaces gap -> spaces indent ->
  exists t, serialize gap indent v = Some t /\ prints t v.
Proof.
  induction v as [| |b|n|s|l IH|ps IH] using jsval_rect'; intros Hok gap indent Hg Hi; try done.
  - eexists. split; [done|]. split; [|by eexists _, _]. intros [|f] r Hf _; [cbv in Hf; lia|reflexivity].
  - eexists. split; [done|]. split; [|by destruct b; eexists _, _].
    intros [|f] r Hf _; [destruct b; cbv in Hf; lia|by destruct b].
  - exists (num_str n). split; [|by apply prints_num]. cbn [serialize]. by destruct Hok as [-> _].
  - eexists. split; [done|]. split; [|by eexists _, _].
    intros [|f] r Hf _; [simpl in Hf; lia|]. unfold quote. cbn [app parse_value].
    rewrite skip_ws_id by done. cbn -[parse_string]. rewrite <- app_assoc. cbn [app].
    by rewrite parse_quote_body.
  - apply json_ok_arr in Hok. rewrite serialize_arr. eexists. split; [done|]. apply wrap_array; [done|done|].
    assert (spaces (indent ++ gap)) as Hig by (by apply Forall_app).
    induction IH as [|x l Hx _ IHl]; simpl; [constructor|]. inversion Hok; subst.
    destruct (Hx H1 gap (indent ++ gap) Hg Hig) as (t & -> & Ht). constructor; [done|]. by apply IHl.
  - apply json_ok_obj in Hok as (Hnd & Hidx & Hok). rewrite serialize_obj. eexists. split; [done|].
    assert (spaces (indent ++ gap)) as Hig by (by apply Forall_app).
    rewrite own_entries_id; [|by apply Forall_fmap].
    set (colon := match gap with [] => u ":" | _ => u ": " end).
    assert (exists wc, spaces wc /\ colon = 58%N :: wc) as (wc & Hwc & Hcol).
    { subst colon. destruct gap; [by exists []|]. exists (u " "). split; [by repeat constructor|done]. }
    apply (wrap_object gap indent colon wc); try done. clear Hnd Hidx.
    induction IH as [|[k x] l Hx _ IHl]; simpl; [constructor|].
    inversion Hok as [|? ? [Hk Hx'] Hok']; subst.
    destruct (Hx Hx' gap (indent ++ gap) Hg Hig) as (t & Et & Ht). simpl in Et. rewrite Et. simpl.
    constructor; [|by apply IHl]. split; [done|]. by exists t.
Qed.

Lemma stringify_parse gap v : json_ok v -> spaces gap ->
  exists t, serialize gap [] v = Some t /\ JSON_parse t = Some v /\
    exists c t', t = c :: t' /\ json_space c = false.
Proof.
  intros Hok Hg. destruct (serialize_prints v Hok gap [] Hg) as (t & E & Hp & c & t' & Ht & Hc & _);
    [constructor|].
  exists t. split; [done|]. split; [|by exists c, t']. unfold JSON_parse.
  rewrite <- (app_nil_r t) at 2. by rewrite Hp by (lia || done).
Qed.

Lemma wrap_open gap indent op cl items : exists t, wrap gap indent op cl items = op :: t.
Proof. unfold wrap. destruct items; [by eexists|]. destruct gap; by eexists. Qed.

Lemma serialize_obj_open gap ps t : serialize gap [] (JObj ps) = Some t -> exists t', t = 123%N :: t'.
Proof.
  rewrite serialize_obj. intros H. apply (inj Some) in H. subst t. apply wrap_open.
Qed.

(** ** Objects that print *)

(** The code units of a JavaScript string. *)
Definition units (s : jstr) : Prop := Forall (fun c => c < 65536)%N s.

Lemma units_trim s : units s -> units (trim s).
Proof. unfold units. rewrite !List.Forall_forall. intros H c Hc. apply H. by apply trim_subset. Qed.

Lemma units_split sep s : units s -> Forall units (split sep s).
Proof.
  unfold units. induction s as [|c s IH]; intros H; simpl; [by repeat constructor|].
  apply Forall_cons in H as [Hc H]. specialize (IH H). destruct (c =? sep)%N; [by constructor|].
  destruct (split sep s) as [|p ps]; [by repeat constructor|].
  apply Forall_cons in IH as [? ?]. by repeat constructor.
Qed.

Lemma get_map_set p k v k' : get (JObj (map_set p k v)) k' = if seqb k k' then v else get (JObj p) k'.
Proof.
  cbn [get]. destruct (seqb k k') eqn:E.
  - apply seqb_eq in E as ->. by rewrite map_get_set_eq.
  - apply seqb_neq in E. by rewrite map_get_set_ne.
Qed.

(** A key that survives a text: code units, and no array index. *)
Definition key_ok (k : jstr) : bool := forallb (fun c => c <? 65536)%N k && bool_decide (array_index k = None).

Lemma units_check s : forallb (fun c => c <? 65536)%N s = true -> units s.
Proof.
  rewrite forallb_forall. intros H. apply List.Forall_forall. intros c Hc. by apply N.ltb_lt, H.
Qed.

Lemma json_ok_set p k v : key_ok k = true -> json_ok v -> json_ok (JObj p) -> json_ok (JObj (map_set p k v)).
Proof.
  rewrite !json_ok_obj. unfold key_ok. rewrite andb_true_iff, bool_decide_eq_true.
  intros [Hu Hi] Hv (Hnd & Hidx & Hok). apply units_check in Hu. split_and!.
  - by apply (map_set_ok p k v).
  - rewrite Forall_forall in *. intros [k' v'] Hin. apply elem_of_map_set in Hin as [[-> ->]|Hin]; [done|].
    by apply (Hidx (k', v')).
  - rewrite Forall_forall in *. intros [k' v'] Hin. apply elem_of_map_set in Hin as [[-> ->]|Hin]; [done|].
    by apply (Hok (k', v')).
Qed.

Lemma json_ok_one k v : key_ok k = true -> json_ok v -> json_ok (JObj [(k, v)]).
Proof.
  intros Hk Hv. pose proof (json_ok_set [] k v Hk Hv) as H. cbn [map_set] in H. apply H.
  apply json_ok_obj. split_and!; constructor.
Qed.

Lemma json_ok_delete p k : json_ok (JObj p) -> json_ok (JObj (map_delete p k)).
Proof.
  rewrite !json_ok_obj. intros (Hnd & Hidx & Hok). split; [by apply (map_delete_ok p k)|].
  rewrite Forall_forall in *. rewrite Forall_forall in *.
  split; intros e He%elem_of_map_delete; auto.
Qed.

(** ** The fuel of the parser

    Every parser returns a shorter rest, so fuel of twice the length is enough:
    any larger amount gives the same result. *)

Lemma skip_ws_le s : (length (skip_ws s) <= length s)%nat.
Proof. induction s as [|c s IH]; simpl; [lia|]. destruct (json_space c); simpl; lia. Qed.

Lemma skip_ws_cons s c r : skip_ws s = c :: r -> (length r < length s)%nat.
Proof. intros E. pose proof (skip_ws_le s) as H. rewrite E in H. simpl in H. lia. Qed.

Lemma span_digits_le s : (length (span_digits s).2 <= length s)%nat.
Proof.
  induction s as [|c s IH]; simpl; [lia|]. destruct (is_digit c); simpl; [|lia].
  destruct (span_digits s); simpl in *; lia.
Qed.

Definition shrinks {A} (s : jstr) (res : option (A * jstr)) : Prop :=
  match res with Some (_, r) => (length r < length s)%nat | None => True end.

Lemma shrinks_map {A B} (f : A -> B) s res : shrinks s res -> shrinks s (prod_map f id <$> res).
Proof. by destruct res as [[]|]. Qed.

Lemma shrinks_le {A} s s' (res : option (A * jstr)) :
  (length s <= length s')%nat -> shrinks s res -> shrinks s' res.
Proof. destruct res as [[]|]; simpl; lia. Qed.

Lemma parse_string_shrinks s : shrinks s (parse_string s).
Proof.
  induction s as [s IH] using (induction_ltof1 _ (@length _)). unfold ltof in IH.
  destruct s as [|c s]; [done|].
  assert (forall s' x, (length s' < length (c :: s))%nat ->
            shrinks (c :: s) (prod_map (cons x) id <$> parse_string s')) as R.
  { intros s' x H. apply shrinks_map. apply (shrinks_le s'); [lia|]. by apply IH. }
  cbn [parse_string].
  repeat match goal with
  | |- shrinks _ (if ?b then _ else _) => destruct b
  | |- shrinks _ (match ?x with _ => _ end) => destruct x
  end; try exact I; try (apply R; simpl; lia); simpl; lia.
Qed.

Lemma parse_exponent_le s e r : parse_exponent s = Some (e, r) -> (length r <= length s)%nat.
Proof.
  destruct s as [|c s]; simpl; [by intros [= <- <-]|]. destruct (_ || _); [|by intros [= <- <-]; simpl].
  match goal with |- context [match ?x with (sg, s1) => _ end] => destruct x as [sg s1] eqn:E1 end.
  assert (length s1 <= length s)%nat as H1.
  { destruct s as [|d s']; [by injection E1 as <- <-|]. revert E1. repeat case_match; intros [= <- <-]; simpl; lia. }
  pose proof (span_digits_le s1) as H2. destruct (span_digits s1) as [ds rest]. simpl in H2.
  destruct ds; [done|]. intros E. apply (inj Some) in E. injection E as _ <-. simpl; lia.
Qed.

Lemma parse_number_shrinks neg s : shrinks s (parse_number neg s).
Proof.
  unfold parse_number. destruct (span_digits s) as [ds s1] eqn:E.
  assert (match ds with [] => True | _ => (length s1 < length s)%nat end) as H1.
  { destruct s as [|c s]; simpl in E; [by injection E as <- <-|]. destruct (is_digit c).
    - pose proof (span_digits_le s). destruct (span_digits s). simpl in *. injection E as <- <-. simpl. lia.
    - by injection E as <- <-. }
  destruct ds as [|d ds]; [done|]. case_match; [done|].
  match goal with |- context [match ?x with (_, _) => _ end] => destruct x as [[fr_ok fr] s2] eqn:E2 end.
  assert (length s2 <= length s1)%nat as H2.
  { destruct s1 as [|c s1]; [by injection E2 as <- <- <-|]. destruct (c =? 46)%N.
    - pose proof (span_digits_le s1). destruct (span_digits s1). injection E2 as <- <- <-. simpl in *. lia.
    - by injection E2 as <- <- <-. }
  destruct fr_ok; [|done]. simpl. destruct (parse_exponent s2) as [[e r]|] eqn:E3; [|done].
  apply parse_exponent_le in E3. simpl. lia.
Qed.

Lemma strip_shrinks p s r : p <> [] -> strip p s = Some r -> (length r < length s)%nat.
Proof.
  unfold strip. intros Hp. destruct (startsWith s p) eqn:E; [|done]. intros [= <-].
  apply startsWith_app in E as [t ->]. rewrite drop_app_length, length_app. destruct p; [done|simpl; lia].
Qed.

Lemma strip_words_shrinks s :
  shrinks s (match strip (u "null") s, strip (u "true") s, strip (u "false") s with
             | Some r, _, _ => Some (JNull, r)
             | None, Some r, _ => Some (JBool true, r)
             | None, None, Some r => Some (JBool false, r)
             | None, None, None => None
             end).
Proof.
  destruct (strip (u "null") s) eqn:E1; [by apply (strip_shrinks _ _ _) in E1|].
  destruct (strip (u "true") s) eqn:E2; [by apply (strip_shrinks _ _ _) in E2|].
  destruct (strip (u "false") s) eqn:E3; [by apply (strip_shrinks _ _ _) in E3|done].
Qed.

Lemma parsers_shrink f :
  (forall s, shrinks s (parse_value f s)) /\ (forall s, shrinks s (parse_elements f s))
  /\ (forall s acc, shrinks s (parse_members f s acc)).
Proof.
  induction f as [|f (IHv & IHe & IHm)]; [done|]. split_and!; intros s.
  - cbn [parse_value]. destruct (skip_ws s) as [|c s'] eqn:E; [done|]. apply skip_ws_cons in E.
    assert (forall (r : option (jsval * jstr)), shrinks (c :: s') r -> shrinks s r) as R.
    { intros r. apply shrinks_le. simpl. lia. }
    assert (forall (r : option (jsval * jstr)), shrinks s' r -> shrinks s r) as R'.
    { intros r. apply shrinks_le. lia. }
    destruct (c =? 34)%N; [apply R', shrinks_map, parse_string_shrinks|].
    destruct (c =? 91)%N.
    { destruct (skip_ws s') as [|d r] eqn:E'; [done|]. apply skip_ws_cons in E'.
      destruct (d =? 93)%N; [simpl; lia|apply R', shrinks_map, IHe]. }
    destruct (c =? 123)%N.
    { destruct (skip_ws s') as [|d r] eqn:E'; [done|]. apply skip_ws_cons in E'.
      destruct (d =? 125)%N; [simpl; lia|apply R', shrinks_map, IHm]. }
    destruct (c =? 45)%N; [apply R', parse_number_shrinks|].
    destruct (is_digit c); [apply R, parse_number_shrinks|apply R, strip_words_shrinks].
  - cbn [parse_elements]. specialize (IHv s). destruct (parse_value f s) as [[v r]|]; [|done].
    simpl in IHv. destruct (skip_ws r) as [|c r'] eqn:E; [done|]. apply skip_ws_cons in E.
    destruct (c =? 44)%N; [|destruct (c =? 93)%N; simpl; [lia|done]].
    apply shrinks_map. apply (shrinks_le r'); [lia|apply IHe].
  - intros acc. cbn [parse_members]. destruct (skip_ws s) as [|q s1] eqn:E; [done|]. apply skip_ws_cons in E.
    destruct (q =? 34)%N; [|done]. simpl. pose proof (parse_string_shrinks s1) as H1.
    destruct (parse_string s1) as [[k s2]|]; [|done]. simpl in H1.
    destruct (skip_ws s2) as [|d s3] eqn:E2; [done|]. apply skip_ws_cons in E2.
    destruct (d =? 58)%N; [|done]. simpl. specialize (IHv s3).
    destruct (parse_value f s3) as [[v r]|]; [|done]. simpl in IHv.
    destruct (skip_ws r) as [|c r'] eqn:E3; [done|]. apply skip_ws_cons in E3.
    destruct (c =? 44)%N; [|destruct (c =? 125)%N; simpl; [lia|done]].
    apply (shrinks_le r'); [lia|apply IHm].
Qed.

Lemma parsers_fuel n :
  (forall s f g, (length s <= n -> 2 * n + 1 <= f -> 2 * n + 1 <= g -> parse_value f s = parse_value g s)%nat)
  /\ (forall s f g, (length s <= n -> 2 * n + 2 <= f -> 2 * n + 2 <= g ->
        parse_elements f s = parse_elements g s)%nat)
  /\ (forall s acc f g, (length s <= n -> 2 * n + 2 <= f -> 2 * n + 2 <= g ->
        parse_members f s acc = parse_members g s acc)%nat).
Proof.
  induction n as [n IH] using lt_wf_ind.
  assert (forall s f g, (length s <= n -> 2 * n + 1 <= f -> 2 * n + 1 <= g ->
            parse_value f s = parse_value g s)%nat) as Hv.
  { intros s [|f] [|g] Hs Hf Hg; try lia. cbn [parse_value].
    destruct (skip_ws s) as [|c s'] eqn:E; [done|]. apply skip_ws_cons in E.
    destruct (IH (n - 1)%nat) as (_ & He & Hm); [lia|].
    rewrite (He s' f g) by lia. by rewrite (Hm s' [] f g) by lia. }
  split_and!; [exact Hv|intros s [|f] [|g] Hs Hf Hg; try lia|intros s acc [|f] [|g] Hs Hf Hg; try lia].
  - cbn [parse_elements]. rewrite (Hv s f g) by lia.
    pose proof (proj1 (parsers_shrink g) s) as H.
    destruct (parse_value g s) as [[v r]|]; [|done]. simpl in H.
    destruct (skip_ws r) as [|c r'] eqn:E; [done|]. apply skip_ws_cons in E.
    destruct (IH (n - 1)%nat) as (_ & He & _); [lia|]. by rewrite (He r' f g) by lia.
  - cbn [parse_members]. destruct (skip_ws s) as [|q s1] eqn:E; [done|]. apply skip_ws_cons in E.
    pose proof (parse_string_shrinks s1) as H1. destruct (parse_string s1) as [[k s2]|]; [|done].
    simpl in H1. destruct (skip_ws s2) as [|d s3] eqn:E2; [done|]. apply skip_ws_cons in E2.
    rewrite (Hv s3 f g) by lia. pose proof (proj1 (parsers_shrink g) s3) as H.
    destruct (parse_value g s3) as [[v r]|]; [|done]. simpl in H.
    destruct (skip_ws r) as [|c r'] eqn:E3; [done|]. apply skip_ws_cons in E3.
    destruct (IH (n - 1)%nat) as (_ & _ & Hm); [lia|]. by rewrite (Hm r' _ f g) by lia.
Qed.

(** The fuel of [JSON_parse] is enough: more never changes a parse. *)
Lemma parse_value_fuel s f : (2 * length s + 2 <= f)%nat -> parse_value f s = parse_value (2 * length s + 2) s.
Proof. intros H. apply (proj1 (parsers_fuel (length s))); lia. Qed.

(** ** Blank texts *)

Lemma trim_blank s : trim s = [] -> Forall (fun c => is_space c = true) s.
Proof.
  intros H. destruct (trimStart_suffix s) as (p & Es & Hp). rewrite Es.
  destruct (trimStart s) as [|c s'] eqn:E; [by rewrite app_nil_r|].
  exfalso. apply trimStart_head in E as Hc. revert H. unfold trim. rewrite E.
  pose proof (trim_nonempty c s' Hc) as Hn. unfold trim in Hn. by rewrite trimStart_id in Hn by congruence.
Qed.

Lemma skip_ws_blank s : Forall (fun c => is_space c = true) s ->
  match skip_ws s with [] => True | c :: _ => is_space c = true end.
Proof. induction 1 as [|c s Hc _ IH]; simpl; [done|]. by destruct (json_space c). Qed.

Lemma JSON_parse_blank s : trim s = [] -> JSON_parse s = None.
Proof.
  intros H%trim_blank%skip_ws_blank. unfold JSON_parse. rewrite Nat.add_comm. cbn [Nat.add parse_value].
  destruct (skip_ws s) as [|c r]; [done|].
  assert (Hc : forall d, is_space d = false -> (c =? d)%N = false).
  { intros d Hd. apply N.eqb_neq. congruence. }
  rewrite !Hc by reflexivity. cbn iota.
  destruct (is_digit c) eqn:Ed; [by apply digit_not_space in Ed; congruence|].
  assert (Hw : forall d w, is_space d = false -> strip (d :: w) (c :: r) = None).
  { intros d w Hd. unfold strip. cbn [startsWith]. by rewrite Hc. }
  assert (strip (u "null") (c :: r) = None) as -> by (by apply Hw).
  assert (strip (u "true") (c :: r) = None) as -> by (by apply Hw).
  by assert (strip (u "false") (c :: r) = None) as -> by (by apply Hw).
Qed.
