(* ===== verification/AuthStore.v ===== *)
(** * The authentication store (src/web/src/stores/auth-store.ts)

    The zustand store behind [useAuthStore]: its state and its five setters.
    An [AuthUser] is kept as the object the server sent; a [LoginSession] and an
    [AuthBundle] are records with the fields of their interfaces. *)

From stdpp Require Import base numbers option list sorting.
From S2P Require Import Prelude Collections JsNumber JsValue.

Abbreviation AuthUser := jsval.

Record LoginSession := mkSession {
  sid : jstr;
  current : bool;
  login_method : jstr;
  ip : jstr;
  user_agent : jstr;
  created_at : num;
  last_active_at : num;
  expires_at : num
}.

Record AuthBundle := mkBundle {
  b_access_token : jstr;
  b_token_type : jstr;
  b_access_expires_at : num;
  b_user : AuthUser;
  b_session : LoginSession
}.

Inductive AuthBootstrapState := idle | checking | complete.

#[export] Instance AuthBootstrapState_eq_dec : EqDecision AuthBootstrapState.
Proof. solve_decision. Defined.

Record AuthState := mkAuth {
  user : option AuthUser;
  accessToken : option jstr;
  accessExpiresAt : option num;
  session : option LoginSession;
  pending2FAFlowToken : option jstr;
  bootstrapState : AuthBootstrapState
}.

(** The initial state of [create]. *)
Definition useAuthStore : AuthState := mkAuth None None None None None idle.

Definition setBundle (b : AuthBundle) (a : AuthState) : AuthState :=
  mkAuth (Some (b_user b)) (Some (b_access_token b)) (Some (b_access_expires_at b))
    (Some (b_session b)) None complete.

Definition setUser (v : option AuthUser) (a : AuthState) : AuthState :=
  mkAuth v (accessToken a) (accessExpiresAt a) (session a) (pending2FAFlowToken a)
    (bootstrapState a).

Definition setPending2FAFlowToken (t : option jstr) (a : AuthState) : AuthState :=
  mkAuth (user a) (accessToken a) (accessExpiresAt a) (session a) t (bootstrapState a).

Definition setBootstrapState (s : AuthBootstrapState) (a : AuthState) : AuthState :=
  mkAuth (user a) (accessToken a) (accessExpiresAt a) (session a) (pending2FAFlowToken a) s.

Definition reset (s : AuthBootstrapState) (a : AuthState) : AuthState :=
  mkAuth None None None None None s.

(** [auth.session?.sid]. *)
Definition session_sid (a : AuthState) : option jstr := sid <$> session a.

(** ** The store's invariant

    The access token, its expiry and the session come and go together, a session has a
    user, and what is stored has the shape the server documents: a nonempty token and
    sid, a positive finite expiry, a user with a positive integer id, a name and a role.
    A user may be stored without a session: [setUser] replaces it alone. *)

Definition user_ok (v : AuthUser) : Prop :=
  exists id username role, get v (u "id") = JNum id /\ isInteger id = true /\ num_ltb (num_of_Z 0) id = true
    /\ get v (u "username") = JStr username /\ get v (u "role") = JNum role.

Definition bundle_ok (tok : jstr) (ex : num) (s : LoginSession) : Prop :=
  tok <> [] /\ sid s <> [] /\ isFinite ex = true /\ num_ltb (num_of_Z 0) ex = true.

Definition auth_ok (a : AuthState) : Prop :=
  match accessToken a, accessExpiresAt a, session a with
  | None, None, None => True
  | Some t, Some e, Some s => bundle_ok t e s /\ is_Some (user a)
  | _, _, _ => False
  end /\ (forall v, user a = Some v -> user_ok v).

Definition AuthBundle_ok (b : AuthBundle) : Prop :=
  bundle_ok (b_access_token b) (b_access_expires_at b) (b_session b) /\ user_ok (b_user b).

Lemma useAuthStore_ok : auth_ok useAuthStore.
Proof. done. Qed.

Lemma setBundle_ok b a : AuthBundle_ok b -> auth_ok (setBundle b a).
Proof. intros [Hb Hu]. split; [split; [exact Hb|done]|]. by intros v [= <-]. Qed.

Lemma setUser_ok v a : user_ok v -> auth_ok a -> auth_ok (setUser (Some v) a).
Proof.
  intros Hv [Ha _]. split; [|by intros w [= <-]]. simpl.
  by destruct (accessToken a), (accessExpiresAt a), (session a); try destruct Ha.
Qed.

Lemma setPending2FAFlowToken_ok t a : auth_ok a -> auth_ok (setPending2FAFlowToken t a).
Proof. done. Qed.

Lemma setBootstrapState_ok s a : auth_ok a -> auth_ok (setBootstrapState s a).
Proof. done. Qed.

Lemma reset_ok s a : auth_ok (reset s a).
Proof. done. Qed.

#[export] Hint Resolve useAuthStore_ok setBundle_ok setUser_ok setPending2FAFlowToken_ok
  setBootstrapState_ok reset_ok : js.

Lemma session_sid_nonempty a s : auth_ok a -> session_sid a = Some s -> s <> [].
Proof.
  intros [H _]. revert H. unfold session_sid.
  destruct (accessToken a), (accessExpiresAt a), (session a); simpl; try done.
  unfold bundle_ok. naive_solver.
Qed.
