(* ===== verification/AuthSync.v ===== *)
(** * Cross-tab session events (src/web/src/lib/auth-session-sync.ts)

    The events a tab publishes when it signs in or out and the filter a tab
    applies to what arrives on the channel. The transport (a [BroadcastChannel]
    or storage events) carries the event's value; the identifier generator and
    the clock are inputs. *)

From Stdlib Require Import ZArith SpecFloat.
From stdpp Require Import base numbers option list sorting.
From S2P Require Import Prelude Collections JsNumber JsValue.

Inductive SyncKind := Authenticated_ev | SignedOut_ev.

#[export] Instance SyncKind_eq_dec : EqDecision SyncKind.
Proof. solve_decision. Defined.

Record AuthSessionSyncEvent := mkEvent {
  ev_kind : SyncKind;
  ev_sid : jstr;
  ev_source : jstr;
  ev_nonce : jstr;
  ev_timestamp : num
}.

Definition kind_str (k : SyncKind) : jstr :=
  match k with Authenticated_ev => u "authenticated" | SignedOut_ev => u "signed_out" end.

(** The event as the transport carries it. *)
Definition event_val (e : AuthSessionSyncEvent) : jsval :=
  JObj [(u "kind", JStr (kind_str (ev_kind e))); (u "sid", JStr (ev_sid e));
        (u "source", JStr (ev_source e)); (u "nonce", JStr (ev_nonce e));
        (u "timestamp", JNum (ev_timestamp e))].

Definition isAuthSessionSyncEvent (v : jsval) : bool :=
  truthy v && is_object v
  && (is_str (get v (u "kind")) (u "authenticated")
      || is_str (get v (u "kind")) (u "signed_out"))
  && is_string (get v (u "sid"))
  && (match get v (u "sid") with JStr s => (0 <? Z.of_nat (length s)) | _ => false end)
  && is_string (get v (u "source"))
  && is_string (get v (u "nonce"))
  && is_number (get v (u "timestamp")).

(** The record behind a value the guard accepts. *)
Definition event_of (v : jsval) : AuthSessionSyncEvent :=
  let s k := match get v k with JStr s => s | _ => [] end in
  mkEvent (if is_str (get v (u "kind")) (u "authenticated") then Authenticated_ev else SignedOut_ev)
    (s (u "sid")) (s (u "source")) (s (u "nonce"))
    (match get v (u "timestamp") with JNum n => n | _ => S754_nan end).

(** [publishAuthSessionEvent]: the event put on the channel, none for an empty
    sid. *)
Definition publishAuthSessionEvent (kind : SyncKind) (sid : jstr)
    (authSyncSource nonce : jstr) (now : Z) : option AuthSessionSyncEvent :=
  if str_truthy sid
  then Some (mkEvent kind sid authSyncSource nonce (num_of_Z now))
  else None.

Definition num_abs (n : num) : num := SFabs n.

(** [deliver] of [subscribeAuthSessionEvents]: the event handed to the listener. *)
Definition deliver (authSyncSource : jstr) (now : Z) (v : jsval) : option AuthSessionSyncEvent :=
  if isAuthSessionSyncEvent v
     && negb (seqb (ev_source (event_of v)) authSyncSource)
     && num_ltb (num_abs (num_sub (num_of_Z now) (ev_timestamp (event_of v)))) (num_of_Z 60000)
  then Some (event_of v) else None.

Lemma event_of_val e : event_of (event_val e) = e.
Proof. destruct e as [[] ? ? ? ?]; vm_compute; reflexivity. Qed.

Lemma event_val_guard e : isAuthSessionSyncEvent (event_val e) = str_truthy (ev_sid e).
Proof. destruct e as [k s ? ? ?]. destruct k, s; vm_compute; reflexivity. Qed.

(** A tab never hears its own events, and hears another tab's fresh ones
    unchanged. *)
Lemma deliver_event src now e :
  deliver src now (event_val e) =
    if str_truthy (ev_sid e) && negb (seqb (ev_source e) src)
       && num_ltb (num_abs (num_sub (num_of_Z now) (ev_timestamp e))) (num_of_Z 60000)
    then Some e else None.
Proof. unfold deliver. by rewrite event_val_guard, event_of_val. Qed.

Lemma deliver_sid src now v e : deliver src now v = Some e -> ev_sid e <> [].
Proof.
  unfold deliver, isAuthSessionSyncEvent. intros H.
  case_match eqn:G; [|done]. injection H as <-.
  bool_to_prop. unfold event_of; simpl.
  destruct (get v (u "sid")) as [| | | |s| |]; try done. bool_to_prop. intros ->. simpl in *. lia.
Qed.
