(* ===== verification/AuthSession.v ===== *)
(** * Authentication sessions (src/web/src/lib/auth-session.ts)

    Shape guards for server responses, the operations on the store (sign-in,
    rotation, sign-out) and the refresh protocol. [createRefreshRunner] is
    parametric in its runtime, so the runner here is too; [runRefresh]
    instantiates it with the tab. The asynchronous calls ([await]) are the points
    where a tab can interleave other work: a tab is a state, and every
    synchronous stretch of the code between two awaits is one action on it. *)

From Stdlib Require Import ZArith SpecFloat.
From stdpp Require Import base numbers option list sorting.
From S2P Require Import Prelude Collections JsNumber JsValue AuthStore AuthSync.

(** ** Guards *)

Definition isRecord (v : jsval) : bool := truthy v && is_object v.

(** [Number.isInteger(v) && Number(v) > 0]. *)
Definition positive_integer (v : jsval) : bool :=
  match v with JNum n => isInteger n && num_ltb (num_of_Z 0) n | _ => false end.

Definition nonempty_string (v : jsval) : bool :=
  match v with JStr s => 0 <? Z.of_nat (length s) | _ => false end.

Definition isAuthUser (v : jsval) : bool :=
  if negb (isRecord v) then false
  else positive_integer (get v (u "id"))
       && is_string (get v (u "username")) && is_number (get v (u "role")).

Definition isLoginSession (v : jsval) : bool :=
  if negb (isRecord v) then false
  else nonempty_string (get v (u "sid"))
       && is_boolean (get v (u "current"))
       && is_string (get v (u "login_method"))
       && is_string (get v (u "ip"))
       && is_string (get v (u "user_agent"))
       && is_number (get v (u "created_at"))
       && is_number (get v (u "last_active_at"))
       && is_number (get v (u "expires_at")).

Definition hasValidTokenFields (v : jsval) : bool :=
  nonempty_string (get v (u "access_token"))
  && nonempty_string (get v (u "token_type"))
  && match get v (u "access_expires_at") with
     | JNum n => isFinite n && num_ltb (num_of_Z 0) n
     | _ => false
     end.

Definition isAuthBundle (v : jsval) : bool :=
  if negb (isRecord v) then false
  else hasValidTokenFields v && isAuthUser (get v (u "user"))
       && isLoginSession (get v (u "session")).

(** The records behind values the guards accept. *)
Definition as_str (v : jsval) : jstr := match v with JStr s => s | _ => [] end.
Definition as_num (v : jsval) : num := match v with JNum n => n | _ => S754_nan end.

Definition session_of (v : jsval) : LoginSession :=
  mkSession (as_str (get v (u "sid"))) (is_true (get v (u "current")))
    (as_str (get v (u "login_method"))) (as_str (get v (u "ip")))
    (as_str (get v (u "user_agent"))) (as_num (get v (u "created_at")))
    (as_num (get v (u "last_active_at"))) (as_num (get v (u "expires_at"))).

Definition bundle_of (v : jsval) : AuthBundle :=
  mkBundle (as_str (get v (u "access_token"))) (as_str (get v (u "token_type")))
    (as_num (get v (u "access_expires_at"))) (get v (u "user"))
    (session_of (get v (u "session"))).

(** [(value) => (isAuthBundle(value) ? value : null)]. *)
Definition parseBundle (v : jsval) : option AuthBundle :=
  if isAuthBundle v then Some (bundle_of v) else None.

Definition isAuthTokenRotation (v : jsval) : bool :=
  isRecord v && hasValidTokenFields v && is_str (get v (u "token_type")) (u "Bearer")
  && isLoginSession (get v (u "session")) && truthy (get (get v (u "session")) (u "current")).

(** ** The tab *)

Inductive RefreshError := AuthRefreshSupersededError | RequestError (e : jsval).

Inductive RefreshOutcome :=
| Authenticated (b : AuthBundle)
| Anonymous
| Transient_error (e : RefreshError)
| Out_of_sync (code : jstr).

Record AuthRefreshHTTPResponse := mkResponse {
  status : Z;
  data : jsval;
  error : jsval
}.

(** Where a refresh stands: queued for the browser lock, waiting for the
    response to a request, waiting out a race delay, settled with an outcome, or
    rejected because the lock request was. *)
Inductive Pc :=
| PLock
| PRequest (raceAttempt : nat) (allowMismatchRetry : bool) (expectedSID : option jstr)
| PWait (raceAttempt : nat) (allowMismatchRetry : bool) (delay : Z)
| PDone (o : RefreshOutcome)
| PRejected.

Record Refresh := mkRefresh { r_epoch : nat; r_pc : Pc }.

(** The module state of a tab, with the environment it reads: its event source,
    its identifier generator and how often it was used, and its clock in
    milliseconds. *)
Record Tab := mkTab {
  auth : AuthState;
  authEpoch : nat;
  refreshPromise : option Refresh;
  published : list AuthSessionSyncEvent;
  source : jstr;
  rnd : nat -> jstr;
  ids : nat;
  clock : Z
}.

Definition set_auth (f : AuthState -> AuthState) (t : Tab) : Tab :=
  mkTab (f (auth t)) (authEpoch t) (refreshPromise t) (published t) (source t) (rnd t) (ids t)
    (clock t).

Definition bump_epoch (t : Tab) : Tab :=
  mkTab (auth t) (S (authEpoch t)) (refreshPromise t) (published t) (source t) (rnd t) (ids t)
    (clock t).

Definition set_refresh (r : option Refresh) (t : Tab) : Tab :=
  mkTab (auth t) (authEpoch t) r (published t) (source t) (rnd t) (ids t) (clock t).

Definition set_clock (c : Z) (t : Tab) : Tab :=
  mkTab (auth t) (authEpoch t) (refreshPromise t) (published t) (source t) (rnd t) (ids t) c.

Definition publish (k : SyncKind) (s : jstr) (t : Tab) : Tab :=
  match publishAuthSessionEvent k s (source t) (rnd t (ids t)) (clock t) with
  | Some e =>
      mkTab (auth t) (authEpoch t) (refreshPromise t) (published t ++ [e]) (source t) (rnd t)
        (S (ids t)) (clock t)
  | None => t
  end.

(** ** Operations *)

Definition applyAuthBundle (b : AuthBundle) (synchronizeTabs : bool) (t : Tab) : Tab :=
  let previousSID := session_sid (auth t) in
  let t := set_auth (setBundle b) (bump_epoch t) in
  if synchronizeTabs && negb (bool_decide (previousSID = Some (sid (b_session b))))
  then publish Authenticated_ev (sid (b_session b)) t
  else t.

(** [inl] is the message of the [AuthRotationError] thrown. *)
Definition applyAuthRotation (v : jsval) (t : Tab) : jstr + Tab :=
  if negb (isAuthTokenRotation v) then inl (u "Invalid authentication rotation response")
  else match user (auth t), session (auth t) with
  | Some usr, Some ses =>
      let b := bundle_of v in
      if negb (seqb (sid (b_session b)) (sid ses))
      then inl (u "Authentication rotation session mismatch")
      else inr (applyAuthBundle
                  (mkBundle (b_access_token b) (b_token_type b) (b_access_expires_at b) usr
                     (b_session b)) false t)
  | _, _ => inl (u "Authentication rotation has no active session")
  end.

Definition clearAuthentication (synchronizeTabs : bool) (s : AuthBootstrapState) (t : Tab) : Tab :=
  let sid := session_sid (auth t) in
  let t := set_auth (reset s) (bump_epoch t) in
  match sid with
  | Some sid => if synchronizeTabs then publish SignedOut_ev sid t else t
  | None => t
  end.

(** ** The refresh runner *)

(** [AuthRefreshRuntime] over a state [S]; [request] and [wait] are the awaits
    and belong to the environment. *)
Record AuthRefreshRuntime (S : Type) := mkRuntime {
  rt_getExpectedSID : S -> option jstr;
  rt_parseBundle : jsval -> option AuthBundle;
  rt_acceptBundle : AuthBundle -> S -> S;
  rt_clear : bool -> option AuthBootstrapState -> S -> S;
  rt_markTransient : S -> S;
  rt_isCurrent : option (S -> bool)
}.
Arguments mkRuntime {S}.
Arguments rt_getExpectedSID {S}.
Arguments rt_parseBundle {S}.
Arguments rt_acceptBundle {S}.
Arguments rt_clear {S}.
Arguments rt_markTransient {S}.
Arguments rt_isCurrent {S}.

Definition refreshRaceDelays : list Z := [80; 200; 500].

(** What a stretch of [run] ends in: an outcome, or an await. [RunAgain] is the
    recursive call without an await in between. *)
Inductive Next :=
| Finished (o : RefreshOutcome)
| Requesting (raceAttempt : nat) (allowMismatchRetry : bool) (expectedSID : option jstr)
| Waiting (raceAttempt : nat) (allowMismatchRetry : bool) (delay : Z)
| RunAgain (raceAttempt : nat) (allowMismatchRetry : bool).

Section Runner.
Context {S : Type} (runtime : AuthRefreshRuntime S).

(** [runtime.isCurrent && !runtime.isCurrent()]. *)
Definition stale (s : S) : bool :=
  match rt_isCurrent runtime with Some f => negb (f s) | None => false end.

Definition superseded : RefreshOutcome := Transient_error AuthRefreshSupersededError.

(** [run] up to the request. *)
Definition run_enter (raceAttempt : nat) (allowMismatchRetry : bool) (s : S) : Next :=
  if stale s then Finished superseded
  else Requesting raceAttempt allowMismatchRetry (rt_getExpectedSID runtime s).

(** [run] once the response is read: [accepted] is the bundle of a successful
    response. *)
Definition handle_response (raceAttempt : nat) (allowMismatchRetry : bool)
    (response : AuthRefreshHTTPResponse) (code : option jstr) (accepted : option AuthBundle)
    (s : S) : S * Next :=
  let conflict c := (status response =? 409) && bool_decide (code = Some c) in
  match accepted with
  | Some bundle => (rt_acceptBundle runtime bundle s, Finished (Authenticated bundle))
  | None =>
      if conflict (u "AUTH_REFRESH_RACE") then
        match refreshRaceDelays !! raceAttempt with
        | Some delay => (s, Waiting (raceAttempt + 1) allowMismatchRetry delay)
        | None => (rt_clear runtime false None s, Finished (Out_of_sync (default [] code)))
        end
      else if conflict (u "AUTH_SESSION_MISMATCH") then
        if allowMismatchRetry
        then (rt_clear runtime false (Some idle) s, RunAgain 0 false)
        else (rt_clear runtime false None s, Finished (Out_of_sync (default [] code)))
      else if status response =? 401 then
        (rt_clear runtime true None s, Finished Anonymous)
      else if (status response =? 0) || (500 <=? status response) || (status response =? 429)
      then
        (rt_markTransient runtime s,
         Finished (Transient_error (RequestError
           (match error response with JUndef | JNull => data response | e => e end))))
      else
        (rt_clear runtime false None s,
         Finished (Out_of_sync (default (u "AUTH_INVALID_REFRESH_RESPONSE") code)))
  end.

(** [responseData?.code] where it is a string. *)
Definition response_code (response : AuthRefreshHTTPResponse) : option jstr :=
  let responseData := if isRecord (data response) then data response else JUndef in
  match get responseData (u "code") with JStr c => Some c | _ => None end.

(** The bundle, where [responseData?.success === true && bundle]. *)
Definition response_bundle (response : AuthRefreshHTTPResponse) : option AuthBundle :=
  let responseData := if isRecord (data response) then data response else JUndef in
  if is_true (get responseData (u "success"))
  then rt_parseBundle runtime (get responseData (u "data")) else None.

(** [run] from the response on. *)
Definition run_response (raceAttempt : nat) (allowMismatchRetry : bool)
    (response : AuthRefreshHTTPResponse) (s : S) : S * Next :=
  if stale s then (s, Finished superseded)
  else handle_response raceAttempt allowMismatchRetry response (response_code response)
         (response_bundle response) s.

(** The whole of [run], with the responses the server gives and nothing else
    happening in between. [None] when the responses run out. *)
Fixpoint run (raceAttempt : nat) (allowMismatchRetry : bool)
    (responses : list AuthRefreshHTTPResponse) (s : S) : option (S * RefreshOutcome) :=
  match run_enter raceAttempt allowMismatchRetry s, responses with
  | Finished o, _ => Some (s, o)
  | _, [] => None
  | _, response :: responses =>
      match run_response raceAttempt allowMismatchRetry response s with
      | (s, Finished o) => Some (s, o)
      | (s, Waiting n m _) | (s, RunAgain n m) | (s, Requesting n m _) => run n m responses s
      end
  end.

(** The function [createRefreshRunner] returns. *)
Definition createRefreshRunner (responses : list AuthRefreshHTTPResponse) (s : S)
    : option (S * RefreshOutcome) := run 0 true responses s.
End Runner.

(** ** The runner in a tab *)

Definition runRefresh (refreshEpoch : nat) : AuthRefreshRuntime Tab :=
  mkRuntime
    (fun t => session_sid (auth t))
    parseBundle
    (fun b => applyAuthBundle b false)
    (fun synchronizeTabs s t =>
       if negb synchronizeTabs && bool_decide (s = Some idle)
       then set_auth (reset idle) t
       else clearAuthentication synchronizeTabs (default complete s) t)
    (set_auth (setBootstrapState idle))
    (Some (fun t => bool_decide (authEpoch t = refreshEpoch))).

(** Runs the recursive calls up to the next await. *)
Definition settle_next (e : nat) (n : Next) (t : Tab) : Pc :=
  match n with
  | Finished o => PDone o
  | Requesting r m s => PRequest r m s
  | Waiting r m d => PWait r m d
  | RunAgain r m =>
      match run_enter (runRefresh e) r m t with
      | Requesting r m s => PRequest r m s
      | Finished o => PDone o
      | Waiting r m d => PWait r m d
      | RunAgain _ _ => PDone superseded
      end
  end.

(** [performRefreshWithBrowserLock] up to its first await: queued for the lock
    where the browser has one, else inside [runRefresh] at once. *)
Definition performRefreshWithBrowserLock (hasLocks : bool) (refreshEpoch : nat) (t : Tab) : Pc :=
  if hasLocks then PLock
  else settle_next refreshEpoch (run_enter (runRefresh refreshEpoch) 0 true t) t.

Definition refreshAuthentication (hasLocks : bool) (t : Tab) : Tab :=
  match refreshPromise t with
  | Some _ => t
  | None =>
      let refreshEpoch := authEpoch t in
      set_refresh (Some (mkRefresh refreshEpoch
        (performRefreshWithBrowserLock hasLocks refreshEpoch t))) t
  end.

(** [Math.floor(Date.now() / 1000)]. *)
Definition now_seconds (t : Tab) : num := num_of_Z (clock t / 1000).

Definition currentValidAuthBundle (t : Tab) : option AuthBundle :=
  match user (auth t), accessToken (auth t), accessExpiresAt (auth t), session (auth t) with
  | Some usr, Some tok, Some ex, Some ses =>
      if str_truthy tok && num_truthy ex && negb (num_leb ex (now_seconds t))
      then Some (mkBundle tok (u "Bearer") ex usr ses) else None
  | _, _, _, _ => None
  end.

(** The synchronous part of [bootstrapAuthentication]: an outcome, or [None] when
    it returns the promise of [refreshAuthentication]. *)
Definition bootstrapAuthentication (hasLocks : bool) (t : Tab) : Tab * option RefreshOutcome :=
  match currentValidAuthBundle t with
  | Some b => (set_auth (setBootstrapState complete) t, Some (Authenticated b))
  | None =>
      let hasStaleSession :=
        match user (auth t), session (auth t) with Some _, Some _ => true | _, _ => false end in
      if bool_decide (bootstrapState (auth t) = complete) && negb hasStaleSession
      then (t, Some Anonymous)
      else (refreshAuthentication hasLocks (set_auth (setBootstrapState checking) t), None)
  end.

(** The [Authorization] entry of [getCommonHeaders]; the other entry is constant. *)
Definition getCommonHeaders (t : Tab) : list (jstr * jstr) :=
  (u "Content-Type", u "application/json") ::
  match accessToken (auth t) with
  | Some tok => if str_truthy tok then [(u "Authorization", u "Bearer " ++ tok)] else []
  | None => []
  end.

(** [token && expiresAt && expiresAt > bound] on the store. *)
Definition token_beyond (bound : Z) (t : Tab) : bool :=
  match accessToken (auth t), accessExpiresAt (auth t) with
  | Some tok, Some ex => str_truthy tok && num_truthy ex && num_ltb (num_of_Z bound) ex
  | _, _ => false
  end.

(** [getFreshAuthHeaders] before the await: the headers, or a refresh first. *)
Definition getFreshAuthHeaders_enter (hasLocks : bool) (t : Tab)
    : Tab * option (list (jstr * jstr)) :=
  let refreshBefore := clock t / 1000 + 60 in
  if token_beyond refreshBefore t then (t, Some (getCommonHeaders t))
  else (refreshAuthentication hasLocks t, None).

(** ... and from the outcome on; [inl] is the message key of the error thrown. *)
Definition getFreshAuthHeaders_resume (outcome : RefreshOutcome) (t : Tab)
    : jstr + list (jstr * jstr) :=
  match outcome with
  | Authenticated _ => inr (getCommonHeaders t)
  | _ =>
      if token_beyond (clock t / 1000) t then inr (getCommonHeaders t)
      else match outcome with
           | Transient_error _ => inl (u "Request failed")
           | _ => inl (u "Session expired!")
           end
  end.

(** ** Callers *)

(** The sign-in pages: the answer of the server is checked, then applied. *)
Definition sign_in (v : jsval) (t : Tab) : Tab :=
  if isAuthBundle v then applyAuthBundle (bundle_of v) true t else t.

(** The two cards of the profile that write the user: [{ ...currentUser, field: value }],
    with the user the card was rendered with. *)
Inductive UserField := F_sidebar_modules | F_setting.

Definition field_key (f : UserField) : jstr :=
  match f with F_sidebar_modules => u "sidebar_modules" | F_setting => u "setting" end.

Definition edited_user (currentUser : AuthUser) (f : UserField) (value : jstr) : AuthUser :=
  match currentUser with
  | JObj ps => JObj (map_set ps (field_key f) (JStr value))
  | _ => JObj [(field_key f, JStr value)]
  end.

(** ** Interleavings

    One action is one synchronous stretch of code. The first group is the rest
    of the application calling into the session; the second is the refresh in
    flight being resumed. *)
Inductive action :=
| ASignIn (v : jsval)
| AApply (b : AuthBundle) (synchronizeTabs : bool)
| ARotate (v : jsval)
| AClear (synchronizeTabs : bool)
| ASaveUser (currentUser : AuthUser) (f : UserField) (value : jstr)
| ASetPending (v : option jstr)
| ABootstrap (hasLocks : bool)
| ARefresh (hasLocks : bool)
| AClock (c : Z)
| ALock (granted : bool)
| AResponse (r : AuthRefreshHTTPResponse)
| ATimer
| ASettle.

(** The actions that resume the refresh in flight. *)
Definition internal (a : action) : bool :=
  match a with ALock _ | AResponse _ | ATimer | ASettle => true | _ => false end.

Definition resume (a : action) (r : Refresh) (t : Tab) : Tab :=
  let e := r_epoch r in
  let goto pc t := set_refresh (Some (mkRefresh e pc)) t in
  match a, r_pc r with
  | ALock true, PLock => goto (settle_next e (run_enter (runRefresh e) 0 true t) t) t
  | ALock false, PLock => goto PRejected t
  | AResponse resp, PRequest n m _ =>
      let '(t', next) := run_response (runRefresh e) n m resp t in
      goto (settle_next e next t') t'
  | ATimer, PWait n m _ => goto (settle_next e (run_enter (runRefresh e) n m t) t) t
  | ASettle, (PDone _ | PRejected) => set_refresh None t
  | _, _ => t
  end.

Arguments resume : simpl never.

Definition act (a : action) (t : Tab) : Tab :=
  match a with
  | ASignIn v => sign_in v t
  | AApply b s => applyAuthBundle b s t
  | ARotate v => match applyAuthRotation v t with inr t' => t' | inl _ => t end
  | AClear s => clearAuthentication s complete t
  | ASaveUser usr f value => set_auth (setUser (Some (edited_user usr f value))) t
  | ASetPending v => set_auth (setPending2FAFlowToken v) t
  | ABootstrap l => fst (bootstrapAuthentication l t)
  | ARefresh l => refreshAuthentication l t
  | AClock c => set_clock c t
  | _ => match refreshPromise t with Some r => resume a r t | None => t end
  end.

Definition exec (acts : list action) (t : Tab) : Tab := fold_left (fun t a => act a t) acts t.

(** A fresh tab. *)
Definition init_tab (rnd : nat -> jstr) (c : Z) : Tab :=
  mkTab useAuthStore 0 None [] (rnd 0%nat) rnd 1 c.

(** What an action assumes, after the states [h] the tab has been in. [AApply] is the form
    of the one-time code, which signs in with the answer of the server without a check:
    the answer has the declared type. A card of the profile edits a user it read from the
    store, now or earlier. *)
Definition action_ok (h : list Tab) (a : action) : Prop :=
  match a with
  | AApply b _ => AuthBundle_ok b
  | ASaveUser usr _ _ => exists t, t ∈ h /\ user (auth t) = Some usr
  | _ => True
  end.

(** The states of a tab so far, the latest first. *)
Inductive trace : list Tab -> Prop :=
| trace_init rnd c : trace [init_tab rnd c]
| trace_step t h a : trace (t :: h) -> action_ok (t :: h) a -> trace (act a t :: t :: h).

Definition reachable (t : Tab) : Prop := exists h, trace (t :: h).
