(* ===== verification/AuthSessionProps.v ===== *)
(** * Properties of authentication sessions

    The tab invariant over every interleaving, termination of the refresh
    protocol with its request bound, the store after each outcome, and the
    guarantee that a refresh never overwrites what happened while it was in
    flight. *)

From Stdlib Require Import ZArith SpecFloat.
From stdpp Require Import base numbers option list sorting.
From S2P Require Import Prelude Collections JsNumber JsValue AuthStore AuthSync AuthSession.

(** ** Projections of the operations *)

Lemma auth_publish k s t : auth (publish k s t) = auth t.
Proof. unfold publish. by destruct (publishAuthSessionEvent _ _ _ _ _). Qed.
Lemma epoch_publish k s t : authEpoch (publish k s t) = authEpoch t.
Proof. unfold publish. by destruct (publishAuthSessionEvent _ _ _ _ _). Qed.
Lemma refresh_publish k s t : refreshPromise (publish k s t) = refreshPromise t.
Proof. unfold publish. by destruct (publishAuthSessionEvent _ _ _ _ _). Qed.
Lemma source_publish k s t : source (publish k s t) = source t.
Proof. unfold publish. by destruct (publishAuthSessionEvent _ _ _ _ _). Qed.

Lemma auth_applyAuthBundle b s t : auth (applyAuthBundle b s t) = setBundle b (auth t).
Proof. unfold applyAuthBundle. destruct (_ && _); by rewrite ?auth_publish. Qed.
Lemma epoch_applyAuthBundle b s t : authEpoch (applyAuthBundle b s t) = S (authEpoch t).
Proof. unfold applyAuthBundle. destruct (_ && _); by rewrite ?epoch_publish. Qed.
Lemma refresh_applyAuthBundle b s t : refreshPromise (applyAuthBundle b s t) = refreshPromise t.
Proof. unfold applyAuthBundle. destruct (_ && _); by rewrite ?refresh_publish. Qed.
Lemma source_applyAuthBundle b s t : source (applyAuthBundle b s t) = source t.
Proof. unfold applyAuthBundle. destruct (_ && _); by rewrite ?source_publish. Qed.

Lemma auth_clear s st t : auth (clearAuthentication s st t) = reset st (auth t).
Proof. unfold clearAuthentication. destruct (session_sid _), s; by rewrite ?auth_publish. Qed.
Lemma epoch_clear s st t : authEpoch (clearAuthentication s st t) = S (authEpoch t).
Proof. unfold clearAuthentication. destruct (session_sid _), s; by rewrite ?epoch_publish. Qed.
Lemma refresh_clear s st t : refreshPromise (clearAuthentication s st t) = refreshPromise t.
Proof. unfold clearAuthentication. destruct (session_sid _), s; by rewrite ?refresh_publish. Qed.
Lemma source_clear s st t : source (clearAuthentication s st t) = source t.
Proof. unfold clearAuthentication. destruct (session_sid _), s; by rewrite ?source_publish. Qed.

#[export] Hint Rewrite auth_publish epoch_publish refresh_publish source_publish
  auth_applyAuthBundle epoch_applyAuthBundle refresh_applyAuthBundle source_applyAuthBundle
  auth_clear epoch_clear refresh_clear source_clear : js.

(** ** What the guards guarantee *)

Lemma nonempty_string_as_str v : nonempty_string v = true -> as_str v <> [].
Proof. destruct v as [| | | |[|]| |]; done. Qed.

Lemma isAuthUser_ok v : isAuthUser v = true -> user_ok v.
Proof.
  unfold isAuthUser, positive_integer, user_ok. destruct (negb (isRecord v)); [done|]. intros H. bool_to_prop.
  destruct (get v (u "id")) as [| | |id| | |] eqn:E1; try done. bool_to_prop.
  destruct (get v (u "username")) as [| | | |name| |] eqn:E2; try done.
  destruct (get v (u "role")) as [| | |role| | |] eqn:E3; try done. by exists id, name, role.
Qed.

Lemma hasValidTokenFields_ok v s :
  hasValidTokenFields v = true -> isLoginSession s = true ->
  bundle_ok (as_str (get v (u "access_token"))) (as_num (get v (u "access_expires_at")))
    (session_of s).
Proof.
  unfold hasValidTokenFields, isLoginSession. intros Hv Hs.
  destruct (negb (isRecord s)); [done|]. bool_to_prop.
  repeat split; try by apply nonempty_string_as_str.
  all: destruct (get v (u "access_expires_at")); try done; by bool_to_prop.
Qed.

Lemma isAuthBundle_ok v : isAuthBundle v = true -> AuthBundle_ok (bundle_of v).
Proof.
  unfold isAuthBundle. destruct (negb (isRecord v)); [done|]. intros H. bool_to_prop.
  split; [by apply hasValidTokenFields_ok|by apply isAuthUser_ok].
Qed.

Lemma parseBundle_ok v b : parseBundle v = Some b -> AuthBundle_ok b.
Proof. unfold parseBundle. destruct (isAuthBundle v) eqn:E; [|done]. intros [= <-]. by apply isAuthBundle_ok. Qed.

(** Writing the other members keeps the shape of a user. *)
Lemma edited_user_ok usr f value : user_ok usr -> user_ok (edited_user usr f value).
Proof.
  intros (id & name & role & H1 & H2 & H3 & H4 & H5). exists id, name, role.
  destruct usr as [| | | | | |ps]; try done.
  cbn [edited_user get] in *. destruct f; by rewrite !map_get_set_ne.
Qed.

Lemma applyAuthRotation_inv v t t' :
  applyAuthRotation v t = inr t' ->
  exists usr ses b, user (auth t) = Some usr /\ session (auth t) = Some ses /\
    sid (b_session b) = sid ses /\ b_user b = usr /\ (user_ok usr -> AuthBundle_ok b) /\
    t' = applyAuthBundle b false t.
Proof.
  unfold applyAuthRotation, isAuthTokenRotation. destruct (negb _) eqn:E; [done|].
  destruct (user (auth t)) as [usr|], (session (auth t)) as [ses|]; try done.
  destruct (negb (seqb _ _)) eqn:E'; [done|]. intros [= <-]. bool_to_prop.
  apply seqb_eq in E'. set (b := bundle_of v).
  exists usr, ses, (mkBundle (b_access_token b) (b_token_type b) (b_access_expires_at b) usr
                 (b_session b)).
  split_and!; try done. intros Hu. split; [by apply hasValidTokenFields_ok|done].
Qed.

(** ** The tab invariant *)

(** The store is well formed, the refresh in flight started at an epoch the tab
    has been through, and every event published carries the tab's source and a
    sid. *)
Definition tab_ok (t : Tab) : Prop :=
  auth_ok (auth t) /\
  (forall r, refreshPromise t = Some r -> (r_epoch r <= authEpoch t)%nat) /\
  Forall (fun e => ev_source e = source t /\ ev_sid e <> []) (published t).

Lemma publish_published k s t :
  published (publish k s t) =
    published t ++ (if str_truthy s
                    then [mkEvent k s (source t) (rnd t (ids t)) (num_of_Z (clock t))] else []).
Proof.
  unfold publish, publishAuthSessionEvent. destruct (str_truthy s); [done|].
  by rewrite app_nil_r.
Qed.

Lemma publish_ok k s t : tab_ok t -> tab_ok (publish k s t).
Proof.
  intros (Ha & Hr & Hp). unfold tab_ok. autorewrite with js. split_and!; try done.
  rewrite publish_published. apply Forall_app. split; [done|].
  destruct s; simpl; repeat constructor; done.
Qed.

Lemma applyAuthBundle_ok b s t : AuthBundle_ok b -> tab_ok t -> tab_ok (applyAuthBundle b s t).
Proof.
  intros Hb (Ha & Hr & Hp). assert (tab_ok (set_auth (setBundle b) (bump_epoch t))).
  { split_and!; [by apply setBundle_ok| |done]. intros r E. simpl. specialize (Hr r E). lia. }
  unfold applyAuthBundle. destruct (_ && _); [by apply publish_ok|done].
Qed.

Lemma clearAuthentication_ok s st t : tab_ok t -> tab_ok (clearAuthentication s st t).
Proof.
  intros (Ha & Hr & Hp). assert (tab_ok (set_auth (reset st) (bump_epoch t))).
  { split_and!; [by apply reset_ok| |done]. intros r E. simpl. specialize (Hr r E). lia. }
  unfold clearAuthentication. destruct (session_sid _), s; try done. by apply publish_ok.
Qed.

Lemma set_auth_ok f t : (auth_ok (auth t) -> auth_ok (f (auth t))) -> tab_ok t -> tab_ok (set_auth f t).
Proof. intros Hf (Ha & Hr & Hp). split_and!; [by apply Hf|done|done]. Qed.

Lemma set_refresh_ok r t :
  (forall r', r = Some r' -> (r_epoch r' <= authEpoch t)%nat) -> tab_ok t -> tab_ok (set_refresh r t).
Proof. intros Hr' (Ha & Hr & Hp). split_and!; done. Qed.

#[export] Hint Resolve publish_ok applyAuthBundle_ok clearAuthentication_ok parseBundle_ok : js.

Lemma response_bundle_ok e r b : response_bundle (runRefresh e) r = Some b -> AuthBundle_ok b.
Proof. unfold response_bundle. destruct (is_true _); [apply parseBundle_ok|done]. Qed.

Lemma run_response_ok e n m r t :
  tab_ok t -> tab_ok (fst (run_response (runRefresh e) n m r t)).
Proof.
  intros Ht. unfold run_response, handle_response.
  repeat (break_goal; simpl; try done); simpl;
    eauto using set_auth_ok, setBootstrapState_ok, reset_ok, response_bundle_ok with js.
Qed.

Lemma run_response_frame e n m r t :
  let t' := fst (run_response (runRefresh e) n m r t) in
  refreshPromise t' = refreshPromise t /\ (authEpoch t <= authEpoch t')%nat.
Proof.
  unfold run_response, handle_response. repeat (break_goal; simpl; try (split; [done|lia])); simpl;
    autorewrite with js; split; try done; lia.
Qed.

Lemma resume_ok a r t : tab_ok t -> refreshPromise t = Some r -> tab_ok (resume a r t).
Proof.
  intros Ht Hr. pose proof (proj1 (proj2 Ht) r Hr) as Hle.
  assert (forall pc t', tab_ok t' -> (authEpoch t <= authEpoch t')%nat ->
            tab_ok (set_refresh (Some (mkRefresh (r_epoch r) pc)) t')) as Hgoto.
  { intros pc t' Ht' Hle'. apply set_refresh_ok; [|done]. intros r' [= <-]. simpl. lia. }
  unfold resume. destruct a as [| | | | | | | | |[]|resp| |], (r_pc r) as [|n m s|n m d|o|];
    try done; try (apply Hgoto; [done|lia]); try by apply set_refresh_ok.
  pose proof (run_response_ok (r_epoch r) n m resp t Ht) as Hok.
  pose proof (run_response_frame (r_epoch r) n m resp t) as [_ Hep].
  destruct (run_response _ n m resp t) as [t' next]. by apply Hgoto.
Qed.

Lemma refreshAuthentication_ok l t : tab_ok t -> tab_ok (refreshAuthentication l t).
Proof.
  intros Ht. unfold refreshAuthentication. destruct (refreshPromise t) eqn:E; [done|].
  apply set_refresh_ok; [|done]. intros r [= <-]. simpl. lia.
Qed.

Lemma bootstrapAuthentication_ok l t : tab_ok t -> tab_ok (fst (bootstrapAuthentication l t)).
Proof.
  intros Ht. unfold bootstrapAuthentication. destruct (currentValidAuthBundle t); simpl.
  - by apply set_auth_ok.
  - destruct (_ && _); simpl; [done|]. apply refreshAuthentication_ok. by apply set_auth_ok.
Qed.

Lemma set_clock_ok c t : tab_ok t -> tab_ok (set_clock c t).
Proof. by intros (? & ? & ?). Qed.

Lemma sign_in_ok v t : tab_ok t -> tab_ok (sign_in v t).
Proof.
  intros Ht. unfold sign_in. destruct (isAuthBundle v) eqn:E; [|done]. by apply applyAuthBundle_ok, Ht; apply isAuthBundle_ok.
Qed.

Lemma act_ok h a t : action_ok h a -> Forall tab_ok h -> tab_ok t -> tab_ok (act a t).
Proof.
  intros Ha Hh Ht. destruct a; simpl;
    try (destruct (refreshPromise t) eqn:E; [by apply resume_ok|done]);
    try (by apply set_auth_ok);
    eauto using sign_in_ok, applyAuthBundle_ok, clearAuthentication_ok, refreshAuthentication_ok,
      bootstrapAuthentication_ok, set_clock_ok.
  - destruct (applyAuthRotation v t) as [|t'] eqn:E; [done|].
    apply applyAuthRotation_inv in E as (usr & ses & b & Hu & _ & _ & _ & Hb & ->).
    apply applyAuthBundle_ok; [|done]. apply Hb, (proj2 (proj1 Ht)), Hu.
  - destruct Ha as (t' & Ht' & Hu). rewrite Forall_forall in Hh. specialize (Hh t' Ht').
    apply set_auth_ok; [|done]. apply setUser_ok, edited_user_ok, (proj2 (proj1 Hh)), Hu.
Qed.

Lemma trace_tab_ok h : trace h -> Forall tab_ok h.
Proof.
  induction 1 as [rnd c|t h a _ IH Ha].
  - constructor; [|constructor]. split_and!; [done|done|constructor].
  - constructor; [|done]. apply (act_ok _ _ _ Ha IH). by inversion IH.
Qed.

Lemma reachable_tab_ok t : reachable t -> tab_ok t.
Proof. intros [h Ht%trace_tab_ok]. by inversion Ht. Qed.

(** ** A superseded refresh is inert *)

Lemma runRefresh_stale e t : stale (runRefresh e) t = negb (bool_decide (authEpoch t = e)).
Proof. done. Qed.

Lemma internal_stale a r t :
  refreshPromise t = Some r -> r_epoch r <> authEpoch t -> internal a = true ->
  exists p, act a t = set_refresh p t /\ (forall r', p = Some r' -> r_epoch r' = r_epoch r).
Proof.
  intros Hr Hne Ha.
  assert (stale (runRefresh (r_epoch r)) t = true) as Hs.
  { rewrite runRefresh_stale, bool_decide_eq_false_2; done. }
  assert (act a t = resume a r t) as -> by (destruct a; try done; simpl; by rewrite Hr).
  assert (exists p, t = set_refresh p t /\ (forall r', p = Some r' -> r_epoch r' = r_epoch r)) as Hid.
  { exists (refreshPromise t). split; [by destruct t|]. rewrite Hr. by intros r' [= <-]. }
  unfold resume. destruct a as [| | | | | | | | |[]|resp| |]; try done;
    destruct (r_pc r) as [|n m s|n m d|o|]; try done.
  - eexists. split; [done|]. by intros r' [= <-].
  - eexists. split; [done|]. by intros r' [= <-].
  - unfold run_response. rewrite Hs. eexists. split; [done|]. by intros r' [= <-].
  - eexists. split; [done|]. by intros r' [= <-].
  - eexists. split; [done|]. done.
  - eexists. split; [done|]. done.
Qed.

Lemma internal_idle acts t :
  refreshPromise t = None -> forallb internal acts = true -> exec acts t = t.
Proof.
  intros Hn. induction acts as [|a acts IH]; simpl; intros H; [done|].
  apply andb_true_iff in H as [Ha H].
  assert (act a t = t) as -> by (destruct a; try done; simpl; by rewrite Hn). by apply IH.
Qed.

Lemma exec_stale acts t :
  (forall r, refreshPromise t = Some r -> r_epoch r <> authEpoch t) ->
  forallb internal acts = true ->
  exists p, exec acts t = set_refresh p t.
Proof.
  revert t. induction acts as [|a acts IH]; intros t Hst Hin.
  - exists (refreshPromise t). by destruct t.
  - simpl in Hin. apply andb_true_iff in Hin as [Ha Hin]. simpl.
    destruct (refreshPromise t) as [r|] eqn:Hr.
    + destruct (internal_stale a r t Hr (Hst r eq_refl) Ha) as [p [-> Hp]].
      destruct (IH (set_refresh p t)) as [q ->]; [|done|by exists q].
      intros r' E. simpl in *. rewrite (Hp r' E). by apply Hst.
    + assert (act a t = t) as -> by (destruct a; try done; simpl; by rewrite Hr).
      rewrite internal_idle by done. exists None. destruct t; simpl in *; by subst.
Qed.

(** Any change of identity (sign-in, rotation, sign-out) made while a refresh is
    in flight survives the rest of that refresh, whatever the server answers. *)
Lemma epoch_change_survives t a acts :
  reachable t -> internal a = false -> authEpoch (act a t) <> authEpoch t ->
  forallb internal acts = true ->
  auth (exec acts (act a t)) = auth (act a t) /\
  published (exec acts (act a t)) = published (act a t).
Proof.
  intros Hreach Ha Hep Hin. pose proof (reachable_tab_ok t Hreach) as (_ & Hle & _).
  assert (forall r, refreshPromise (act a t) = Some r -> r_epoch r <> authEpoch (act a t)) as Hst.
  { intros r E. assert (refreshPromise t = Some r /\ (authEpoch t < authEpoch (act a t))%nat) as [E' Hlt].
    { destruct a; try done; simpl in *.
      - unfold sign_in in *. destruct (isAuthBundle v); [|done]. autorewrite with js in *. split; [done|lia].
      - autorewrite with js in *. split; [done|lia].
      - destruct (applyAuthRotation v t) as [|t'] eqn:Er; [done|].
        apply applyAuthRotation_inv in Er as (? & ? & b & _ & _ & _ & _ & _ & ->).
        autorewrite with js in *. split; [done|lia].
      - autorewrite with js in *. split; [done|lia].
      - exfalso. apply Hep. unfold bootstrapAuthentication, refreshAuthentication.
        repeat (break_goal; simpl; try done).
      - exfalso. apply Hep. unfold refreshAuthentication. by destruct (refreshPromise t). }
    specialize (Hle r E'). lia. }
  destruct (exec_stale acts (act a t) Hst Hin) as [p ->]. done.
Qed.

(** ** The runner ends *)

(** How many more requests [run n m] can send: the race delays that are left and,
    while a mismatch may still restart it, a full second round. *)
Definition requests_left (n : nat) (m : bool) : nat := S (3 - n) + (if m then 4 else 0).

Arguments requests_left : simpl never.

Lemma run_response_decreases {S} (rt : AuthRefreshRuntime S) n m r s s' next :
  run_response rt n m r s = (s', next) ->
  match next with
  | Finished _ => True
  | Requesting _ _ _ => False
  | Waiting n' m' _ | RunAgain n' m' => (requests_left n' m' < requests_left n m)%nat
  end.
Proof.
  unfold run_response, handle_response, requests_left. intros H.
  repeat (break_hyp H; [..|try by injection H as <- <-]); injection H as <- <-; try done.
  - match goal with E : _ !! _ = Some _ |- _ => apply lookup_lt_Some in E; simpl in E end. lia.
  - lia.
Qed.

Lemma run_terminates {S} (rt : AuthRefreshRuntime S) responses n m s :
  (requests_left n m <= length responses)%nat ->
  exists s' o, run rt n m responses s = Some (s', o).
Proof.
  revert n m s. induction responses as [|r responses IH]; intros n m s Hl.
  { unfold requests_left in Hl. simpl in Hl. lia. }
  simpl. unfold run_enter. destruct (stale rt s); [by eauto|].
  destruct (run_response rt n m r s) as [s' next] eqn:E.
  apply run_response_decreases in E. destruct next; try done; eauto; apply IH; simpl in Hl; lia.
Qed.

(** The same count for a refresh in flight. *)
Definition refresh_measure (p : option Refresh) : nat :=
  match p with
  | None => 0
  | Some r =>
      match r_pc r with
      | PDone _ | PRejected => 1
      | PRequest n m _ => 1 + 2 * requests_left n m
      | PWait n m _ => 2 + 2 * requests_left n m
      | PLock => 2 + 2 * requests_left 0 true
      end
  end.

(** The action resumes the refresh at its current await. *)
Definition enabled (a : action) (t : Tab) : bool :=
  match refreshPromise t with
  | Some r =>
      match a, r_pc r with
      | ALock _, PLock | AResponse _, PRequest _ _ _ | ATimer, PWait _ _ _
      | ASettle, (PDone _ | PRejected) => true
      | _, _ => false
      end
  | None => false
  end.

Lemma settle_enter_measure e n m t :
  (refresh_measure (Some (mkRefresh e (settle_next e (run_enter (runRefresh e) n m t) t)))
    <= 1 + 2 * requests_left n m)%nat.
Proof.
  unfold run_enter. destruct (stale _ t); cbn [settle_next refresh_measure r_pc]; lia.
Qed.

Lemma settle_next_measure e t n m r :
  let '(t', next) := run_response (runRefresh e) n m r t in
  (refresh_measure (Some (mkRefresh e (settle_next e next t'))) < 1 + 2 * requests_left n m)%nat.
Proof.
  destruct (run_response _ n m r t) as [t' next] eqn:E.
  apply run_response_decreases in E. destruct next as [o| |n' m' d|n' m'];
    cbn [settle_next refresh_measure r_pc]; try done; [unfold requests_left; lia|lia|].
  unfold run_enter. destruct (stale _ t'); cbn [refresh_measure r_pc]; lia.
Qed.

Lemma enabled_decreases a t :
  enabled a t = true ->
  (refresh_measure (refreshPromise (act a t)) < refresh_measure (refreshPromise t))%nat.
Proof.
  unfold enabled. destruct (refreshPromise t) as [r|] eqn:Hr; [|done].
  assert (act a t = match a with ALock _ | AResponse _ | ATimer | ASettle => resume a r t
                            | _ => act a t end) as ->.
  { destruct a; try done; simpl; by rewrite Hr. }
  unfold resume. cbn [refresh_measure].
  destruct a as [| | | | | | | | |g|resp| |]; try done;
    destruct (r_pc r) as [|n m s|n m d|o|]; try done; intros _.
  - destruct g; [|cbn; lia]. pose proof (settle_enter_measure (r_epoch r) 0 true t).
    cbn [refreshPromise set_refresh] in *. lia.
  - pose proof (settle_next_measure (r_epoch r) t n m resp) as H.
    by destruct (run_response _ n m resp t).
  - pose proof (settle_enter_measure (r_epoch r) n m t).
    cbn [refreshPromise set_refresh] in *. lia.
  - cbn; lia.
  - cbn; lia.
Qed.

(** No other action touches the refresh in flight. *)
Lemma disabled_refresh a t r :
  refreshPromise t = Some r -> enabled a t = false -> refreshPromise (act a t) = Some r.
Proof.
  intros Hr. unfold enabled. rewrite Hr. destruct a as [| | | | | | | | |[]|resp| |]; simpl; intros He;
    autorewrite with js; try done;
    try (rewrite Hr; unfold resume; destruct (r_pc r); done).
  - unfold sign_in. destruct (isAuthBundle v); by autorewrite with js.
  - destruct (applyAuthRotation v t) as [|t'] eqn:E; [done|].
    apply applyAuthRotation_inv in E as (? & ? & b & _ & _ & _ & _ & _ & ->).
    by autorewrite with js.
  - unfold bootstrapAuthentication, refreshAuthentication.
    destruct (currentValidAuthBundle t); simpl; [done|].
    destruct (_ && _); simpl; [done|]. by rewrite Hr.
  - unfold refreshAuthentication. by rewrite Hr.
Qed.

(** Where a refresh is still the same one after some actions, it lost at least
    one unit of measure per resumption. *)
Fixpoint resumptions (acts : list action) (t : Tab) : nat :=
  match acts with
  | [] => 0
  | a :: acts' => (if enabled a t then 1 else 0) + resumptions acts' (act a t)
  end.

(** No action of the sequence settles a refresh, so the one in flight stays. *)
Fixpoint unsettled (acts : list action) (t : Tab) : bool :=
  match acts with
  | [] => true
  | a :: acts' =>
      match refreshPromise (act a t) with Some _ => unsettled acts' (act a t) | None => false end
  end.

Lemma resumptions_bound acts t r :
  refreshPromise t = Some r -> unsettled acts t = true ->
  (resumptions acts t + refresh_measure (refreshPromise (exec acts t))
    <= refresh_measure (Some r))%nat.
Proof.
  revert t r. induction acts as [|a acts IH]; intros t r Hr Hu;
    cbn [resumptions unsettled] in *; [change (exec [] t) with t; rewrite Hr; lia|].
  change (exec (a :: acts) t) with (exec acts (act a t)).
  destruct (refreshPromise (act a t)) as [r'|] eqn:Hr'; [|done].
  specialize (IH (act a t) r' Hr' Hu). destruct (enabled a t) eqn:He.
  - pose proof (enabled_decreases a t He) as Hd. rewrite Hr, Hr' in Hd. lia.
  - rewrite (disabled_refresh a t r Hr He) in Hr'. injection Hr' as <-. lia.
Qed.

Lemma refresh_measure_le p : (refresh_measure p <= 18)%nat.
Proof.
  destruct p as [[e pc]|]; [|simpl; lia]. destruct pc as [|n m s|n m d|o|];
    cbn [refresh_measure r_pc]; unfold requests_left; try destruct m; lia.
Qed.

Lemma unsettled_in_flight acts t r :
  refreshPromise t = Some r -> unsettled acts t = true ->
  (0 < refresh_measure (refreshPromise (exec acts t)))%nat.
Proof.
  revert t r. induction acts as [|a acts IH]; intros t r Hr Hu; simpl in Hu.
  - change (exec [] t) with t. rewrite Hr. destruct r as [e []]; cbn; lia.
  - destruct (refreshPromise (act a t)) as [r'|] eqn:Hr'; [|done].
    change (exec (a :: acts) t) with (exec acts (act a t)). by apply (IH _ r').
Qed.

(** ** The theorems *)

Lemma reach_step t a : reachable t -> action_ok [t] a -> reachable (act a t).
Proof.
  intros [h Ht] Ha. exists (t :: h). apply trace_step; [done|]. destruct a; try done.
  destruct Ha as (t' & ->%list_elem_of_singleton & Hu). exists t. split; [constructor|done].
Qed.

Lemma reach_init rnd c : reachable (init_tab rnd c).
Proof. exists []. constructor. Qed.

Lemma reachable_exec acts t : reachable t -> Forall (action_ok []) acts -> reachable (exec acts t).
Proof.
  revert t. induction acts as [|a acts IH]; intros t Ht Ha; [done|].
  inversion Ha as [|? ? Hok]; subst. apply IH; [|done]. apply reach_step; [done|].
  destruct a; try done. by destruct Hok as (? & ?%not_elem_of_nil & _).
Qed.

(** Sample data for the witnesses. *)
Definition demo_session : jsval :=
  JObj [(u "sid", JStr (u "session-a")); (u "current", JBool true);
        (u "login_method", JStr (u "password")); (u "ip", JStr (u "127.0.0.1"));
        (u "user_agent", JStr (u "test")); (u "created_at", JNum (num_of_Z 100));
        (u "last_active_at", JNum (num_of_Z 100)); (u "expires_at", JNum (num_of_Z 1000))].

Definition demo_value : jsval :=
  JObj [(u "access_token", JStr (u "access-token")); (u "token_type", JStr (u "Bearer"));
        (u "access_expires_at", JNum (num_of_Z 1700000600));
        (u "user", JObj [(u "id", JNum (num_of_Z 42)); (u "username", JStr (u "test-user"));
                         (u "role", JNum (num_of_Z 1))]);
        (u "session", demo_session)].

Definition demo_bundle : AuthBundle := bundle_of demo_value.

Definition demo_tab : Tab := init_tab (fun n => N_str (N.of_nat n)) 1700000000000.

(** Answers of the refresh endpoint. *)
Definition demo_ok : AuthRefreshHTTPResponse :=
  mkResponse 200 (JObj [(u "success", JBool true); (u "data", demo_value)]) JUndef.
Definition demo_conflict (code : jstr) : AuthRefreshHTTPResponse :=
  mkResponse 409 (JObj [(u "code", JStr code)]) JUndef.

Lemma demo_bundle_ok : AuthBundle_ok demo_bundle.
Proof. apply isAuthBundle_ok. by vm_compute. Qed.

(** C1: In every tab state reachable by any interleaving of sign-ins, rotations,
    sign-outs, profile edits and refresh resumptions, the access token, its expiry, the
    session and its user are there together or the first three are all missing: a
    nonempty token and session id, a positive finite expiry, a user with a positive
    integer id, a name and a role. A user that is stored always has this shape, a refresh
    in flight started no later than the current epoch, and every event the tab has
    published names the tab and a nonempty session id. The one assumption is that the
    answer to a one-time code, which the code does not check, has its declared type. *)
Theorem tab_invariant (t : Tab) : reachable t -> tab_ok t.
Proof. apply reachable_tab_ok. Qed.

Lemma tab_invariant_witness :
  let t := exec [ASignIn demo_value; ARefresh false; AResponse demo_ok; ASettle; AApply demo_bundle true] demo_tab in
  tab_ok (act (ASaveUser (b_user demo_bundle) F_setting (u "{}")) t).
Proof.
  intros t. apply tab_invariant. apply reach_step.
  - apply reachable_exec; [apply reach_init|]. repeat (constructor; [done|]). constructor; [apply demo_bundle_ok|constructor].
  - exists t. split; [constructor|]. by vm_compute.
Defined.

(** A profile edit writes the user its card was rendered with when the answer arrives: a
    sign-out in between leaves a user without a session. *)
Theorem late_save_restores_user :
  let t := exec [ASignIn demo_value; AClear true] demo_tab in
  let t' := act (ASaveUser (b_user demo_bundle) F_sidebar_modules (u "{}")) t in
  reachable t' /\ user (auth t) = None /\ session (auth t') = None /\ is_Some (user (auth t')).
Proof.
  intros t t'. split_and!; [|by vm_compute|by vm_compute|by eexists].
  exists [t; act (ASignIn demo_value) demo_tab; demo_tab]. apply trace_step.
  { apply trace_step; [|done]. apply trace_step; [apply trace_init|done]. }
  exists (act (ASignIn demo_value) demo_tab). split; [by do 2 constructor|by vm_compute].
Qed.

(** C2: A refresh never overwrites what happened while it was in flight: after any
    action that changes the identity epoch (a sign-in, a rotation or a sign-out),
    however the refresh in flight is resumed and whatever the server answers, the
    store keeps exactly the state that action left, and nothing is published. *)
Theorem stale_refresh_inert (t : Tab) (a : action) (acts : list action) :
  reachable t -> internal a = false -> authEpoch (act a t) <> authEpoch t ->
  forallb internal acts = true ->
  auth (exec acts (act a t)) = auth (act a t) /\
  published (exec acts (act a t)) = published (act a t).
Proof. apply epoch_change_survives. Qed.

Lemma stale_refresh_inert_witness :
  let t := exec [AApply demo_bundle true; ARefresh false] demo_tab in
  let acts := [AResponse demo_ok; ASettle] in
  refreshPromise t <> None /\
  auth (exec acts (act (AClear true) t)) = auth (act (AClear true) t) /\
  published (exec acts (act (AClear true) t)) = published (act (AClear true) t).
Proof.
  split; [by vm_compute|]. apply stale_refresh_inert.
  - apply reachable_exec; [apply reach_init|]. constructor; [apply demo_bundle_ok|by repeat constructor].
  - done.
  - by vm_compute.
  - done.
Defined.

(** C3: The refresh protocol ends: for every runtime and every state, eight
    responses of the server are enough for [createRefreshRunner] to settle with an
    outcome, whatever the responses are. *)
Theorem refresh_runner_terminates {S} (runtime : AuthRefreshRuntime S)
    (responses : list AuthRefreshHTTPResponse) (s : S) :
  (8 <= length responses)%nat ->
  exists s' o, createRefreshRunner runtime responses s = Some (s', o).
Proof. intros H. by apply run_terminates. Qed.

Lemma refresh_runner_terminates_witness :
  exists s' o, createRefreshRunner (runRefresh 0)
    [demo_conflict (u "AUTH_REFRESH_RACE"); demo_conflict (u "AUTH_REFRESH_RACE");
     demo_conflict (u "AUTH_REFRESH_RACE"); demo_conflict (u "AUTH_SESSION_MISMATCH");
     demo_conflict (u "AUTH_REFRESH_RACE"); demo_conflict (u "AUTH_REFRESH_RACE");
     demo_conflict (u "AUTH_REFRESH_RACE"); demo_conflict (u "AUTH_REFRESH_RACE")]
    demo_tab = Some (s', o).
Proof. apply refresh_runner_terminates. vm_compute. lia. Defined.

(** Inside a tab the same holds under interleaving: however other work is
    scheduled around it, a refresh in flight is resumed (lock, response, race
    timer) fewer than eighteen times before it settles. *)
Theorem refresh_resumptions_bounded (t : Tab) (r : Refresh) (acts : list action) :
  refreshPromise t = Some r -> unsettled acts t = true -> (resumptions acts t < 18)%nat.
Proof.
  intros Hr Hu. pose proof (resumptions_bound acts t r Hr Hu) as H.
  pose proof (refresh_measure_le (Some r)). pose proof (unsettled_in_flight acts t r Hr Hu). lia.
Qed.

Lemma refresh_resumptions_bounded_witness :
  let t := exec [ARefresh true] demo_tab in
  let acts := [ALock true; AResponse (demo_conflict (u "AUTH_REFRESH_RACE")); AClock 5; ATimer] in
  resumptions acts t = 3%nat /\ (resumptions acts t < 18)%nat.
Proof.
  split; [by vm_compute|].
  apply (refresh_resumptions_bounded _ (mkRefresh 0 PLock)); by vm_compute.
Defined.

(** *** What a response does *)

(** The members of the body, the bundle of a success and the code of a conflict. *)
Definition accepts (r : AuthRefreshHTTPResponse) : Prop :=
  get (data r) (u "success") = JBool true /\ isAuthBundle (get (data r) (u "data")) = true.

Definition conflict (r : AuthRefreshHTTPResponse) (code : jstr) : Prop :=
  status r = 409 /\ get (data r) (u "code") = JStr code.

Definition transient (r : AuthRefreshHTTPResponse) : Prop := status r = 0 \/ status r = 429 \/ 500 <= status r.

(** The tab forgets its identity; [told] says that the other tabs hear of it. *)
Definition signs_out (told : bool) (t t' : Tab) : Prop :=
  auth t' = reset complete (auth t) /\ authEpoch t' = S (authEpoch t)
  /\ published t' = published t ++
       match session_sid (auth t) with
       | Some s => if told && str_truthy s
                   then [mkEvent SignedOut_ev s (source t) (rnd t (ids t)) (num_of_Z (clock t))] else []
       | None => []
       end.

(** The response decides the next state and how the refresh goes on. *)
Inductive responds (t : Tab) (n : nat) (m : bool) (r : AuthRefreshHTTPResponse) : Tab -> Next -> Prop :=
| R_accepted t' : accepts r ->
    auth t' = setBundle (bundle_of (get (data r) (u "data"))) (auth t) -> authEpoch t' = S (authEpoch t) ->
    published t' = published t ->
    responds t n m r t' (Finished (Authenticated (bundle_of (get (data r) (u "data")))))
| R_race delay : ~ accepts r -> conflict r (u "AUTH_REFRESH_RACE") ->
    (n, delay) ∈ [(0%nat, 80); (1%nat, 200); (2%nat, 500)] ->
    responds t n m r t (Waiting (S n) m delay)
| R_race_lost t' : ~ accepts r -> conflict r (u "AUTH_REFRESH_RACE") -> (3 <= n)%nat -> signs_out false t t' ->
    responds t n m r t' (Finished (Out_of_sync (u "AUTH_REFRESH_RACE")))
| R_mismatch t' : ~ accepts r -> conflict r (u "AUTH_SESSION_MISMATCH") -> m = true ->
    auth t' = reset idle (auth t) -> authEpoch t' = authEpoch t -> published t' = published t ->
    responds t n m r t' (RunAgain 0 false)
| R_mismatch_again t' : ~ accepts r -> conflict r (u "AUTH_SESSION_MISMATCH") -> m = false -> signs_out false t t' ->
    responds t n m r t' (Finished (Out_of_sync (u "AUTH_SESSION_MISMATCH")))
| R_unauthorized t' : ~ accepts r -> status r = 401 -> signs_out true t t' ->
    responds t n m r t' (Finished Anonymous)
| R_transient t' e : ~ accepts r -> transient r -> (error r = e /\ e <> JUndef /\ e <> JNull \/
      (error r = JUndef \/ error r = JNull) /\ e = data r) ->
    auth t' = setBootstrapState idle (auth t) -> authEpoch t' = authEpoch t -> published t' = published t ->
    responds t n m r t' (Finished (Transient_error (RequestError e)))
| R_other t' code : ~ accepts r -> ~ conflict r (u "AUTH_REFRESH_RACE") -> ~ conflict r (u "AUTH_SESSION_MISMATCH") ->
    status r <> 401 -> ~ transient r ->
    (get (data r) (u "code") = JStr code \/
      is_string (get (data r) (u "code")) = false /\ code = u "AUTH_INVALID_REFRESH_RESPONSE") ->
    signs_out false t t' ->
    responds t n m r t' (Finished (Out_of_sync code)).

Lemma record_get v k : get (if isRecord v then v else JUndef) k = get v k.
Proof. destruct v as [| |[]| |[]| |]; try done. unfold isRecord. by destruct (truthy _ && _). Qed.

Lemma response_code_get r : response_code r = match get (data r) (u "code") with JStr c => Some c | _ => None end.
Proof. unfold response_code. by rewrite record_get. Qed.

Lemma response_bundle_get e r : response_bundle (runRefresh e) r = Some (bundle_of (get (data r) (u "data"))) /\ accepts r
  \/ response_bundle (runRefresh e) r = None /\ ~ accepts r.
Proof.
  unfold response_bundle, accepts. rewrite !record_get. cbn [runRefresh rt_parseBundle]. unfold parseBundle.
  destruct (get (data r) (u "success")) as [| |[]| | | |]; cbn [is_true]; try (right; split; [done|by intros [? _]]).
  destruct (isAuthBundle _); [by left|]. right. by split; [|intros [_ ?]].
Qed.

Lemma conflict_test r c : (status r =? 409) && bool_decide (response_code r = Some c) = true <-> conflict r c.
Proof.
  rewrite response_code_get, andb_true_iff, Z.eqb_eq, bool_decide_eq_true. unfold conflict.
  destruct (get (data r) (u "code")); naive_solver.
Qed.

Lemma clear_signs_out told t : signs_out told t (clearAuthentication told complete t).
Proof.
  unfold signs_out. autorewrite with js. split_and!; [done|done|]. unfold clearAuthentication.
  destruct (session_sid (auth t)) as [s|]; [|by rewrite app_nil_r]. destruct told; [by rewrite publish_published|].
  by rewrite app_nil_r.
Qed.

Lemma transient_test r : (status r =? 0) || (500 <=? status r) || (status r =? 429) = true <-> transient r.
Proof. unfold transient. rewrite !orb_true_iff, !Z.eqb_eq, Z.leb_le. tauto. Qed.

(** C4: What each class of response does to a tab whose refresh is still current, by its
    status and body. A success with a well-formed bundle, whatever the status, becomes the
    identity, without an event. Otherwise: 409 with the code of a race is repeated after
    80, 200 and 500 milliseconds and then signs out here; 409 with the code of a session
    mismatch forgets the session and repeats once, then signs out here; 401 signs out and
    tells the other tabs once, if there was a session; 0, 429 and 500 or more keep the
    identity and the epoch; everything else signs out here with the code of the body. No
    response that ends the refresh leaves the bootstrap state at checking. *)
Theorem response_outcome (t : Tab) (n : nat) (m : bool) (r : AuthRefreshHTTPResponse) :
  let '(t', next) := run_response (runRefresh (authEpoch t)) n m r t in
  responds t n m r t' next /\ (forall o, next = Finished o -> bootstrapState (auth t') <> checking).
Proof.
  unfold run_response. rewrite runRefresh_stale, bool_decide_eq_true_2 by done. cbn [negb]. unfold handle_response.
  destruct (response_bundle_get (authEpoch t) r) as [[-> Ha]|[-> Ha]].
  { by split; [apply R_accepted|]. }
  pose proof (clear_signs_out false t) as Hc. pose proof (conflict_test r) as Ht.
  assert (bootstrapState (auth (clearAuthentication false complete t)) <> checking) as Hb by by autorewrite with js.
  destruct (_ && bool_decide (_ = Some (u "AUTH_REFRESH_RACE"))) eqn:E1.
  { apply Ht in E1. assert (response_code r = Some (u "AUTH_REFRESH_RACE")) as ->.
    { rewrite response_code_get. by destruct E1 as [_ ->]. }
    destruct n as [|[|[|n]]]; cbn [refreshRaceDelays lookup list_lookup Nat.add];
      try (split; [apply R_race; [done|done|repeat constructor]|done]).
    split; [|intros ? _; exact Hb]. apply R_race_lost; [done|done|lia|done]. }
  destruct (_ && bool_decide (_ = Some (u "AUTH_SESSION_MISMATCH"))) eqn:E2.
  { apply Ht in E2. assert (response_code r = Some (u "AUTH_SESSION_MISMATCH")) as ->.
    { rewrite response_code_get. by destruct E2 as [_ ->]. }
    destruct m; [split; [apply R_mismatch; done|done]|]. split; [apply R_mismatch_again; [done|done|done|exact Hc]|intros ? _; exact Hb]. }
  destruct (status r =? 401) eqn:E3.
  { apply Z.eqb_eq in E3. split; [|intros ? _; cbn -[clearAuthentication]; by rewrite auth_clear]. apply R_unauthorized; [done|done|apply clear_signs_out]. }
  destruct (_ || _) eqn:E4.
  { apply transient_test in E4. split; [|done]. apply R_transient; try done.
    destruct (error r); (by right; split; [auto|]) || by left. }
  split; [|intros ? _; exact Hb].
  apply R_other; [done| | | |intros ?%transient_test; congruence| |done].
  1,2: intros ?%Ht; congruence.
  - by apply Z.eqb_neq.
  - rewrite response_code_get. destruct (get (data r) (u "code")); (by left) || by right.
Qed.

(** A rejected session, a forbidden one, a busy server and a mismatch. *)
Lemma response_outcome_witness :
  let t := exec [ASignIn demo_value; ARefresh false] demo_tab in
  let step r := run_response (runRefresh (authEpoch t)) 0 true r t in
  snd (step (mkResponse 401 JUndef JUndef)) = Finished Anonymous
  /\ snd (step (mkResponse 403 JUndef JUndef)) = Finished (Out_of_sync (u "AUTH_INVALID_REFRESH_RESPONSE"))
  /\ responds t 0 true (mkResponse 503 JUndef JUndef) (fst (step (mkResponse 503 JUndef JUndef)))
       (Finished (Transient_error (RequestError JUndef)))
  /\ responds t 0 true (demo_conflict (u "AUTH_SESSION_MISMATCH"))
       (fst (step (demo_conflict (u "AUTH_SESSION_MISMATCH")))) (RunAgain 0 false).
Proof.
  intros t step. split_and!; [by vm_compute|by vm_compute| |].
  - exact (proj1 (response_outcome t 0 true (mkResponse 503 JUndef JUndef))).
  - exact (proj1 (response_outcome t 0 true (demo_conflict (u "AUTH_SESSION_MISMATCH")))).
Defined.

(** A session mismatch is retried once, without the stale session id: a
    current refresh that may still retry forgets the local session without
    publishing or superseding itself, and its next request carries no session id;
    a second mismatch signs the tab out locally. *)
Theorem mismatch_retry_drops_sid (t : Tab) (n : nat) (m : bool) (s : option jstr)
    (r : AuthRefreshHTTPResponse) :
  refreshPromise t = Some (mkRefresh (authEpoch t) (PRequest n m s)) ->
  status r = 409 -> response_code r = Some (u "AUTH_SESSION_MISMATCH") ->
  response_bundle (runRefresh (authEpoch t)) r = None ->
  let t' := act (AResponse r) t in
  published t' = published t /\ session (auth t') = None /\ accessToken (auth t') = None /\
  (if m then refreshPromise t' = Some (mkRefresh (authEpoch t) (PRequest 0 false None)) /\
             authEpoch t' = authEpoch t
   else refreshPromise t' =
          Some (mkRefresh (authEpoch t) (PDone (Out_of_sync (u "AUTH_SESSION_MISMATCH")))) /\
        bootstrapState (auth t') = complete).
Proof.
  intros Hr Hs Hc Hb. simpl. rewrite Hr. unfold resume. cbn [r_pc r_epoch].
  unfold run_response. rewrite runRefresh_stale, bool_decide_eq_true_2 by done. cbn [negb].
  unfold handle_response. rewrite Hb, Hc, Hs.
  rewrite (bool_decide_eq_false_2 (Some _ = Some (u "AUTH_REFRESH_RACE"))) by by vm_compute.
  rewrite bool_decide_eq_true_2 by done. simpl. destruct m.
  - simpl. unfold run_enter, stale. simpl. by rewrite bool_decide_eq_true_2 by done.
  - simpl. autorewrite with js. unfold clearAuthentication. by destruct (session_sid _).
Qed.

Lemma mismatch_retry_drops_sid_witness :
  let t := exec [AApply demo_bundle true; ARefresh false] demo_tab in
  let t' := act (AResponse (demo_conflict (u "AUTH_SESSION_MISMATCH"))) t in
  published t' = published t /\ session (auth t') = None /\ accessToken (auth t') = None /\
  refreshPromise t' = Some (mkRefresh 1 (PRequest 0 false None)) /\ authEpoch t' = 1%nat.
Proof.
  apply (mismatch_retry_drops_sid (exec [AApply demo_bundle true; ARefresh false] demo_tab)
           0 true (Some (u "session-a")) (demo_conflict (u "AUTH_SESSION_MISMATCH")));
    by vm_compute.
Defined.

(** When the browser rejects the lock request, the handler meant for it does
    not run (the promise is returned, not awaited, inside the [try]): the refresh
    rejects, the store keeps the state it had, and a bootstrap that was waiting
    stays at [checking] after the promise settles. *)
Theorem lock_rejection_not_handled (t : Tab) :
  refreshPromise t = None ->
  currentValidAuthBundle t = None ->
  bootstrapState (auth t) <> complete ->
  let t' := exec [ABootstrap true; ALock false; ASettle] t in
  refreshPromise t' = None /\ bootstrapState (auth t') = checking /\
  auth t' = setBootstrapState checking (auth t).
Proof.
  intros Hr Hv Hb. unfold exec. simpl. unfold bootstrapAuthentication.
  rewrite Hv, bool_decide_eq_false_2 by done. simpl.
  unfold refreshAuthentication. simpl. rewrite Hr. by simpl.
Qed.

Lemma lock_rejection_not_handled_witness :
  let t' := exec [ABootstrap true; ALock false; ASettle] demo_tab in
  refreshPromise t' = None /\ bootstrapState (auth t') = checking /\
  auth t' = setBootstrapState checking (auth demo_tab).
Proof. by apply lock_rejection_not_handled. Defined.
