(* ===== verification/HttpClient.v ===== *)
(** * The HTTP client (src/web/src/lib/http-client.ts, server-error-message.ts)

    The shared axios instance: in-flight GET sharing, the request interceptor that
    attaches the token, and the response interceptors with the single
    refresh-and-retry on 401. axios itself is the environment: a request is sent
    and answered with a status; what the interceptors do to the tab, to the
    screen (toasts, redirect) and to the request is modelled. *)

From Stdlib Require Import ZArith SpecFloat.
From stdpp Require Import base numbers option list sorting.
From S2P Require Import Prelude Collections JsNumber JsValue Json AuthStore AuthSync AuthSession.

(** ** Server error codes *)

Definition serverErrorMessageKeys : list (jstr * jstr) := [
  (u "AUTH_SESSION_LIMIT",
   u "Too many active login sessions. On a device where you are already signed in, open Login sessions and use “Sign out other sessions” to revoke them. If you cannot access a signed-in device, reset your password to sign out all sessions.");
  (u "AUTH_SESSION_ISSUANCE_LIMIT",
   u "Too many login sessions were created recently. Please wait for the rolling window to pass, then try again.");
  (u "TELEGRAM_BIND_DISABLED", u "Telegram binding is disabled.");
  (u "TELEGRAM_BIND_INVALID_REQUEST",
   u "The Telegram authorization request is invalid or expired.");
  (u "TELEGRAM_BIND_FLOW_INVALID",
   u "This Telegram binding request has expired or has already been used.");
  (u "TELEGRAM_BIND_SESSION_INVALID",
   u "The login session that started this Telegram binding is no longer valid.");
  (u "TELEGRAM_BIND_ALREADY_BOUND", u "This Telegram account is already bound.");
  (u "TELEGRAM_BIND_USER_DELETED", u "This user account no longer exists.");
  (u "TELEGRAM_BIND_USER_DISABLED", u "This user account is disabled.");
  (u "TELEGRAM_BIND_INTERNAL_ERROR", u "Telegram binding failed. Please try again.")].

Definition serverErrorPayload (v : jsval) : option jsval :=
  if negb (isRecord v) then None
  else
    let response := get v (u "response") in
    if isRecord response && isRecord (get response (u "data"))
    then Some (get response (u "data")) else Some v.

Definition getServerErrorMessageKey (v : jsval) : option jstr :=
  match serverErrorPayload v with
  | Some payload =>
      match get payload (u "code") with
      | JStr code => map_get serverErrorMessageKeys code
      | _ => None
      end
  | None => None
  end.

(** ** In-flight GETs *)

Record ApiRequestConfig := mkConfig {
  skipBusinessError : bool;
  skipErrorHandler : bool;
  disableDuplicate : bool;
  skipAuthRefresh : bool;
  authRetry : bool;
  acceptAuthRotation : bool;
  params : jsval;
  authorization : option jstr
}.

(** [inFlightGet], the shared requests that have not settled, each with the key its
    [finally] deletes, and the number of GETs sent so far; a request is named by its
    number. *)
Record Client := mkClient { inFlightGet : list (jstr * nat); unsettled_gets : list (nat * jstr); sent : nat }.

Definition get_key (sessionSID : option jstr) (url : jstr) (params : jsval) : jstr :=
  let params := if truthy params then default (u "undefined") (JSON_stringify params) else u "{}" in
  let sessionSID := str_or (default [] sessionSID) (u "anonymous") in
  sessionSID ++ u ":" ++ url ++ u "?" ++ params.

(** [api.get]: the number of the request whose promise is returned. *)
Definition api_get (url : jstr) (config : ApiRequestConfig) (t : Tab) (c : Client) : Client * nat :=
  if disableDuplicate config then (mkClient (inFlightGet c) (unsettled_gets c) (S (sent c)), sent c)
  else
    let key := get_key (session_sid (auth t)) url (params config) in
    match map_get (inFlightGet c) key with
    | Some existingRequest => (c, existingRequest)
    | None =>
        (mkClient (map_set (inFlightGet c) key (sent c)) ((sent c, key) :: unsettled_gets c) (S (sent c)), sent c)
    end.

(** Request [n] settles: the [finally] of a shared one deletes its key. *)
Definition get_settled (n : nat) (c : Client) : Client :=
  match List.find (fun e => Nat.eqb (fst e) n) (unsettled_gets c) with
  | Some (_, key) =>
      mkClient (map_delete (inFlightGet c) key)
        (List.filter (fun e => negb (Nat.eqb (fst e) n)) (unsettled_gets c)) (sent c)
  | None => c
  end.

(** ** Interceptors *)

Inductive effect := Toast (message : jsval) | Redirect.

(** [redirectToSignIn] on the page at [pathname]. *)
Definition redirectToSignIn (pathname : jstr) : list effect :=
  if seqb pathname (u "/sign-in") then [] else [Redirect].

(** The request interceptor. *)
Definition attach_token (t : Tab) (c : ApiRequestConfig) : ApiRequestConfig :=
  match accessToken (auth t) with
  | Some tok =>
      if str_truthy tok
      then mkConfig (skipBusinessError c) (skipErrorHandler c) (disableDuplicate c)
             (skipAuthRefresh c) (authRetry c) (acceptAuthRotation c) (params c)
             (Some (u "Bearer " ++ tok))
      else c
  | None => c
  end.

(** [messageKey ? t(messageKey) : a || b || t('Request failed')]; the translations are
    those of the source language. *)
Definition error_text (key : option jstr) (fallbacks : list jsval) : jsval :=
  let fallback := foldr (fun v r => if truthy v then v else r) (JStr (u "Request failed")) fallbacks in
  match key with Some k => if str_truthy k then JStr k else fallback | None => fallback end.

Definition session_expired : effect := Toast (JStr (u "Session expired!")).

(** The response interceptor for a successful status; [inl] is the rotation
    error it throws. *)
Definition on_response (config : ApiRequestConfig) (data : jsval) (t : Tab)
    : jstr + (Tab * list effect) :=
  let rotated :=
    if acceptAuthRotation config && is_true (get data (u "success"))
    then applyAuthRotation (get data (u "data")) t else inr t in
  match rotated with
  | inl e => inl e
  | inr t =>
      let failed := match get data (u "success") with JBool b => negb b | _ => false end in
      inr (t, if negb (skipBusinessError config) && failed
              then [Toast (error_text (getServerErrorMessageKey data) [get data (u "message")])]
              else [])
  end.

(** What the error interceptor does at once. *)
Inductive verdict :=
| Rethrow (es : list effect)
| RefreshFirst (config : ApiRequestConfig).

Definition set_authRetry (c : ApiRequestConfig) : ApiRequestConfig :=
  mkConfig (skipBusinessError c) (skipErrorHandler c) (disableDuplicate c) (skipAuthRefresh c)
    true (acceptAuthRotation c) (params c) (authorization c).

Definition unless (b : bool) (es : list effect) : list effect := if b then [] else es.

Definition on_error (pathname : jstr) (config : option ApiRequestConfig) (status : option Z)
    (error : jsval) (t : Tab) : Tab * verdict :=
  let skip := match config with Some c => skipErrorHandler c | None => false end in
  if bool_decide (status = Some 401) then
    match config with
    | Some c =>
        if negb (skipAuthRefresh c) && negb (authRetry c) then (t, RefreshFirst (set_authRetry c))
        else if authRetry c then
          (clearAuthentication false complete t,
           Rethrow (unless skip [session_expired] ++ redirectToSignIn pathname))
        else (t, Rethrow (unless skip [session_expired]))
    | None => (t, Rethrow (unless skip [session_expired]))
    end
  else
    (t, Rethrow (unless skip
      [Toast (error_text (getServerErrorMessageKey error)
                [get (get (get error (u "response")) (u "data")) (u "message");
                 get error (u "message")])])).

(** ... and once the refresh it waited for has an outcome: the request to send
    again, or what to show before rethrowing. *)
Definition after_refresh (pathname : jstr) (c : ApiRequestConfig) (o : RefreshOutcome) (t : Tab)
    : ApiRequestConfig + list effect :=
  match o with
  | Authenticated _ => inl (attach_token t c)
  | Anonymous | Out_of_sync _ =>
      inr (unless (skipErrorHandler c) [session_expired] ++ redirectToSignIn pathname)
  | Transient_error _ => inr []
  end.

(** ** One request from call to settlement *)

(** What the environment does with a transmitted request: a success, or an error
    with the refresh that follows if the interceptor asks for one; [None] is a refresh
    whose promise is rejected. *)
Inductive answer :=
| AnsOk (data : jsval)
| AnsError (status : option Z) (error : jsval) (refresh : Tab -> Tab * option RefreshOutcome).

Inductive settlement :=
| Resolved (es : list effect)
| RotationThrown (message : jstr)
| Rejected (es : list effect)
| Unanswered.

(** Sends the request, counting the transmissions. *)
Fixpoint request (pathname : jstr) (answers : list answer) (config : ApiRequestConfig) (t : Tab)
    : Tab * settlement * nat :=
  let config := attach_token t config in
  match answers with
  | [] => (t, Unanswered, 1%nat)
  | AnsOk data :: _ =>
      match on_response config data t with
      | inl e => (t, RotationThrown e, 1%nat)
      | inr (t, es) => (t, Resolved es, 1%nat)
      end
  | AnsError status error refresh :: answers =>
      match on_error pathname (Some config) status error t with
      | (t, Rethrow es) => (t, Rejected es, 1%nat)
      | (t, RefreshFirst config) =>
          match refresh t with
          | (t, None) => (t, Rejected [], 1%nat)
          | (t, Some outcome) =>
              match after_refresh pathname config outcome t with
              | inl config =>
                  let '(t, s, n) := request pathname answers config t in (t, s, S n)
              | inr es => (t, Rejected es, 1%nat)
              end
          end
      end
  end.

(** ** Properties *)

Lemma attach_token_authRetry t c : authRetry (attach_token t c) = authRetry c.
Proof. unfold attach_token. destruct (accessToken (auth t)) as [s|]; [by destruct (str_truthy s)|done]. Qed.

Lemma attach_token_skip t c : skipErrorHandler (attach_token t c) = skipErrorHandler c.
Proof. unfold attach_token. destruct (accessToken (auth t)) as [s|]; [by destruct (str_truthy s)|done]. Qed.

Lemma request_retried pathname answers c t :
  authRetry c = true -> snd (request pathname answers c t) = 1%nat.
Proof.
  intros Hr. destruct answers as [|[data|status error refresh] answers]; simpl; [done| |].
  - by destruct (on_response _ data t) as [|[]].
  - unfold on_error. rewrite attach_token_authRetry, Hr, andb_false_r. by destruct (bool_decide _).
Qed.

Lemma request_transmissions pathname answers c t :
  (1 <= snd (request pathname answers c t) <= 2)%nat.
Proof.
  destruct answers as [|[data|status error refresh] answers]; simpl; [lia| |].
  - destruct (on_response _ data t) as [|[]]; simpl; lia.
  - destruct (on_error _ _ status error t) as [t' [es|c']] eqn:E; simpl; [lia|].
    destruct (refresh t') as [t2 [o|]]; [|simpl; lia].
    assert (authRetry c' = true) as Hr.
    { unfold on_error in E. repeat break_hyp E; simplify_eq/=; done. }
    destruct (after_refresh pathname c' o t2) as [c2|es] eqn:E2; simpl; [|lia].
    assert (authRetry c2 = true) as Hr2.
    { destruct o; try done. injection E2 as <-. by rewrite attach_token_authRetry. }
    pose proof (request_retried pathname answers c2 t2 Hr2) as H.
    destruct (request pathname answers c2 t2) as [[? ?] n]. simpl in *. lia.
Qed.

(** *** In-flight GETs *)

Inductive client_event :=
| GetCalled (url : jstr) (config : ApiRequestConfig) (t : Tab)
| GetSettled (n : nat).

Definition client_step (e : client_event) (c : Client) : Client :=
  match e with GetCalled url config t => fst (api_get url config t c) | GetSettled n => get_settled n c end.

Definition client_run (es : list client_event) (c : Client) : Client := fold_left (fun c e => client_step e c) es c.

Definition client_initial : Client := mkClient [] [] 0.

(** The table holds exactly the shared requests that have not settled; their numbers are
    past ones and distinct. *)
Definition client_ok (c : Client) : Prop :=
  map_ok (inFlightGet c) /\ NoDup (unsettled_gets c).*1 /\
  (forall k n, map_get (inFlightGet c) k = Some n <-> (n, k) ∈ unsettled_gets c) /\
  (forall n k, (n, k) ∈ unsettled_gets c -> (n < sent c)%nat).

Lemma assoc_unique {A B} (l : list (A * B)) a b b' : NoDup l.*1 -> (a, b) ∈ l -> (a, b') ∈ l -> b = b'.
Proof.
  intros Hn [i Hi]%list_elem_of_lookup [j Hj]%list_elem_of_lookup.
  assert (i = j) as ->; [|congruence].
  apply (NoDup_lookup l.*1 i j a Hn); rewrite list_lookup_fmap; by rewrite ?Hi, ?Hj.
Qed.

Lemma get_settled_cases n c : NoDup (unsettled_gets c).*1 ->
  (exists k, (n, k) ∈ unsettled_gets c /\
     get_settled n c = mkClient (map_delete (inFlightGet c) k)
                         (List.filter (fun e => negb (Nat.eqb (fst e) n)) (unsettled_gets c)) (sent c))
  \/ get_settled n c = c.
Proof.
  intros Hn. unfold get_settled. destruct (List.find _ _) as [[n' k]|] eqn:E; [|by right]. left. exists k.
  apply find_some in E as [Hin En]. apply Nat.eqb_eq in En. simpl in En. subst n'. split; [by apply list_elem_of_In|done].
Qed.

Lemma client_step_ok e c : client_ok c -> client_ok (client_step e c).
Proof.
  intros (Hm & Hn & Hiff & Hlt). destruct e as [url g t|n]; simpl.
  - unfold api_get. destruct (disableDuplicate g); simpl.
    { split_and!; simpl; try done. intros k n E. specialize (Hlt k n E). lia. }
    set (key := get_key _ url _). destruct (map_get (inFlightGet c) key) as [n|] eqn:E; [done|].
    split_and!; simpl; [by apply map_set_ok| | |].
    + constructor; [|done]. intros ([n k] & Ek & Hin)%list_elem_of_fmap. apply Hlt in Hin. simpl in *. lia.
    + intros k n. rewrite map_get_set, elem_of_cons. case_bool_decide as Ek.
      * subst. split; [intros [= <-]; by left|]. intros [[= ->]|Hin]; [done|]. apply Hiff in Hin. congruence.
      * rewrite Hiff. naive_solver.
    + intros n k [[= -> ->]|Hin]%elem_of_cons; [lia|]. apply Hlt in Hin. lia.
  - destruct (get_settled_cases n c Hn) as [(k & Hk & ->)| ->]; [|by split_and!]. split_and!; simpl.
    + by apply map_delete_ok.
    + clear -Hn. induction (unsettled_gets c) as [|[n' k'] l IH]; [done|]. simpl in *. apply NoDup_cons in Hn as [Hni Hn].
      destruct (negb _); simpl; [|by apply IH]. constructor; [|by apply IH]. intros Hin. apply Hni.
      apply list_elem_of_fmap in Hin as (e & -> & He). apply list_elem_of_fmap. exists e. split; [done|].
      apply list_elem_of_In, filter_In in He as [He _]. by apply list_elem_of_In.
    + intros k' n'. rewrite map_get_delete by done. rewrite list_elem_of_In, filter_In, <- list_elem_of_In. simpl.
      rewrite negb_true_iff, Nat.eqb_neq, <- Hiff. case_bool_decide as Ek; [subst k'|].
      * split; [done|]. intros [Hk' Hne]. apply Hiff in Hk. congruence.
      * split; [|tauto]. intros Hk'. split; [done|]. intros ->. apply Hiff in Hk'.
        by rewrite (assoc_unique _ _ _ _ Hn Hk Hk') in Ek.
    + intros n' k'. rewrite list_elem_of_In, filter_In, <- list_elem_of_In. intros [Hin _]. by apply (Hlt n' k').
Qed.

Lemma client_run_ok es c : client_ok c -> client_ok (client_run es c).
Proof. revert c. induction es as [|e es IH]; intros c Hc; [done|]. by apply IH, client_step_ok. Qed.

Lemma client_initial_ok : client_ok client_initial.
Proof. split_and!; simpl; [apply NoDup_nil_2|apply NoDup_nil_2| |]; intros ? ?; [split; [done|]|]; by intros ?%not_elem_of_nil. Qed.

Lemma api_get_key url g t c c' n : disableDuplicate g = false -> api_get url g t c = (c', n) ->
  map_get (inFlightGet c') (get_key (session_sid (auth t)) url (params g)) = Some n.
Proof.
  intros Hd. unfold api_get. rewrite Hd. destruct (map_get (inFlightGet c) _) as [k|] eqn:E; intros [= <- <-]; [done|].
  apply map_get_set_eq.
Qed.

(** A shared request stays in the table until it settles. *)
Lemma client_run_keeps es : forall c k n, client_ok c -> ~ In (GetSettled n) es -> map_get (inFlightGet c) k = Some n ->
  map_get (inFlightGet (client_run es c)) k = Some n.
Proof.
  induction es as [|e es IH]; intros c k n Hc Hns Hk; [done|]. simpl in Hns.
  apply (IH (client_step e c)); [by apply client_step_ok|tauto|]. destruct Hc as (Hm & Hn & Hiff & Hlt).
  destruct e as [url g t|n']; simpl.
  - unfold api_get. destruct (disableDuplicate g); [done|]. destruct (map_get _ (get_key _ _ _)) as [?|] eqn:E; [done|].
    simpl. rewrite map_get_set. case_bool_decide; [|done]. subst. congruence.
  - destruct (get_settled_cases n' c Hn) as [(k' & Hk' & ->)| ->]; [|done]. simpl. rewrite map_get_delete by done.
    case_bool_decide; [|done]. subst k'. apply Hiff in Hk'. assert (n = n') by congruence. subst n'. tauto.
Qed.

(** The session part of a key. *)
Definition key_session (s : option jstr) : jstr := str_or (default [] s) (u "anonymous").

Lemma app_sep_inj (sep : N) (a b x y : jstr) :
  ~ In sep a -> ~ In sep b -> a ++ sep :: x = b ++ sep :: y -> a = b /\ x = y.
Proof.
  revert b. induction a as [|c a IH]; intros b Ha Hb E; destruct b as [|d b]; simpl in *.
  - by injection E.
  - injection E as -> _. tauto.
  - injection E as -> _. tauto.
  - injection E as -> E. destruct (IH b) as [-> ->]; [tauto|tauto|done|done].
Qed.

Lemma get_key_session s1 s2 url1 url2 p1 p2 :
  ~ In 58%N (key_session s1) -> ~ In 58%N (key_session s2) ->
  get_key s1 url1 p1 = get_key s2 url2 p2 -> key_session s1 = key_session s2.
Proof.
  unfold get_key. change (u ":") with [58%N]. intros H1 H2 E. simpl in E.
  by apply app_sep_inj in E as [E _].
Qed.

(** *** The theorems *)

(** C5: Every request through the client settles within two answers of the server
    and is transmitted once or twice: the refresh-and-retry on 401 happens at most
    once, whatever the server and the refresh answer. *)
Theorem request_settles (pathname : jstr) (answers : list answer) (config : ApiRequestConfig)
    (t : Tab) :
  (2 <= length answers)%nat ->
  let '(t', s, n) := request pathname answers config t in
  s <> Unanswered /\ (1 <= n <= 2)%nat.
Proof.
  intros Hl. pose proof (request_transmissions pathname answers config t) as Hn.
  destruct (request pathname answers config t) as [[t' s] n] eqn:E. split; [|done]. clear Hn.
  destruct answers as [|a1 [|a2 answers]]; simpl in Hl; try lia. clear Hl. revert E. simpl.
  destruct a1 as [d1|s1 e1 r1]; [destruct (on_response _ d1 t) as [|[]]; by intros [= <- <- <-]|].
  destruct (on_error _ _ s1 e1 t) as [t1 [es|c1]] eqn:E1; [by intros [= <- <- <-]|].
  assert (authRetry c1 = true) as Hr.
  { unfold on_error in E1. repeat break_hyp E1; simplify_eq/=; done. }
  destruct (r1 t1) as [t2 [o|]]; [|by intros [= <- <- <-]].
  destruct (after_refresh pathname c1 o t2) as [c2|es] eqn:E2; [|by intros [= <- <- <-]].
  assert (authRetry c2 = true) as Hr2.
  { destruct o; try done. injection E2 as <-. by rewrite attach_token_authRetry. }
  destruct a2 as [d2|s2 e2 r2]; [destruct (on_response _ d2 t2) as [|[]]; by intros [= <- <- <-]|].
  unfold on_error at 1. rewrite attach_token_authRetry, Hr2, andb_false_r.
  destruct (bool_decide _); by intros [= <- <- <-].
Qed.

Definition demo_config : ApiRequestConfig :=
  mkConfig false false false false false false JUndef None.

Lemma request_settles_witness :
  let answers := [AnsError (Some 401) JUndef (fun t => (t, Some Anonymous)); AnsOk JUndef] in
  let '(t', s, n) := request (u "/keys") answers demo_config (init_tab (fun _ => []) 0) in
  s <> Unanswered /\ (1 <= n <= 2)%nat.
Proof. apply request_settles. simpl. lia. Defined.

(** A 401 on the retried request ends the session here: after a refresh that
    authenticated, a second 401 signs the tab out locally (no event for the other
    tabs), reports the expiry unless the caller handles errors, and leaves for the
    sign-in page unless already there; the request was sent exactly twice. *)
Theorem second_401_signs_out (pathname : jstr) (config : ApiRequestConfig) (t t1 : Tab)
    (b : AuthBundle) (e1 e2 : jsval) (refresh refresh2 : Tab -> Tab * option RefreshOutcome)
    (answers : list answer) :
  skipAuthRefresh config = false -> authRetry config = false ->
  refresh t = (t1, Some (Authenticated b)) ->
  request pathname
    (AnsError (Some 401) e1 refresh :: AnsError (Some 401) e2 refresh2 :: answers) config t =
  (clearAuthentication false complete t1,
   Rejected (unless (skipErrorHandler config) [session_expired]
             ++ redirectToSignIn pathname), 2%nat) /\
  published (clearAuthentication false complete t1) = published t1.
Proof.
  intros Hs Ha Hr. split; [|unfold clearAuthentication; by destruct (session_sid _)].
  assert (skipAuthRefresh (attach_token t config) = false) as Hs'.
  { unfold attach_token. by destruct (accessToken (auth t)) as [[|]|]. }
  simpl. unfold on_error at 1. rewrite (bool_decide_eq_true_2 (Some 401 = Some 401)) by done.
  rewrite attach_token_authRetry, Ha, Hs'. simpl. rewrite Hr. simpl.
  unfold on_error at 1. rewrite (bool_decide_eq_true_2 (Some 401 = Some 401)) by done.
  rewrite !attach_token_authRetry, !attach_token_skip. simpl.
  rewrite andb_false_r. by rewrite attach_token_skip.
Qed.

Lemma second_401_signs_out_witness :
  let t := init_tab (fun _ => []) 0 in
  let b := mkBundle (u "t") (u "Bearer") (num_of_Z 9) (JObj [])
             (mkSession (u "s") true [] [] [] (num_of_Z 0) (num_of_Z 0) (num_of_Z 0)) in
  let t1 := applyAuthBundle b false t in
  request (u "/keys")
    [AnsError (Some 401) JUndef (fun t => (applyAuthBundle b false t, Some (Authenticated b)));
     AnsError (Some 401) JUndef (fun t => (t, Some Anonymous))] demo_config t =
  (clearAuthentication false complete t1, Rejected [session_expired; Redirect], 2%nat) /\
  published (clearAuthentication false complete t1) = published t1.
Proof. by eapply second_401_signs_out. Defined.

(** The gateway issues random UUIDs as session ids (uuid.NewString in
    service/auth_session.go): hexadecimal digits and hyphens. *)
Definition isUUID (s : jstr) : bool :=
  Nat.eqb (length s) 36
  && forallb (fun c => (48 <=? c)%N && (c <=? 57)%N || (97 <=? c)%N && (c <=? 102)%N || (c =? 45)%N) s.

Definition gateway_sid (o : option jstr) : Prop := forall s, o = Some s -> isUUID s = true.

Lemma gateway_key o : gateway_sid o -> ~ In 58%N (key_session o) /\
  key_session o = match o with Some s => s | None => u "anonymous" end /\ o <> Some (u "anonymous").
Proof.
  intros Ho. destruct o as [s|]; [|split_and!; [intros Hin; vm_compute in Hin; intuition discriminate|done|done]].
  specialize (Ho s eq_refl). unfold isUUID in Ho. apply andb_true_iff in Ho as [Hl Hs]. apply Nat.eqb_eq in Hl.
  destruct s as [|c s]; [done|]. change (key_session (Some (c :: s))) with (c :: s). split_and!; [|done|].
  - intros Hin. rewrite forallb_forall in Hs. by apply Hs in Hin.
  - intros E. assert (c :: s = u "anonymous") as E' by congruence. rewrite E' in Hl. by vm_compute in Hl.
Qed.

(** C6: Whatever other GETs are called and settle in between, a GET called while an
    earlier one is under way gets the earlier one's promise exactly when the keys of the
    two agree (neither opts out of sharing); and when the session ids are UUIDs, as the
    gateway issues them, it then belongs to the same session: what was requested under one
    session, or under none, is never handed to another. *)
Theorem shared_get_same_session (before between : list client_event) (c1 c2 : Client) (t1 t2 : Tab) (url1 url2 : jstr)
    (g1 g2 : ApiRequestConfig) (n1 n2 : nat) :
  disableDuplicate g1 = false -> disableDuplicate g2 = false ->
  api_get url1 g1 t1 (client_run before client_initial) = (c1, n1) -> ~ In (GetSettled n1) between ->
  api_get url2 g2 t2 (client_run between c1) = (c2, n2) ->
  let k1 := get_key (session_sid (auth t1)) url1 (params g1) in
  let k2 := get_key (session_sid (auth t2)) url2 (params g2) in
  (n1 = n2 <-> k1 = k2) /\
  (gateway_sid (session_sid (auth t1)) -> gateway_sid (session_sid (auth t2)) ->
   n1 = n2 -> session_sid (auth t1) = session_sid (auth t2)).
Proof.
  intros Hd1 Hd2 E1 Hns E2 k1 k2.
  assert (client_ok c1) as Hok1.
  { change c1 with (fst (c1, n1)). rewrite <- E1. apply (client_step_ok (GetCalled url1 g1 t1)), client_run_ok, client_initial_ok. }
  pose proof (client_run_keeps between c1 k1 n1 Hok1 Hns (api_get_key _ _ _ _ _ _ Hd1 E1)) as K1.
  destruct (client_run_ok between c1 Hok1) as (_ & Hn & Hiff & Hlt).
  assert (n1 = n2 <-> k1 = k2) as Hsame.
  { unfold api_get in E2. rewrite Hd2 in E2. fold k2 in E2.
    destruct (map_get (inFlightGet (client_run between c1)) k2) as [n|] eqn:K2; injection E2 as <- <-.
    - split; [intros <-|intros Ek; rewrite <- Ek, K1 in K2; by injection K2]. apply Hiff in K1, K2.
      by apply (assoc_unique _ _ _ _ Hn K1 K2).
    - pose proof (Hlt _ _ (proj1 (Hiff _ _) K1)). split; [lia|]. intros Ek. rewrite <- Ek in K2. congruence. }
  split; [done|]. intros H1 H2 En. apply Hsame in En. destruct (gateway_key _ H1) as (C1 & E1' & N1), (gateway_key _ H2) as (C2 & E2' & N2).
  apply get_key_session in En; [|done|done]. rewrite E1', E2' in En.
  destruct (session_sid (auth t1)), (session_sid (auth t2)); congruence.
Qed.

(** Two sessions on the same page, with a settled GET in between: no sharing. *)
Lemma shared_get_same_session_witness :
  let tab s := applyAuthBundle (mkBundle (u "t") (u "Bearer") (num_of_Z 9) (JObj [])
                 (mkSession s true [] [] [] (num_of_Z 0) (num_of_Z 0) (num_of_Z 0))) false (init_tab (fun _ => []) 0) in
  let s1 := u "0d5a1f1e-58a0-4d27-9c4e-0c0a7f7b9a11" in
  let s2 := u "0d5a1f1e-58a0-4d27-9c4e-0c0a7f7b9a12" in
  let call s := api_get (u "/api/user/self") demo_config (tab s) in
  let c1 := fst (call s1 client_initial) in
  let between := [GetCalled (u "/api/status") demo_config (tab s1); GetSettled 1] in
  snd (call s1 (client_run between c1)) = 0%nat /\ snd (call s2 (client_run between c1)) <> 0%nat.
Proof.
  intros tab s1 s2 call c1 between.
  assert (~ In (GetSettled 0) between) as Hns by (intros Hin; simpl in Hin; intuition discriminate).
  pose proof (fun s => shared_get_same_session [] between c1 _ (tab s1) (tab s) (u "/api/user/self") (u "/api/user/self")
    demo_config demo_config 0 _ eq_refl eq_refl (surjective_pairing _) Hns (surjective_pairing _)) as H.
  split; [by symmetry; apply (H s1)|]. intros E. destruct (H s2) as [_ Hs].
  assert (session_sid (auth (tab s1)) = session_sid (auth (tab s2))) as E'.
  { assert (forall s, isUUID s = true -> gateway_sid (session_sid (auth (tab s)))) as Hg.
    { intros s Hu x Hx. change (Some s = Some x) in Hx. by injection Hx as <-. }
    apply Hs; [by apply Hg|by apply Hg|done]. }
  by vm_compute in E'.
Defined.
