(* ===== verification/StatusCodes.v ===== *)
(** * HTTP status code rules and redirects

    [Module Rules] is src/web/src/lib/http-status-code-rules.ts: a list of codes
    and ranges as the administrator types it, parsed, merged and printed back.
    [Module RiskGuard] is
    src/web/src/features/channels/lib/status-code-risk-guard.ts: the check that a
    status code mapping does not redirect a code that must not be redirected. *)

From Stdlib Require Import ZArith SpecFloat.
From stdpp Require Import base numbers option list sorting.
From S2P Require Import Prelude Collections JsNumber JsValue Json JsonProps.

Module Rules.

Record StatusCodeRange := mkRange { start : Z; end_ : Z }.

#[export] Instance StatusCodeRange_dec : EqDecision StatusCodeRange.
Proof. solve_decision. Defined.

Record ParsedHttpStatusCodeRules := mkParsed {
  ok : bool;
  ranges : list StatusCodeRange;
  tokens : list jstr;
  normalized : jstr;
  invalidTokens : list jstr
}.

Definition isNumber (s : option jstr) : bool :=
  match s with Some s => all_digits s | None => false end.

Definition isValidCode (code : Z) : bool := (100 <=? code) && (code <=? 599).

Definition parseToken (token : jstr) : option StatusCodeRange :=
  let cleaned := List.filter (fun c => negb (is_space c)) (trim token) in
  if negb (str_truthy cleaned) then None
  else if includes cleaned (u "-") then
    let parts := split 45%N cleaned in
    let a := parts !! 0%nat in
    let b := parts !! 1%nat in
    if negb (isNumber a) || negb (isNumber b) then None
    else
      let start := parse_digits (default [] a) in
      let end_ := parse_digits (default [] b) in
      if negb (isValidCode start) || negb (isValidCode end_) || (end_ <? start) then None
      else Some (mkRange start end_)
  else if negb (isNumber (Some cleaned)) then None
  else
    let code := parse_digits cleaned in
    if negb (isValidCode code) then None else Some (mkRange code code).

Definition compareRanges (a b : StatusCodeRange) : Z :=
  if negb (start a =? start b) then start a - start b else end_ a - end_ b.

(** One step of the [reduce]; [last.end] is updated in place. *)
Definition merge_step (merged : list StatusCodeRange) (current : StatusCodeRange)
    : list StatusCodeRange :=
  match last merged with
  | None => merged ++ [current]
  | Some l =>
      if end_ l + 1 <? start current then merged ++ [current]
      else removelast merged ++ [mkRange (start l) (Z.max (end_ l) (end_ current))]
  end.

Definition mergeRanges (ranges : list StatusCodeRange) : list StatusCodeRange :=
  fold_left merge_step (array_sort compareRanges ranges) [].

Definition range_token (r : StatusCodeRange) : jstr :=
  if start r =? end_ r then Z_str (start r) else Z_str (start r) ++ u "-" ++ Z_str (end_ r).

(** The nonempty trimmed segments; the full-width comma counts as a comma. *)
Definition segments (raw : jstr) : list jstr :=
  List.filter str_truthy
    (map trim (split 44%N (map (fun c => if (c =? 65292)%N then 44%N else c) raw))).

Definition parseHttpStatusCodeRules (input : option jstr) : ParsedHttpStatusCodeRules :=
  let raw := trim (default [] input) in
  if negb (str_truthy raw) then mkParsed true [] [] [] []
  else
    let segs := segments raw in
    let invalid := List.filter (fun s => bool_decide (parseToken s = None)) segs in
    let parsed := omap parseToken segs in
    if negb (bool_decide (invalid = [])) then mkParsed false [] [] raw invalid
    else
      let merged := mergeRanges parsed in
      let toks := map range_token merged in
      mkParsed true merged toks (join (u ",") toks) [].

Example parse_rules_ex :
  let r := parseHttpStatusCodeRules (Some (u " 500-503, 429，504 , 400 - 401,502-510")) in
  (ranges r, normalized r) =
  ([mkRange 400 401; mkRange 429 429; mkRange 500 510], u "400-401,429,500-510").
Proof. vm_compute. reflexivity. Qed.

(** ** Merging *)

Definition range_ok (r : StatusCodeRange) : Prop := 100 <= start r /\ start r <= end_ r <= 599.

(** The codes a list of ranges selects. *)
Definition covers (rs : list StatusCodeRange) (c : Z) : Prop :=
  Exists (fun r => start r <= c <= end_ r) rs.

(** Ascending, and with a gap between neighbours. *)
Fixpoint separated (rs : list StatusCodeRange) : Prop :=
  match rs with
  | a :: (b :: _) as rs' => end_ a + 1 < start b /\ separated rs'
  | _ => True
  end.

Lemma parseToken_ok t r : parseToken t = Some r -> range_ok r.
Proof.
  unfold parseToken, range_ok, isValidCode. generalize (List.filter (fun c => negb (is_space c)) (trim t)).
  intros cleaned H. generalize dependent (parse_digits (default [] (split 45 cleaned !! 0%nat))).
  generalize (parse_digits (default [] (split 45 cleaned !! 1%nat))).
  intros e s H. repeat first [break_hyp H; [done|] | destruct (includes _ _)].
  all: bool_to_prop; simplify_eq; simpl; lia.
Qed.

Lemma separated_snoc m a b :
  separated (m ++ [a; b]) <-> separated (m ++ [a]) /\ end_ a + 1 < start b.
Proof.
  induction m as [|x m IH]; [simpl; tauto|].
  destruct m as [|y m]; simpl in *; tauto.
Qed.

Lemma separated_last m a b : start b = start a -> separated (m ++ [a]) -> separated (m ++ [b]).
Proof.
  intros E. induction m as [|x m IH]; [done|].
  destruct m as [|y m]; simpl in *; [rewrite E|]; tauto.
Qed.

Lemma merge_step_snoc m a b :
  merge_step (m ++ [a]) b =
  if end_ a + 1 <? start b then m ++ [a; b]
  else m ++ [mkRange (start a) (Z.max (end_ a) (end_ b))].
Proof.
  unfold merge_step. rewrite last_snoc, removelast_last, <- app_assoc. done.
Qed.

Lemma covers_app a b c : covers (a ++ b) c <-> covers a c \/ covers b c.
Proof. apply Exists_app. Qed.

Lemma covers_cons r rs c : covers (r :: rs) c <-> start r <= c <= end_ r \/ covers rs c.
Proof. apply Exists_cons. Qed.

Lemma covers_nil c : covers [] c <-> False.
Proof. apply Exists_nil. Qed.

Lemma merge_fold rs : forall m a,
  separated (m ++ [a]) -> Forall range_ok (m ++ [a]) -> Forall range_ok rs ->
  Sorted (fun x y => start x <= start y) (a :: rs) ->
  let out := fold_left merge_step rs (m ++ [a]) in
  separated out /\ Forall range_ok out /\ forall c, covers out c <-> covers (m ++ [a]) c \/ covers rs c.
Proof.
  induction rs as [|r rs IH]; intros m a Hsep Hok Hrs Hs; simpl.
  - split_and!; [done..|]. intros c. rewrite covers_nil. tauto.
  - apply Forall_cons_1 in Hrs as [Hr Hrs]. inversion Hs as [|? ? Hs' Hd]; subst.
    apply HdRel_inv in Hd. rewrite merge_step_snoc.
    apply Forall_app in Hok as [Hm Ha]. rewrite Forall_singleton in Ha.
    unfold range_ok in Ha, Hr. destruct (Z.ltb_spec (end_ a + 1) (start r)) as [Hg|Hg].
    + change [a; r] with ([a] ++ [r]). rewrite app_assoc.
      destruct (IH (m ++ [a]) r) as (S1 & O1 & C1); try done.
      * rewrite <- app_assoc. by apply separated_snoc.
      * rewrite !Forall_app, !Forall_singleton. unfold range_ok. naive_solver lia.
      * split_and!; [done..|]. intros c. rewrite C1, !covers_app, !covers_cons, covers_nil. tauto.
    + destruct (IH m (mkRange (start a) (Z.max (end_ a) (end_ r)))) as (S1 & O1 & C1); try done.
      * by apply (separated_last m a).
      * rewrite Forall_app, Forall_singleton. unfold range_ok; simpl. split; [done|lia].
      * inversion Hs' as [|? ? Hs'' Hd']; subst. constructor; [done|].
        destruct rs; constructor. apply HdRel_inv in Hd'. simpl. lia.
      * split_and!; [done..|]. intros c. rewrite C1, !covers_app, !(covers_cons _ _ c), !covers_nil.
        simpl. enough (start a <= c <= Z.max (end_ a) (end_ r)
          <-> start a <= c <= end_ a \/ start r <= c <= end_ r) by tauto. lia.
Qed.

Lemma compareRanges_total x y : compareRanges x y <= 0 \/ compareRanges y x <= 0.
Proof. unfold compareRanges. destruct (Z.eqb_spec (start x) (start y)), (Z.eqb_spec (start y) (start x)); simpl; lia. Qed.

Lemma sorted_starts rs : Sorted (fun x y => start x <= start y) (array_sort compareRanges rs).
Proof.
  assert (H := array_sort_sorted compareRanges compareRanges_total rs).
  induction H as [|x l Hs IH Hd]; constructor; [done|].
  destruct Hd as [|y l Hle]; constructor. unfold compareRanges in Hle.
  destruct (Z.eqb_spec (start x) (start y)); simpl in *; lia.
Qed.

Lemma mergeRanges_spec rs : Forall range_ok rs ->
  separated (mergeRanges rs) /\ Forall range_ok (mergeRanges rs)
  /\ forall c, covers (mergeRanges rs) c <-> covers rs c.
Proof.
  intros Hok. unfold mergeRanges. pose proof (sorted_starts rs) as Hs.
  pose proof (array_sort_perm compareRanges rs) as Hp.
  assert (Hc : forall c, covers rs c <-> covers (array_sort compareRanges rs) c).
  { intros c. unfold covers. by rewrite Hp. }
  rewrite <- Hp in Hok. destruct (array_sort compareRanges rs) as [|r l].
  - split_and!; [done..|]. intros c. by rewrite Hc.
  - apply Forall_cons_1 in Hok as [Hr Hl]. simpl.
    destruct (merge_fold l [] r) as (S1 & O1 & C1); try done.
    { by constructor. }
    split_and!; [done..|]. intros c. rewrite Hc. rewrite (covers_cons r l).
    unfold merge_step; simpl. rewrite C1. simpl. rewrite covers_cons, covers_nil. tauto.
Qed.

(** ** Printing and parsing back *)

Lemma Z_str_digits z : 0 <= z -> Forall (fun c => is_digit c = true) (Z_str z).
Proof. intros H. rewrite Z_str_nonneg by done. apply N_str_digits. Qed.

Definition token_char (c : N) : Prop := is_digit c = true \/ c = 45%N.

Lemma range_token_chars r : range_ok r -> Forall token_char (range_token r).
Proof.
  intros [H1 H2]. assert (F : forall z, 0 <= z -> Forall token_char (Z_str z)).
  { intros z Hz. eapply Forall_impl; [by apply Z_str_digits|]. by left. }
  unfold range_token. destruct (_ =? _); [apply F; lia|].
  rewrite !Forall_app. split_and!; [apply F; lia| |apply F; lia].
  apply Forall_singleton. by right.
Qed.

Lemma token_char_plain c : token_char c -> is_space c = false /\ c <> 44%N /\ c <> 65292%N.
Proof.
  intros [H| ->]; [|done]. split; [by apply digit_not_space|].
  unfold is_digit in H. apply andb_true_iff in H as [H H']. apply N.leb_le in H, H'. lia.
Qed.

Lemma token_plain r : range_ok r ->
  Forall (fun c => is_space c = false /\ c <> 44%N /\ c <> 65292%N) (range_token r).
Proof. intros H. eapply Forall_impl; [by apply range_token_chars|]. apply token_char_plain. Qed.

Lemma range_token_nonempty r : range_ok r -> range_token r <> [].
Proof.
  intros [H1 H2]. unfold range_token.
  destruct (proj1 (all_digits_iff _) (all_digits_Z_str (start r) ltac:(lia))) as [Hne _].
  destruct (_ =? _); [done|]. by destruct (Z_str (start r)).
Qed.

Lemma range_token_trim r : range_ok r -> trim (range_token r) = range_token r.
Proof.
  intros H. apply trim_trimmed, trimmed_no_space. eapply Forall_impl; [by apply token_plain|].
  by intros c [? _].
Qed.

Lemma includes_dash s : Forall (fun c => is_digit c = true) s -> includes s (u "-") = false.
Proof.
  intros F. unfold includes. replace (indexOf s (u "-")) with (@None nat); [done|].
  induction F as [|c s Hc F IH]; [reflexivity|].
  change (indexOf (c :: s) (u "-")) with
    (if startsWith (c :: s) (u "-") then Some 0%nat else S <$> indexOf s (u "-")).
  rewrite <- IH. replace (startsWith (c :: s) (u "-")) with false; [done|].
  symmetry. apply not_true_iff_false. rewrite startsWith_app. intros [q Hq].
  injection Hq as -> _. done.
Qed.

Lemma includes_dash_mid a b : includes (a ++ u "-" ++ b) (u "-") = true.
Proof.
  unfold includes. induction a as [|c a IH]; [by destruct b|].
  change (indexOf ((c :: a) ++ u "-" ++ b) (u "-")) with
    (if startsWith ((c :: a) ++ u "-" ++ b) (u "-") then Some 0%nat
     else S <$> indexOf (a ++ u "-" ++ b) (u "-")).
  destruct (startsWith _ _); [done|]. by destruct (indexOf (a ++ _) _).
Qed.

Lemma digits_no_dash s : Forall (fun c => is_digit c = true) s -> ~ In 45%N s.
Proof. rewrite List.Forall_forall. intros F H%F. done. Qed.

Lemma parseToken_range_token r : range_ok r -> parseToken (range_token r) = Some r.
Proof.
  intros Hr. unfold parseToken. rewrite range_token_trim by done.
  rewrite filter_all; [|eapply Forall_impl; [by apply token_plain|]; intros c [-> _]; done].
  replace (str_truthy (range_token r)) with true.
  2:{ pose proof (range_token_nonempty r Hr). by destruct (range_token r). }
  destruct Hr as [H1 H2]. destruct r as [s e]. simpl in *.
  assert (Ds : Forall (fun c => is_digit c = true) (Z_str s)) by (apply Z_str_digits; lia).
  assert (De : Forall (fun c => is_digit c = true) (Z_str e)) by (apply Z_str_digits; lia).
  unfold range_token; cbn [start end_]. destruct (Z.eqb_spec s e) as [->|Hne]; cbn [negb].
  - rewrite includes_dash by done. cbn [isNumber]. rewrite all_digits_Z_str by lia. cbn [negb].
    rewrite parse_digits_Z_str by lia. unfold isValidCode.
    destruct (Z.leb_spec 100 e), (Z.leb_spec e 599); try lia. done.
  - rewrite includes_dash_mid. change (u "-") with [45%N].
    change (Z_str s ++ [45%N] ++ Z_str e) with (Z_str s ++ 45%N :: Z_str e).
    rewrite split_app_sep, split_single by (by apply digits_no_dash).
    cbn [lookup list_lookup isNumber]. rewrite !all_digits_Z_str by lia. cbn [negb orb].
    cbn [default from_option id]. rewrite !parse_digits_Z_str by lia. unfold isValidCode.
    destruct (Z.leb_spec 100 s), (Z.leb_spec s 599), (Z.leb_spec 100 e), (Z.leb_spec e 599),
      (Z.ltb_spec e s); try lia. done.
Qed.

Lemma join_Forall (P : N -> Prop) sep l :
  Forall P sep -> Forall (Forall P) l -> Forall P (join sep l).
Proof.
  intros Hs. induction 1 as [|x l Hx F IH]; [constructor|].
  destruct l as [|y l]; [done|]. change (join sep (x :: y :: l)) with (x ++ sep ++ join sep (y :: l)).
  rewrite !Forall_app. done.
Qed.

Lemma segments_tokens rs : Forall range_ok rs -> rs <> [] ->
  segments (join (u ",") (map range_token rs)) = map range_token rs.
Proof.
  intros F Hne. unfold segments.
  assert (Hmap : map (fun c => if (c =? 65292)%N then 44%N else c) (join (u ",") (map range_token rs))
    = join (u ",") (map range_token rs)).
  { rewrite <- (map_id (join _ _)) at 2. apply map_ext_Forall, join_Forall.
    - by repeat constructor.
    - apply Forall_map. eapply Forall_impl; [exact F|]. intros r Hr. simpl.
      eapply Forall_impl; [by apply token_plain|]. intros c (_ & _ & Hc). simpl.
      by rewrite (proj2 (N.eqb_neq _ _) Hc). }
  rewrite Hmap. change (u ",") with [44%N]. rewrite split_join.
  - rewrite map_map. rewrite filter_all.
    + apply map_ext_Forall. eapply Forall_impl; [exact F|]. apply range_token_trim.
    + apply Forall_map. eapply Forall_impl; [exact F|]. intros r Hr. simpl.
      rewrite range_token_trim by done.
      pose proof (range_token_nonempty r Hr). by destruct (range_token r).
  - by destruct rs.
  - apply Forall_map. eapply Forall_impl; [exact F|]. intros r Hr. simpl. rewrite List.Forall_forall in *.
    pose proof (token_plain r Hr) as T. rewrite List.Forall_forall in T. intros H%T. naive_solver.
Qed.

Lemma separated_sorted rs : Forall range_ok rs -> separated rs ->
  Sorted (fun x y => compareRanges x y <= 0) rs.
Proof.
  induction 1 as [|r rs Hr F IH]; intros Hs; constructor.
  - apply IH. by destruct rs; [|apply Hs].
  - destruct rs as [|q rs]; constructor. simpl in Hs. destruct Hr, Hs.
    unfold compareRanges. destruct (Z.eqb_spec (start r) (start q)); simpl; lia.
Qed.

Lemma merge_separated rs : forall m, Forall range_ok (m ++ rs) -> separated (m ++ rs) ->
  fold_left merge_step rs m = m ++ rs.
Proof.
  induction rs as [|r rs IH]; intros m F Hs; simpl; [by rewrite app_nil_r|].
  assert (Hm : merge_step m r = m ++ [r]).
  { destruct m as [|a m _] using rev_ind; [done|]. rewrite merge_step_snoc, <- app_assoc.
    destruct (Z.ltb_spec (end_ a + 1) (start r)) as [|Hc]; [done|]. exfalso.
    clear - Hs Hc. rewrite <- app_assoc in Hs. simpl in Hs.
    induction m as [|x m IHm]; [simpl in Hs; lia|]. apply IHm. by destruct m; apply Hs. }
  rewrite Hm, IH; rewrite <- app_assoc; done.
Qed.

Lemma mergeRanges_id rs : Forall range_ok rs -> separated rs -> mergeRanges rs = rs.
Proof.
  intros F Hs. unfold mergeRanges. rewrite array_sort_id by (by apply separated_sorted).
  by apply (merge_separated rs []).
Qed.

Lemma omap_tokens rs : Forall range_ok rs -> omap parseToken (map range_token rs) = rs.
Proof.
  induction 1 as [|r rs Hr F IH]; [done|].
  cbn [map omap list_omap]. rewrite parseToken_range_token by done. cbn. by f_equal.
Qed.

Lemma no_invalid segs : List.filter (fun s => bool_decide (parseToken s = None)) segs = [] ->
  forall s, s ∈ segs -> exists r, parseToken s = Some r.
Proof.
  intros H s Hs. destruct (parseToken s) as [r|] eqn:E; [by exists r|].
  apply list_elem_of_In in Hs. assert (Hf : In s []); [|done]. rewrite <- H. apply filter_In.
  split; [done|]. by apply bool_decide_eq_true_2.
Qed.

Lemma omap_parse_ok segs : Forall range_ok (omap parseToken segs).
Proof.
  apply Forall_forall. intros r (s & _ & Hr)%list_elem_of_omap. by eapply parseToken_ok.
Qed.

Lemma normalized_trim rs : Forall range_ok rs ->
  trim (join (u ",") (map range_token rs)) = join (u ",") (map range_token rs).
Proof.
  intros F. apply trim_trimmed, trimmed_no_space, join_Forall; [by repeat constructor|].
  apply Forall_map. eapply Forall_impl; [exact F|]. intros r Hr. simpl.
  eapply Forall_impl; [by apply token_plain|]. by intros c [? _].
Qed.

(** C35: What an accepted rule list means: the ranges lie in 100..599, ascend and
    leave a gap between neighbours (so they are merged as far as possible), every
    segment of the input parsed, and a code is selected exactly when the range of
    some segment contains it: merging neither adds nor loses a code. *)
Theorem accepted_rules_cover (input : option jstr) (r : ParsedHttpStatusCodeRules) :
  parseHttpStatusCodeRules input = r -> ok r = true ->
  separated (ranges r) /\ Forall range_ok (ranges r) /\ invalidTokens r = []
  /\ (forall seg, seg ∈ segments (trim (default [] input)) -> exists q, parseToken seg = Some q)
  /\ forall c, covers (ranges r) c <->
       exists seg q, seg ∈ segments (trim (default [] input)) /\ parseToken seg = Some q
                     /\ start q <= c <= end_ q.
Proof.
  unfold parseHttpStatusCodeRules. intros <-.
  destruct (trim (default [] input)) as [|x raw] eqn:E; cbn [str_truthy negb].
  - intros _. unfold segments. simpl. split_and!; try done.
    + intros seg Hs. by apply not_elem_of_nil in Hs.
    + intros c. unfold covers. rewrite Exists_nil. split; [done|].
      intros (seg & q & Hs & _). by apply not_elem_of_nil in Hs.
  - destruct (bool_decide _) eqn:Hinv; simpl negb; cbn [ok negb]; [|done].
    intros _. apply bool_decide_eq_true_1 in Hinv. cbn [ranges invalidTokens].
    destruct (mergeRanges_spec _ (omap_parse_ok (segments (x :: raw)))) as (H1 & H2 & H3).
    split_and!; [done..|by apply no_invalid|]. intros c. rewrite H3. unfold covers.
    rewrite Exists_exists. setoid_rewrite list_elem_of_omap. naive_solver.
Qed.

Lemma accepted_rules_cover_witness :
  exists r, parseHttpStatusCodeRules (Some (u "429, 500-503")) = r
  /\ separated (ranges r) /\ covers (ranges r) 502.
Proof.
  eexists. split; [reflexivity|].
  destruct (accepted_rules_cover (Some (u "429, 500-503")) _ eq_refl) as (H & _ & _ & _ & Hc);
    [vm_compute; reflexivity|].
  split; [exact H|]. apply Hc. exists (u "500-503"), (mkRange 500 503).
  split; [|split; [vm_compute; reflexivity|simpl; lia]].
  apply list_elem_of_In. vm_compute. auto.
Defined.

(** The normalized text is a fixed point: parsing what an accepted rule list
    prints gives the same ranges, tokens and text again. *)
Theorem normalized_reparses (input : option jstr) (r : ParsedHttpStatusCodeRules) :
  parseHttpStatusCodeRules input = r -> ok r = true ->
  parseHttpStatusCodeRules (Some (normalized r)) = r.
Proof.
  unfold parseHttpStatusCodeRules at 1. intros <-.
  destruct (str_truthy (trim (default [] input))); cbn [negb]; [|done].
  destruct (bool_decide _); cbn [ok negb]; [|done]. intros _. cbn [normalized].
  destruct (mergeRanges_spec _ (omap_parse_ok (segments (trim (default [] input))))) as (Hs & Ho & _).
  set (rs := mergeRanges _) in *. clearbody rs. unfold parseHttpStatusCodeRules.
  cbn [default from_option]. unfold id. rewrite normalized_trim by done.
  destruct (decide (rs = [])) as [->|Hne]; [reflexivity|].
  rewrite segments_tokens, omap_tokens, mergeRanges_id by done.
  rewrite bool_decide_eq_true_2; cbn [negb].
  - destruct (str_truthy (join _ _)) eqn:T; [done|]. exfalso. destruct rs as [|q rs]; [done|].
    apply Forall_cons_1 in Ho as [Hq _]. apply range_token_nonempty in Hq. simpl in T.
    destruct (range_token q); [done|]. by destruct (map range_token rs).
  - rewrite Forall_forall in Ho. destruct (List.filter _ _) as [|s l] eqn:E; [done|].
    assert (Hin : In s (s :: l)) by (by left). rewrite <- E in Hin.
    apply filter_In in Hin as [(q & <- & Hq)%in_map_iff Hn].
    apply bool_decide_eq_true_1 in Hn. rewrite parseToken_range_token in Hn; [done|].
    apply Ho. by apply list_elem_of_In.
Qed.

Lemma normalized_reparses_witness :
  exists r, parseHttpStatusCodeRules (Some (u "504,500-503,503-505")) = r
  /\ normalized r = u "500-505" /\ parseHttpStatusCodeRules (Some (normalized r)) = r.
Proof.
  eexists. split; [reflexivity|]. split; [vm_compute; reflexivity|].
  apply (normalized_reparses (Some (u "504,500-503,503-505"))); vm_compute; reflexivity.
Defined.
End Rules.

Module RiskGuard.

Definition NON_REDIRECTABLE_STATUS_CODES : list Z := [504; 524].

(** [/^[1-5]\d{2}$/]. *)
Definition three_digit_code (s : jstr) : bool :=
  match s with
  | [a; b; c] => ((49 <=? a) && (a <=? 53))%N && is_digit b && is_digit c
  | _ => false
  end.

Definition parseStatusCodeKey (rawKey : jstr) : option Z :=
  let normalized := trim rawKey in
  if negb (three_digit_code normalized) then None else Some (parse_digits normalized).

Definition parseStatusCodeMappingTarget (rawValue : jsval) : option Z :=
  match rawValue with
  | JNum n =>
      if isInteger n then
        if num_leb (num_of_Z 100) n && num_leb n (num_of_Z 599) then Some (num_trunc n) else None
      else None
  | JStr s =>
      let normalized := trim s in
      if negb (three_digit_code normalized) then None
      else
        let code := parse_digits normalized in
        if (100 <=? code) && (code <=? 599) then Some code else None
  | _ => None
  end.

(** The entries of the parsed mapping; none where it is blank, no JSON or no
    plain object. *)
Definition mapping_entries (statusCodeMappingStr : jstr) : list (jstr * jsval) :=
  if negb (str_truthy (trim statusCodeMappingStr)) then []
  else match JSON_parse statusCodeMappingStr with
       | Some (JObj ps) => own_entries ps
       | _ => []
       end.

Definition collectInvalidStatusCodeEntries (statusCodeMappingStr : jstr) : list jstr :=
  omap (fun '(rawKey, rawValue) =>
    match parseStatusCodeKey rawKey, parseStatusCodeMappingTarget rawValue with
    | Some _, Some _ => None
    | _, _ => Some (rawKey ++ u " → " ++ to_str rawValue)
    end) (mapping_entries statusCodeMappingStr).

Definition risky_entry (e : jstr * jsval) : option jstr :=
  match parseStatusCodeKey (fst e), parseStatusCodeMappingTarget (snd e) with
  | Some fromCode, Some toCode =>
      if negb (set_has NON_REDIRECTABLE_STATUS_CODES fromCode) then None
      else if fromCode =? toCode then None
      else Some (Z_str fromCode ++ u " -> " ++ Z_str toCode)
  | _, _ => None
  end.

Definition collectDisallowedStatusCodeRedirects (statusCodeMappingStr : jstr) : list jstr :=
  sort_strings (new_set (omap risky_entry (mapping_entries statusCodeMappingStr))).

Definition collectNewDisallowedStatusCodeRedirects (originalStr currentStr : jstr) : list jstr :=
  let currentRisky := collectDisallowedStatusCodeRedirects currentStr in
  if bool_decide (currentRisky = []) then []
  else
    let originalRiskySet := new_set (collectDisallowedStatusCodeRedirects originalStr) in
    List.filter (fun mapping => negb (set_has originalRiskySet mapping)) currentRisky.

Example risk_guard_ex :
  collectNewDisallowedStatusCodeRedirects (uq "{'504': 500}")
    (uq "{'524':'503','504':500, ' 524 ':503, '400':504, '5xx':1}") = [u "524 -> 503"]
  /\ collectInvalidStatusCodeEntries (uq "{'524':'503','5xx':[1,null]}") = [u "5xx → 1,"].
Proof. vm_compute. done. Qed.

(** The redirects reported as newly risky are exactly those the current
    mapping has and the original one did not: sorted, without duplicates, each
    one an entry that sends a non-redirectable code to a different code. *)
Theorem new_redirects_exact (originalStr currentStr : jstr) :
  let new := collectNewDisallowedStatusCodeRedirects originalStr currentStr in
  NoDup new /\ Sorted (fun a b => str_cmp a b <= 0) new
  /\ forall m, m ∈ new <->
       (exists e, e ∈ mapping_entries currentStr /\ risky_entry e = Some m)
       /\ ~ (exists e, e ∈ mapping_entries originalStr /\ risky_entry e = Some m).
Proof.
  set (risky s := collectDisallowedStatusCodeRedirects s).
  assert (Hin : forall s m, m ∈ risky s <->
    exists e, e ∈ mapping_entries s /\ risky_entry e = Some m).
  { intros s m. unfold risky, collectDisallowedStatusCodeRedirects.
    rewrite sort_strings_perm, elem_of_new_set. apply list_elem_of_omap. }
  assert (Heq : collectNewDisallowedStatusCodeRedirects originalStr currentStr =
    List.filter (fun m => negb (set_has (new_set (risky originalStr)) m)) (risky currentStr)).
  { unfold collectNewDisallowedStatusCodeRedirects. fold (risky currentStr).
    destruct (bool_decide _) eqn:E; [|done]. apply bool_decide_eq_true_1 in E. by rewrite E. }
  simpl. rewrite Heq. split_and!.
  - apply NoDup_ListNoDup, List.NoDup_filter, NoDup_ListNoDup.
    unfold risky, collectDisallowedStatusCodeRedirects. rewrite sort_strings_perm. auto with js.
  - apply Sorted_filter; [|apply sort_strings_sorted]. intros a b c. apply str_cmp_trans.
  - intros m. rewrite <- !Hin, list_elem_of_In, filter_In, <- list_elem_of_In.
    rewrite negb_true_iff, set_has_false, elem_of_new_set. done.
Qed.
End RiskGuard.
