(* ===== verification/Flow.v ===== *)
(** * The dashboard's flow graph (src/web/src/features/dashboard/lib/flow.ts)

    Usage rows become paths through the stages a role may see (user, node, token,
    group, model, channel); the paths are limited to the largest nodes per stage,
    added up into the nodes and links of a Sankey graph, masked, highlighted,
    ordered and coloured.

    The counters of a row (quota, tokens, requests) are integers and are added as
    integers: doubles add integers exactly up to 2^53. Shares and opacities are
    doubles. [localeCompare], the number format of [Intl] and the colour scheme of
    the chart library are parameters. A JavaScript [Map] is an association list in
    insertion order ([Collections]). *)

From Stdlib Require Import ZArith SpecFloat.
From stdpp Require Import base numbers option list sorting.
From S2P Require Import Prelude Collections JsNumber.

(** ** Data *)

Inductive FlowNodeKind := KUser | KNode | KToken | KGroup | KModel | KChannel.
Inductive FlowMetric := MQuota | MTokens | MRequests.
Inductive FlowOverflowMode := OAggregate | OHide.
Inductive FlowRole := RUser | RAdmin | RRoot.

#[export] Instance FlowNodeKind_dec : EqDecision FlowNodeKind.
Proof. solve_decision. Defined.

Record FlowQuotaDataItem := mkItem {
  user_id : option Z;
  username : option jstr;
  node_name : option jstr;
  use_group : option jstr;
  token_id : option Z;
  token_name : option jstr;
  channel_id : option Z;
  channel_name : option jstr;
  model_name : option jstr;
  token_used : option Z;
  count : option Z;
  item_quota : option Z
}.

Record FlowMetrics := mkMetrics { m_quota : Z; m_tokens : Z; m_requests : Z }.

Record FlowPathNode := mkPathNode { pn_id : jstr; pn_label : jstr; pn_kind : FlowNodeKind }.

Record PreparedFlowPath := mkPrepared { pp_path : list FlowPathNode; pp_metrics : FlowMetrics }.

Record FlowNodeRank := mkRank { rank_node : FlowPathNode; rank_value : Z }.

Record FlowNodeFilter := mkFilter { f_kind : FlowNodeKind; f_id : jstr }.
Record FlowLinkSelection := mkLinkSel { sel_source : jstr; sel_target : jstr }.

Record DashboardFlowNode := mkNode {
  n_id : jstr;
  n_label : jstr;
  n_kind : FlowNodeKind;
  n_value : Z;
  n_requests : Z;
  n_quota : Z;
  n_tokens : Z;
  n_color : jstr;
  n_colorKey : jstr;
  n_highlighted : option bool;
  n_dimmed : option bool
}.

Record DashboardFlowLink := mkLink {
  l_source : jstr;
  l_target : jstr;
  l_value : Z;
  l_requests : Z;
  l_quota : Z;
  l_tokens : Z;
  l_sourceLabel : jstr;
  l_targetLabel : jstr;
  l_color : jstr;
  l_linkColor : jstr;
  l_linkAlpha : num;
  l_hoverColor : jstr;
  l_colorKey : jstr;
  l_share : num;
  l_highlighted : option bool;
  l_dimmed : option bool
}.

Record DashboardFlowGraph := mkGraph {
  g_nodes : list DashboardFlowNode;
  g_links : list DashboardFlowLink
}.

Record FlowHighlightSets := mkHighlight { h_nodes : list jstr; h_links : list jstr }.

(** [deletedTokenLabel] of a path context. *)
Definition FlowPathContext : Type := option (Z -> jstr).

Record FlowGraphOptions := mkGraphOptions {
  o_topNodeLimit : option num;
  o_overflowMode : option FlowOverflowMode;
  o_otherNodeLabel : option (FlowNodeKind -> jstr);
  o_activeNode : option FlowNodeFilter;
  o_activeLink : option FlowLinkSelection;
  o_maskSensitive : bool
}.

(** ** Rows to paths *)

(** [Number(value)] where finite, else 0: a missing counter counts as 0. *)
Definition numberValue (v : option Z) : Z := default 0 v.

Definition rowMetrics (row : FlowQuotaDataItem) : FlowMetrics :=
  mkMetrics (numberValue (item_quota row)) (numberValue (token_used row)) (numberValue (count row)).

Definition metricValue (metrics : FlowMetrics) (metric : FlowMetric) : Z :=
  match metric with
  | MRequests => m_requests metrics
  | MTokens => m_tokens metrics
  | MQuota => m_quota metrics
  end.

(** [o || d] for an optional string. *)
Definition opt_or (o : option jstr) (d : jstr) : jstr := str_or (default [] o) d.

Definition userNode (row : FlowQuotaDataItem) : FlowPathNode :=
  let userID := numberValue (user_id row) in
  mkPathNode
    (if 0 <? userID then u "user:" ++ Z_str userID else u "user:" ++ opt_or (username row) (u "unknown"))
    (opt_or (username row) (if 0 <? userID then u "user-" ++ Z_str userID else u "Unknown User"))
    KUser.

Definition nodeNameNode (row : FlowQuotaDataItem) : FlowPathNode :=
  let nodeName := opt_or (node_name row) (u "default-node") in
  mkPathNode (u "node:" ++ nodeName) nodeName KNode.

Definition deletedTokenLabel (tokenID : Z) (ctx : FlowPathContext) : jstr :=
  if tokenID <=? 0 then u "Unknown Token"
  else match ctx with Some f => f tokenID | None => u "token-" ++ Z_str tokenID end.

Definition tokenNode (row : FlowQuotaDataItem) (ctx : FlowPathContext) : FlowPathNode :=
  let tokenID := numberValue (token_id row) in
  mkPathNode
    (if 0 <? tokenID then u "token:" ++ Z_str tokenID
     else u "token:" ++ opt_or (token_name row) (u "unknown"))
    (opt_or (token_name row) (deletedTokenLabel tokenID ctx))
    KToken.

Definition groupNode (row : FlowQuotaDataItem) : FlowPathNode :=
  let useGroup := opt_or (use_group row) (u "unknown") in
  mkPathNode (u "group:" ++ useGroup) useGroup KGroup.

Definition modelNode (row : FlowQuotaDataItem) : FlowPathNode :=
  mkPathNode (u "model:" ++ opt_or (model_name row) (u "unknown"))
    (opt_or (model_name row) (u "Unknown Model")) KModel.

Definition channelNode (row : FlowQuotaDataItem) : FlowPathNode :=
  let channelID := numberValue (channel_id row) in
  mkPathNode
    (if 0 <? channelID then u "channel:" ++ Z_str channelID
     else u "channel:" ++ opt_or (channel_name row) (u "unknown"))
    (opt_or (channel_name row)
       (if 0 <? channelID then u "channel-" ++ Z_str channelID else u "Unknown"))
    KChannel.

Definition NODE_BUILDERS (stage : FlowNodeKind) (row : FlowQuotaDataItem) (ctx : FlowPathContext)
    : FlowPathNode :=
  match stage with
  | KUser => userNode row
  | KNode => nodeNameNode row
  | KToken => tokenNode row ctx
  | KGroup => groupNode row
  | KModel => modelNode row
  | KChannel => channelNode row
  end.

Definition getFlowStages (role : FlowRole) : list FlowNodeKind :=
  match role with
  | RRoot => [KUser; KNode; KToken; KGroup; KModel; KChannel]
  | RAdmin => [KUser; KGroup; KModel; KChannel]
  | RUser => [KToken; KGroup; KModel]
  end.

Definition MIN_FLOW_STAGES : nat := 2.

Definition resolveVisibleStages (role : FlowRole) (visibleStages : option (list FlowNodeKind))
    : list FlowNodeKind :=
  let stages := getFlowStages role in
  match visibleStages with
  | None => stages
  | Some visible =>
      let filtered := List.filter (fun stage => set_has visible stage) stages in
      if (MIN_FLOW_STAGES <=? length filtered)%nat then filtered else stages
  end.

Definition flowPathForStages (row : FlowQuotaDataItem) (stages : list FlowNodeKind)
    (ctx : FlowPathContext) : list FlowPathNode :=
  map (fun stage => NODE_BUILDERS stage row ctx) stages.

(** ** Filters *)

Definition filterRows (rows : list FlowQuotaDataItem) (selectedUsers : option (list jstr))
    : list FlowQuotaDataItem :=
  let selected := new_set (default [] selectedUsers) in
  if (length selected =? 0)%nat then rows
  else List.filter (fun row => set_has selected (pn_id (userNode row))) rows.

Definition NUL : jstr := [0%N].

Definition kind_str (k : FlowNodeKind) : jstr :=
  match k with
  | KUser => u "user"
  | KNode => u "node"
  | KToken => u "token"
  | KGroup => u "group"
  | KModel => u "model"
  | KChannel => u "channel"
  end.

Definition nodeFilterKey (filter : FlowNodeFilter) : jstr :=
  kind_str (f_kind filter) ++ NUL ++ f_id filter.

Definition normalizeSelectedNodeFilters (selectedNodes : option (list FlowNodeFilter))
    (stages : list FlowNodeKind) : list (FlowNodeKind * list jstr) :=
  fold_left (fun filters filter =>
    if negb (set_has stages (f_kind filter)) then filters
    else
      let selected := default [] (map_get filters (f_kind filter)) in
      map_set filters (f_kind filter) (set_add selected (f_id filter)))
    (default [] selectedNodes) [].

Definition pathNodesByKind (path : list FlowPathNode) : list (FlowNodeKind * list jstr) :=
  fold_left (fun m node =>
    map_set m (pn_kind node) (set_add (default [] (map_get m (pn_kind node))) (pn_id node))) path [].

Definition pathMatchesNodeFilters (path : list FlowPathNode)
    (filters : list (FlowNodeKind * list jstr)) : bool :=
  if (length filters =? 0)%nat then true
  else forallb (fun '(kind, selectedIds) =>
    match map_get (pathNodesByKind path) kind with
    | None => false
    | Some pathIds => existsb (fun id => set_has pathIds id) selectedIds
    end) filters.

Definition filterRowsByNodes (rows : list FlowQuotaDataItem)
    (selectedNodes : option (list FlowNodeFilter)) (stages : list FlowNodeKind)
    (ctx : FlowPathContext) : list FlowQuotaDataItem :=
  let filters := normalizeSelectedNodeFilters selectedNodes stages in
  if (length filters =? 0)%nat then rows
  else List.filter (fun row => pathMatchesNodeFilters (flowPathForStages row stages ctx) filters) rows.

Definition selectedNodeFiltersExceptKind (selectedNodes : option (list FlowNodeFilter))
    (kind : FlowNodeKind) : option (list FlowNodeFilter) :=
  let filtered :=
    List.filter (fun filter => negb (bool_decide (f_kind filter = kind))) (default [] selectedNodes) in
  if (0 <? length filtered)%nat then Some filtered else None.

(** ** Accumulating nodes and links *)

Definition addNode (map : list (jstr * DashboardFlowNode)) (pathNode : FlowPathNode)
    (metrics : FlowMetrics) (metric : FlowMetric) (color colorKey : jstr)
    : list (jstr * DashboardFlowNode) :=
  let p := default (mkNode (pn_id pathNode) (pn_label pathNode) (pn_kind pathNode) 0 0 0 0
                      color colorKey None None) (map_get map (pn_id pathNode)) in
  map_set map (pn_id pathNode)
    (mkNode (n_id p) (n_label p) (n_kind p) (n_value p + metricValue metrics metric)
       (n_requests p + m_requests metrics) (n_quota p + m_quota metrics)
       (n_tokens p + m_tokens metrics) (n_color p) (n_colorKey p) (n_highlighted p) (n_dimmed p)).

Definition pathLinkKey (source target : FlowPathNode) : jstr :=
  pn_id source ++ NUL ++ pn_id target.

Definition linkStableKey (link : DashboardFlowLink) : jstr :=
  l_source link ++ NUL ++ l_target link.

Definition addLink (map : list (jstr * DashboardFlowLink)) (source target : FlowPathNode)
    (metrics : FlowMetrics) (metric : FlowMetric) (color colorKey : jstr)
    : list (jstr * DashboardFlowLink) :=
  let key := pn_id source ++ NUL ++ pn_id target in
  let p := default (mkLink (pn_id source) (pn_id target) 0 0 0 0 (pn_label source) (pn_label target)
                      color color (num_of_Z 1) color colorKey (num_of_Z 0) None None)
             (map_get map key) in
  map_set map key
    (mkLink (l_source p) (l_target p) (l_value p + metricValue metrics metric)
       (l_requests p + m_requests metrics) (l_quota p + m_quota metrics)
       (l_tokens p + m_tokens metrics) (l_sourceLabel p) (l_targetLabel p) (l_color p)
       (l_linkColor p) (l_linkAlpha p) (l_hoverColor p) (l_colorKey p) (l_share p)
       (l_highlighted p) (l_dimmed p)).

Record FlowSummary := mkSummary { s_quota : Z; s_tokens : Z; s_requests : Z }.

Definition buildSummary (rows : list FlowQuotaDataItem) : FlowSummary :=
  fold_left (fun summary row =>
    let metrics := rowMetrics row in
    mkSummary (s_quota summary + m_quota metrics) (s_tokens summary + m_tokens metrics)
      (s_requests summary + m_requests metrics)) rows (mkSummary 0 0 0).

(** ** The largest nodes per stage *)

Definition normalizeTopNodeLimit (limit : option num) : option Z :=
  match limit with
  | None => None
  | Some n => if isFinite n && (0 <? num_trunc n) then Some (num_trunc n) else None
  end.

Definition OTHER_FLOW_NODE_IDS (k : FlowNodeKind) : jstr := kind_str k ++ u ":__other__".

Definition DEFAULT_OTHER_FLOW_NODE_LABELS (k : FlowNodeKind) : jstr :=
  match k with
  | KUser => u "Other users"
  | KNode => u "Other nodes"
  | KToken => u "Other tokens"
  | KGroup => u "Other groups"
  | KModel => u "Other models"
  | KChannel => u "Other channels"
  end.

Definition FLOW_NODE_KINDS : list FlowNodeKind := [KUser; KNode; KToken; KGroup; KModel; KChannel].

Definition SENSITIVE_FLOW_KINDS : list FlowNodeKind := [KUser; KNode; KToken; KGroup; KChannel].

Definition OTHER_FLOW_NODE_ID_SET : list jstr := map OTHER_FLOW_NODE_IDS FLOW_NODE_KINDS.

Definition otherFlowNode (kind : FlowNodeKind) (labeler : option (FlowNodeKind -> jstr))
    : FlowPathNode :=
  mkPathNode (OTHER_FLOW_NODE_IDS kind)
    (match labeler with Some f => f kind | None => DEFAULT_OTHER_FLOW_NODE_LABELS kind end) kind.

(** [x || y] on comparison results. *)
Definition cmp_or (x y : Z) : Z := if x =? 0 then y else x.

(** One node of a row's path added to the totals of its stage. *)
Definition rank_step (value : Z) (totals : list (FlowNodeKind * list (jstr * FlowNodeRank)))
    (node : FlowPathNode) : list (FlowNodeKind * list (jstr * FlowNodeRank)) :=
  match map_get totals (pn_kind node) with
  | None => totals
  | Some stageTotals =>
      let current := default (mkRank node 0) (map_get stageTotals (pn_id node)) in
      map_set totals (pn_kind node)
        (map_set stageTotals (pn_id node) (mkRank (rank_node current) (rank_value current + value)))
  end.

Definition stage_totals (rows : list FlowQuotaDataItem) (metric : FlowMetric)
    (stages : list FlowNodeKind) (ctx : FlowPathContext)
    : list (FlowNodeKind * list (jstr * FlowNodeRank)) :=
  fold_left (fun totals row =>
    fold_left (rank_step (metricValue (rowMetrics row) metric))
      (flowPathForStages row stages ctx) totals)
    rows (fold_left (fun m stage => map_set m stage []) stages []).

Definition isTopFlowNode (node : FlowPathNode)
    (topNodeSets : option (list (FlowNodeKind * list jstr))) : bool :=
  match topNodeSets with
  | None => true
  | Some sets =>
      match map_get sets (pn_kind node) with None => true | Some top => set_has top (pn_id node) end
  end.

Definition applyTopNodeLimit (path : list FlowPathNode)
    (topNodeSets : option (list (FlowNodeKind * list jstr))) (mode : FlowOverflowMode)
    (labeler : option (FlowNodeKind -> jstr)) : option (list FlowPathNode) :=
  match topNodeSets with
  | None => Some path
  | Some _ =>
      let containsOverflowNode := existsb (fun node => negb (isTopFlowNode node topNodeSets)) path in
      if negb containsOverflowNode then Some path
      else match mode with
           | OHide => None
           | OAggregate =>
               Some (map (fun node =>
                 if isTopFlowNode node topNodeSets then node
                 else otherFlowNode (pn_kind node) labeler) path)
           end
  end.

(** ** Highlights *)

Definition pathContainsFlowNode (path : list FlowPathNode) (filter : FlowNodeFilter) : bool :=
  existsb (fun node => bool_decide (pn_kind node = f_kind filter) && seqb (pn_id node) (f_id filter))
    path.

(** The consecutive pairs of a path, which the loops over [i < path.length - 1] visit. *)
Fixpoint steps {A} (path : list A) : list (A * A) :=
  match path with
  | a :: (b :: _) as path' => (a, b) :: steps path'
  | _ => []
  end.

Definition pathContainsFlowLink (path : list FlowPathNode) (link : FlowLinkSelection) : bool :=
  existsb (fun '(a, b) => seqb (pn_id a) (sel_source link) && seqb (pn_id b) (sel_target link))
    (steps path).

Definition matchesPath (activeNode : option FlowNodeFilter) (activeLink : option FlowLinkSelection)
    (path : list FlowPathNode) : bool :=
  match activeLink with
  | Some link => pathContainsFlowLink path link
  | None => match activeNode with Some n => pathContainsFlowNode path n | None => false end
  end.

Definition buildFlowHighlightSets (preparedPaths : list PreparedFlowPath)
    (activeNode : option FlowNodeFilter) (activeLink : option FlowLinkSelection)
    (stages : list FlowNodeKind) : option FlowHighlightSets :=
  let nodeActive := match activeNode with Some n => set_has stages (f_kind n) | None => false end in
  if negb nodeActive && match activeLink with None => true | Some _ => false end then None
  else
    let highlighted := List.filter (fun p => matchesPath activeNode activeLink (pp_path p)) preparedPaths in
    let nodes := new_set (concat (map (fun p => map pn_id (pp_path p)) highlighted)) in
    let links := new_set (concat (map (fun p =>
      map (fun '(a, b) => pathLinkKey a b) (steps (pp_path p))) highlighted)) in
    if (length nodes =? 0)%nat then None else Some (mkHighlight nodes links).

Definition set_node_flags (h : bool) (n : DashboardFlowNode) : DashboardFlowNode :=
  mkNode (n_id n) (n_label n) (n_kind n) (n_value n) (n_requests n) (n_quota n) (n_tokens n)
    (n_color n) (n_colorKey n) (Some h) (Some (negb h)).

Definition set_link_flags (h : bool) (l : DashboardFlowLink) : DashboardFlowLink :=
  mkLink (l_source l) (l_target l) (l_value l) (l_requests l) (l_quota l) (l_tokens l)
    (l_sourceLabel l) (l_targetLabel l) (l_color l) (l_linkColor l) (l_linkAlpha l) (l_hoverColor l)
    (l_colorKey l) (l_share l) (Some h) (Some (negb h)).

Definition applyFlowHighlights (nodes : list DashboardFlowNode) (links : list DashboardFlowLink)
    (highlightSets : option FlowHighlightSets) : list DashboardFlowNode * list DashboardFlowLink :=
  match highlightSets with
  | None => (nodes, links)
  | Some h =>
      (map (fun node => set_node_flags (set_has (h_nodes h) (n_id node)) node) nodes,
       map (fun link => set_link_flags (set_has (h_links h) (linkStableKey link)) link) links)
  end.

(** ** Masking *)

Definition FLOW_MASK_TEXT : jstr := u "••••".

Definition maskFlowLabel (label : jstr) : jstr :=
  if (length label =? 0)%nat then label else FLOW_MASK_TEXT.

Definition masks (node : DashboardFlowNode) : bool :=
  set_has SENSITIVE_FLOW_KINDS (n_kind node) && negb (set_has OTHER_FLOW_NODE_ID_SET (n_id node)).

Definition set_label (label : jstr) (n : DashboardFlowNode) : DashboardFlowNode :=
  mkNode (n_id n) label (n_kind n) (n_value n) (n_requests n) (n_quota n) (n_tokens n) (n_color n)
    (n_colorKey n) (n_highlighted n) (n_dimmed n).

Definition set_labels (source target : jstr) (l : DashboardFlowLink) : DashboardFlowLink :=
  mkLink (l_source l) (l_target l) (l_value l) (l_requests l) (l_quota l) (l_tokens l) source target
    (l_color l) (l_linkColor l) (l_linkAlpha l) (l_hoverColor l) (l_colorKey l) (l_share l)
    (l_highlighted l) (l_dimmed l).

Definition maskFlowGraphLabels (nodes : list DashboardFlowNode) (links : list DashboardFlowLink)
    : list DashboardFlowNode * list DashboardFlowLink :=
  let maskedById :=
    fold_left (fun m node => if masks node then map_set m (n_id node) (maskFlowLabel (n_label node)) else m)
      nodes [] in
  let nodes := map (fun node => if masks node then set_label (maskFlowLabel (n_label node)) node else node)
    nodes in
  if (length maskedById =? 0)%nat then (nodes, links)
  else (nodes,
    map (fun link =>
      set_labels (default (l_sourceLabel link) (map_get maskedById (l_source link)))
        (default (l_targetLabel link) (map_get maskedById (l_target link))) link) links).

(** ** Colours *)

Definition DEFAULT_FLOW_CHART_COLOR : jstr := u "#1664FF".

Definition hex_unit (c : N) : option Z :=
  if is_digit c then Some (Z.of_N c - 48)
  else if ((97 <=? c) && (c <=? 102))%N then Some (Z.of_N c - 87)
  else if ((65 <=? c) && (c <=? 70))%N then Some (Z.of_N c - 55)
  else None.

(** [Number.parseInt(hex, 16)] where [/^[0-9a-f]{6}$/i] matches. *)
Definition parse_hex6 (s : jstr) : option Z :=
  if (length s =? 6)%nat then
    foldl (fun acc c => a ← acc; d ← hex_unit c; Some (16 * a + d)) (Some 0) s
  else None.

(** The display colour with its opacity: folded into the colour where it is a
    six-digit hex colour. *)
Definition alphaColor (color : jstr) (alpha : num) : jstr * num :=
  let normalized := trim color in
  let hex := if startsWith normalized (u "#") then drop 1 normalized else normalized in
  match parse_hex6 hex with
  | None => (normalized, alpha)
  | Some value =>
      let red := Z.land (Z.shiftr value 16) 255 in
      let green := Z.land (Z.shiftr value 8) 255 in
      let blue := Z.land value 255 in
      (u "rgba(" ++ Z_str red ++ u ", " ++ Z_str green ++ u ", " ++ Z_str blue ++ u ", "
       ++ toFixed 2 alpha ++ u ")", num_of_Z 1)
  end.

Section Graph.
(** [a.localeCompare(b)]; the colour schemes of the chart library, the last one
    apart, each with the number of series it serves; the number format. *)
Context (localeCompare : jstr -> jstr -> Z)
        (schemes : list (option nat * list jstr)) (last_scheme : option nat * list jstr)
        (formatNumber : Z -> jstr).

Definition getDashboardChartColors (domainLength : nat) : list jstr :=
  let fits (item : option nat * list jstr) :=
    match fst item with None | Some O => true | Some n => (domainLength <=? n)%nat end in
  snd (default last_scheme (List.find fits (schemes ++ [last_scheme]))).

Definition colorAt (index : nat) (palette : option (list jstr)) : jstr :=
  let colors :=
    match palette with
    | Some (c :: p) => c :: p
    | _ => getDashboardChartColors (index + 1)
    end in
  if (length colors =? 0)%nat then DEFAULT_FLOW_CHART_COLOR
  else default DEFAULT_FLOW_CHART_COLOR (colors !! (index mod length colors)%nat).

Definition colorPalette (colorCount : nat) (palette : option (list jstr)) : list jstr :=
  match palette with
  | Some (c :: p) => c :: p
  | _ =>
      let colors := getDashboardChartColors colorCount in
      if (0 <? length colors)%nat then colors else [DEFAULT_FLOW_CHART_COLOR]
  end.

Definition stableColorMap (keys : list jstr) (palette : option (list jstr)) : list (jstr * jstr) :=
  let uniqueKeys := new_set keys in
  let colors := colorPalette (length uniqueKeys) palette in
  imap (fun index key => (key, colorAt index (Some colors))) uniqueKeys.

(** The opacity of the [index]th of [n] links of a source. *)
Definition linkAlpha (n index : nat) : num :=
  if (n =? 1)%nat then dec_to_num false 34 (-2)
  else
    let denominator := Z.max (Z.of_nat n - 1) 1 in
    num_add (dec_to_num false 24 (-2))
      (num_mul (num_div (num_of_Z (Z.of_nat index)) (num_of_Z denominator)) (dec_to_num false 2 (-1))).

Definition byLinkValue (a b : DashboardFlowLink) : Z :=
  cmp_or (l_value b - l_value a) (localeCompare (linkStableKey a) (linkStableKey b)).

Definition linksBySource (links : list DashboardFlowLink) : list (jstr * list DashboardFlowLink) :=
  fold_left (fun m link => map_set m (l_source link) (default [] (map_get m (l_source link)) ++ [link]))
    links [].

Definition set_display (color : jstr) (alpha : num) (l : DashboardFlowLink) : DashboardFlowLink :=
  mkLink (l_source l) (l_target l) (l_value l) (l_requests l) (l_quota l) (l_tokens l)
    (l_sourceLabel l) (l_targetLabel l) (l_color l) color alpha (l_color l) (l_colorKey l) (l_share l)
    (l_highlighted l) (l_dimmed l).

(** The loop assigns to the link objects in place; a link is found again by its
    key, under which the graph holds one link. *)
Definition assignLinkDisplayColors (links : list DashboardFlowLink) : list DashboardFlowLink :=
  let display :=
    concat (map (fun sourceLinks =>
      let sortedLinks := array_sort byLinkValue sourceLinks in
      imap (fun index link =>
        (linkStableKey link, alphaColor (l_color link) (linkAlpha (length sortedLinks) index)))
        sortedLinks) (map_values (linksBySource links))) in
  map (fun link =>
    match map_get display (linkStableKey link) with
    | Some (color, alpha) => set_display color alpha link
    | None => link
    end) links.

Definition byValueThenLabel (a b : DashboardFlowNode) : Z :=
  cmp_or (n_value b - n_value a) (localeCompare (n_label a) (n_label b)).

Definition byRank (a b : FlowNodeRank) : Z :=
  cmp_or (rank_value b - rank_value a)
    (cmp_or (localeCompare (pn_label (rank_node a)) (pn_label (rank_node b)))
       (localeCompare (pn_id (rank_node a)) (pn_id (rank_node b)))).

Definition buildTopNodeSets (rows : list FlowQuotaDataItem) (metric : FlowMetric)
    (stages : list FlowNodeKind) (limit : option Z) (ctx : FlowPathContext)
    : option (list (FlowNodeKind * list jstr)) :=
  match limit with
  | None | Some 0 => None
  | Some n =>
      Some (map (fun '(kind, stageTotals) =>
        (kind, new_set (map (fun rank => pn_id (rank_node rank))
                 (take (Z.to_nat n) (array_sort byRank (map_values stageTotals))))))
        (stage_totals rows metric stages ctx))
  end.

(** The loop that fills [preparedPaths]. *)
Definition preparePaths (rows : list FlowQuotaDataItem) (stages : list FlowNodeKind)
    (topNodeSets : option (list (FlowNodeKind * list jstr))) (mode : FlowOverflowMode)
    (labeler : option (FlowNodeKind -> jstr)) (ctx : FlowPathContext) : list PreparedFlowPath :=
  omap (fun row =>
    match applyTopNodeLimit (flowPathForStages row stages ctx) topNodeSets mode labeler with
    | Some path => Some (mkPrepared path (rowMetrics row))
    | None => None
    end) rows.

(** [preparedPaths.map(p => p.path[0]?.id).filter(Boolean)]. *)
Definition rootIds (prepared : list PreparedFlowPath) : list jstr :=
  List.filter str_truthy (omap (fun p => pn_id <$> head (pp_path p)) prepared).

(** The loop that adds one prepared path to the nodes and links. *)
Definition addPath (metric : FlowMetric) (colors : list (jstr * jstr)) (palette : option (list jstr))
    (acc : list (jstr * DashboardFlowNode) * list (jstr * DashboardFlowLink))
    (p : PreparedFlowPath) : list (jstr * DashboardFlowNode) * list (jstr * DashboardFlowLink) :=
  match pp_path p with
  | [] => acc
  | root :: _ =>
      let color := default (colorAt 0 palette) (map_get colors (pn_id root)) in
      (fold_left (fun nodes node => addNode nodes node (pp_metrics p) metric color (pn_id root))
         (pp_path p) (fst acc),
       fold_left (fun links '(source, target) =>
           addLink links source target (pp_metrics p) metric color (pn_id root))
         (steps (pp_path p)) (snd acc))
  end.

Definition accumulate (metric : FlowMetric) (colors : list (jstr * jstr)) (palette : option (list jstr))
    (prepared : list PreparedFlowPath)
    : list (jstr * DashboardFlowNode) * list (jstr * DashboardFlowLink) :=
  fold_left (addPath metric colors palette) prepared ([], []).

Definition set_share (s : num) (l : DashboardFlowLink) : DashboardFlowLink :=
  mkLink (l_source l) (l_target l) (l_value l) (l_requests l) (l_quota l) (l_tokens l)
    (l_sourceLabel l) (l_targetLabel l) (l_color l) (l_linkColor l) (l_linkAlpha l) (l_hoverColor l)
    (l_colorKey l) s (l_highlighted l) (l_dimmed l).

(** The total the shares are taken of: the links that leave a first node. *)
Definition firstStepTotal (firstStepSources : list jstr) (flowLinks : list DashboardFlowLink) : Z :=
  fold_left (fun sum link => sum + l_value link)
    (List.filter (fun link => set_has firstStepSources (l_source link)) flowLinks) 0.

Definition byEndpoints (a b : DashboardFlowLink) : Z :=
  cmp_or (localeCompare (l_source a) (l_source b)) (localeCompare (l_target a) (l_target b)).

Definition buildFlowGraph (rows : list FlowQuotaDataItem) (metric : FlowMetric) (role : FlowRole)
    (palette : option (list jstr)) (visibleStages : option (list FlowNodeKind))
    (ctx : FlowPathContext) (options : FlowGraphOptions) : DashboardFlowGraph :=
  let stages := resolveVisibleStages role visibleStages in
  let topNodeSets :=
    buildTopNodeSets rows metric stages (normalizeTopNodeLimit (o_topNodeLimit options)) ctx in
  let overflowMode := default OAggregate (o_overflowMode options) in
  let preparedPaths := preparePaths rows stages topNodeSets overflowMode (o_otherNodeLabel options) ctx in
  let colors := stableColorMap (array_sort localeCompare (rootIds preparedPaths)) palette in
  let '(nodes, links) := accumulate metric colors palette preparedPaths in
  let '(nodes, links) :=
    if o_maskSensitive options then maskFlowGraphLabels (map_values nodes) (map_values links)
    else (map_values nodes, map_values links) in
  let '(nodes, links) :=
    applyFlowHighlights nodes links
      (buildFlowHighlightSets preparedPaths (o_activeNode options) (o_activeLink options) stages) in
  let flowLinks := array_sort byEndpoints links in
  let firstStepSources := new_set (rootIds preparedPaths) in
  let total := firstStepTotal firstStepSources flowLinks in
  let flowLinks := map (fun link =>
    set_share (if 0 <? total then num_div (num_of_Z (l_value link)) (num_of_Z total) else num_of_Z 0)
      link) flowLinks in
  mkGraph (array_sort byValueThenLabel nodes) (assignLinkDisplayColors flowLinks).

(** ** Filter options *)

(** A user option and a node option in one record; the source's user options have
    no kind. *)
Record FlowFilterOption := mkOption {
  fo_kind : FlowNodeKind;
  fo_value : jstr;
  fo_label : jstr;
  fo_valueLabel : jstr;
  fo_valueRaw : Z;
  fo_color : jstr
}.

(** [!row.user_id && !row.username]. *)
Definition no_user (row : FlowQuotaDataItem) : bool :=
  (numberValue (user_id row) =? 0) && negb (str_truthy (default [] (username row))).

Definition buildUserFilterOptions (rows : list FlowQuotaDataItem) (metric : FlowMetric)
    (palette : option (list jstr)) : list FlowFilterOption :=
  let colors := stableColorMap
    (array_sort localeCompare (map (fun row => pn_id (userNode row)) rows)) palette in
  let users : list (jstr * (jstr * Z * jstr)) := fold_left (fun users row =>
    let user := userNode row in
    if no_user row then users
    else
      let value := metricValue (rowMetrics row) metric in
      let '(label, v, color) :=
        default (pn_label user, 0, default (colorAt 0 palette) (map_get colors (pn_id user)))
          (map_get users (pn_id user)) in
      map_set users (pn_id user) (label, v + value, color)) rows [] in
  array_sort (fun a b => cmp_or (fo_valueRaw b - fo_valueRaw a) (localeCompare (fo_label a) (fo_label b)))
    (map (fun '(value, (label, v, color)) => mkOption KUser value label (formatNumber v) v color) users).

(** One row of a stage's totals. *)
Definition option_step (metric : FlowMetric) (stage : FlowNodeKind) (ctx : FlowPathContext)
    (totals : list (jstr * FlowNodeRank)) (row : FlowQuotaDataItem) : list (jstr * FlowNodeRank) :=
  let value := metricValue (rowMetrics row) metric in
  let node := NODE_BUILDERS stage row ctx in
  let key := nodeFilterKey (mkFilter (pn_kind node) (pn_id node)) in
  let current := default (mkRank node 0) (map_get totals key) in
  map_set totals key (mkRank (rank_node current) (rank_value current + value)).

Definition stage_options (rows : list FlowQuotaDataItem) (metric : FlowMetric)
    (stages : list FlowNodeKind) (ctx : FlowPathContext) (selectedNodes : option (list FlowNodeFilter))
    (stage : FlowNodeKind) : list (jstr * FlowNodeRank) :=
  fold_left (option_step metric stage ctx)
    (filterRowsByNodes rows (selectedNodeFiltersExceptKind selectedNodes stage) stages ctx) [].

Definition stage_index (stages : list FlowNodeKind) (k : FlowNodeKind) : Z :=
  match list_find (fun s => s = k) stages with Some (i, _) => Z.of_nat i | None => 0 end.

Definition byStageThenValue (stages : list FlowNodeKind) (a b : FlowFilterOption) : Z :=
  cmp_or (stage_index stages (fo_kind a) - stage_index stages (fo_kind b))
    (cmp_or (fo_valueRaw b - fo_valueRaw a)
       (cmp_or (localeCompare (fo_label a) (fo_label b)) (localeCompare (fo_value a) (fo_value b)))).

Definition buildNodeFilterOptions (rows : list FlowQuotaDataItem) (metric : FlowMetric)
    (role : FlowRole) (visibleStages : option (list FlowNodeKind)) (palette : option (list jstr))
    (ctx : FlowPathContext) (selectedNodes : option (list FlowNodeFilter)) : list FlowFilterOption :=
  let stages := resolveVisibleStages role visibleStages in
  let colorIds :=
    new_set (concat (map (fun row => map pn_id (flowPathForStages row stages ctx)) rows)) in
  let colors := stableColorMap (array_sort localeCompare colorIds) palette in
  array_sort (byStageThenValue stages)
    (concat (map (fun stage =>
      map (fun rank =>
        mkOption (pn_kind (rank_node rank)) (pn_id (rank_node rank)) (pn_label (rank_node rank))
          (formatNumber (rank_value rank)) (rank_value rank)
          (default (colorAt 0 palette) (map_get colors (pn_id (rank_node rank)))))
        (map_values (stage_options rows metric stages ctx selectedNodes stage))) stages)).

Definition buildFlowFilterOptions (rows : list FlowQuotaDataItem) (metric : FlowMetric)
    (palette : option (list jstr)) (role : FlowRole) (visibleStages : option (list FlowNodeKind))
    (selectedNodes : option (list FlowNodeFilter)) : list FlowFilterOption * list FlowFilterOption :=
  (buildUserFilterOptions rows metric palette,
   buildNodeFilterOptions rows metric role visibleStages palette None selectedNodes).

(** ** The whole *)

Record FlowBuildOptions := mkBuildOptions {
  b_role : option FlowRole;
  b_selectedUsers : option (list jstr);
  b_selectedNodes : option (list FlowNodeFilter);
  b_colorPalette : option (list jstr);
  b_visibleStages : option (list FlowNodeKind);
  b_deletedTokenLabel : FlowPathContext;
  b_graph : FlowGraphOptions
}.

Record ProcessedFlowData := mkProcessed {
  summary : FlowSummary;
  flow : DashboardFlowGraph;
  filter_users : list FlowFilterOption;
  filter_nodes : list FlowFilterOption
}.

(** The rows the graph is built from. *)
Definition selectedRows (rows : list FlowQuotaDataItem) (options : FlowBuildOptions)
    : list FlowQuotaDataItem :=
  let role := default RUser (b_role options) in
  filterRowsByNodes (filterRows rows (b_selectedUsers options)) (b_selectedNodes options)
    (resolveVisibleStages role (b_visibleStages options)) (b_deletedTokenLabel options).

Definition buildDashboardFlowData (rows : list FlowQuotaDataItem) (metric : FlowMetric)
    (options : FlowBuildOptions) : ProcessedFlowData :=
  let role := default RUser (b_role options) in
  let palette := b_colorPalette options in
  let ctx := b_deletedTokenLabel options in
  let userFilteredRows := filterRows rows (b_selectedUsers options) in
  let filteredRows := selectedRows rows options in
  mkProcessed (buildSummary filteredRows)
    (buildFlowGraph filteredRows metric role palette (b_visibleStages options) ctx (b_graph options))
    (buildUserFilterOptions rows metric palette)
    (buildNodeFilterOptions userFilteredRows metric role (b_visibleStages options) palette ctx
       (b_selectedNodes options)).

(** ** The chart's data *)

(** [Number(a) - Number(b)], falsy where a flag is not set. *)
Definition flag_diff (a b : option bool) : Z :=
  match a, b with Some a, Some b => Z.b2z a - Z.b2z b | _, _ => 0 end.

Definition byLinkDrawPriority (a b : DashboardFlowLink) : Z :=
  cmp_or (flag_diff (l_dimmed a) (l_dimmed b))
    (cmp_or (flag_diff (l_highlighted b) (l_highlighted a))
       (cmp_or (l_value b - l_value a) (localeCompare (linkStableKey a) (linkStableKey b)))).

Definition zIndex (index : nat) (link : DashboardFlowLink) : Z :=
  if default false (l_highlighted link) then 1000000 + Z.of_nat index
  else if default false (l_dimmed link) then Z.of_nat index
  else 100000 + Z.of_nat index.

(** The links of the Sankey specification in drawing order, with their zIndex. *)
Definition sankeyLinks (flow : DashboardFlowGraph) : list (DashboardFlowLink * Z) :=
  imap (fun index link => (link, zIndex index link))
    (array_sort byLinkDrawPriority (List.filter (fun link => 0 <? l_value link) (g_links flow))).
End Graph.
