(* ===== verification/FlowProps.v ===== *)
(** * Properties of the flow graph

    Conservation (what flows into a node flows out of it, and every stage carries
    the whole metric), well-formed links, the bound on nodes per stage, filters,
    highlights and masking. *)

From Stdlib Require Import ZArith SpecFloat.
From stdpp Require Import base numbers option list sorting.
From S2P Require Import Prelude Collections JsNumber Flow.

(** ** Fields

    The four counters a node and a link carry. *)
Inductive field := FValue | FRequests | FQuota | FTokens.

Definition node_field (f : field) (n : DashboardFlowNode) : Z :=
  match f with
  | FValue => n_value n | FRequests => n_requests n | FQuota => n_quota n | FTokens => n_tokens n
  end.

Definition link_field (f : field) (l : DashboardFlowLink) : Z :=
  match f with
  | FValue => l_value l | FRequests => l_requests l | FQuota => l_quota l | FTokens => l_tokens l
  end.

(** What a row contributes to a field. *)
Definition weight (metric : FlowMetric) (f : field) (m : FlowMetrics) : Z :=
  match f with
  | FValue => metricValue m metric
  | FRequests => m_requests m | FQuota => m_quota m | FTokens => m_tokens m
  end.

(** What labels, flags and colours do not touch. *)
Definition node_core (n : DashboardFlowNode) : jstr * FlowNodeKind * (field -> Z) :=
  (n_id n, n_kind n, fun f => node_field f n).

(** ** Identifiers *)

Definition id_ok (n : FlowPathNode) : Prop :=
  exists s, pn_id n = kind_str (pn_kind n) ++ u ":" ++ s.

Definition nul_free (s : jstr) : Prop := ~ In 0%N s.

Definition name_ok (o : option jstr) : Prop := nul_free (default [] o).

(** Names without the separator of link keys. *)
Definition row_ok (row : FlowQuotaDataItem) : Prop :=
  name_ok (username row) /\ name_ok (node_name row) /\ name_ok (use_group row)
  /\ name_ok (token_name row) /\ name_ok (channel_name row) /\ name_ok (model_name row).

Definition prefix_kind (id : jstr) : option FlowNodeKind :=
  List.find (fun k => startsWith id (kind_str k ++ u ":")) FLOW_NODE_KINDS.

Lemma prefix_kind_ok n : id_ok n -> prefix_kind (pn_id n) = Some (pn_kind n).
Proof. intros [s ->]. by destruct (pn_kind n). Qed.

Lemma node_builder_kind k row ctx : pn_kind (NODE_BUILDERS k row ctx) = k.
Proof. by destruct k. Qed.

Lemma node_builder_id k row ctx : id_ok (NODE_BUILDERS k row ctx).
Proof.
  destruct k; unfold id_ok, NODE_BUILDERS, userNode, nodeNameNode, tokenNode, groupNode, modelNode,
    channelNode; cbn [pn_id pn_kind]; try (by eexists); case_match; by eexists.
Qed.

Lemma other_id_ok k lab : id_ok (otherFlowNode k lab).
Proof. exists (u "__other__"). by destruct k. Qed.

Lemma nul_free_app a b : nul_free (a ++ b) <-> nul_free a /\ nul_free b.
Proof. unfold nul_free. rewrite in_app_iff. tauto. Qed.

Lemma nul_free_Z z : nul_free (Z_str z).
Proof.
  unfold Z_str, nul_free. intros H.
  assert (F : forall n, ~ In 0%N (N_str n)).
  { intros n. pose proof (N_str_digits n) as D. rewrite List.Forall_forall in D.
    intros Hz%D. done. }
  destruct (z <? 0); [destruct H as [H|H]; [done|]|]; by eapply F.
Qed.

Lemma nul_free_lit (s : jstr) : existsb (N.eqb 0) s = false -> nul_free s.
Proof.
  intros H Hin. apply not_true_iff_false in H. apply H, existsb_exists. by exists 0%N.
Qed.

Lemma nul_free_or o d : name_ok o -> nul_free d -> nul_free (opt_or o d).
Proof. unfold name_ok, opt_or, str_or. intros H1 H2. by destruct (str_truthy _). Qed.

Lemma node_builder_nul k row ctx : row_ok row -> nul_free (pn_id (NODE_BUILDERS k row ctx)).
Proof.
  intros (H1 & H2 & H3 & H4 & H5 & H6).
  destruct k; unfold NODE_BUILDERS, userNode, nodeNameNode, tokenNode, groupNode, modelNode,
    channelNode; cbn [pn_id]; try case_match; apply nul_free_app; split;
    try (apply nul_free_lit; reflexivity); try apply nul_free_Z; apply nul_free_or; try done;
    apply nul_free_lit; reflexivity.
Qed.

Lemma other_nul k lab : nul_free (pn_id (otherFlowNode k lab)).
Proof. apply nul_free_lit. by destruct k. Qed.

(** ** Stages and paths *)

Lemma stages_NoDup role vis : NoDup (resolveVisibleStages role vis).
Proof.
  assert (N : NoDup (getFlowStages role)).
  { apply (bool_decide_eq_true_1 _). by destruct role. }
  unfold resolveVisibleStages. destruct vis; [|done]. case_match; [|done].
  by apply NoDup_ListNoDup, List.NoDup_filter, NoDup_ListNoDup.
Qed.

Lemma stages_length role vis : (2 <= length (resolveVisibleStages role vis))%nat.
Proof.
  assert (L : (2 <= length (getFlowStages role))%nat) by (destruct role; simpl; lia).
  unfold resolveVisibleStages, MIN_FLOW_STAGES. destruct vis; [|done].
  destruct (Nat.leb_spec 2 (length (List.filter (fun s => set_has l s) (getFlowStages role)))); done.
Qed.

(** A path that visits the stages in order with identifiers of its kinds. *)
Definition path_ok (stages : list FlowNodeKind) (path : list FlowPathNode) : Prop :=
  map pn_kind path = stages /\ Forall id_ok path.

Lemma limited_path_ok row stages ctx tops mode lab path :
  applyTopNodeLimit (flowPathForStages row stages ctx) tops mode lab = Some path ->
  path_ok stages path /\ (row_ok row -> Forall (fun n => nul_free (pn_id n)) path).
Proof.
  assert (Hf : forall f, (forall k, f k = NODE_BUILDERS k row ctx \/ f k = otherFlowNode k lab) ->
    path_ok stages (map f stages)
    /\ (row_ok row -> Forall (fun n => nul_free (pn_id n)) (map f stages))).
  { intros f Hf. split; [split|].
    - rewrite map_map. rewrite <- (map_id stages) at 2. apply map_ext. intros k.
      destruct (Hf k) as [-> | ->]; [apply node_builder_kind|done].
    - apply Forall_map, Forall_true. intros k. simpl.
      destruct (Hf k) as [-> | ->]; [apply node_builder_id | apply other_id_ok].
    - intros Hr. apply Forall_map, Forall_true. intros k. simpl.
      destruct (Hf k) as [-> | ->]; [by apply node_builder_nul | apply other_nul]. }
  unfold applyTopNodeLimit, flowPathForStages. destruct tops as [sets|].
  - destruct (negb _); [intros [= <-]; apply Hf; by left|].
    destruct mode; [intros [= <-]|done]. rewrite map_map. apply Hf. intros k.
    cbv beta. rewrite node_builder_kind.
    repeat case_match; auto.
  - intros [= <-]. apply Hf. by left.
Qed.

Lemma prepared_ok rows stages tops mode lab ctx p :
  p ∈ preparePaths rows stages tops mode lab ctx ->
  path_ok stages (pp_path p)
  /\ (Forall row_ok rows -> Forall (fun n => nul_free (pn_id n)) (pp_path p)).
Proof.
  unfold preparePaths. intros (row & Hrow & Hp)%list_elem_of_omap.
  destruct (applyTopNodeLimit _ _ _ _) as [path|] eqn:E; [|done]. simplify_eq. simpl.
  apply limited_path_ok in E as [H1 H2]. split; [done|]. intros F. apply H2.
  rewrite Forall_forall in F. by apply F.
Qed.

(** The [ids] of a well-formed path are distinct. *)
Lemma path_ids_NoDup stages path : NoDup stages -> path_ok stages path -> NoDup (map pn_id path).
Proof.
  intros N [<- F]. induction F as [|n path Hn F IH]; [constructor|].
  simpl in *. apply NoDup_cons in N as [Hni N]. constructor; [|by apply IH].
  intros (m & Hm & Hin)%list_elem_of_fmap. apply Hni.
  rewrite Forall_forall in F. apply list_elem_of_fmap. exists m. split; [|done].
  apply prefix_kind_ok in Hn. specialize (F m Hin). apply prefix_kind_ok in F.
  rewrite Hm, F in Hn. congruence.
Qed.

Lemma path_kind stages path i k : path_ok stages path -> prefix_kind i = Some k ->
  i ∈ map pn_id path -> exists n, n ∈ path /\ pn_id n = i /\ pn_kind n = k.
Proof.
  intros [_ F] Hk (n & -> & Hn)%list_elem_of_fmap. exists n. split_and!; [done..|].
  rewrite Forall_forall in F. specialize (F n Hn). apply prefix_kind_ok in F. congruence.
Qed.

(** ** Accumulation as grouping *)

(** A node or link of a path with the metrics and colours it is added with. *)
Definition node_event : Type := FlowPathNode * (FlowMetrics * (jstr * jstr)).
Definition link_event : Type := (FlowPathNode * FlowPathNode) * (FlowMetrics * (jstr * jstr)).

Definition fresh_node (e : node_event) : DashboardFlowNode :=
  mkNode (pn_id e.1) (pn_label e.1) (pn_kind e.1) 0 0 0 0 e.2.2.1 e.2.2.2 None None.

Definition upd_node (metric : FlowMetric) (e : node_event) (o : option DashboardFlowNode)
    : DashboardFlowNode :=
  let p := default (fresh_node e) o in
  mkNode (n_id p) (n_label p) (n_kind p) (n_value p + metricValue e.2.1 metric)
    (n_requests p + m_requests e.2.1) (n_quota p + m_quota e.2.1) (n_tokens p + m_tokens e.2.1)
    (n_color p) (n_colorKey p) (n_highlighted p) (n_dimmed p).

Definition fresh_link (e : link_event) : DashboardFlowLink :=
  mkLink (pn_id e.1.1) (pn_id e.1.2) 0 0 0 0 (pn_label e.1.1) (pn_label e.1.2) e.2.2.1 e.2.2.1
    (num_of_Z 1) e.2.2.1 e.2.2.2 (num_of_Z 0) None None.

Definition upd_link (metric : FlowMetric) (e : link_event) (o : option DashboardFlowLink)
    : DashboardFlowLink :=
  let p := default (fresh_link e) o in
  mkLink (l_source p) (l_target p) (l_value p + metricValue e.2.1 metric)
    (l_requests p + m_requests e.2.1) (l_quota p + m_quota e.2.1) (l_tokens p + m_tokens e.2.1)
    (l_sourceLabel p) (l_targetLabel p) (l_color p) (l_linkColor p) (l_linkAlpha p) (l_hoverColor p)
    (l_colorKey p) (l_share p) (l_highlighted p) (l_dimmed p).

Definition node_key (e : node_event) : jstr := pn_id e.1.
Definition link_key (e : link_event) : jstr := pathLinkKey e.1.1 e.1.2.

Section Accumulate.
Context (localeCompare : jstr -> jstr -> Z)
        (schemes : list (option nat * list jstr)) (last_scheme : option nat * list jstr)
        (metric : FlowMetric) (colors : list (jstr * jstr)) (palette : option (list jstr)).

Abbreviation colorAt := (colorAt schemes last_scheme).
Abbreviation accumulate := (accumulate schemes last_scheme).

(** The metrics and colours of a prepared path. *)
Definition tag (p : PreparedFlowPath) : FlowMetrics * (jstr * jstr) :=
  match pp_path p with
  | [] => (pp_metrics p, ([], []))
  | root :: _ =>
      (pp_metrics p, (default (colorAt 0 palette) (map_get colors (pn_id root)), pn_id root))
  end.

Lemma tag_metrics p : (tag p).1 = pp_metrics p.
Proof. unfold tag. by destruct (pp_path p). Qed.

Definition node_events (p : PreparedFlowPath) : list node_event :=
  map (fun n => (n, tag p)) (pp_path p).
Definition link_events (p : PreparedFlowPath) : list link_event :=
  map (fun s => (s, tag p)) (steps (pp_path p)).

Lemma fold_left_map {A B C} (f : C -> B -> C) (g : A -> B) l c :
  fold_left f (map g l) c = fold_left (fun c x => f c (g x)) l c.
Proof. revert c. induction l; simpl; auto. Qed.

Lemma addPath_group p acc :
  addPath schemes last_scheme metric colors palette acc p =
  (group node_key (upd_node metric) acc.1 (node_events p),
   group link_key (upd_link metric) acc.2 (link_events p)).
Proof.
  destruct p as [path m]. unfold addPath, node_events, link_events, tag, group. cbn [pp_path pp_metrics].
  destruct path as [|root path]; [by destruct acc|].
  destruct acc as [ns ls]. cbn [fst snd]. rewrite !fold_left_map. f_equal.
  generalize (steps (root :: path)). intros l. revert ls.
  induction l as [|[a b] l IH]; intros ls; simpl; [done|]. apply IH.
Qed.

Lemma accumulate_group prepared :
  accumulate metric colors palette prepared =
  (group node_key (upd_node metric) [] (concat (map node_events prepared)),
   group link_key (upd_link metric) [] (concat (map link_events prepared))).
Proof.
  unfold Flow.accumulate, group. generalize (@nil (jstr * DashboardFlowNode)).
  generalize (@nil (jstr * DashboardFlowLink)).
  induction prepared as [|p prepared IH]; intros ls ns; [done|].
  cbn [fold_left map concat]. rewrite addPath_group. unfold group. cbn [fst snd].
  rewrite IH, !fold_left_app. done.
Qed.

Abbreviation nodes prepared := (accumulate metric colors palette prepared).1.
Abbreviation links prepared := (accumulate metric colors palette prepared).2.

Lemma nodes_ok prepared : map_ok (nodes prepared).
Proof. rewrite accumulate_group. apply group_ok. constructor. Qed.

Lemma links_ok prepared : map_ok (links prepared).
Proof. rewrite accumulate_group. apply group_ok. constructor. Qed.

Lemma in_node_events prepared e : e ∈ concat (map node_events prepared) <->
  exists p n, p ∈ prepared /\ n ∈ pp_path p /\ e = (n, tag p).
Proof.
  rewrite list_elem_of_In, in_concat. setoid_rewrite in_map_iff.
  setoid_rewrite <- list_elem_of_In. unfold node_events. split.
  - intros (l & (p & <- & Hp) & (n & -> & Hn)%list_elem_of_fmap). by exists p, n.
  - intros (p & n & Hp & Hn & ->). exists (node_events p). split; [by exists p|].
    apply list_elem_of_fmap. by exists n.
Qed.

Lemma in_link_events prepared e : e ∈ concat (map link_events prepared) <->
  exists p s, p ∈ prepared /\ s ∈ steps (pp_path p) /\ e = (s, tag p).
Proof.
  rewrite list_elem_of_In, in_concat. setoid_rewrite in_map_iff.
  setoid_rewrite <- list_elem_of_In. unfold link_events. split.
  - intros (l & (p & <- & Hp) & (n & -> & Hn)%list_elem_of_fmap). by exists p, n.
  - intros (p & n & Hp & Hn & ->). exists (link_events p). split; [by exists p|].
    apply list_elem_of_fmap. by exists n.
Qed.

(** A node is stored under its own id, whose prefix is its kind. *)
Lemma nodes_inv prepared i n : (forall p, p ∈ prepared -> Forall id_ok (pp_path p)) ->
  (i, n) ∈ nodes prepared -> n_id n = i /\ prefix_kind i = Some (n_kind n).
Proof.
  intros Hok. rewrite accumulate_group. apply (group_inv node_key (upd_node metric)
    (fun i n => n_id n = i /\ prefix_kind i = Some (n_kind n))).
  - intros k v Hk. by apply not_elem_of_nil in Hk.
  - intros e (p & m & Hp & Hm & ->)%in_node_events. simpl. split; [done|].
    apply prefix_kind_ok. specialize (Hok p Hp). rewrite Forall_forall in Hok. by apply Hok.
  - done.
Qed.

(** A link is stored under the key of a step of some path, with its endpoints. *)
Lemma links_inv prepared key l : (key, l) ∈ links prepared ->
  exists p s, p ∈ prepared /\ s ∈ steps (pp_path p) /\ pathLinkKey s.1 s.2 = key
              /\ l_source l = pn_id s.1 /\ l_target l = pn_id s.2.
Proof.
  rewrite accumulate_group. apply (group_inv link_key (upd_link metric)
    (fun key l => exists p s, p ∈ prepared /\ s ∈ steps (pp_path p) /\ pathLinkKey s.1 s.2 = key
                  /\ l_source l = pn_id s.1 /\ l_target l = pn_id s.2)).
  - intros k v Hk. by apply not_elem_of_nil in Hk.
  - intros e (p & s & Hp & Hs & ->)%in_link_events. by exists p, s.
  - done.
Qed.

(** The sum of a field over the nodes whose key passes a test. *)
Lemma nodes_sum prepared f (test : jstr -> bool) :
  map_sum (fun i n => if test i then node_field f n else 0) (nodes prepared) =
  zsum (map (fun p => zsum (map (fun n => if test (pn_id n) then weight metric f (pp_metrics p) else 0)
    (pp_path p))) prepared).
Proof.
  rewrite accumulate_group. cbn [fst snd]. rewrite (group_sum node_key (upd_node metric)
    (fun i n => if test i then node_field f n else 0)
    (fun e => if test (node_key e) then weight metric f e.2.1 else 0)).
  - unfold map_sum at 1. cbn [map zsum]. rewrite Z.add_0_l, concat_map, zsum_concat, !map_map.
    f_equal. apply map_ext. intros p. unfold node_events. rewrite map_map. f_equal.
    apply map_ext. intros n. unfold node_key. simpl. by rewrite tag_metrics.
  - intros e o _. destruct (test (node_key e)); [|by destruct o].
    destruct f, o; simpl; lia.
Qed.

Lemma links_sum prepared f (test : jstr -> bool) :
  map_sum (fun i l => if test i then link_field f l else 0) (links prepared) =
  zsum (map (fun p => zsum (map (fun s => if test (pathLinkKey s.1 s.2)
    then weight metric f (pp_metrics p) else 0) (steps (pp_path p)))) prepared).
Proof.
  rewrite accumulate_group. cbn [fst snd]. rewrite (group_sum link_key (upd_link metric)
    (fun i n => if test i then link_field f n else 0)
    (fun e => if test (link_key e) then weight metric f e.2.1 else 0)).
  - unfold map_sum at 1. cbn [map zsum]. rewrite Z.add_0_l, concat_map, zsum_concat, !map_map.
    f_equal. apply map_ext. intros p. unfold link_events. rewrite map_map. f_equal.
    apply map_ext. intros n. unfold link_key. simpl. by rewrite tag_metrics.
  - intros e o _. destruct (test (link_key e)); [|by destruct o].
    destruct f, o; simpl; lia.
Qed.
End Accumulate.

(** ** Sums along a path *)

Lemma zsum_indicator {A K} `{EqDecision K} (f : A -> K) l k w : NoDup (map f l) ->
  zsum (map (fun x => if bool_decide (f x = k) then w else 0) l) =
  if bool_decide (k ∈ map f l) then w else 0.
Proof.
  induction l as [|x l IH]; intros N; [done|]. cbn [map] in *. apply NoDup_cons in N as [Hni N].
  cbn [zsum]. rewrite IH by done.
  destruct (decide (f x = k)) as [<-|Hne].
  - rewrite (bool_decide_eq_true_2 (f x = f x)) by done. rewrite bool_decide_eq_false_2 by done.
    rewrite bool_decide_eq_true_2 by (by left). lia.
  - rewrite bool_decide_eq_false_2 by done. rewrite Z.add_0_l.
    erewrite (bool_decide_ext (k ∈ map f l)); [done|]. rewrite elem_of_cons. naive_solver.
Qed.

Lemma steps_snd {A} (path : list A) : map snd (steps path) = tail path.
Proof. induction path as [|a [|b path] IH]; [done..|]. cbn in *. by rewrite IH. Qed.

Lemma steps_fst {A} (path : list A) : map fst (steps path) = removelast path.
Proof. induction path as [|a [|b path] IH]; [done..|]. cbn in *. by rewrite IH. Qed.

Lemma in_steps {A} (path : list A) s : s ∈ steps path -> s.1 ∈ path /\ s.2 ∈ path.
Proof.
  induction path as [|a [|b path] IH]; cbn; [by intros ?%not_elem_of_nil..|].
  rewrite elem_of_cons. intros [->|H]; cbn [fst snd].
  - split; [by left|right; by left].
  - destruct (IH H) as [H1 H2]. split; by right.
Qed.

(** The endpoints of a link, read back from its key. *)
Definition key_source (key : jstr) : jstr := default [] (split 0%N key !! 0%nat).
Definition key_target (key : jstr) : jstr := default [] (split 0%N key !! 1%nat).

Lemma split_key a b : nul_free a -> nul_free b -> split 0%N (a ++ NUL ++ b) = [a; b].
Proof.
  intros Ha Hb. change (a ++ NUL ++ b) with (a ++ 0%N :: b).
  by rewrite split_app_sep, split_single.
Qed.

Lemma key_source_ok a b : nul_free (pn_id a) -> nul_free (pn_id b) ->
  key_source (pathLinkKey a b) = pn_id a.
Proof. intros Ha Hb. unfold key_source, pathLinkKey. by rewrite split_key. Qed.

Lemma key_target_ok a b : nul_free (pn_id a) -> nul_free (pn_id b) ->
  key_target (pathLinkKey a b) = pn_id b.
Proof. intros Ha Hb. unfold key_target, pathLinkKey. by rewrite split_key. Qed.

Section PathSums.
Context (stages : list FlowNodeKind) (Hnd : NoDup stages) (path : list FlowPathNode)
        (Hp : path_ok stages path).

Lemma path_stage_sum k w : k ∈ stages ->
  zsum (map (fun n => if bool_decide (prefix_kind (pn_id n) = Some k) then w else 0) path) = w.
Proof.
  destruct Hp as [Hk Hid]. intros Hin.
  rewrite (zsum_ext _ (fun n => if bool_decide (pn_kind n = k) then w else 0)).
  - rewrite zsum_indicator by (by rewrite Hk). rewrite Hk. by rewrite bool_decide_eq_true_2.
  - intros n Hn. rewrite Forall_forall in Hid. rewrite (prefix_kind_ok n) by auto.
    erewrite (bool_decide_ext (Some (pn_kind n) = Some k)); [done|]. naive_solver.
Qed.

Lemma path_node_sum i w :
  zsum (map (fun n => if bool_decide (pn_id n = i) then w else 0) path) =
  if bool_decide (i ∈ map pn_id path) then w else 0.
Proof. apply zsum_indicator. by eapply path_ids_NoDup. Qed.

Context (Hnul : Forall (fun n => nul_free (pn_id n)) path).

Lemma path_nul s : s ∈ steps path -> nul_free (pn_id s.1) /\ nul_free (pn_id s.2).
Proof. intros [H1 H2]%in_steps. rewrite Forall_forall in Hnul. auto. Qed.

Lemma path_inflow i k w : prefix_kind i = Some k -> head stages <> Some k ->
  zsum (map (fun s => if bool_decide (key_target (pathLinkKey s.1 s.2) = i) then w else 0)
    (steps path)) = if bool_decide (i ∈ map pn_id path) then w else 0.
Proof.
  intros Hk Hh. rewrite (zsum_ext _ (fun s => if bool_decide (pn_id s.2 = i) then w else 0)).
  2:{ intros s Hs. destruct (path_nul s Hs). by rewrite key_target_ok. }
  transitivity (zsum (map (fun n => if bool_decide (pn_id n = i) then w else 0)
    (map snd (steps path)))); [by rewrite map_map|].
  rewrite steps_snd. assert (N := path_ids_NoDup _ _ Hnd Hp).
  destruct path as [|a p]; [done|]. cbn [tail]. rewrite zsum_indicator.
  - erewrite (bool_decide_ext (i ∈ map pn_id p)); [done|]. cbn [map]. rewrite elem_of_cons.
    split; [by right|]. intros [->|H]; [|done]. exfalso. destruct Hp as [<- Hid].
    apply Forall_cons_1 in Hid as [Ha _]. apply Hh. cbn. rewrite <- Hk. symmetry.
    by apply prefix_kind_ok.
  - by apply NoDup_cons in N as [_ N].
Qed.

Lemma path_outflow i k w : prefix_kind i = Some k -> last stages <> Some k ->
  zsum (map (fun s => if bool_decide (key_source (pathLinkKey s.1 s.2) = i) then w else 0)
    (steps path)) = if bool_decide (i ∈ map pn_id path) then w else 0.
Proof.
  intros Hk Hh. rewrite (zsum_ext _ (fun s => if bool_decide (pn_id s.1 = i) then w else 0)).
  2:{ intros s Hs. destruct (path_nul s Hs). by rewrite key_source_ok. }
  transitivity (zsum (map (fun n => if bool_decide (pn_id n = i) then w else 0)
    (map fst (steps path)))); [by rewrite map_map|].
  rewrite steps_fst. assert (N := path_ids_NoDup _ _ Hnd Hp).
  destruct path as [|a p _] using rev_ind; [done|]. rewrite removelast_last.
  rewrite map_app in N. rewrite zsum_indicator by (by apply NoDup_app in N as [N _]).
  erewrite (bool_decide_ext (i ∈ map pn_id p)); [done|]. rewrite map_app, elem_of_app.
  split; [by left|]. intros [H|H]; [done|]. exfalso. apply list_elem_of_singleton in H as ->.
  destruct Hp as [<- Hid]. apply Forall_app in Hid as [_ Ha]. rewrite Forall_singleton in Ha.
  apply Hh. rewrite map_app. cbn. rewrite last_snoc, <- Hk. symmetry. by apply prefix_kind_ok.
Qed.
End PathSums.

(** ** The graph *)

Definition link_core (l : DashboardFlowLink) : jstr * jstr * (field -> Z) :=
  (l_source l, l_target l, fun f => link_field f l).

Lemma map_core {A B C} (core : B -> C) (f : A -> B) (core' : A -> C) l :
  (forall x, core (f x) = core' x) -> map core (map f l) = map core' l.
Proof. intros H. rewrite map_map. by apply map_ext. Qed.

Lemma mask_cores ns ls :
  map node_core (maskFlowGraphLabels ns ls).1 = map node_core ns
  /\ map link_core (maskFlowGraphLabels ns ls).2 = map link_core ls.
Proof.
  unfold maskFlowGraphLabels. destruct (_ =? _)%nat; cbn [fst snd]; split; try done.
  all: apply map_core; intros x; try done; by destruct (masks x).
Qed.

Lemma highlight_cores ns ls h :
  map node_core (applyFlowHighlights ns ls h).1 = map node_core ns
  /\ map link_core (applyFlowHighlights ns ls h).2 = map link_core ls.
Proof. destruct h; [|done]. split; by apply map_core. Qed.

Section Graph.
Context (localeCompare : jstr -> jstr -> Z)
        (schemes : list (option nat * list jstr)) (last_scheme : option nat * list jstr)
        (rows : list FlowQuotaDataItem) (metric : FlowMetric) (role : FlowRole)
        (palette : option (list jstr)) (vis : option (list FlowNodeKind))
        (ctx : FlowPathContext) (options : FlowGraphOptions).

Definition graph_stages : list FlowNodeKind := resolveVisibleStages role vis.

Definition graph_tops : option (list (FlowNodeKind * list jstr)) :=
  buildTopNodeSets localeCompare rows metric graph_stages
    (normalizeTopNodeLimit (o_topNodeLimit options)) ctx.

Definition graph_prepared : list PreparedFlowPath :=
  preparePaths rows graph_stages graph_tops (default OAggregate (o_overflowMode options))
    (o_otherNodeLabel options) ctx.

Definition graph_colors : list (jstr * jstr) :=
  stableColorMap schemes last_scheme (array_sort localeCompare (rootIds graph_prepared)) palette.

Definition graph_acc : list (jstr * DashboardFlowNode) * list (jstr * DashboardFlowLink) :=
  accumulate schemes last_scheme metric graph_colors palette graph_prepared.

Definition graph : DashboardFlowGraph :=
  buildFlowGraph localeCompare schemes last_scheme rows metric role palette vis ctx options.

(** The lists before sorting, after masking and highlighting. *)
Definition graph_masked : list DashboardFlowNode * list DashboardFlowLink :=
  if o_maskSensitive options
  then maskFlowGraphLabels (map_values graph_acc.1) (map_values graph_acc.2)
  else (map_values graph_acc.1, map_values graph_acc.2).

Definition graph_flagged : list DashboardFlowNode * list DashboardFlowLink :=
  applyFlowHighlights graph_masked.1 graph_masked.2
    (buildFlowHighlightSets graph_prepared (o_activeNode options) (o_activeLink options) graph_stages).

Definition graph_total : Z :=
  firstStepTotal (new_set (rootIds graph_prepared))
    (array_sort (byEndpoints localeCompare) graph_flagged.2).

Definition graph_shared : list DashboardFlowLink :=
  map (fun link => set_share
    (if 0 <? graph_total then num_div (num_of_Z (l_value link)) (num_of_Z graph_total)
     else num_of_Z 0) link) (array_sort (byEndpoints localeCompare) graph_flagged.2).

Lemma graph_eq : graph =
  mkGraph (array_sort (byValueThenLabel localeCompare) graph_flagged.1)
    (assignLinkDisplayColors localeCompare graph_shared).
Proof.
  unfold graph, buildFlowGraph, graph_shared, graph_total, graph_flagged, graph_masked, graph_acc,
    graph_colors, graph_prepared, graph_tops, graph_stages.
  destruct (accumulate _ _ _ _ _ _) as [ns ls]. cbn [fst snd].
  destruct (o_maskSensitive options).
  - destruct (maskFlowGraphLabels _ _) as [ns' ls']. cbn [fst snd].
    by destruct (applyFlowHighlights _ _ _).
  - cbn [fst snd]. by destruct (applyFlowHighlights _ _ _).
Qed.

Lemma display_cores ls : map link_core (assignLinkDisplayColors localeCompare ls) = map link_core ls.
Proof.
  unfold assignLinkDisplayColors. apply map_core. intros l. by destruct (map_get _ _) as [[]|].
Qed.

Lemma masked_cores : map node_core graph_masked.1 = map node_core (map_values graph_acc.1)
  /\ map link_core graph_masked.2 = map link_core (map_values graph_acc.2).
Proof. unfold graph_masked. destruct (o_maskSensitive options); [apply mask_cores|done]. Qed.

Lemma flagged_cores : map node_core graph_flagged.1 = map node_core (map_values graph_acc.1)
  /\ map link_core graph_flagged.2 = map link_core (map_values graph_acc.2).
Proof.
  unfold graph_flagged. destruct (highlight_cores graph_masked.1 graph_masked.2
    (buildFlowHighlightSets graph_prepared (o_activeNode options) (o_activeLink options) graph_stages))
    as [-> ->]. apply masked_cores.
Qed.

(** Labels, flags, shares, colours and order apart, the graph is what was
    accumulated. *)
Lemma graph_cores :
  map node_core (g_nodes graph) ≡ₚ map node_core (map_values graph_acc.1)
  /\ map link_core (g_links graph) ≡ₚ map link_core (map_values graph_acc.2).
Proof.
  rewrite graph_eq. cbn [g_nodes g_links]. destruct flagged_cores as [H1 H2]. split.
  - by rewrite array_sort_perm, H1.
  - rewrite display_cores. unfold graph_shared. rewrite (map_core link_core _ link_core) by done.
    by rewrite array_sort_perm, H2.
Qed.

Lemma graph_prepared_ok p : p ∈ graph_prepared -> path_ok graph_stages (pp_path p)
  /\ (Forall row_ok rows -> Forall (fun n => nul_free (pn_id n)) (pp_path p)).
Proof. apply prepared_ok. Qed.

Lemma graph_nodes_inv i n : (i, n) ∈ graph_acc.1 -> n_id n = i /\ prefix_kind i = Some (n_kind n).
Proof.
  unfold graph_acc. apply nodes_inv. intros p Hp. by apply graph_prepared_ok in Hp as [[_ ?] _].
Qed.

(** Sums over the nodes and links of the graph, read off the accumulated maps. *)
Lemma graph_node_sum (test : jstr * FlowNodeKind * (field -> Z) -> Z) :
  zsum (map (fun n => test (node_core n)) (g_nodes graph)) =
  zsum (map (fun p => test (node_core p.2)) graph_acc.1).
Proof.
  transitivity (zsum (map test (map node_core (g_nodes graph)))); [by rewrite map_map|].
  rewrite (proj1 graph_cores). unfold map_values. by rewrite !map_map.
Qed.

Lemma graph_link_sum (test : jstr * jstr * (field -> Z) -> Z) :
  zsum (map (fun l => test (link_core l)) (g_links graph)) =
  zsum (map (fun p => test (link_core p.2)) graph_acc.2).
Proof.
  transitivity (zsum (map test (map link_core (g_links graph)))); [by rewrite map_map|].
  rewrite (proj2 graph_cores). unfold map_values. by rewrite !map_map.
Qed.

Lemma graph_node_stored n : n ∈ g_nodes graph ->
  exists n', (n_id n, n') ∈ graph_acc.1 /\ node_core n' = node_core n
             /\ prefix_kind (n_id n) = Some (n_kind n).
Proof.
  intros Hn. assert (Hc : node_core n ∈ map node_core (g_nodes graph)).
  { apply list_elem_of_fmap. by exists n. }
  rewrite (proj1 graph_cores) in Hc. apply list_elem_of_fmap in Hc as (n' & Hc & Hn').
  unfold map_values in Hn'. apply list_elem_of_fmap in Hn' as ([i n''] & -> & Hin).
  destruct (graph_nodes_inv _ _ Hin) as [H1 H2]. cbn [snd] in *.
  exists n''. assert (Hid : n_id n = i) by (injection Hc; congruence).
  assert (Hk : n_kind n = n_kind n'') by (injection Hc; congruence).
  rewrite Hid, Hk. done.
Qed.
End Graph.

(** ** Conservation *)

Definition flow_sum {A} (p : A -> bool) (f : A -> Z) (l : list A) : Z :=
  zsum (map f (List.filter p l)).

Definition stage_sum (f : field) (k : FlowNodeKind) (g : DashboardFlowGraph) : Z :=
  flow_sum (fun n => bool_decide (n_kind n = k)) (node_field f) (g_nodes g).
Definition inflow (f : field) (i : jstr) (g : DashboardFlowGraph) : Z :=
  flow_sum (fun l => bool_decide (l_target l = i)) (link_field f) (g_links g).
Definition outflow (f : field) (i : jstr) (g : DashboardFlowGraph) : Z :=
  flow_sum (fun l => bool_decide (l_source l = i)) (link_field f) (g_links g).

Definition summary_field (metric : FlowMetric) (f : field) (s : FlowSummary) : Z :=
  match f with
  | FValue =>
      match metric with MQuota => s_quota s | MTokens => s_tokens s | MRequests => s_requests s end
  | FRequests => s_requests s | FQuota => s_quota s | FTokens => s_tokens s
  end.

Lemma summary_sum metric f rows :
  summary_field metric f (buildSummary rows) = zsum (map (fun r => weight metric f (rowMetrics r)) rows).
Proof.
  unfold buildSummary.
  assert (G : forall s, summary_field metric f (fold_left (fun summary row =>
      let metrics := rowMetrics row in
      mkSummary (s_quota summary + m_quota metrics) (s_tokens summary + m_tokens metrics)
        (s_requests summary + m_requests metrics)) rows s) =
    summary_field metric f s + zsum (map (fun r => weight metric f (rowMetrics r)) rows)).
  { induction rows as [|r rows IH]; intros s; cbn [fold_left map zsum]; [lia|].
    rewrite IH. destruct f, metric; simpl; lia. }
  rewrite G. destruct f, metric; simpl; lia.
Qed.

(** No row is dropped: there is no limit, or overflow is aggregated. *)
Definition keeps_rows (options : FlowGraphOptions) : Prop :=
  normalizeTopNodeLimit (o_topNodeLimit options) = None
  \/ default OAggregate (o_overflowMode options) = OAggregate.

Lemma prepared_metrics localeCompare rows metric role vis ctx options : keeps_rows options ->
  map pp_metrics (graph_prepared localeCompare rows metric role vis ctx options) = map rowMetrics rows.
Proof.
  unfold graph_prepared, preparePaths. set (tops := graph_tops _ _ _ _ _ _ _).
  intros Hk. assert (Hs : forall row, exists path, applyTopNodeLimit
    (flowPathForStages row (graph_stages role vis) ctx) tops
    (default OAggregate (o_overflowMode options)) (o_otherNodeLabel options) = Some path).
  { intros row. unfold applyTopNodeLimit. destruct tops eqn:T; [|by eexists].
    destruct (negb _); [by eexists|]. destruct Hk as [Hk | ->]; [|by eexists].
    unfold tops, graph_tops in T. by rewrite Hk in T. }
  clearbody tops. clear Hk. induction rows as [|row rows IH]; [done|].
  cbn [omap list_omap]. destruct (Hs row) as [path ->]. cbn [map pp_metrics]. f_equal. apply IH.
Qed.

Lemma map_sum_at {K V} `{EqDecision K} (m : list (K * V)) i v (g : V -> Z) : map_ok m -> (i, v) ∈ m ->
  map_sum (fun k v => if bool_decide (k = i) then g v else 0) m = g v.
Proof.
  unfold map_sum, map_ok, map_keys. induction m as [|[k w] m IH]; intros N Hin.
  - by apply not_elem_of_nil in Hin.
  - cbn in *. apply NoDup_cons in N as [Hni N]. apply elem_of_cons in Hin as [[= -> ->]|Hin].
    + rewrite bool_decide_eq_true_2 by done.
      rewrite (zsum_ext _ (fun _ => 0)); [|intros [j w'] Hk; cbn].
      * clear. induction m; simpl in *; lia.
      * rewrite bool_decide_eq_false_2; [done|]. intros ->. apply Hni, list_elem_of_fmap.
        by eexists (_, w').
    + rewrite bool_decide_eq_false_2; [by rewrite IH|]. intros ->. apply Hni, list_elem_of_fmap.
      by exists (i, v).
Qed.

Section Conservation.
Context (localeCompare : jstr -> jstr -> Z)
        (schemes : list (option nat * list jstr)) (last_scheme : option nat * list jstr)
        (rows : list FlowQuotaDataItem) (metric : FlowMetric) (role : FlowRole)
        (palette : option (list jstr)) (vis : option (list FlowNodeKind))
        (ctx : FlowPathContext) (options : FlowGraphOptions).

Abbreviation g := (graph localeCompare schemes last_scheme rows metric role palette vis ctx options).
Abbreviation acc :=
  (graph_acc localeCompare schemes last_scheme rows metric role palette vis ctx options).
Abbreviation prepared := (graph_prepared localeCompare rows metric role vis ctx options).
Abbreviation stages := (graph_stages role vis).

Lemma stage_sum_prepared f k : k ∈ stages ->
  stage_sum f k g = zsum (map (fun p => weight metric f (pp_metrics p)) prepared).
Proof.
  intros Hk. unfold stage_sum, flow_sum. rewrite zsum_filter.
  etransitivity; [exact (graph_node_sum _ _ _ _ _ _ _ _ _ _ (fun c => if bool_decide (c.1.2 = k) then c.2 f else 0))|].
  cbn [node_core fst snd]. transitivity (map_sum (fun i n =>
    if bool_decide (prefix_kind i = Some k) then node_field f n else 0) acc.1).
  - unfold map_sum. apply zsum_ext. intros [i n] Hin. apply graph_nodes_inv in Hin as [_ Hp].
    cbn [fst snd]. rewrite Hp. erewrite (bool_decide_ext (n_kind n = k)); [done|]. naive_solver.
  - unfold graph_acc. rewrite nodes_sum. apply zsum_ext. intros p Hp.
    apply graph_prepared_ok in Hp as [Hp _]. eapply path_stage_sum; [apply stages_NoDup|done..].
Qed.

Lemma node_field_prepared f n : n ∈ g_nodes g -> node_field f n =
  zsum (map (fun p => if bool_decide (n_id n ∈ map pn_id (pp_path p))
    then weight metric f (pp_metrics p) else 0) prepared).
Proof.
  intros Hn. destruct (graph_node_stored _ _ _ _ _ _ _ _ _ _ _ Hn) as (n' & Hin & Hc & _).
  assert (Hf : node_field f n = node_field f n').
  { change ((node_core n).2 f = (node_core n').2 f). by rewrite Hc. }
  rewrite Hf, <- (map_sum_at _ _ _ (node_field f) (nodes_ok _ _ _ _ _ _) Hin).
  unfold graph_acc. rewrite nodes_sum. apply zsum_ext. intros p Hp.
  apply graph_prepared_ok in Hp as [Hp _]. eapply path_node_sum; [apply stages_NoDup|done].
Qed.

Context (Hrows : Forall row_ok rows).

Lemma links_endpoints key l : (key, l) ∈ acc.2 -> key_source key = l_source l /\ key_target key = l_target l.
Proof.
  intros (p & s & Hp & Hs & <- & -> & ->)%links_inv.
  apply graph_prepared_ok in Hp as [Hp Hnul]. specialize (Hnul Hrows).
  destruct (path_nul _ Hnul s Hs). split; [by apply key_source_ok | by apply key_target_ok].
Qed.

Lemma inflow_prepared f i :
  inflow f i g = zsum (map (fun p => zsum (map (fun s =>
    if bool_decide (key_target (pathLinkKey s.1 s.2) = i) then weight metric f (pp_metrics p) else 0)
    (steps (pp_path p)))) prepared).
Proof.
  unfold inflow, flow_sum. rewrite zsum_filter.
  etransitivity; [exact (graph_link_sum _ _ _ _ _ _ _ _ _ _ (fun c => if bool_decide (c.1.2 = i) then c.2 f else 0))|].
  etransitivity; [|exact (links_sum schemes last_scheme metric
    (graph_colors localeCompare schemes last_scheme rows metric role palette vis ctx options) palette
    prepared f (fun key => bool_decide (key_target key = i)))].
  unfold map_sum. apply zsum_ext. intros [key l] Hin. cbn.
  apply links_endpoints in Hin as [_ ->]. done.
Qed.

Lemma outflow_prepared f i :
  outflow f i g = zsum (map (fun p => zsum (map (fun s =>
    if bool_decide (key_source (pathLinkKey s.1 s.2) = i) then weight metric f (pp_metrics p) else 0)
    (steps (pp_path p)))) prepared).
Proof.
  unfold outflow, flow_sum. rewrite zsum_filter.
  etransitivity; [exact (graph_link_sum _ _ _ _ _ _ _ _ _ _ (fun c => if bool_decide (c.1.1 = i) then c.2 f else 0))|].
  etransitivity; [|exact (links_sum schemes last_scheme metric
    (graph_colors localeCompare schemes last_scheme rows metric role palette vis ctx options) palette
    prepared f (fun key => bool_decide (key_source key = i)))].
  unfold map_sum. apply zsum_ext. intros [key l] Hin. cbn.
  apply links_endpoints in Hin as [-> _]. done.
Qed.
End Conservation.

Lemma filterRows_In r rows sel : r ∈ filterRows rows sel -> r ∈ rows.
Proof.
  unfold filterRows. destruct (_ =? _)%nat; [done|]. rewrite !list_elem_of_In. by intros [H _]%filter_In.
Qed.

Lemma filterRowsByNodes_In r rows sel stages ctx : r ∈ filterRowsByNodes rows sel stages ctx -> r ∈ rows.
Proof.
  unfold filterRowsByNodes. destruct (_ =? _)%nat; [done|]. rewrite !list_elem_of_In. by intros [H _]%filter_In.
Qed.

Lemma selectedRows_ok rows options : Forall row_ok rows -> Forall row_ok (selectedRows rows options).
Proof.
  rewrite !Forall_forall. intros H r Hr. apply H.
  by apply filterRowsByNodes_In, filterRows_In in Hr.
Qed.

(** A small data set for the witnesses: two users, two models. *)
Definition demo_row (uid : Z) (model : jstr) (q : Z) : FlowQuotaDataItem :=
  mkItem (Some uid) (Some (u "ann")) None (Some (u "vip")) (Some (uid + 10)) None (Some 3) None
    (Some model) (Some (2 * q)) (Some 1) (Some q).
Definition demo_rows : list FlowQuotaDataItem :=
  [demo_row 1 (u "m1") 5; demo_row 2 (u "m2") 7; demo_row 1 (u "m2") 11; demo_row 3 (u "m3") 2].
Definition demo_options (limit : option num) (mask : bool) (active : option FlowNodeFilter)
    : FlowGraphOptions := mkGraphOptions limit None None active None mask.
Definition demo_build (limit : option num) (mask : bool) : FlowBuildOptions :=
  mkBuildOptions (Some RAdmin) None None None None None (demo_options limit mask None).
Definition demo_data (limit : option num) (mask : bool) : ProcessedFlowData :=
  buildDashboardFlowData str_cmp [] (None, [u "#1664FF"]) Z_str demo_rows MQuota (demo_build limit mask).

(** C25: Every stage of the graph carries the whole: for each visible stage and
    each counter (the chosen metric, requests, quota, tokens) the nodes of the
    stage add up to the summary of the selected rows, as long as overflow nodes
    are not hidden. *)
Theorem every_stage_carries_summary localeCompare schemes last_scheme formatNumber
    (rows : list FlowQuotaDataItem) (metric : FlowMetric) (options : FlowBuildOptions)
    (k : FlowNodeKind) (f : field) :
  k ∈ resolveVisibleStages (default RUser (b_role options)) (b_visibleStages options) ->
  keeps_rows (b_graph options) ->
  let d := buildDashboardFlowData localeCompare schemes last_scheme formatNumber rows metric options in
  stage_sum f k (flow d) = summary_field metric f (summary d).
Proof.
  intros Hk Hkeep. cbn [buildDashboardFlowData flow summary].
  etransitivity; [by apply stage_sum_prepared|]. rewrite summary_sum.
  rewrite <- (map_map pp_metrics (weight metric f)), prepared_metrics by done.
  by rewrite map_map.
Qed.

Lemma every_stage_carries_summary_witness :
  let d := demo_data (Some (num_of_Z 1)) false in
  stage_sum FValue KModel (flow d) = summary_field MQuota FValue (summary d)
  /\ s_quota (summary d) = 25 /\ length (g_nodes (flow d)) = 6%nat.
Proof.
  split; [|vm_compute; split; reflexivity].
  apply (every_stage_carries_summary str_cmp [] (None, [u "#1664FF"]) Z_str demo_rows MQuota
    (demo_build (Some (num_of_Z 1)) false) KModel FValue).
  - apply (bool_decide_eq_true_1 _). vm_compute. reflexivity.
  - by right.
Defined.

(** C26: The graph conserves flow: for every node of the graph and every counter,
    what enters through its links is the node's own total unless it is in the
    first stage, and what leaves is its total unless it is in the last, whatever
    the filters, the limit and the overflow mode. Names must not contain the NUL
    character that separates link keys. *)
Theorem graph_conserves_flow localeCompare schemes last_scheme (rows : list FlowQuotaDataItem)
    (metric : FlowMetric) (role : FlowRole) palette (vis : option (list FlowNodeKind)) ctx
    (options : FlowGraphOptions) (n : DashboardFlowNode) (f : field) :
  Forall row_ok rows ->
  let g := buildFlowGraph localeCompare schemes last_scheme rows metric role palette vis ctx options in
  n ∈ g_nodes g ->
  (head (resolveVisibleStages role vis) <> Some (n_kind n) -> inflow f (n_id n) g = node_field f n)
  /\ (last (resolveVisibleStages role vis) <> Some (n_kind n) -> outflow f (n_id n) g = node_field f n).
Proof.
  intros Hrows g Hn. change g with (graph localeCompare schemes last_scheme rows metric role palette
    vis ctx options) in *.
  destruct (graph_node_stored _ _ _ _ _ _ _ _ _ _ _ Hn) as (_ & _ & _ & Hp).
  rewrite (node_field_prepared _ _ _ _ _ _ _ _ _ _ f n Hn). split; intros Hs.
  - rewrite inflow_prepared by done. apply zsum_ext. intros p [Hok Hnul]%graph_prepared_ok.
    eapply path_inflow; eauto using stages_NoDup.
  - rewrite outflow_prepared by done. apply zsum_ext. intros p [Hok Hnul]%graph_prepared_ok.
    eapply path_outflow; eauto using stages_NoDup.
Qed.

Lemma demo_rows_ok : Forall row_ok demo_rows.
Proof. repeat constructor; unfold name_ok, nul_free; vm_compute; intuition discriminate. Qed.

Lemma graph_conserves_flow_witness :
  exists n, n ∈ g_nodes (flow (demo_data None false)) /\ n_id n = u "group:vip"
  /\ inflow FValue (n_id n) (flow (demo_data None false)) = node_field FValue n
  /\ outflow FValue (n_id n) (flow (demo_data None false)) = node_field FValue n.
Proof.
  destruct (g_nodes (flow (demo_data None false)) !! 1%nat) as [n|] eqn:E; [|vm_compute in E; done].
  exists n. pose proof (list_elem_of_lookup_2 _ _ _ E) as Hn.
  pose proof (graph_conserves_flow str_cmp [] (None, [u "#1664FF"]) demo_rows MQuota RAdmin None None
    None (demo_options None false None) n FValue demo_rows_ok Hn) as [H1 H2].
  vm_compute in E. injection E as <-.
  split; [exact Hn|]. split; [vm_compute; reflexivity|].
  split; [apply H1 | apply H2]; vm_compute; discriminate.
Defined.

Lemma steps_map {A B} (f : A -> B) l : steps (map f l) = map (fun s => (f s.1, f s.2)) (steps l).
Proof. induction l as [|a [|b l] IH]; [done..|]. cbn in *. by rewrite IH. Qed.

Section WellFormed.
Context (localeCompare : jstr -> jstr -> Z)
        (schemes : list (option nat * list jstr)) (last_scheme : option nat * list jstr)
        (rows : list FlowQuotaDataItem) (metric : FlowMetric) (role : FlowRole)
        (palette : option (list jstr)) (vis : option (list FlowNodeKind))
        (ctx : FlowPathContext) (options : FlowGraphOptions).

Abbreviation g := (graph localeCompare schemes last_scheme rows metric role palette vis ctx options).
Abbreviation acc :=
  (graph_acc localeCompare schemes last_scheme rows metric role palette vis ctx options).
Abbreviation prepared := (graph_prepared localeCompare rows metric role vis ctx options).
Abbreviation stages := (graph_stages role vis).

Lemma graph_ids : map n_id (g_nodes g) ≡ₚ map_keys acc.1.
Proof.
  transitivity (map (fun c => c.1.1) (map node_core (g_nodes g))); [by rewrite map_map|].
  rewrite (proj1 (graph_cores _ _ _ _ _ _ _ _ _ _)). unfold map_values, map_keys. rewrite !map_map.
  apply Permutation_refl', map_ext_in. intros [i n] Hin%list_elem_of_In.
  by apply graph_nodes_inv in Hin as [? _].
Qed.

(** A node of some path is a node of the graph, with the same kind. *)
Lemma path_node_in_graph p n : p ∈ prepared -> n ∈ pp_path p ->
  exists n', n' ∈ g_nodes g /\ n_id n' = pn_id n /\ n_kind n' = pn_kind n.
Proof.
  intros Hp Hn. assert (Hin : pn_id n ∈ map n_id (g_nodes g)).
  { rewrite graph_ids. unfold graph_acc. rewrite accumulate_group. apply group_keys. right.
    eexists. split; [apply in_node_events; by exists p, n|done]. }
  apply list_elem_of_fmap in Hin as (n' & Hid & Hn'). exists n'. split_and!; [done..|].
  destruct (graph_node_stored _ _ _ _ _ _ _ _ _ _ _ Hn') as (_ & _ & _ & Hk).
  apply graph_prepared_ok in Hp as [[_ F] _]. rewrite Forall_forall in F.
  rewrite <- Hid, (prefix_kind_ok n) in Hk by auto. congruence.
Qed.

(** ... and every node of the graph stands on the path of some row. *)
Lemma graph_node_path n : n ∈ g_nodes g ->
  exists row path m, row ∈ rows
    /\ applyTopNodeLimit (flowPathForStages row stages ctx)
         (graph_tops localeCompare rows metric role vis ctx options)
         (default OAggregate (o_overflowMode options)) (o_otherNodeLabel options) = Some path
    /\ m ∈ path /\ pn_id m = n_id n /\ pn_kind m = n_kind n.
Proof.
  intros Hn. destruct (graph_node_stored _ _ _ _ _ _ _ _ _ _ _ Hn) as (n' & Hin & _ & Hk).
  assert (Hkey : n_id n ∈ map_keys acc.1) by (apply list_elem_of_fmap; by exists (n_id n, n')).
  unfold graph_acc in Hkey. rewrite accumulate_group in Hkey.
  apply group_keys in Hkey as [Hkey|(e & He & Hid)]; [by apply not_elem_of_nil in Hkey|].
  apply in_node_events in He as (p & m & Hp & Hm & ->). unfold node_key in Hid. cbn [fst] in Hid.
  pose proof Hp as [[_ F] _]%graph_prepared_ok. rewrite Forall_forall in F.
  specialize (F m Hm). apply prefix_kind_ok in F. rewrite Hid, Hk in F.
  apply list_elem_of_omap in Hp as (row & Hrow & Hp).
  destruct (applyTopNodeLimit _ _ _ _) as [path|] eqn:E; [|done]. simplify_eq. cbn [pp_path] in Hm.
  exists row, path, m. done.
Qed.

Lemma graph_link_stored l : l ∈ g_links g -> exists p s, p ∈ prepared /\ s ∈ steps (pp_path p)
  /\ l_source l = pn_id s.1 /\ l_target l = pn_id s.2.
Proof.
  intros Hl. assert (Hc : link_core l ∈ map link_core (g_links g)).
  { apply list_elem_of_fmap. by exists l. }
  rewrite (proj2 (graph_cores _ _ _ _ _ _ _ _ _ _)) in Hc.
  apply list_elem_of_fmap in Hc as (l' & Hc & Hl').
  apply list_elem_of_fmap in Hl' as ([key l''] & -> & Hin). cbn [snd] in Hc.
  apply links_inv in Hin as (p & s & Hp & Hs & _ & H1 & H2).
  exists p, s. split_and!; [done..| |]; injection Hc; congruence.
Qed.

Lemma graph_link_keys : map linkStableKey (g_links g) ≡ₚ map_keys acc.2.
Proof.
  transitivity (map (fun c => c.1.1 ++ NUL ++ c.1.2) (map link_core (g_links g))); [by rewrite map_map|].
  rewrite (proj2 (graph_cores _ _ _ _ _ _ _ _ _ _)). unfold map_values, map_keys. rewrite !map_map.
  apply Permutation_refl', map_ext_in. intros [key l] Hin%list_elem_of_In.
  apply links_inv in Hin as (p & s & _ & _ & <- & H1 & H2). cbn. by rewrite H1, H2.
Qed.
End WellFormed.

(** The graph is well formed: node ids are distinct, link endpoint pairs are
    distinct, and both endpoints of every link are nodes of the graph, of
    neighbouring stages. *)
Theorem graph_well_formed localeCompare schemes last_scheme (rows : list FlowQuotaDataItem)
    (metric : FlowMetric) (role : FlowRole) palette (vis : option (list FlowNodeKind)) ctx
    (options : FlowGraphOptions) :
  let g := buildFlowGraph localeCompare schemes last_scheme rows metric role palette vis ctx options in
  NoDup (map n_id (g_nodes g))
  /\ NoDup (map (fun l => (l_source l, l_target l)) (g_links g))
  /\ forall l, l ∈ g_links g ->
       exists a b, a ∈ g_nodes g /\ b ∈ g_nodes g /\ n_id a = l_source l /\ n_id b = l_target l
                   /\ (n_kind a, n_kind b) ∈ steps (resolveVisibleStages role vis).
Proof.
  intros g. change g with (graph localeCompare schemes last_scheme rows metric role palette vis ctx
    options). split_and!.
  - rewrite graph_ids. apply nodes_ok.
  - apply (NoDup_fmap_1 (fun p => p.1 ++ NUL ++ p.2)). change (NoDup (map (fun p : jstr * jstr => p.1 ++ NUL ++ p.2)
      (map (fun l => (l_source l, l_target l)) (g_links (graph localeCompare schemes last_scheme rows
        metric role palette vis ctx options))))).
    rewrite map_map. change (NoDup (map linkStableKey (g_links (graph localeCompare schemes last_scheme
      rows metric role palette vis ctx options)))).
    rewrite graph_link_keys. apply links_ok.
  - intros l (p & s & Hp & Hs & H1 & H2)%graph_link_stored. destruct (in_steps _ _ Hs) as [Ha Hb].
    destruct (path_node_in_graph localeCompare schemes last_scheme rows metric role palette vis ctx
      options p s.1 Hp Ha) as (a & Hga & Hia & Hka).
    destruct (path_node_in_graph localeCompare schemes last_scheme rows metric role palette vis ctx
      options p s.2 Hp Hb) as (b & Hgb & Hib & Hkb).
    exists a, b. split_and!; try done; [congruence..|].
    apply graph_prepared_ok in Hp as [[Hst _] _]. rewrite Hka, Hkb.
    change (resolveVisibleStages role vis) with (graph_stages role vis).
    rewrite <- Hst, steps_map. apply list_elem_of_fmap. by exists s.
Qed.

(** ** The largest nodes *)

Lemma rank_step_keys value totals node k :
  k ∈ map_keys totals -> k ∈ map_keys (rank_step value totals node).
Proof.
  unfold rank_step. destruct (map_get totals (pn_kind node)); [|done].
  intros H. apply map_keys_set_elem. by right.
Qed.

Lemma stage_totals_keys rows metric stages ctx k :
  k ∈ stages -> k ∈ map_keys (stage_totals rows metric stages ctx).
Proof.
  intros Hk. unfold stage_totals.
  assert (Hi : k ∈ map_keys (fold_left (fun (m : list (FlowNodeKind * list (jstr * FlowNodeRank))) stage =>
    map_set m stage []) stages [])).
  { change (k ∈ map_keys (group (fun s : FlowNodeKind => s)
      (fun _ _ => @nil (jstr * FlowNodeRank)) [] stages)).
    apply group_keys. right. by exists k. }
  revert Hi. generalize (fold_left (fun (m : list (FlowNodeKind * list (jstr * FlowNodeRank))) stage =>
    map_set m stage []) stages []).
  induction rows as [|row rows IH]; intros m Hm; cbn [fold_left]; [done|].
  apply IH. clear IH. revert m Hm.
  induction (flowPathForStages row stages ctx) as [|n path IH]; intros m Hm; cbn [fold_left]; [done|].
  by apply IH, rank_step_keys.
Qed.

(** The set of a visible stage exists and holds at most the limit. *)
Lemma top_set_bound localeCompare rows metric stages limit ctx k : 0 < limit -> k ∈ stages ->
  exists sets top, buildTopNodeSets localeCompare rows metric stages (Some limit) ctx = Some sets
  /\ map_get sets k = Some top /\ Z.of_nat (length top) <= limit.
Proof.
  intros Hl Hk. unfold buildTopNodeSets. destruct limit as [|pl|]; [lia| |lia].
  eexists. set (F := fun stageTotals : list (jstr * FlowNodeRank) =>
    new_set (map (fun rank => pn_id (rank_node rank))
      (take (Z.to_nat (Z.pos pl)) (array_sort (byRank localeCompare) (map_values stageTotals))))).
  pose proof (stage_totals_keys rows metric stages ctx k Hk) as Hin.
  destruct (map_get (stage_totals rows metric stages ctx) k) as [st|] eqn:E.
  - exists (F st). split; [done|]. split; [by rewrite (map_get_map F), E|].
    unfold F. pose proof (new_set_length (map (fun rank => pn_id (rank_node rank))
      (take (Z.to_nat (Z.pos pl)) (array_sort (byRank localeCompare) (map_values st))))) as HL.
    rewrite length_map, length_take in HL. lia.
  - by apply map_get_None in E.
Qed.

Lemma limited_path_nodes row stages ctx sets mode lab path n :
  applyTopNodeLimit (flowPathForStages row stages ctx) (Some sets) mode lab = Some path ->
  n ∈ path -> isTopFlowNode n (Some sets) = true
              \/ mode = OAggregate /\ n = otherFlowNode (pn_kind n) lab.
Proof.
  unfold applyTopNodeLimit. destruct (existsb _ _) eqn:E; cbn [negb].
  - destruct mode; [|done]. intros Hp Hn. apply (inj Some) in Hp as <-.
    apply list_elem_of_fmap in Hn as (m & Hn & Hm).
    destruct (isTopFlowNode m (Some sets)) eqn:T; rewrite Hn; [by left|by right].
  - intros [= <-] Hn. left. apply not_false_iff_true. intros T.
    apply not_true_iff_false in E. apply E, existsb_exists. exists n.
    split; [by apply list_elem_of_In|]. by rewrite T.
Qed.

(** A limit of [m] nodes bounds every stage of the graph: at most [m] nodes
    of a kind where overflow is hidden, and at most one more, the node that
    aggregates the rest, where it is not. *)
Theorem top_limit_bounds_stages localeCompare schemes last_scheme (rows : list FlowQuotaDataItem)
    (metric : FlowMetric) (role : FlowRole) palette (vis : option (list FlowNodeKind)) ctx
    (options : FlowGraphOptions) (m : Z) (k : FlowNodeKind) :
  normalizeTopNodeLimit (o_topNodeLimit options) = Some m ->
  let g := buildFlowGraph localeCompare schemes last_scheme rows metric role palette vis ctx options in
  let shown := Z.of_nat (length (List.filter (fun n => bool_decide (n_kind n = k)) (g_nodes g))) in
  shown <= m + 1 /\ (default OAggregate (o_overflowMode options) = OHide -> shown <= m).
Proof.
  intros Hm g shown. assert (Hpos : 0 < m).
  { unfold normalizeTopNodeLimit in Hm. break_hyp Hm; [|done]. break_hyp Hm; [|done].
    bool_to_prop. simplify_eq. lia. }
  change g with (graph localeCompare schemes last_scheme rows metric role palette vis ctx options) in *.
  set (G := graph localeCompare schemes last_scheme rows metric role palette vis ctx options) in *.
  assert (Hsub : forall top,
    (forall n, n ∈ g_nodes G -> n_kind n = k -> n_id n ∈ top) -> shown <= Z.of_nat (length top)).
  { intros top Ht. unfold shown. rewrite <- (length_map n_id).
    apply Nat2Z.inj_le, NoDup_subset_length.
    - apply NoDup_map_filter. unfold G. rewrite graph_ids. apply nodes_ok.
    - intros i (n & -> & Hn)%list_elem_of_fmap. apply list_elem_of_In, filter_In in Hn as [Hn Hb].
      apply list_elem_of_In in Hn. apply bool_decide_eq_true_1 in Hb. auto. }
  destruct (decide (k ∈ graph_stages role vis)) as [Hk|Hk].
  2:{ assert (shown <= Z.of_nat (length (@nil jstr))) by (apply Hsub; intros n Hn Hkn;
        destruct (graph_node_path _ _ _ _ _ _ _ _ _ _ _ Hn) as (row & path & m' & _ & E & Hm' & _ & Hk');
        apply limited_path_ok in E as [[Hst _] _]; exfalso; apply Hk; rewrite <- Hst;
        apply list_elem_of_fmap; exists m'; by rewrite Hk'). cbn in *. lia. }
  destruct (top_set_bound localeCompare rows metric _ m ctx k Hpos Hk) as (sets & top & Hsets & Htop & Hlen).
  assert (Hin : forall n, n ∈ g_nodes G -> n_kind n = k ->
    n_id n ∈ top \/ default OAggregate (o_overflowMode options) = OAggregate
                    /\ n_id n = OTHER_FLOW_NODE_IDS k).
  { intros n Hn Hkn. destruct (graph_node_path _ _ _ _ _ _ _ _ _ _ _ Hn)
      as (row & path & m' & _ & E & Hm' & Hid & Hk').
    unfold graph_tops in E. rewrite Hm, Hsets in E.
    apply (limited_path_nodes _ _ _ _ _ _ _ _ E) in Hm' as [T|[Ha Ho]].
    - left. unfold isTopFlowNode in T. rewrite Hk', Hkn, Htop in T. rewrite <- Hid.
      by apply set_has_true.
    - right. split; [done|]. rewrite <- Hid, Ho, Hk', Hkn. done. }
  split.
  - transitivity (Z.of_nat (length (OTHER_FLOW_NODE_IDS k :: top))); [|cbn [length]; lia].
    apply Hsub. intros n Hn Hkn. destruct (Hin n Hn Hkn) as [H|[_ ->]]; [by right|by left].
  - intros Hhide. transitivity (Z.of_nat (length top)); [|lia]. apply Hsub. intros n Hn Hkn.
    destruct (Hin n Hn Hkn) as [H|[Ha _]]; [done|congruence].
Qed.

Lemma top_limit_bounds_stages_witness :
  normalizeTopNodeLimit (Some (num_of_Z 2)) = Some 2
  /\ Z.of_nat (length (List.filter (fun n => bool_decide (n_kind n = KModel))
       (g_nodes (flow (demo_data (Some (num_of_Z 2)) false))))) <= 3.
Proof.
  split; [vm_compute; reflexivity|].
  apply (top_limit_bounds_stages str_cmp [] (None, [u "#1664FF"]) demo_rows MQuota RAdmin None None None
    (demo_options (Some (num_of_Z 2)) false None) 2 KModel). vm_compute. reflexivity.
Defined.

(** ** Filters *)

Lemma filters_group sel stages :
  normalizeSelectedNodeFilters sel stages =
  group f_kind (fun e o => set_add (default [] o) (f_id e)) []
    (List.filter (fun f => set_has stages (f_kind f)) (default [] sel)).
Proof.
  unfold normalizeSelectedNodeFilters, group. rewrite <- fold_left_filter.
  generalize (@nil (FlowNodeKind * list jstr)). induction (default [] sel) as [|f l IH]; intros m; [done|].
  cbn [fold_left]. rewrite <- IH. by destruct (set_has stages (f_kind f)).
Qed.

Lemma path_ids_at row stages ctx k :
  match map_get (pathNodesByKind (flowPathForStages row stages ctx)) k with
  | Some ids => k ∈ stages /\ forall i, i ∈ ids <-> i = pn_id (NODE_BUILDERS k row ctx)
  | None => k ∉ stages
  end.
Proof.
  pose proof (group_sets pn_kind pn_id (flowPathForStages row stages ctx) k) as H.
  change (group _ _ _ _) with (pathNodesByKind (flowPathForStages row stages ctx)) in H.
  assert (Hin : forall e, e ∈ flowPathForStages row stages ctx /\ pn_kind e = k <->
    k ∈ stages /\ e = NODE_BUILDERS k row ctx).
  { intros e. unfold flowPathForStages. split.
    - intros [(k' & -> & Hk')%list_elem_of_fmap Hk]. rewrite node_builder_kind in Hk. by subst.
    - intros [Hk ->]. split; [|apply node_builder_kind]. apply list_elem_of_fmap. by exists k. }
  destruct (map_get _ k) as [ids|].
  - destruct H as [(e & He) H]. apply Hin in He as [Hk _]. split; [done|]. intros i. rewrite H.
    split; [intros (e' & H1 & H2 & <-); f_equal; by apply Hin|].
    intros ->. destruct (proj2 (Hin (NODE_BUILDERS k row ctx)) (conj Hk eq_refl)). eauto.
  - intros Hk. apply H. exists (NODE_BUILDERS k row ctx). by apply Hin.
Qed.

(** The filters in force: the visible stages with a selection, and its ids. *)
Lemma filters_at sel stages k :
  match map_get (normalizeSelectedNodeFilters sel stages) k with
  | Some ids => k ∈ stages /\ (exists i, mkFilter k i ∈ default [] sel)
                /\ forall i, i ∈ ids <-> mkFilter k i ∈ default [] sel
  | None => ~ (k ∈ stages /\ exists i, mkFilter k i ∈ default [] sel)
  end.
Proof.
  rewrite filters_group. pose proof (group_sets f_kind f_id
    (List.filter (fun f => set_has stages (f_kind f)) (default [] sel)) k) as H.
  assert (Hin : forall f, f ∈ List.filter (fun f => set_has stages (f_kind f)) (default [] sel) <->
    f ∈ default [] sel /\ f_kind f ∈ stages).
  { intros f. by rewrite list_elem_of_In, filter_In, <- list_elem_of_In, set_has_true. }
  destruct (map_get _ k) as [ids|].
  - destruct H as [([k' i] & [H1 H2]%Hin & <-) H]. cbn in *. split_and!; [done|by exists i|].
    intros j. rewrite H. setoid_rewrite Hin. split.
    + intros ([k2 i2] & [H3 H4] & H5 & <-). cbn in *. by subst.
    + intros Hj. exists (mkFilter k' j). done.
  - intros [Hk [i Hi]]. apply H. exists (mkFilter k i). by rewrite Hin.
Qed.

Lemma path_matches_spec row sel stages ctx :
  pathMatchesNodeFilters (flowPathForStages row stages ctx) (normalizeSelectedNodeFilters sel stages)
    = true <->
  forall k, k ∈ stages -> (exists i, mkFilter k i ∈ default [] sel) ->
    mkFilter k (pn_id (NODE_BUILDERS k row ctx)) ∈ default [] sel.
Proof.
  unfold pathMatchesNodeFilters. pose proof (filters_at sel stages) as HF.
  assert (Hok : map_ok (normalizeSelectedNodeFilters sel stages)).
  { rewrite filters_group. apply group_ok. constructor. }
  generalize dependent (normalizeSelectedNodeFilters sel stages). intros F HF Hok.
  destruct (Nat.eqb_spec (length F) 0) as [E|_].
  - apply length_zero_iff_nil in E as ->. split; [|done]. intros _ k Hk Hi. by destruct (HF k).
  - rewrite forallb_forall. split.
    + intros H k Hk Hi. specialize (HF k). destruct (map_get F k) as [ids|] eqn:G; [|by destruct HF].
      apply map_get_Some_elem, list_elem_of_In, H in G. pose proof (path_ids_at row stages ctx k) as P.
      destruct (map_get (pathNodesByKind _) k) as [pids|]; [|done].
      apply existsb_exists in G as (i & Hin & Hp).
      apply set_has_true, P in Hp as ->. by apply HF, list_elem_of_In.
    + intros H [k ids] Hin. apply list_elem_of_In, map_get_elem in Hin; [|done].
      specialize (HF k). rewrite Hin in HF. destruct HF as (Hk & Hi & HF).
      pose proof (path_ids_at row stages ctx k) as P.
      destruct (map_get (pathNodesByKind _) k) as [pids|]; [|done].
      apply existsb_exists. exists (pn_id (NODE_BUILDERS k row ctx)).
      split; [by apply list_elem_of_In, HF, H|]. by apply set_has_true, P.
Qed.

(** Node filters are a conjunction over stages of a disjunction over the
    selected nodes: a row is kept exactly when, for every visible stage with a
    selection, its own node of that stage is selected. Selections of stages that
    are not shown have no effect. *)
Theorem node_filters_select (rows : list FlowQuotaDataItem) (sel : option (list FlowNodeFilter))
    (stages : list FlowNodeKind) (ctx : FlowPathContext) (row : FlowQuotaDataItem) :
  row ∈ filterRowsByNodes rows sel stages ctx <->
  row ∈ rows /\ forall k, k ∈ stages -> (exists i, mkFilter k i ∈ default [] sel) ->
                mkFilter k (pn_id (NODE_BUILDERS k row ctx)) ∈ default [] sel.
Proof.
  rewrite <- path_matches_spec. unfold filterRowsByNodes.
  destruct (Nat.eqb_spec (length (normalizeSelectedNodeFilters sel stages)) 0) as [E|_].
  - unfold pathMatchesNodeFilters. rewrite E. naive_solver.
  - by rewrite list_elem_of_In, filter_In, <- list_elem_of_In.
Qed.

(** ** Highlights and masks *)

(** What sorting, shares and display colours leave alone of a link. *)
Definition link_text (l : DashboardFlowLink)
    : jstr * jstr * jstr * jstr * option bool * option bool :=
  (l_source l, l_target l, l_sourceLabel l, l_targetLabel l, l_highlighted l, l_dimmed l).

Section Presentation.
Context (localeCompare : jstr -> jstr -> Z)
        (schemes : list (option nat * list jstr)) (last_scheme : option nat * list jstr)
        (rows : list FlowQuotaDataItem) (metric : FlowMetric) (role : FlowRole)
        (palette : option (list jstr)) (vis : option (list FlowNodeKind))
        (ctx : FlowPathContext) (options : FlowGraphOptions).

Abbreviation g := (graph localeCompare schemes last_scheme rows metric role palette vis ctx options).
Abbreviation acc :=
  (graph_acc localeCompare schemes last_scheme rows metric role palette vis ctx options).
Abbreviation masked :=
  (graph_masked localeCompare schemes last_scheme rows metric role palette vis ctx options).
Abbreviation flagged :=
  (graph_flagged localeCompare schemes last_scheme rows metric role palette vis ctx options).
Abbreviation prepared := (graph_prepared localeCompare rows metric role vis ctx options).
Abbreviation stages := (graph_stages role vis).

Lemma graph_node_origin n : n ∈ g_nodes g -> n ∈ flagged.1.
Proof. rewrite graph_eq. cbn [g_nodes]. by rewrite array_sort_perm. Qed.

Lemma graph_link_origin l : l ∈ g_links g -> exists l0, l0 ∈ flagged.2 /\ link_text l = link_text l0.
Proof.
  rewrite graph_eq. cbn [g_links]. intros (l1 & -> & H1)%list_elem_of_fmap.
  apply list_elem_of_fmap in H1 as (l0 & -> & H0). rewrite array_sort_perm in H0.
  exists l0. split; [done|]. by destruct (map_get _ _) as [[]|].
Qed.

(** A selection is in force: a link, or a node of a visible stage. *)
Definition selection_on : bool :=
  match o_activeLink options with
  | Some _ => true
  | None => match o_activeNode options with Some n => set_has stages (f_kind n) | None => false end
  end.

Definition on_path (p : PreparedFlowPath) : Prop :=
  p ∈ prepared /\ matchesPath (o_activeNode options) (o_activeLink options) (pp_path p) = true.

Abbreviation sets :=
  (buildFlowHighlightSets prepared (o_activeNode options) (o_activeLink options) stages).

Lemma in_concat_map {A B} (f : A -> list B) l y : y ∈ concat (map f l) <-> exists x, x ∈ l /\ y ∈ f x.
Proof.
  rewrite list_elem_of_In, in_concat. setoid_rewrite in_map_iff. setoid_rewrite list_elem_of_In.
  naive_solver.
Qed.

Lemma highlight_sets :
  match sets with
  | Some h => selection_on = true /\ (exists p, on_path p)
      /\ (forall i, i ∈ h_nodes h <-> exists p, on_path p /\ i ∈ map pn_id (pp_path p))
      /\ (forall key, key ∈ h_links h <->
            exists p s, on_path p /\ s ∈ steps (pp_path p) /\ pathLinkKey s.1 s.2 = key)
  | None => selection_on = false \/ ~ exists p, on_path p
  end.
Proof.
  unfold buildFlowHighlightSets. set (hl := List.filter _ _).
  assert (Hhl : forall p, p ∈ hl <-> on_path p).
  { intros p. unfold hl, on_path. by rewrite !list_elem_of_In, filter_In. }
  set (ns := new_set (concat (map (fun p => map pn_id (pp_path p)) hl))).
  assert (Hns : forall i, i ∈ ns <-> exists p, on_path p /\ i ∈ map pn_id (pp_path p)).
  { intros i. unfold ns. rewrite elem_of_new_set, in_concat_map. by setoid_rewrite Hhl. }
  assert (Hempty : length ns = 0%nat -> ~ exists p, on_path p).
  { intros E%length_zero_iff_nil (p & Hp). pose proof Hp as [Hin _].
    apply graph_prepared_ok in Hin as [[Hst _] _]. pose proof (stages_length role vis) as L.
    unfold graph_stages in Hst. rewrite <- Hst, length_map in L.
    destruct (pp_path p) as [|n path] eqn:Ep; [cbn in L; lia|].
    assert (Hi : pn_id n ∈ ns) by (apply Hns; exists p; split; [done|]; rewrite Ep; by left).
    rewrite E in Hi. by apply not_elem_of_nil in Hi. }
  assert (Hsel : negb (match o_activeNode options with
      Some n => set_has stages (f_kind n) | None => false end)
    && match o_activeLink options with None => true | Some _ => false end = negb selection_on).
  { unfold selection_on. destruct (o_activeLink options); [by rewrite andb_false_r|by rewrite andb_true_r]. }
  cbv zeta. rewrite Hsel. destruct selection_on; cbn [negb]; [|by left].
  destruct (Nat.eqb_spec (length ns) 0) as [E|E]; [right; by apply Hempty|].
  split_and!; [done| |exact Hns|].
  - destruct hl as [|p hl'] eqn:Eh; [done|]. exists p. apply Hhl. by left.
  - intros key. cbn [h_links]. rewrite elem_of_new_set, in_concat_map. split.
    + intros (p & Hp%Hhl & ([a b] & -> & Hs)%list_elem_of_fmap). by exists p, (a, b).
    + intros (p & [a b] & Hp & Hs & <-). exists p. split; [by apply Hhl|].
      apply list_elem_of_fmap. by exists (a, b).
Qed.
End Presentation.

Lemma linkKey_inj a b c d : nul_free a -> nul_free b -> nul_free c -> nul_free d ->
  a ++ NUL ++ b = c ++ NUL ++ d -> a = c /\ b = d.
Proof.
  intros Ha Hb Hc Hd E. apply (f_equal (split 0%N)) in E. rewrite !split_key in E by done.
  by simplify_eq.
Qed.

(** Highlighting follows whole paths: when the selection lies on some path of
    the graph, every node and every link carries both flags, dimmed is the
    opposite of highlighted, and exactly those on a path through the selection
    (the selected link if there is one, else the selected node) are highlighted. *)
Theorem highlights_follow_paths localeCompare schemes last_scheme (rows : list FlowQuotaDataItem)
    (metric : FlowMetric) (role : FlowRole) palette (vis : option (list FlowNodeKind)) ctx
    (options : FlowGraphOptions) :
  let P := on_path localeCompare rows metric role vis ctx options in
  let g := buildFlowGraph localeCompare schemes last_scheme rows metric role palette vis ctx options in
  Forall row_ok rows -> selection_on role vis options = true -> (exists p, P p) ->
  (forall n, n ∈ g_nodes g -> exists h, n_highlighted n = Some h /\ n_dimmed n = Some (negb h)
     /\ (h = true <-> exists p, P p /\ n_id n ∈ map pn_id (pp_path p)))
  /\ (forall l, l ∈ g_links g -> exists h, l_highlighted l = Some h /\ l_dimmed l = Some (negb h)
     /\ (h = true <-> exists p s, P p /\ s ∈ steps (pp_path p)
                                  /\ pn_id s.1 = l_source l /\ pn_id s.2 = l_target l)).
Proof.
  intros P g Hrows Hsel Hex.
  pose proof (highlight_sets localeCompare rows metric role vis ctx options) as H.
  destruct (buildFlowHighlightSets _ _ _ _) as [h|] eqn:E; [|destruct H; [congruence|done]].
  destruct H as (_ & _ & Hn & Hl). fold P in Hn, Hl. split.
  - intros n Hin%graph_node_origin. unfold graph_flagged in Hin. rewrite E in Hin.
    apply list_elem_of_fmap in Hin as (n0 & -> & _). eexists. split_and!; [done..|].
    cbn [n_id set_node_flags]. by rewrite set_has_true, Hn.
  - intros l Hin. pose proof Hin as (p' & s' & Hp' & Hs' & E1 & E2)%graph_link_stored.
    apply graph_link_origin in Hin as (l0 & Hin & Ht). unfold graph_flagged in Hin. rewrite E in Hin.
    apply list_elem_of_fmap in Hin as (l1 & -> & _). unfold link_text in Ht. injection Ht as T1 T2 _ _ T5 T6.
    cbn in T1, T2, T5, T6. eexists. split_and!; [done..|].
    rewrite set_has_true, Hl. unfold linkStableKey. rewrite <- T1, <- T2.
    assert (Hnul : forall p s, p ∈ graph_prepared localeCompare rows metric role vis ctx options ->
      s ∈ steps (pp_path p) -> nul_free (pn_id s.1) /\ nul_free (pn_id s.2)).
    { intros p s [_ F]%graph_prepared_ok Hs. by apply (path_nul _ (F Hrows)). }
    destruct (Hnul p' s' Hp' Hs') as [N1 N2]. rewrite E1, E2. split.
    + intros (p & s & Hp & Hs & Hkey). exists p, s. split; [done|]. split; [done|].
      destruct (Hnul p s (proj1 Hp) Hs). by apply linkKey_inj.
    + intros (p & s & Hp & Hs & H1 & H2). exists p, s. unfold pathLinkKey. by rewrite H1, H2.
Qed.

Lemma highlights_follow_paths_witness :
  let options := demo_options None false (Some (mkFilter KModel (u "model:m2"))) in
  let g := buildFlowGraph str_cmp [] (None, [u "#1664FF"]) demo_rows MQuota RAdmin None None None options in
  (forall n, n ∈ g_nodes g -> exists h, n_highlighted n = Some h)
  /\ map (fun n => (n_id n, n_highlighted n)) (List.filter (fun n => bool_decide (n_kind n = KUser)) (g_nodes g))
     = [(u "user:1", Some true); (u "user:2", Some true); (u "user:3", Some false)].
Proof.
  intros options g. split; [|vm_compute; reflexivity]. intros n Hn.
  destruct (highlights_follow_paths str_cmp [] (None, [u "#1664FF"]) demo_rows MQuota RAdmin None None
    None options demo_rows_ok) as [H _].
  - vm_compute. reflexivity.
  - eexists (mkPrepared _ _). split; [apply list_elem_of_lookup; exists 1%nat|]; vm_compute; reflexivity.
  - destruct (H n Hn) as (h & Hh & _). by exists h.
Defined.

(** A masked text: the mask, or nothing where there was nothing. *)
Definition masked_text (s : jstr) : Prop := s = [] \/ s = FLOW_MASK_TEXT.

Lemma maskFlowLabel_masked s : masked_text (maskFlowLabel s).
Proof. destruct s; [by left|by right]. Qed.

(** [maskedById] has a masked text for every node that is masked. *)
Lemma maskedById_spec (ns : list DashboardFlowNode) n : n ∈ ns -> masks n = true ->
  exists t, map_get (fold_left (fun m node =>
      if masks node then map_set m (n_id node) (maskFlowLabel (n_label node)) else m) ns []) (n_id n)
    = Some t /\ masked_text t.
Proof.
  intros Hn Hm. rewrite (fold_left_filter (fun m node => map_set m (n_id node) (maskFlowLabel (n_label node)))).
  change (fold_left _ _ _) with
    (group n_id (fun node (_ : option jstr) => maskFlowLabel (n_label node)) [] (List.filter masks ns)).
  set (m := group _ _ _ _). destruct (map_get m (n_id n)) as [t|] eqn:E.
  - exists t. split; [done|]. apply map_get_Some_elem in E. revert E.
    apply (group_inv n_id (fun node (_ : option jstr) => maskFlowLabel (n_label node))
      (fun _ t => masked_text t)).
    + intros k v Hk. by apply not_elem_of_nil in Hk.
    + intros e _. apply maskFlowLabel_masked.
    + intros e v _ _. apply maskFlowLabel_masked.
  - exfalso. apply map_get_None in E. apply E, group_keys. right. exists n. split; [|done].
    apply list_elem_of_In, filter_In. split; [by apply list_elem_of_In|done].
Qed.

Lemma masked_node_label ns ls n :
  n ∈ (maskFlowGraphLabels ns ls).1 -> masks n = true -> masked_text (n_label n).
Proof.
  unfold maskFlowGraphLabels. intros Hn. assert (H : n ∈ map (fun node =>
    if masks node then set_label (maskFlowLabel (n_label node)) node else node) ns)
    by (by destruct (_ =? _)%nat). clear Hn.
  apply list_elem_of_fmap in H as (n0 & -> & _). destruct (masks n0) eqn:M.
  - intros _. apply maskFlowLabel_masked.
  - congruence.
Qed.

Lemma masked_link_labels ns ls l a : l ∈ (maskFlowGraphLabels ns ls).2 -> a ∈ ns -> masks a = true ->
  (n_id a = l_source l -> masked_text (l_sourceLabel l))
  /\ (n_id a = l_target l -> masked_text (l_targetLabel l)).
Proof.
  intros Hl Ha Hm. destruct (maskedById_spec ns a Ha Hm) as (t & Ht & Hmt).
  revert Hl. unfold maskFlowGraphLabels. set (m := fold_left _ _ _) in *.
  destruct (Nat.eqb_spec (length m) 0) as [E%length_zero_iff_nil|_]; [by rewrite E in Ht|].
  cbn [snd]. intros (l0 & -> & _)%list_elem_of_fmap. cbn [l_source l_target l_sourceLabel l_targetLabel set_labels].
  split; intros <-; by rewrite Ht.
Qed.

Lemma masks_core a b : node_core a = node_core b -> masks a = masks b.
Proof. intros H. injection H as H1 H2 _. unfold masks. by rewrite H1, H2. Qed.

Definition set_mask (b : bool) (o : FlowGraphOptions) : FlowGraphOptions :=
  mkGraphOptions (o_topNodeLimit o) (o_overflowMode o) (o_otherNodeLabel o) (o_activeNode o)
    (o_activeLink o) b.

Lemma flagged_node ns ls h n : n ∈ (applyFlowHighlights ns ls h).1 ->
  exists n1, n1 ∈ ns /\ n_label n = n_label n1 /\ node_core n = node_core n1.
Proof.
  destruct h as [h|]; [|by exists n]. intros (n1 & -> & H)%list_elem_of_fmap. by exists n1.
Qed.

Lemma flagged_link ns ls h l : l ∈ (applyFlowHighlights ns ls h).2 ->
  exists l1, l1 ∈ ls /\ l_source l = l_source l1 /\ l_target l = l_target l1
             /\ l_sourceLabel l = l_sourceLabel l1 /\ l_targetLabel l = l_targetLabel l1.
Proof.
  destruct h as [h|]; [|by exists l]. intros (l1 & -> & H)%list_elem_of_fmap. by exists l1.
Qed.

Lemma masked_node_origin ns ls n : n ∈ (maskFlowGraphLabels ns ls).1 ->
  exists n0, n0 ∈ ns /\ node_core n = node_core n0.
Proof.
  intros Hn. assert (Hc : node_core n ∈ map node_core ns).
  { rewrite <- (proj1 (mask_cores ns ls)). apply list_elem_of_fmap. by exists n. }
  apply list_elem_of_fmap in Hc as (n0 & -> & H0). by exists n0.
Qed.

(** The order of the links depends on their endpoints alone. *)
Lemma graph_link_cores localeCompare schemes last_scheme rows metric role palette vis ctx options :
  map link_core (g_links (graph localeCompare schemes last_scheme rows metric role palette vis ctx options))
  = array_sort (fun a b => cmp_or (localeCompare a.1.1 b.1.1) (localeCompare a.1.2 b.1.2))
      (map link_core (map_values
        (graph_acc localeCompare schemes last_scheme rows metric role palette vis ctx options).2)).
Proof.
  rewrite graph_eq. cbn [g_links]. rewrite display_cores. unfold graph_shared.
  rewrite (map_core link_core _ link_core) by done.
  rewrite (array_sort_map link_core _
    (fun a b => cmp_or (localeCompare a.1.1 b.1.1) (localeCompare a.1.2 b.1.2))) by done.
  by rewrite (proj2 (flagged_cores _ _ _ _ _ _ _ _ _ _)).
Qed.

(** Masking hides every sensitive label and nothing else: in the masked graph
    the label of a user, node, token, group or channel (the aggregate nodes
    apart) is the mask wherever it is shown, on the node and on its links, while
    ids, kinds, totals and the order of the links are those of the unmasked graph
    and its nodes are the same up to order. *)
Theorem masking_hides_labels_only localeCompare schemes last_scheme (rows : list FlowQuotaDataItem)
    (metric : FlowMetric) (role : FlowRole) palette (vis : option (list FlowNodeKind)) ctx
    (options : FlowGraphOptions) :
  let build b :=
    buildFlowGraph localeCompare schemes last_scheme rows metric role palette vis ctx (set_mask b options) in
  (forall n, n ∈ g_nodes (build true) -> masks n = true ->
     masked_text (n_label n)
     /\ forall l, l ∈ g_links (build true) ->
          (l_source l = n_id n -> masked_text (l_sourceLabel l))
          /\ (l_target l = n_id n -> masked_text (l_targetLabel l)))
  /\ map node_core (g_nodes (build true)) ≡ₚ map node_core (g_nodes (build false))
  /\ map link_core (g_links (build true)) = map link_core (g_links (build false)).
Proof.
  set (G b := graph localeCompare schemes last_scheme rows metric role palette vis ctx (set_mask b options)).
  intros build. change build with G. clear build. subst G. cbv beta. split_and!.
  - intros n Hn%graph_node_origin Hm. unfold graph_flagged in Hn. apply flagged_node in Hn as (n1 & Hn1 & -> & Hc).
    unfold graph_masked in Hn1. cbn [o_maskSensitive set_mask] in Hn1.
    rewrite (masks_core _ _ Hc) in Hm. split; [by eapply masked_node_label|].
    intros l (l0 & Hl & Ht)%graph_link_origin. unfold graph_flagged in Hl. apply flagged_link in Hl as (l1 & Hl & E1 & E2 & E3 & E4).
    unfold graph_masked in Hl. cbn [o_maskSensitive set_mask] in Hl.
    unfold link_text in Ht. injection Ht as T1 T2 T3 T4 _ _. rewrite T1, T2, T3, T4, E1, E2, E3, E4.
    apply masked_node_origin in Hn1 as (a & Ha & Hc'). rewrite (masks_core _ _ Hc') in Hm.
    destruct (masked_link_labels _ _ _ a Hl Ha Hm) as [H1 H2].
    assert (Hid : n_id n = n_id a) by (injection Hc; injection Hc'; congruence).
    rewrite Hid. split; intros E; [by apply H1|by apply H2].
  - assert (E : forall b, graph_acc localeCompare schemes last_scheme rows metric role palette vis ctx
      (set_mask b options) = graph_acc localeCompare schemes last_scheme rows metric role palette vis ctx
      options) by done.
    rewrite (proj1 (graph_cores _ _ _ _ _ _ _ _ _ (set_mask true options))), E.
    by rewrite (proj1 (graph_cores _ _ _ _ _ _ _ _ _ (set_mask false options))), E.
  - by rewrite !graph_link_cores.
Qed.
