(* ===== verification/AdvancedCustom.v ===== *)
(** * Advanced custom channels (src/web/src/features/channels/lib/advanced-custom.ts)

    The routes of an advanced custom channel: parsing and printing the
    configuration, its normal form, validation, and the defaults of the editor.

    A configuration arrives as JSON, so it is a [jsval] here and every property
    access is the untyped one: [None] is the exception a property of null or
    [trim] of something that is no string throws. The platform's [URL] parser is a
    parameter. *)

From Stdlib Require Import ZArith SpecFloat.
From stdpp Require Import base numbers option list sorting.
From S2P Require Import Prelude Collections JsNumber JsValue Json JsonProps.

(** ** Untyped access *)

(** [v.k]; throws on null and undefined. *)
Definition prop (v : jsval) (k : jstr) : option jsval :=
  match v with JNull | JUndef => None | _ => Some (get v k) end.

(** [v || d]. *)
Definition val_or (v d : jsval) : jsval := if truthy v then v else d.

(** [v.trim()]. *)
Definition call_trim (v : jsval) : option jstr := match v with JStr s => Some (trim s) | _ => None end.

(** [v?.trim() || '']. *)
Definition opt_trim (v : jsval) : option jstr :=
  match v with JUndef | JNull => Some [] | _ => call_trim v end.

(** ** Tables *)

Definition ADVANCED_CUSTOM_MODEL_LIST_PATH : jstr := u "/v1/models".
Definition ADVANCED_CUSTOM_MODEL_LIST_LABEL : jstr := u "OpenAI Models".
Definition ADVANCED_CUSTOM_MODEL_REGEX_PREFIX : jstr := u "re:".

Definition openAIChatPath : jstr := u "/v1/chat/completions".
Definition openAIResponsesPath : jstr := u "/v1/responses".
Definition claudeMessagesPath : jstr := u "/v1/messages".
Definition geminiGenerateContentPath : jstr := u "/v1beta/models/{model}:generateContent".

Definition ADVANCED_CUSTOM_CONVERTER_OPTIONS : list jstr := [
  u "none";
  u "anthropic_messages_to_openai_chat_completions";
  u "openai_chat_completions_to_anthropic_messages";
  u "openai_chat_completions_to_openai_responses";
  u "openai_responses_to_openai_chat_completions";
  u "openai_responses_to_gemini_generate_content";
  u "gemini_generate_content_to_openai_chat_completions";
  u "openai_chat_completions_to_gemini_generate_content"].

Definition ADVANCED_CUSTOM_INCOMING_PATH_OPTIONS : list (jstr * jstr) := [
  (u "/v1/chat/completions", u "OpenAI Chat");
  (u "/v1/responses", u "OpenAI Responses");
  (u "/v1/responses/compact", u "OpenAI Responses Compact");
  (ADVANCED_CUSTOM_MODEL_LIST_PATH, ADVANCED_CUSTOM_MODEL_LIST_LABEL);
  (u "/v1/embeddings", u "OpenAI Embeddings");
  (u "/v1/images/generations", u "OpenAI Image Generations");
  (u "/v1/images/edits", u "OpenAI Image Edits");
  (u "/v1/completions", u "OpenAI Completions");
  (u "/v1/audio/speech", u "OpenAI Audio Speech");
  (u "/v1/audio/transcriptions", u "OpenAI Audio Transcriptions");
  (u "/v1/audio/translations", u "OpenAI Audio Translations");
  (u "/v1/rerank", u "OpenAI Rerank");
  (u "/v1/realtime", u "OpenAI Realtime");
  (u "/v1/messages", u "Claude Messages");
  (u "/v1beta/models/{model}:generateContent", u "Gemini Generate Content");
  (u "/v1beta/models/{model}:embedContent", u "Gemini Embed Content");
  (u "/v1beta/models/{model}:batchEmbedContents", u "Gemini Batch Embed Contents")].

Definition ADVANCED_CUSTOM_ROUTE_SUMMARY_LABELS : list (jstr * jstr) := [
  (u "/v1/chat/completions", u "OpenAI Chat");
  (ADVANCED_CUSTOM_MODEL_LIST_PATH, ADVANCED_CUSTOM_MODEL_LIST_LABEL)].

(** ** Building values *)

Definition auth_val (type name value : jsval) : jsval :=
  JObj [(u "type", type); (u "name", name); (u "value", value)].

Definition bearerHeaderAuth : jsval :=
  auth_val (JStr (u "header")) (JStr (u "Authorization")) (JStr (u "Bearer {api_key}")).
Definition apiKeyHeaderAuth : jsval :=
  auth_val (JStr (u "header")) (JStr (u "x-api-key")) (JStr (u "{api_key}")).
Definition geminiQueryAuth : jsval :=
  auth_val (JStr (u "query")) (JStr (u "key")) (JStr (u "{api_key}")).

(** A route literal; [models] and [auth] are the optional properties. *)
Definition route_val (incoming_path : jsval) (upstream_path : jstr) (converter : jsval)
    (models : list jstr) (auth : option jsval) : jsval :=
  JObj ([(u "incoming_path", incoming_path); (u "upstream_path", JStr upstream_path);
         (u "converter", converter)]
        ++ (if (0 <? length models)%nat then [(u "models", JArr (map JStr models))] else [])
        ++ match auth with Some a => [(u "auth", a)] | None => [] end).

Definition config_val (routes : list jsval) : jsval := JObj [(u "advanced_routes", JArr routes)].

Definition template_route (incoming upstream converter : jstr) (auth : jsval) : jsval :=
  route_val (JStr incoming) upstream (JStr converter) [] (Some auth).

Definition ADVANCED_CUSTOM_TEMPLATE_OPTIONS : list (jstr * jsval) := [
  (u "official_openai_chat",
   config_val [template_route openAIChatPath openAIChatPath (u "none") bearerHeaderAuth]);
  (u "official_openai_responses",
   config_val [template_route openAIResponsesPath openAIResponsesPath (u "none") bearerHeaderAuth]);
  (u "official_openai_embeddings",
   config_val [template_route (u "/v1/embeddings") (u "/v1/embeddings") (u "none") bearerHeaderAuth]);
  (u "official_openai_images",
   config_val
     [template_route (u "/v1/images/generations") (u "/v1/images/generations") (u "none") bearerHeaderAuth;
      template_route (u "/v1/images/edits") (u "/v1/images/edits") (u "none") bearerHeaderAuth]);
  (u "official_claude_messages",
   config_val [template_route claudeMessagesPath claudeMessagesPath (u "none") apiKeyHeaderAuth]);
  (u "official_gemini_native",
   config_val
     [template_route (u "/v1beta/models/{model}:generateContent")
        (u "/v1beta/models/{model}:generateContent") (u "none") geminiQueryAuth;
      template_route (u "/v1beta/models/{model}:embedContent")
        (u "/v1beta/models/{model}:embedContent") (u "none") geminiQueryAuth;
      template_route (u "/v1beta/models/{model}:batchEmbedContents")
        (u "/v1beta/models/{model}:batchEmbedContents") (u "none") geminiQueryAuth]);
  (u "official_gemini_from_openai_chat",
   config_val [template_route openAIChatPath (u "/v1beta/models/{model}:generateContent")
                 (u "openai_chat_completions_to_gemini_generate_content") geminiQueryAuth])].

(** [JSON.parse(JSON.stringify(config))]. *)
Definition cloneAdvancedCustomConfig (config : jsval) : option jsval :=
  JSON_stringify config ≫= JSON_parse.

Definition getAdvancedCustomTemplateConfig (templateKey : jstr) : option jsval :=
  match map_get ADVANCED_CUSTOM_TEMPLATE_OPTIONS templateKey with
  | Some config => cloneAdvancedCustomConfig config
  | None => match ADVANCED_CUSTOM_TEMPLATE_OPTIONS with
            | (_, config) :: _ => cloneAdvancedCustomConfig config
            | [] => None
            end
  end.

Definition createAdvancedCustomRoute : jsval :=
  route_val (JStr openAIChatPath) openAIChatPath (JStr (u "none")) [] None.

Definition createAdvancedCustomConfig : jsval := config_val [createAdvancedCustomRoute].

(** ** Converters and paths *)

Definition isConverterPathAllowed (incomingPath converter : jstr) : bool :=
  if seqb converter (u "none") then true
  else if seqb converter (u "anthropic_messages_to_openai_chat_completions") then
    seqb incomingPath (u "/v1/messages")
  else if seqb converter (u "openai_chat_completions_to_anthropic_messages")
       || seqb converter (u "openai_chat_completions_to_openai_responses")
       || seqb converter (u "openai_chat_completions_to_gemini_generate_content") then
    seqb incomingPath (u "/v1/chat/completions")
  else if seqb converter (u "openai_responses_to_openai_chat_completions") then
    seqb incomingPath (u "/v1/responses")
  else if seqb converter (u "openai_responses_to_gemini_generate_content") then
    seqb incomingPath (u "/v1/responses")
  else includes incomingPath (u ":generateContent") || includes incomingPath (u ":streamGenerateContent").

Definition isAdvancedCustomIncomingPathAllowed (incomingPath converter : jstr) : bool :=
  isConverterPathAllowed incomingPath converter.

Definition getAdvancedCustomIncomingPathOptions (converter : jstr) : list (jstr * jstr) :=
  List.filter (fun option => isConverterPathAllowed (fst option) converter)
    ADVANCED_CUSTOM_INCOMING_PATH_OPTIONS.

Definition getDefaultAdvancedCustomIncomingPath (converter : jstr) : jstr :=
  str_or (default [] (fst <$> head (getAdvancedCustomIncomingPathOptions converter)))
    (u "/v1/chat/completions").

Definition getAdvancedCustomConverterOptions (incomingPath : jstr) : list jstr :=
  let normalizedIncomingPath := trim incomingPath in
  List.filter (fun value => seqb value (u "none") || isConverterPathAllowed normalizedIncomingPath value)
    ADVANCED_CUSTOM_CONVERTER_OPTIONS.

Definition getAdvancedCustomNativeAuth (incomingPath : jstr) : jsval :=
  if seqb incomingPath claudeMessagesPath then apiKeyHeaderAuth
  else if includes incomingPath (u ":generateContent") || includes incomingPath (u ":streamGenerateContent")
       || includes incomingPath (u ":embedContent") || includes incomingPath (u ":batchEmbedContents")
  then geminiQueryAuth
  else bearerHeaderAuth.

(** The default upstream path and authentication. *)
Definition getAdvancedCustomConverterDefaults (converter incomingPath : jstr) : jstr * jsval :=
  let normalizedIncomingPath :=
    str_or (trim incomingPath) (getDefaultAdvancedCustomIncomingPath converter) in
  if seqb converter (u "none") then
    (normalizedIncomingPath, getAdvancedCustomNativeAuth normalizedIncomingPath)
  else if seqb converter (u "anthropic_messages_to_openai_chat_completions")
       || seqb converter (u "gemini_generate_content_to_openai_chat_completions")
       || seqb converter (u "openai_responses_to_openai_chat_completions") then
    (openAIChatPath, bearerHeaderAuth)
  else if seqb converter (u "openai_chat_completions_to_openai_responses") then
    (openAIResponsesPath, bearerHeaderAuth)
  else if seqb converter (u "openai_chat_completions_to_anthropic_messages") then
    (claudeMessagesPath, apiKeyHeaderAuth)
  else if seqb converter (u "openai_chat_completions_to_gemini_generate_content")
       || seqb converter (u "openai_responses_to_gemini_generate_content") then
    (geminiGenerateContentPath, geminiQueryAuth)
  else (str_or normalizedIncomingPath openAIChatPath, getAdvancedCustomNativeAuth normalizedIncomingPath).

Definition getAdvancedCustomUpstreamPathPlaceholder (converter incomingPath : jstr) : jstr :=
  fst (getAdvancedCustomConverterDefaults converter incomingPath).

Definition getAdvancedCustomIncomingPathLabel (value : jstr) : jstr :=
  str_or (default [] (map_get ADVANCED_CUSTOM_INCOMING_PATH_OPTIONS value)) value.

(** ** Normal form *)

Definition getAdvancedCustomRouteUpstreamPath (route : jsval) : option jstr :=
  v ← prop route (u "upstream_path"); call_trim (val_or v (JStr [])).

Definition normalizeAdvancedCustomRouteModels (models : jsval) : option (list jstr) :=
  match models with
  | JArr l => trimmed_models ← mapM call_trim l; Some (List.filter str_truthy trimmed_models)
  | _ => Some []
  end.

Definition normalizeAdvancedCustomRoute (route : jsval) : option jsval :=
  incoming ← prop route (u "incoming_path");
  upstream ← getAdvancedCustomRouteUpstreamPath route;
  converter ← prop route (u "converter");
  models ← normalizeAdvancedCustomRouteModels (get route (u "models"));
  let auth := get route (u "auth") in
  Some (route_val (val_or incoming (JStr [])) upstream (val_or converter (JStr (u "none"))) models
    (if truthy auth
     then Some (auth_val (get auth (u "type")) (val_or (get auth (u "name")) (JStr []))
                  (val_or (get auth (u "value")) (JStr [])))
     else None)).

Definition normalizeAdvancedCustomConfig (config : jsval) : option jsval :=
  advanced_routes ← prop config (u "advanced_routes");
  match advanced_routes with
  | JArr l => routes ← mapM normalizeAdvancedCustomRoute l; Some (config_val routes)
  | _ => Some (config_val [])
  end.

(** The outer [None] is an absent value, and the [catch] turns an exception into it. *)
Definition parseAdvancedCustomConfig (value : option jstr) : option jsval :=
  match value with
  | Some s =>
      if negb (str_truthy (trim s)) then None
      else match JSON_parse s with
           | Some (JObj ps) => normalizeAdvancedCustomConfig (JObj ps)
           | _ => None
           end
  | None => None
  end.

Definition stringifyAdvancedCustomConfig (config : jsval) : option jstr :=
  normalizeAdvancedCustomConfig config ≫= JSON_stringify_indent.

Definition parseAdvancedCustomRouteModels (value : jstr) : list jstr :=
  new_set (List.filter str_truthy (map trim (split 44%N value))).

(** ** Validation *)

(** The message, and the route it is about. *)
Definition AdvancedCustomValidationError : Type := option nat * jstr.

(** [getAdvancedCustomModelRuleKind(modelRule) === 'regex']. *)
Definition is_regex_rule (modelRule : jstr) : bool := startsWith modelRule ADVANCED_CUSTOM_MODEL_REGEX_PREFIX.

Definition getAdvancedCustomRegexModelPattern (modelRule : jstr) : jstr := drop 3 modelRule.

(** What is known of an incoming path: its catch-all route, and the route of
    each model. *)
Definition PathState : Type := option nat * list (jstr * nat).

Fixpoint models_loop (routeIndex : nat) (models seenInRoute : list jstr) (state : list (jstr * nat))
    : AdvancedCustomValidationError + list (jstr * nat) :=
  match models with
  | [] => inr state
  | model :: models' =>
      if is_regex_rule model && seqb (getAdvancedCustomRegexModelPattern model) []
      then inl (Some routeIndex, u "Model regex cannot be empty")
      else if set_has seenInRoute model
      then inl (Some routeIndex, u "Duplicate model in route models")
      else if map_has state model
      then inl (Some routeIndex, u "Route models must be unique for the same incoming path")
      else models_loop routeIndex models' (set_add seenInRoute model) (map_set state model routeIndex)
  end.

Definition validateAdvancedCustomRouteModels (routeIndex : nat) (incomingPath : jstr)
    (models : list jstr) (routeModelsByPath : list (jstr * PathState))
    : AdvancedCustomValidationError + list (jstr * PathState) :=
  let '(catchAllIndex, known) := default (None, []) (map_get routeModelsByPath incomingPath) in
  if (length models =? 0)%nat then
    match catchAllIndex with
    | Some _ => inl (Some routeIndex, u "Only one catch-all route is allowed for the same incoming path")
    | None => inr (map_set routeModelsByPath incomingPath (Some routeIndex, known))
    end
  else match catchAllIndex with
  | Some _ => inl (Some routeIndex, u "Catch-all route must be last for the same incoming path")
  | None =>
      match models_loop routeIndex models [] known with
      | inl e => inl e
      | inr known => inr (map_set routeModelsByPath incomingPath (None, known))
      end
  end.

(** [inl] is a message, [None] the exception of a name or value that is no string. *)
Definition validateRouteAuth (auth : jsval) : option (option jstr) :=
  if negb (truthy auth) then Some None
  else
    let type := get auth (u "type") in
    if is_str type (u "none") then Some None
    else if negb (is_str type (u "header")) && negb (is_str type (u "query"))
    then Some (Some (u "Auth type is invalid"))
    else
      name ← opt_trim (get auth (u "name"));
      if negb (str_truthy name) then Some (Some (u "Auth name is required"))
      else
        value ← opt_trim (get auth (u "value"));
        if negb (str_truthy value) then Some (Some (u "Auth value is required"))
        else Some None.

Section Validate.
(** [new URL(value)]: the host and the protocol, where it parses. *)
Context (parse_url : jstr -> option (jstr * jstr)).

Definition isFullHttpURLOrAbsolutePath (value : jstr) : bool :=
  if startsWith value (u "/") then negb (startsWith value (u "//"))
  else match parse_url value with
       | Some (host, protocol) =>
           str_truthy host && (seqb protocol (u "http:") || seqb protocol (u "https:"))
       | None => false
       end.

Definition isAdvancedCustomConverter (v : jsval) : bool :=
  match v with JStr s => existsb (seqb s) ADVANCED_CUSTOM_CONVERTER_OPTIONS | _ => false end.

(** What a round of the loop reads of its route. *)
Record RouteView := mkView {
  rv_incoming : jstr;
  rv_upstream : jstr;
  rv_converter : jsval;
  rv_models : list jstr;
  rv_auth : jsval
}.

Definition view_route (route : jsval) : option RouteView :=
  incoming ← prop route (u "incoming_path");
  incomingPath ← opt_trim incoming;
  upstreamPath ← getAdvancedCustomRouteUpstreamPath route;
  models ← normalizeAdvancedCustomRouteModels (get route (u "models"));
  Some (mkView incomingPath upstreamPath (val_or (get route (u "converter")) (JStr (u "none"))) models
    (get route (u "auth"))).

(** The checks on the OpenAI Models route; the index of the one seen so far. *)
Definition check_model_list (index : nat) (v : RouteView) (modelListRouteIndex : option nat)
    : AdvancedCustomValidationError + option nat :=
  if seqb (rv_incoming v) ADVANCED_CUSTOM_MODEL_LIST_PATH then
    match modelListRouteIndex with
    | Some _ => inl (Some index, u "Only one OpenAI Models route is allowed")
    | None =>
        if (0 <? length (rv_models v))%nat then
          inl (Some index, u "OpenAI Models route does not support client model rules")
        else if negb (is_str (rv_converter v) (u "none")) then
          inl (Some index, u "OpenAI Models route must use native forwarding")
        else if includes (rv_upstream v) (u "{model}") then
          inl (Some index, u "OpenAI Models upstream path must not contain {model}")
        else inr (Some index)
    end
  else inr modelListRouteIndex.

(** The checks after the model rules. *)
Definition check_upstream (index : nat) (v : RouteView) : option (option AdvancedCustomValidationError) :=
  if negb (str_truthy (rv_upstream v)) then Some (Some (Some index, u "Upstream path is required"))
  else if negb (isFullHttpURLOrAbsolutePath (rv_upstream v)) then
    Some (Some (Some index, u "Upstream path must be a full URL or a path starting with /"))
  else match rv_converter v with
  | JStr converter =>
      if negb (isAdvancedCustomConverter (JStr converter)) then
        Some (Some (Some index, u "Converter is not registered"))
      else if negb (isConverterPathAllowed (rv_incoming v) converter) then
        Some (Some (Some index, u "Converter does not match incoming path"))
      else
        authError ← validateRouteAuth (rv_auth v);
        match authError with
        | Some message => Some (Some (Some index, message))
        | None => Some None
        end
  | _ => Some (Some (Some index, u "Converter is not registered"))
  end.

(** One round: an error, or the loop's state after it. *)
Definition check_route (index : nat) (v : RouteView)
    (st : list (jstr * PathState) * option nat)
    : option (AdvancedCustomValidationError + list (jstr * PathState) * option nat) :=
  if negb (str_truthy (rv_incoming v)) then Some (inl (Some index, u "Incoming path is required"))
  else if negb (startsWith (rv_incoming v) (u "/")) then
    Some (inl (Some index, u "Incoming path must start with /"))
  else if includes (rv_incoming v) (u "?") then
    Some (inl (Some index, u "Incoming path must not include query"))
  else match check_model_list index v (snd st) with
  | inl e => Some (inl e)
  | inr modelList =>
      match validateAdvancedCustomRouteModels index (rv_incoming v) (rv_models v) (fst st) with
      | inl e => Some (inl e)
      | inr byPath =>
          err ← check_upstream index v;
          match err with Some e => Some (inl e) | None => Some (inr (byPath, modelList)) end
      end
  end.

Fixpoint validate_loop (index : nat) (routes : list jsval) (st : list (jstr * PathState) * option nat)
    : option (option AdvancedCustomValidationError) :=
  match routes with
  | [] => Some None
  | route :: routes' =>
      v ← view_route route;
      r ← check_route index v st;
      match r with
      | inl e => Some (Some e)
      | inr st => validate_loop (S index) routes' st
      end
  end.

Definition config_routes (config : jsval) : list jsval :=
  match get config (u "advanced_routes") with JArr l => l | _ => [] end.

(** [None] is an exception; [Some None] is a valid configuration. *)
Definition validateAdvancedCustomConfig (config : jsval)
    : option (option AdvancedCustomValidationError) :=
  if negb (truthy config) then Some (Some (None, u "Advanced custom configuration is required"))
  else
    normalized ← normalizeAdvancedCustomConfig config;
    let routes := config_routes normalized in
    if (length routes =? 0)%nat then
      Some (Some (None, u "Advanced custom configuration requires at least one route"))
    else validate_loop 0 routes ([], None).

Definition hasValidAdvancedCustomModelListRoute (config : jsval) : option bool :=
  if negb (truthy config) then Some false
  else
    err ← validateAdvancedCustomConfig config;
    match err with
    | Some _ => Some false
    | None =>
        normalized ← normalizeAdvancedCustomConfig config;
        paths ← mapM (fun route => opt_trim (get route (u "incoming_path"))) (config_routes normalized);
        Some (existsb (seqb ADVANCED_CUSTOM_MODEL_LIST_PATH) paths)
    end.

Definition advancedCustomConfigUsesRelativeUpstreamPath (config : jsval) : option bool :=
  if negb (truthy config) then Some false
  else
    normalized ← normalizeAdvancedCustomConfig config;
    paths ← mapM getAdvancedCustomRouteUpstreamPath (config_routes normalized);
    Some (existsb (fun p => startsWith p (u "/")) paths).

(** The label table is a plain object; names inherited from [Object.prototype] are
    not paths and are left aside. *)
Definition getAdvancedCustomRouteSummaryLabel (route : jsval) : option (option jstr) :=
  incomingPath ← opt_trim (get route (u "incoming_path"));
  if negb (str_truthy incomingPath) then Some None
  else Some (Some (str_or (default [] (map_get ADVANCED_CUSTOM_ROUTE_SUMMARY_LABELS incomingPath))
                     (getAdvancedCustomIncomingPathLabel incomingPath))).

Record AdvancedCustomStats := mkStats {
  routeCount : nat;
  valid : bool;
  routeTypeLabels : list jstr
}.

Definition getAdvancedCustomStats (value : option jstr) : option AdvancedCustomStats :=
  match parseAdvancedCustomConfig value with
  | None => Some (mkStats 0 false [])
  | Some config =>
      normalized ← normalizeAdvancedCustomConfig config;
      labels ← mapM getAdvancedCustomRouteSummaryLabel (config_routes normalized);
      err ← validateAdvancedCustomConfig normalized;
      Some (mkStats (length (config_routes normalized))
              match err with None => true | Some _ => false end
              (new_set (List.filter str_truthy (omap id labels))))
  end.
End Validate.

(** ** The editor's authentication modes *)

Definition getAdvancedCustomAuthMode (route : jsval) : jsval :=
  val_or (get (get route (u "auth")) (u "type")) (JStr (u "default")).

Definition buildAdvancedCustomAuth (mode : jstr) (previousAuth : jsval) : option jsval :=
  let keep k d := val_or (get previousAuth k) (JStr d) in
  if seqb mode (u "default") then None
  else if seqb mode (u "none") then Some (JObj [(u "type", JStr (u "none"))])
  else if seqb mode (u "header") then
    Some (auth_val (JStr (u "header")) (keep (u "name") (u "Authorization"))
            (keep (u "value") (u "Bearer {api_key}")))
  else
    Some (auth_val (JStr (u "query")) (keep (u "name") (u "api_key")) (keep (u "value") (u "{api_key}"))).

Example parse_advanced_ex :
  parseAdvancedCustomConfig (Some (uq "{'advanced_routes':[{'incoming_path':'/v1/x','upstream_path':' /y '}]}"))
  = Some (config_val [route_val (JStr (u "/v1/x")) (u "/y") (JStr (u "none")) [] None]).
Proof. vm_compute. reflexivity. Qed.
