(* ===== verification/AdvancedCustomProps.v ===== *)
(** * Properties of advanced custom channels

    The validator against a declarative description of valid configurations, the
    normal form, the round trip through the JSON text, and the built-in templates
    and defaults. *)

From Stdlib Require Import ZArith SpecFloat.
From stdpp Require Import base numbers option list sorting.
From S2P Require Import Prelude Collections JsNumber JsValue Json JsonProps AdvancedCustom.

(** ** What a valid configuration is *)

Section Spec.
Context (parse_url : jstr -> option (jstr * jstr)).

Definition model_rule_ok (m : jstr) : Prop := m <> ADVANCED_CUSTOM_MODEL_REGEX_PREFIX.

(** Header and query authentication need a name and a value. *)
Definition auth_ok (auth : jsval) : Prop :=
  truthy auth = false
  \/ get auth (u "type") = JStr (u "none")
  \/ ((get auth (u "type") = JStr (u "header") \/ get auth (u "type") = JStr (u "query"))
      /\ exists name value, get auth (u "name") = JStr name /\ trim name <> []
                            /\ get auth (u "value") = JStr value /\ trim value <> []).

Record route_ok (v : RouteView) : Prop := mkRouteOk {
  ro_incoming : startsWith (rv_incoming v) (u "/") = true;
  ro_no_query : includes (rv_incoming v) (u "?") = false;
  ro_model_list : rv_incoming v = ADVANCED_CUSTOM_MODEL_LIST_PATH ->
    rv_models v = [] /\ rv_converter v = JStr (u "none") /\ includes (rv_upstream v) (u "{model}") = false;
  ro_models : NoDup (rv_models v) /\ Forall model_rule_ok (rv_models v);
  ro_upstream : isFullHttpURLOrAbsolutePath parse_url (rv_upstream v) = true /\ rv_upstream v <> [];
  ro_converter : exists c, rv_converter v = JStr c /\ c ∈ ADVANCED_CUSTOM_CONVERTER_OPTIONS
                           /\ isConverterPathAllowed (rv_incoming v) c = true;
  ro_auth : auth_ok (rv_auth v)
}.

(** Two routes in order: on the same path the earlier one is no catch-all, and
    they share no model. *)
Definition compatible (v w : RouteView) : Prop :=
  rv_incoming v = rv_incoming w ->
  rv_models v <> [] /\ forall m, m ∈ rv_models v -> m ∉ rv_models w.

(** ** The model rules *)

Lemma empty_regex_rule m :
  is_regex_rule m && seqb (getAdvancedCustomRegexModelPattern m) [] = false <-> model_rule_ok m.
Proof.
  unfold is_regex_rule, getAdvancedCustomRegexModelPattern, model_rule_ok. rewrite andb_false_iff. split.
  - intros [H|H] ->; [done|]. by apply seqb_neq in H.
  - intros H. destruct (startsWith m _) eqn:E; [right|by left]. apply seqb_neq. intros Hd.
    apply startsWith_app in E as [q ->]. apply H. change (drop 3 (ADVANCED_CUSTOM_MODEL_REGEX_PREFIX ++ q))
      with q in Hd. rewrite Hd. done.
Qed.

Lemma models_loop_spec i ms : forall seen state,
  (forall m, m ∈ seen -> m ∈ map_keys state) ->
  match models_loop i ms seen state with
  | inr state' => NoDup ms /\ Forall model_rule_ok ms /\ (forall m, m ∈ ms -> m ∉ map_keys state)
                  /\ forall m, m ∈ map_keys state' <-> m ∈ map_keys state \/ m ∈ ms
  | inl _ => ~ (NoDup ms /\ Forall model_rule_ok ms /\ forall m, m ∈ ms -> m ∉ map_keys state)
  end.
Proof.
  induction ms as [|m ms IH]; intros seen state Hseen; cbn [models_loop].
  - split_and!; [constructor|constructor| |]; intros m; rewrite elem_of_nil; tauto.
  - destruct (is_regex_rule m && _) eqn:E1.
    { intros (_ & F & _). apply Forall_cons_1 in F as [F _]. apply empty_regex_rule in F. congruence. }
    apply empty_regex_rule in E1.
    destruct (set_has seen m) eqn:E2.
    { intros (_ & _ & H). apply set_has_true, Hseen in E2. apply (H m); [by left|done]. }
    destruct (map_has state m) eqn:E3.
    { intros (_ & _ & H). apply map_has_keys in E3. apply (H m); [by left|done]. }
    assert (Hm : m ∉ map_keys state) by (rewrite <- map_has_keys; congruence).
    specialize (IH (set_add seen m) (map_set state m i)).
    assert (Hs : forall x, x ∈ set_add seen m -> x ∈ map_keys (map_set state m i)).
    { intros x. rewrite elem_of_set_add, map_keys_set_elem. naive_solver. }
    specialize (IH Hs).
    destruct (models_loop i ms _ _) as [e|state'].
    + intros (N & F & H). apply IH. apply NoDup_cons in N as [N1 N2]. apply Forall_cons_1 in F as [_ F].
      split_and!; [done|done|]. intros x Hx. rewrite map_keys_set_elem. intros [->|Hk]; [done|].
      apply (H x); [by right|done].
    + destruct IH as (N & F & H & Hk). split_and!.
      * constructor; [|done]. intros Hin. apply (H m Hin). apply map_keys_set_elem. by left.
      * by constructor.
      * intros x [->|Hx]%elem_of_cons; [done|]. intros Hx'. apply (H x Hx). apply map_keys_set_elem. by right.
      * intros x. rewrite Hk, map_keys_set_elem, elem_of_cons. tauto.
Qed.

(** What the loop knows after the routes [vs]. *)
Definition known_path (vs : list RouteView) (p : jstr) (s : PathState) : Prop :=
  (s.1 = None <-> forall v, v ∈ vs -> rv_incoming v = p -> rv_models v <> [])
  /\ forall m, m ∈ map_keys s.2 <-> exists v, v ∈ vs /\ rv_incoming v = p /\ m ∈ rv_models v.

Definition known_models (vs : list RouteView) (byPath : list (jstr * PathState)) : Prop :=
  forall p, known_path vs p (default (None, []) (map_get byPath p)).

Definition known_list (vs : list RouteView) (o : option nat) : Prop :=
  o = None <-> forall v, v ∈ vs -> rv_incoming v <> ADVANCED_CUSTOM_MODEL_LIST_PATH.

Lemma in_snoc {A} (l : list A) x y : y ∈ l ++ [x] <-> y ∈ l \/ y = x.
Proof. by rewrite elem_of_app, list_elem_of_singleton. Qed.

Lemma known_other vs v p s : rv_incoming v <> p -> known_path vs p s -> known_path (vs ++ [v]) p s.
Proof.
  intros Hne [H1 H2]. split.
  - rewrite H1. setoid_rewrite in_snoc. naive_solver.
  - intros m. rewrite H2. setoid_rewrite in_snoc. naive_solver.
Qed.

Lemma known_set vs v byPath s : known_models vs byPath -> known_path (vs ++ [v]) (rv_incoming v) s ->
  known_models (vs ++ [v]) (map_set byPath (rv_incoming v) s).
Proof.
  intros H Hs p. rewrite map_get_set. case_bool_decide; subst; cbn [default from_option]; [done|].
  by apply known_other.
Qed.

Definition models_ok (vs : list RouteView) (v : RouteView) : Prop :=
  (NoDup (rv_models v) /\ Forall model_rule_ok (rv_models v)) /\ forall w, w ∈ vs -> compatible w v.

Lemma routeModels_spec vs byPath i v : known_models vs byPath ->
  match validateAdvancedCustomRouteModels i (rv_incoming v) (rv_models v) byPath with
  | inr byPath' => models_ok vs v /\ known_models (vs ++ [v]) byPath'
  | inl _ => ~ models_ok vs v
  end.
Proof.
  intros H. unfold validateAdvancedCustomRouteModels. pose proof (H (rv_incoming v)) as Hp.
  destruct (default (None, []) (map_get byPath (rv_incoming v))) as [ca ms]. destruct Hp as [Hca Hms].
  cbn [fst snd] in *.
  assert (Hno : forall i, ca = Some i -> ~ models_ok vs v).
  { intros j -> [_ Hc]. assert (Some j = None) as E; [|done]. apply Hca. intros w Hw Hp.
    by apply (Hc w Hw Hp). }
  destruct (Nat.eqb_spec (length (rv_models v)) 0) as [El%length_zero_iff_nil|El].
  - destruct ca as [j|]; [by apply (Hno j)|]. pose proof (proj1 Hca eq_refl) as Hca'. split.
    + split; [rewrite El; split; constructor|]. intros w Hw Hwp. split; [by apply Hca'|].
      intros m _. rewrite El. apply not_elem_of_nil.
    + apply known_set; [done|]. split; cbn [fst snd].
      * split; [done|]. intros Hx. exfalso. apply (Hx v); [apply in_snoc; by right|done|done].
      * intros m. rewrite Hms. setoid_rewrite in_snoc.
        split; [naive_solver|]. intros (w & [Hw| ->] & Hwp & Hm); [by exists w|].
        rewrite El in Hm. by apply not_elem_of_nil in Hm.
  - destruct ca as [j|]; [by apply (Hno j)|]. pose proof (proj1 Hca eq_refl) as Hca'.
    pose proof (models_loop_spec i (rv_models v) [] ms) as L.
    assert (Hd : (forall m, m ∈ rv_models v -> m ∉ map_keys ms) <-> forall w, w ∈ vs -> compatible w v).
    { split.
      - intros Hx w Hw Hwp. split; [by apply Hca'|]. intros m Hm Hm'. apply (Hx m Hm'), Hms. by exists w.
      - intros Hx m Hm (w & Hw & Hwp & Hm')%Hms. by apply (Hx w Hw Hwp) in Hm'. }
    destruct (models_loop i (rv_models v) [] ms) as [e|ms'].
    + intros [[N F] Hc]. apply L; [by intros m ?%not_elem_of_nil|]. by rewrite Hd.
    + destruct L as (N & F & Hx & Hk); [by intros m ?%not_elem_of_nil|]. split.
      * split; [done|]. by apply Hd.
      * apply known_set; [done|]. split; cbn [fst snd].
        -- split; [intros _ w [Hw| ->]%in_snoc Hwp; [by apply Hca'|by destruct (rv_models v)]|done].
        -- intros m. rewrite Hk, Hms. setoid_rewrite in_snoc. naive_solver.
Qed.

(** ** The other checks *)

Lemma opt_trim_some v s : opt_trim v = Some s -> s <> [] -> exists t, v = JStr t /\ s = trim t.
Proof. destruct v; cbn; intros [= <-]; try done. by eexists. Qed.

Lemma trim_truthy s : str_truthy s = true <-> s <> [].
Proof. by destruct s. Qed.

Lemma is_str_true v s : is_str v s = true <-> v = JStr s.
Proof. destruct v; cbn; try done. rewrite seqb_eq. naive_solver. Qed.

Lemma validateRouteAuth_spec a :
  match validateRouteAuth a with Some None => auth_ok a | _ => ~ auth_ok a end.
Proof.
  unfold validateRouteAuth, auth_ok. destruct (truthy a); cbn [negb]; [|by left].
  destruct (is_str (get a (u "type")) (u "none")) eqn:E0; [apply is_str_true in E0; by right; left|].
  assert (H0 : get a (u "type") <> JStr (u "none")) by (rewrite <- is_str_true; congruence).
  destruct (is_str (get a (u "type")) (u "header")) eqn:E1;
    [apply is_str_true in E1 | destruct (is_str (get a (u "type")) (u "query")) eqn:E2];
    [|apply is_str_true in E2|]; cbn [negb andb].
  3:{ intros [H|[H|[[H|H] _]]]; [done|done| |]; apply is_str_true in H; congruence. }
  all: destruct (opt_trim (get a (u "name"))) as [name|] eqn:En; cbn;
    [|intros [H|[H|[_ (n & w & Hn & _)]]]; [done..|by rewrite Hn in En]].
  all: destruct (str_truthy name) eqn:Tn; cbn [negb];
    [|intros [H|[H|[_ (n & w & Hn & Hne & _)]]]; [done..|];
      rewrite Hn in En; cbn in En; simplify_eq; by apply trim_truthy in Hne; congruence].
  all: destruct (opt_trim (get a (u "value"))) as [value|] eqn:Ev; cbn;
    [|intros [H|[H|[_ (n & w & _ & _ & Hv & _)]]]; [done..|by rewrite Hv in Ev]].
  all: destruct (str_truthy value) eqn:Tv; cbn [negb];
    [|intros [H|[H|[_ (n & w & _ & _ & Hv & Hne)]]]; [done..|];
      rewrite Hv in Ev; cbn in Ev; simplify_eq; by apply trim_truthy in Hne; congruence].
  all: right; right; apply trim_truthy in Tn, Tv;
    destruct (opt_trim_some _ _ En Tn) as (n & Hn & ->), (opt_trim_some _ _ Ev Tv) as (w & Hw & ->).
  - split; [by left|]. by exists n, w.
  - split; [by right|]. by exists n, w.
Qed.

Lemma upstream_spec i v :
  match check_upstream parse_url i v with
  | Some None => (isFullHttpURLOrAbsolutePath parse_url (rv_upstream v) = true /\ rv_upstream v <> [])
      /\ (exists c, rv_converter v = JStr c /\ c ∈ ADVANCED_CUSTOM_CONVERTER_OPTIONS
                    /\ isConverterPathAllowed (rv_incoming v) c = true)
      /\ auth_ok (rv_auth v)
  | _ => ~ route_ok v
  end.
Proof.
  unfold check_upstream. destruct (str_truthy (rv_upstream v)) eqn:E1; cbn [negb].
  2:{ intros [_ _ _ _ [_ H] _ _]. apply trim_truthy in H. congruence. }
  apply trim_truthy in E1. destruct (isFullHttpURLOrAbsolutePath _ _) eqn:E2; cbn [negb].
  2:{ intros [_ _ _ _ [H _] _ _]. congruence. }
  destruct (rv_converter v) as [| | | |c| |] eqn:Ec;
    try (intros [_ _ _ _ _ (c & Hc & _) _]; congruence).
  assert (Hin : isAdvancedCustomConverter (JStr c) = true <-> c ∈ ADVANCED_CUSTOM_CONVERTER_OPTIONS).
  { cbn [isAdvancedCustomConverter]. rewrite existsb_exists, list_elem_of_In.
    generalize ADVANCED_CUSTOM_CONVERTER_OPTIONS. intros l. split.
    - intros (x & Hx & ->%seqb_eq). done.
    - intros H. exists c. split; [done|apply seqb_refl]. }
  destruct (isAdvancedCustomConverter (JStr c)) eqn:E3; cbn [negb].
  2:{ intros [_ _ _ _ _ (c' & Hc & Hr & _) _]. rewrite Ec in Hc. injection Hc as <-. apply Hin in Hr. done. }
  destruct (isConverterPathAllowed (rv_incoming v) c) eqn:E4; cbn [negb].
  2:{ intros [_ _ _ _ _ (c' & Hc & _ & Hr) _]. rewrite Ec in Hc. injection Hc as <-. congruence. }
  pose proof (validateRouteAuth_spec (rv_auth v)) as Ha.
  destruct (validateRouteAuth (rv_auth v)) as [[m|]|]; cbn; [by intros [_ _ _ _ _ _ H]| |by intros [_ _ _ _ _ _ H]].
  split_and!; [done|done| |done]. exists c. split_and!; [done| |done]. by apply Hin.
Qed.

Lemma model_list_spec vs i v o : known_list vs o -> Forall route_ok vs ->
  match check_model_list i v o with
  | inr o' => (rv_incoming v = ADVANCED_CUSTOM_MODEL_LIST_PATH ->
                 rv_models v = [] /\ rv_converter v = JStr (u "none")
                 /\ includes (rv_upstream v) (u "{model}") = false)
              /\ known_list (vs ++ [v]) o'
  | inl _ => ~ (route_ok v /\ forall w, w ∈ vs -> compatible w v)
  end.
Proof.
  intros Hk Hok. unfold check_model_list. destruct (seqb _ _) eqn:E.
  2:{ apply seqb_neq in E. split; [done|]. unfold known_list in *. rewrite Hk. split.
      - intros H w [Hw| ->]%in_snoc; [by apply H|done].
      - intros H w Hw. apply H, in_snoc. by left. }
  apply seqb_eq in E. destruct o as [j|].
  - intros [_ Hc]. assert (Some j = None) as Ho; [|done]. apply Hk. intros w Hw Hp.
    destruct (Hc w Hw) as [Hm _]; [congruence|]. rewrite Forall_forall in Hok.
    by destruct (ro_model_list _ (Hok w Hw) Hp).
  - destruct (Nat.ltb_spec 0 (length (rv_models v))) as [L|L].
    { intros [[_ _ H _ _ _ _] _]. destruct (H E) as [Hm _]. rewrite Hm in L. cbn in L. lia. }
    destruct (is_str (rv_converter v) (u "none")) eqn:Ec; cbn [negb].
    2:{ intros [[_ _ H _ _ _ _] _]. destruct (H E) as (_ & Hm & _). apply is_str_true in Hm. congruence. }
    destruct (includes _ _) eqn:Ei.
    { intros [[_ _ H _ _ _ _] _]. destruct (H E) as (_ & _ & Hm). congruence. }
    split.
    + intros _. split_and!; [by destruct (rv_models v); [|cbn in L; lia]|by apply is_str_true|done].
    + split; [done|]. intros Hx. exfalso. apply (Hx v); [apply in_snoc; by right|done].
Qed.

Lemma check_route_spec vs st i v : known_models vs st.1 -> known_list vs st.2 -> Forall route_ok vs ->
  match check_route parse_url i v st with
  | Some (inr st') => route_ok v /\ (forall w, w ∈ vs -> compatible w v)
                      /\ known_models (vs ++ [v]) st'.1 /\ known_list (vs ++ [v]) st'.2
  | _ => ~ (route_ok v /\ forall w, w ∈ vs -> compatible w v)
  end.
Proof.
  intros Hm Hl Hok. unfold check_route.
  destruct (str_truthy (rv_incoming v)) eqn:E0; cbn [negb].
  2:{ intros [[H _ _ _ _ _ _] _]. by destruct (rv_incoming v). }
  destruct (startsWith (rv_incoming v) (u "/")) eqn:E1; cbn [negb].
  2:{ intros [[H _ _ _ _ _ _] _]. congruence. }
  destruct (includes (rv_incoming v) (u "?")) eqn:E2.
  { intros [[_ H _ _ _ _ _] _]. congruence. }
  pose proof (model_list_spec vs i v st.2 Hl Hok) as S1.
  destruct (check_model_list i v (snd st)) as [e|o]; [done|]. destruct S1 as [M1 M2].
  pose proof (routeModels_spec vs st.1 i v Hm) as S2.
  destruct (validateAdvancedCustomRouteModels _ _ _ _) as [e|byPath].
  { intros [[_ _ _ Hr _ _ _] Hc]. apply S2. by split. }
  destruct S2 as [[R1 R2] R3]. pose proof (upstream_spec i v) as S3.
  destruct (check_upstream parse_url i v) as [[e|]|]; cbn; [by intros [? _]| |by intros [? _]].
  destruct S3 as (U1 & U2 & U3). split_and!; [by constructor|done..].
Qed.

Lemma validate_loop_spec routes : forall vs st i,
  known_models vs st.1 -> known_list vs st.2 -> Forall route_ok vs ->
  validate_loop parse_url i routes st = Some None <->
  exists ws, mapM view_route routes = Some ws /\ Forall route_ok ws
    /\ (forall v w, v ∈ vs -> w ∈ ws -> compatible v w) /\ ForallOrdPairs compatible ws.
Proof.
  induction routes as [|r routes IH]; intros vs st i Hm Hl Hok; cbn [validate_loop mapM].
  - split; [|done]. intros _. exists []. split_and!; [done|constructor| |constructor].
    intros v w _ Hw. by apply not_elem_of_nil in Hw.
  - destruct (view_route r) as [v|]; cbn; [|naive_solver].
    pose proof (check_route_spec vs st i v Hm Hl Hok) as S.
    assert (Hfail : ~ (route_ok v /\ forall w, w ∈ vs -> compatible w v) ->
      ~ exists ws, (ws' ← mapM view_route routes; mret (v :: ws')) = Some ws /\ Forall route_ok ws
        /\ (forall v w, v ∈ vs -> w ∈ ws -> compatible v w) /\ ForallOrdPairs compatible ws).
    { intros H (ws & Hws & F & Hc & _). destruct (mapM view_route routes) as [ws'|]; [|done].
      change (Some (v :: ws') = Some ws) in Hws. injection Hws as <-. apply H. apply Forall_cons_1 in F as [F _]. split; [done|].
      intros w Hw. apply Hc; [done|by left]. }
    destruct (check_route parse_url i v st) as [[e|st']|]; cbn.
    + split; [done|]. intros H. by apply Hfail in S.
    + destruct S as (S1 & S2 & S3 & S4). rewrite (IH (vs ++ [v]) st' (S i));
        [|done|done|apply Forall_app; split; [done|by apply Forall_singleton]].
      split.
      * intros (ws & Hws & F & Hc & P). exists (v :: ws). rewrite Hws. split_and!; [done|by constructor| |].
        -- intros x w Hx [->|Hw]%elem_of_cons; [by apply S2|]. apply Hc; [apply in_snoc; by left|done].
        -- constructor; [|done]. apply Forall_forall. intros w Hw. apply Hc; [apply in_snoc; by right|done].
      * intros (ws & Hws & F & Hc & P). destruct (mapM view_route routes) as [ws'|]; [|done].
        change (Some (v :: ws') = Some ws) in Hws. injection Hws as <-. apply Forall_cons_1 in F as [_ F]. inversion P as [|? ? P1 P2]; subst.
        exists ws'. split_and!; [done|done| |done]. intros x w [Hx| ->]%in_snoc Hw.
        -- apply Hc; [done|by right].
        -- rewrite Forall_forall in P1. by apply P1.
    + split; [done|]. intros H. by apply Hfail in S.
Qed.

(** C33: The validator accepts exactly the configurations described by [route_ok]
    and [compatible]: at least one route; every incoming path absolute and without
    query; model rules distinct and no empty regular expression; an upstream path
    or URL; a registered converter that fits the path; complete authentication;
    the model list route native and without rules; and on one path no route after
    a catch-all and no model ruled twice. In particular it never accepts a
    configuration it could not read. *)
Theorem validator_accepts_exactly (config : jsval) :
  validateAdvancedCustomConfig parse_url config = Some None <->
  truthy config = true /\ exists normalized vs,
    normalizeAdvancedCustomConfig config = Some normalized
    /\ mapM view_route (config_routes normalized) = Some vs
    /\ vs <> [] /\ Forall route_ok vs /\ ForallOrdPairs compatible vs.
Proof.
  unfold validateAdvancedCustomConfig. destruct (truthy config); cbn [negb]; [|naive_solver].
  destruct (normalizeAdvancedCustomConfig config) as [nc|]; cbn; [|naive_solver].
  destruct (Nat.eqb_spec (length (config_routes nc)) 0) as [E%length_zero_iff_nil|E].
  - split; [done|]. intros (_ & n & vs & Hn & Hvs & Hne & _). simplify_eq.
    rewrite E in Hvs. change (Some [] = Some vs) in Hvs. by injection Hvs as <-.
  - rewrite (validate_loop_spec (config_routes nc) [] ([], None) 0).
    + split.
      * intros (ws & Hws & F & _ & P). split; [done|]. exists nc, ws. split_and!; try done.
        intros ->. apply length_mapM in Hws. cbn in Hws. lia.
      * intros (_ & n & vs & Hn & Hvs & _ & F & P). simplify_eq. exists vs. split_and!; try done.
        intros v w Hv. by apply not_elem_of_nil in Hv.
    + intros p. split; cbn; setoid_rewrite elem_of_nil; [naive_solver|]. intros m. naive_solver.
    + split; cbn; setoid_rewrite elem_of_nil; naive_solver.
    + constructor.
Qed.
End Spec.

(** ** The normal form *)

Lemma val_or_idemp v d : val_or (val_or v d) d = val_or v d.
Proof. unfold val_or. destruct (truthy v) eqn:E; [by rewrite E|]. by destruct (truthy d). Qed.

(** Trimmed nonempty rules. *)
Definition rules_normal (ms : list jstr) : Prop := Forall (fun m => trim m = m /\ m <> []) ms.

Lemma normal_models l ms : normalizeAdvancedCustomRouteModels l = Some ms -> rules_normal ms.
Proof.
  unfold normalizeAdvancedCustomRouteModels, rules_normal.
  destruct l as [| | | | |l|]; try (intros [= <-]; constructor).
  destruct (mapM call_trim l) as [ts|] eqn:E; cbn; [|done]. intros [= <-].
  apply mapM_Some in E. apply List.Forall_forall. intros m [Hin Ht]%filter_In.
  split; [|by apply trim_truthy]. apply list_elem_of_In, list_elem_of_lookup in Hin as [i Hi].
  destruct (Forall2_lookup_r _ _ _ _ _ E Hi) as (v & _ & Hv).
  destruct v; cbn in Hv; try done. injection Hv as <-. apply trim_idemp.
Qed.

Lemma models_normal ms : rules_normal ms ->
  normalizeAdvancedCustomRouteModels (JArr (map JStr ms)) = Some ms.
Proof.
  intros H. unfold normalizeAdvancedCustomRouteModels.
  assert (E : mapM call_trim (map JStr ms) = Some ms).
  { apply mapM_Some. induction H as [|m ms [Hm _] _ IH]; cbn [map]; constructor; [|done].
    cbn. by rewrite Hm. }
  rewrite E. cbn [mbind option_bind]. f_equal. apply filter_all.
  eapply Forall_impl; [exact H|]. intros m [_ Hm]. by apply trim_truthy.
Qed.

Lemma normalize_route_shape route r : normalizeAdvancedCustomRoute route = Some r ->
  exists inc up conv ms auth,
    r = route_val (val_or inc (JStr [])) up (val_or conv (JStr (u "none"))) ms auth
    /\ trim up = up /\ rules_normal ms
    /\ match auth with
       | Some a => exists t n w, a = auth_val t (val_or n (JStr [])) (val_or w (JStr []))
       | None => True
       end.
Proof.
  unfold normalizeAdvancedCustomRoute. intros H.
  destruct (prop route (u "incoming_path")) as [inc|]; cbn in H; [|done].
  destruct (getAdvancedCustomRouteUpstreamPath route) as [up|] eqn:Eu; cbn in H; [|done].
  destruct (prop route (u "converter")) as [conv|]; cbn in H; [|done].
  destruct (normalizeAdvancedCustomRouteModels _) as [ms|] eqn:Em; cbn in H; [|done].
  injection H as <-. eexists inc, up, conv, ms, _. split; [done|]. split_and!.
  - unfold getAdvancedCustomRouteUpstreamPath in Eu. destruct (prop route _) as [v|]; cbn in Eu; [|done].
    destruct (val_or v (JStr [])); cbn in Eu; try done. injection Eu as <-. apply trim_idemp.
  - by apply normal_models in Em.
  - destruct (truthy _); [by eexists _, _, _|done].
Qed.

Lemma normalize_route_val inc up conv ms auth : trim up = up -> rules_normal ms ->
  match auth with
  | Some a => exists t n w, a = auth_val t (val_or n (JStr [])) (val_or w (JStr []))
  | None => True
  end ->
  let r := route_val (val_or inc (JStr [])) up (val_or conv (JStr (u "none"))) ms auth in
  normalizeAdvancedCustomRoute r = Some r.
Proof.
  intros Hup Hms Ha r.
  assert (Gi : get r (u "incoming_path") = val_or inc (JStr [])) by reflexivity.
  assert (Gc : get r (u "converter") = val_or conv (JStr (u "none"))) by reflexivity.
  assert (Gu : get r (u "upstream_path") = JStr up) by reflexivity.
  assert (Gm : normalizeAdvancedCustomRouteModels (get r (u "models")) = Some ms).
  { destruct ms as [|m ms]; [by destruct auth|]. replace (get r (u "models")) with (JArr (map JStr (m :: ms)))
      by reflexivity. by apply models_normal. }
  assert (Ga : get r (u "auth") = default JUndef auth).
  { destruct ms, auth; reflexivity. }
  unfold normalizeAdvancedCustomRoute, getAdvancedCustomRouteUpstreamPath.
  change (prop r (u "incoming_path")) with (Some (get r (u "incoming_path"))).
  change (prop r (u "upstream_path")) with (Some (get r (u "upstream_path"))).
  change (prop r (u "converter")) with (Some (get r (u "converter"))).
  cbn [mbind option_bind]. rewrite Gu, Gm, Ga, Gi, Gc, !val_or_idemp.
  replace (call_trim (val_or (JStr up) (JStr []))) with (Some up)
    by (unfold val_or; cbn [truthy]; destruct (str_truthy up) eqn:E; cbn; [by rewrite Hup|by destruct up]).
  cbn [mbind option_bind]. subst r. f_equal. f_equal.
  destruct auth as [a|]; [|done]. destruct Ha as (t & n & w & ->).
  change (get (default JUndef (Some (auth_val t (val_or n (JStr [])) (val_or w (JStr []))))) (u "type")) with t.
  cbn [default from_option]. unfold id.
  change (get (auth_val t (val_or n (JStr [])) (val_or w (JStr []))) (u "name")) with (val_or n (JStr [])).
  change (get (auth_val t (val_or n (JStr [])) (val_or w (JStr []))) (u "value")) with (val_or w (JStr [])).
  rewrite !val_or_idemp. reflexivity.
Qed.

Lemma normalize_config_idemp config n :
  normalizeAdvancedCustomConfig config = Some n -> normalizeAdvancedCustomConfig n = Some n.
Proof.
  unfold normalizeAdvancedCustomConfig at 1. destruct (prop config _) as [v|]; cbn; [|done].
  assert (E0 : normalizeAdvancedCustomConfig (config_val []) = Some (config_val [])) by reflexivity.
  destruct v as [| | | | |l|]; try (by intros [= <-]).
  destruct (mapM normalizeAdvancedCustomRoute l) as [rs|] eqn:E; cbn; [|done]. intros [= <-].
  assert (Er : mapM normalizeAdvancedCustomRoute rs = Some rs).
  { apply mapM_Some. apply mapM_Some in E. clear E0. induction E as [|x r l rs Hr _ IH]; constructor; [|done].
    apply normalize_route_shape in Hr as (inc & up & conv & ms & auth & -> & H1 & H2 & H3).
    by apply normalize_route_val. }
  unfold normalizeAdvancedCustomConfig.
  change (prop (config_val rs) (u "advanced_routes")) with (Some (JArr rs)). cbn [mbind option_bind].
  by rewrite Er.
Qed.

(** Normalizing is idempotent: the normal form of a configuration is its own
    normal form, so parsing, validating and printing all see the same routes. *)
Theorem normal_form_stable (config n : jsval) :
  normalizeAdvancedCustomConfig config = Some n -> normalizeAdvancedCustomConfig n = Some n.
Proof. apply normalize_config_idemp. Qed.

Lemma normal_form_stable_witness :
  exists n, normalizeAdvancedCustomConfig
    (config_val [JObj [(u "upstream_path", JStr (u " /x ")); (u "models", JArr [JStr (u " a"); JStr []]);
                       (u "auth", JObj [(u "type", JStr (u "none"))])]]) = Some n
  /\ normalizeAdvancedCustomConfig n = Some n.
Proof.
  eexists. split; [vm_compute; reflexivity|].
  apply (normal_form_stable (config_val [JObj [(u "upstream_path", JStr (u " /x "));
    (u "models", JArr [JStr (u " a"); JStr []]); (u "auth", JObj [(u "type", JStr (u "none"))])]])).
  vm_compute. reflexivity.
Defined.

(** The text of a configuration parses back to its normal form. *)
Lemma config_text_parses (config n : jsval) :
  normalizeAdvancedCustomConfig config = Some n -> json_ok n ->
  exists text, stringifyAdvancedCustomConfig config = Some text
               /\ parseAdvancedCustomConfig (Some text) = Some n.
Proof.
  intros Hn Hok. destruct (stringify_parse (u "  ") n Hok) as (t & Et & Ep & _); [by repeat constructor|].
  exists t. unfold stringifyAdvancedCustomConfig, JSON_stringify_indent. rewrite Hn. split; [done|].
  assert (Hobj : exists rs, n = config_val rs).
  { unfold normalizeAdvancedCustomConfig in Hn. destruct (prop config _) as [v|]; cbn in Hn; [|done].
    destruct v as [| | | | |l|]; try (injection Hn as <-; by eexists).
    destruct (mapM normalizeAdvancedCustomRoute l); cbn in Hn; [|done]. injection Hn as <-. by eexists. }
  destruct Hobj as [rs ->]. unfold parseAdvancedCustomConfig. rewrite Ep.
  destruct (serialize_obj_open _ _ _ Et) as [t' ->].
  rewrite (proj2 (trim_truthy _) (trim_nonempty 123%N t' eq_refl)). cbn [negb].
  by apply (normalize_config_idemp config).
Qed.

(** C34: Printing and parsing a configuration round-trips: the text printed for a
    configuration whose normal form is JSON, with numbers that print as they read, parses back to exactly
    that normal form. *)
Theorem config_text_roundtrip (config n : jsval) :
  normalizeAdvancedCustomConfig config = Some n -> json_ok n ->
  exists text, stringifyAdvancedCustomConfig config = Some text
               /\ parseAdvancedCustomConfig (Some text) = Some n.
Proof. apply config_text_parses. Qed.

Lemma config_text_roundtrip_witness :
  exists text, stringifyAdvancedCustomConfig createAdvancedCustomConfig = Some text
  /\ parseAdvancedCustomConfig (Some text) = Some createAdvancedCustomConfig.
Proof.
  apply (config_text_roundtrip createAdvancedCustomConfig createAdvancedCustomConfig).
  - vm_compute. reflexivity.
  - assert (S : forall s : jstr, forallb (fun c => (c <? 65536)%N) s = true -> Forall (fun c => (c < 65536)%N) s).
    { intros s H. apply List.Forall_forall. intros c Hc. rewrite forallb_forall in H. apply H in Hc.
      by apply N.ltb_lt. }
    repeat split; try (apply S; reflexivity).
    all: try (apply NoDup_ListNoDup); repeat constructor; vm_compute; intuition discriminate.
Defined.

Definition accepts (parse_url : jstr -> option (jstr * jstr)) (config : jsval) : bool :=
  match validateAdvancedCustomConfig parse_url config with Some None => true | _ => false end.

Lemma accepts_ok parse_url config :
  accepts parse_url config = true -> validateAdvancedCustomConfig parse_url config = Some None.
Proof. unfold accepts. by destruct (validateAdvancedCustomConfig parse_url config) as [[]|]. Qed.

Lemma Forall_checked {A} (p : A -> bool) (P : A -> Prop) l :
  (forall x, p x = true -> P x) -> forallb p l = true -> Forall P l.
Proof. intros H F. rewrite forallb_forall in F. apply List.Forall_forall. auto. Qed.

(** What the editor offers is valid: every built-in template, and every route
    made of a converter, an incoming path offered for it and their default
    upstream path and authentication, passes the validator; a template is also
    handed out unchanged by its clone. *)
Theorem templates_and_defaults_valid (parse_url : jstr -> option (jstr * jstr)) :
  Forall (fun '(key, config) => validateAdvancedCustomConfig parse_url config = Some None
            /\ getAdvancedCustomTemplateConfig key = Some config) ADVANCED_CUSTOM_TEMPLATE_OPTIONS
  /\ validateAdvancedCustomConfig parse_url createAdvancedCustomConfig = Some None
  /\ Forall (fun converter =>
       Forall (fun '(path, _) =>
         let '(upstream, auth) := getAdvancedCustomConverterDefaults converter path in
         validateAdvancedCustomConfig parse_url
           (config_val [route_val (JStr path) upstream (JStr converter) [] (Some auth)]) = Some None)
         (getAdvancedCustomIncomingPathOptions converter))
       ADVANCED_CUSTOM_CONVERTER_OPTIONS.
Proof.
  split_and!.
  - unfold ADVANCED_CUSTOM_TEMPLATE_OPTIONS.
    repeat (apply List.Forall_cons; [split; vm_compute; reflexivity|]). apply List.Forall_nil.
  - vm_compute. reflexivity.
  - apply (Forall_checked (fun converter => forallb (fun '(path, _) =>
      let '(upstream, auth) := getAdvancedCustomConverterDefaults converter path in
      accepts parse_url (config_val [route_val (JStr path) upstream (JStr converter) [] (Some auth)]))
      (getAdvancedCustomIncomingPathOptions converter))); [|vm_compute; reflexivity].
    intros converter H. eapply Forall_checked; [|exact H]. intros [path label].
    destruct (getAdvancedCustomConverterDefaults converter path). apply accepts_ok.
Qed.

(** A configuration that parses and then makes the validator throw. *)
Definition numeric_path_text : jstr :=
  uq "{'advanced_routes':[{'incoming_path':5,'upstream_path':'/x'}]}".

(** Parsing does not check the types of the fields it keeps, and the validator
    relies on them: a text whose incoming path is a number parses, and validating
    the result throws instead of reporting an error, whatever the URL parser. *)
Theorem numeric_path_throws (parse_url : jstr -> option (jstr * jstr)) :
  exists config, parseAdvancedCustomConfig (Some numeric_path_text) = Some config
                 /\ validateAdvancedCustomConfig parse_url config = None.
Proof. eexists. split; [vm_compute; reflexivity|]. vm_compute. reflexivity. Qed.
