(* ===== verification/Playground.v ===== *)
(** * Playground messages (src/web/src/features/playground/lib)

    The messages of a conversation and every pure operation on them: versions,
    timing, the <think> parser, streaming, completion, conversation edits, the
    state the views read, and the request payload. [Date.now()] and the
    identifiers of [nanoid] are arguments, in the order the code asks for them;
    times are milliseconds. Translations are those of the source language. *)

From Stdlib Require Import ZArith SpecFloat.
From stdpp Require Import base numbers option list sorting.
From S2P Require Import Prelude Collections JsNumber JsValue Json.

(** ** Data *)

Inductive MessageRole := RoleUser | RoleAssistant | RoleSystem.
Inductive MessageStatus := SLoading | SStreaming | SComplete | SError.

#[export] Instance MessageRole_dec : EqDecision MessageRole.
Proof. solve_decision. Defined.
#[export] Instance MessageStatus_dec : EqDecision MessageStatus.
Proof. solve_decision. Defined.

Record MessageVersion := mkVersion { v_id : jstr; v_content : jstr }.

Record Reasoning := mkReasoning {
  r_content : jstr;
  r_duration : Z;
  r_startedAt : option Z;
  r_completedAt : option Z;
  r_durationMs : option Z
}.

Record Message := mkMessage {
  key : jstr;
  from : MessageRole;
  versions : list MessageVersion;
  createdAt : option Z;
  startedAt : option Z;
  completedAt : option Z;
  durationMs : option Z;
  sources : option (list (jstr * jstr));
  reasoning : option Reasoning;
  isReasoningStreaming : option bool;
  isReasoningComplete : option bool;
  isContentComplete : option bool;
  status : option MessageStatus;
  errorCode : option (option jstr)
}.

(** [{ ...message, field }]. *)
Definition set_versions (v : list MessageVersion) (m : Message) : Message :=
  mkMessage (key m) (from m) v (createdAt m) (startedAt m) (completedAt m) (durationMs m) (sources m)
    (reasoning m) (isReasoningStreaming m) (isReasoningComplete m) (isContentComplete m) (status m)
    (errorCode m).
Definition set_createdAt (t : option Z) (m : Message) : Message :=
  mkMessage (key m) (from m) (versions m) t (startedAt m) (completedAt m) (durationMs m) (sources m)
    (reasoning m) (isReasoningStreaming m) (isReasoningComplete m) (isContentComplete m) (status m)
    (errorCode m).
Definition set_timing (s c d : option Z) (m : Message) : Message :=
  mkMessage (key m) (from m) (versions m) (createdAt m) s c d (sources m)
    (reasoning m) (isReasoningStreaming m) (isReasoningComplete m) (isContentComplete m) (status m)
    (errorCode m).
Definition set_reasoning (r : option Reasoning) (m : Message) : Message :=
  mkMessage (key m) (from m) (versions m) (createdAt m) (startedAt m) (completedAt m) (durationMs m)
    (sources m) r (isReasoningStreaming m) (isReasoningComplete m) (isContentComplete m) (status m)
    (errorCode m).
Definition set_reasoningStreaming (b : bool) (m : Message) : Message :=
  mkMessage (key m) (from m) (versions m) (createdAt m) (startedAt m) (completedAt m) (durationMs m)
    (sources m) (reasoning m) (Some b) (isReasoningComplete m) (isContentComplete m) (status m)
    (errorCode m).
Definition set_status (s : MessageStatus) (m : Message) : Message :=
  mkMessage (key m) (from m) (versions m) (createdAt m) (startedAt m) (completedAt m) (durationMs m)
    (sources m) (reasoning m) (isReasoningStreaming m) (isReasoningComplete m) (isContentComplete m)
    (Some s) (errorCode m).
Definition set_errorCode (e : option jstr) (m : Message) : Message :=
  mkMessage (key m) (from m) (versions m) (createdAt m) (startedAt m) (completedAt m) (durationMs m)
    (sources m) (reasoning m) (isReasoningStreaming m) (isReasoningComplete m) (isContentComplete m)
    (status m) (Some e).

(** ** Versions (message-utils.ts) *)

Definition createMessageVersion (id content : jstr) : MessageVersion := mkVersion id content.

Definition getCurrentVersion (m : Message) : MessageVersion :=
  default (mkVersion (u "default") []) (head (versions m)).

Definition getMessageContent (m : Message) : jstr := v_content (getCurrentVersion m).

Definition hasMessageContent (m : Message) : bool := negb (seqb (trim (getMessageContent m)) []).

Definition updateCurrentVersionContent (m : Message) (content : jstr) : Message :=
  set_versions [mkVersion (v_id (getCurrentVersion m)) content] m.

Definition createUserMessage (k id content : jstr) (created : Z) : Message :=
  mkMessage k RoleUser [createMessageVersion id content] (Some created) None None None None None None
    None None None None.

Definition createLoadingAssistantMessage (k id : jstr) (started : Z) : Message :=
  mkMessage k RoleAssistant [createMessageVersion id []] (Some started) (Some started) None None None
    None (Some false) (Some false) (Some false) (Some SLoading) None.

(** The content of an API message: text, or parts. *)
Inductive ContentPart := PText (text : jstr) | PImage (url : jstr).

Definition buildMessageContent (text : jstr) (imageUrls : list jstr) : jstr + list ContentPart :=
  let validImages := List.filter (fun url => negb (seqb (trim url) [])) imageUrls in
  if (length validImages =? 0)%nat then inl text
  else inr (PText text :: map (fun url => PImage (trim url)) validImages).

Definition getTextContent (content : jstr + list ContentPart) : jstr :=
  match content with
  | inl s => s
  | inr parts =>
      match List.find (fun p => match p with PText _ => true | PImage _ => false end) parts with
      | Some (PText s) => s
      | _ => []
      end
  end.

Record ChatCompletionMessage := mkChatMessage { role : MessageRole; content : jstr }.

Definition formatMessageForAPI (m : Message) : ChatCompletionMessage :=
  mkChatMessage (from m) (v_content (getCurrentVersion m)).

Definition isValidMessage (m : Message) : bool :=
  if (length (versions m) =? 0)%nat then false
  else negb (bool_decide (from m = RoleAssistant) && negb (hasMessageContent m)).

(** ** Timing (message-timing-utils.ts) *)

(** [x ?? y] on optional values. *)
Definition coalesce {A} (x y : option A) : option A := match x with Some _ => x | None => y end.

Definition completeAssistantTiming (m : Message) (completed : Z) : Message :=
  if negb (bool_decide (from m = RoleAssistant)) then m
  else
    let started := default completed (coalesce (startedAt m) (createdAt m)) in
    set_timing (Some started) (Some completed) (Some (Z.max 0 (completed - started))) m.

Definition startReasoningTiming (m : Message) (started : Z) : Reasoning :=
  match reasoning m with
  | Some r => mkReasoning (r_content r) (r_duration r) (Some (default started (r_startedAt r)))
                (r_completedAt r) (r_durationMs r)
  | None => mkReasoning [] 0 (Some started) None None
  end.

(** [Math.ceil(ms / 1000)]. *)
Definition ceil_seconds (ms : Z) : Z := - ((- ms) / 1000).

Definition completeReasoningTiming (m : Message) (completed : Z) : Message :=
  match reasoning m with
  | None => m
  | Some r =>
      match r_durationMs r with
      | Some _ => m
      | None =>
          let started := default completed (coalesce (r_startedAt r) (startedAt m)) in
          let duration := Z.max 0 (completed - started) in
          set_reasoning (Some (mkReasoning (r_content r) (ceil_seconds duration) (Some started)
                                 (Some completed) (Some duration))) m
      end
  end.

(** ** <think> tags (message-reasoning-utils.ts) *)

Record ParsedThinkTags := mkParsed {
  visibleContent : jstr;
  parsedReasoning : jstr;
  hasUnclosedTag : bool
}.

Definition OPEN : jstr := u "<think>".
Definition CLOSE : jstr := u "</think>".

(** The [while (true)] loop from [currentPos]; a round that does not end it
    moves past a tag pair. *)
Fixpoint think_loop (fuel : nat) (content : jstr) (currentPos : nat) (visibleParts reasoningParts : list jstr)
    : option (list jstr * list jstr * bool) :=
  match fuel with
  | O => None
  | S fuel =>
      match indexOfFrom content OPEN currentPos with
      | None =>
          Some (if (currentPos <? length content)%nat
                then visibleParts ++ [drop currentPos content] else visibleParts,
                reasoningParts, false)
      | Some openPos =>
          let visibleParts :=
            if (currentPos <? openPos)%nat then visibleParts ++ [slice currentPos openPos content]
            else visibleParts in
          match indexOfFrom content CLOSE (openPos + 7) with
          | None => Some (visibleParts, reasoningParts ++ [drop (openPos + 7) content], true)
          | Some closePos =>
              think_loop fuel content (closePos + 8) visibleParts
                (reasoningParts ++ [slice (openPos + 7) closePos content])
          end
      end
  end.

Definition parseThinkTags (content : jstr) : ParsedThinkTags :=
  if negb (includes content OPEN) then mkParsed content [] false
  else match think_loop (S (length content)) content 0 [] [] with
  | Some (visibleParts, reasoningParts, unclosed) =>
      mkParsed (trim (join [] visibleParts)) (trim (join [10; 10]%N reasoningParts)) unclosed
  | None => mkParsed [] [] false
  end.

Example parseThinkTags_ex :
  parseThinkTags (u "a <think>r1</think> b<think>r2") = mkParsed (u "a  b") ([114; 49; 10; 10; 114; 50])%N true.
Proof. vm_compute. reflexivity. Qed.

(** ** Streaming (message-streaming-utils.ts) *)

Definition processStreamingContent (m : Message) (contentChunk : jstr) (now : Z) : Message :=
  let current := v_content (getCurrentVersion m) in
  let fullContent := if str_truthy contentChunk then current ++ contentChunk else current in
  if bool_decide (reasoning m = None) && negb (includes fullContent OPEN) then
    set_reasoningStreaming false (updateCurrentVersionContent m fullContent)
  else
    let parsed := parseThinkTags fullContent in
    let finalReasoning :=
      if str_truthy (parsedReasoning parsed) then
        let r := startReasoningTiming m now in
        Some (mkReasoning (parsedReasoning parsed) (r_duration r) (r_startedAt r) (r_completedAt r)
                (r_durationMs r))
      else reasoning m in
    set_reasoningStreaming (hasUnclosedTag parsed)
      (set_reasoning finalReasoning (updateCurrentVersionContent m fullContent)).

Inductive StreamChunkType := ChunkReasoning | ChunkContent.

Definition getAppendableChunk (currentContent chunk : jstr) : jstr :=
  if negb (str_truthy currentContent) || negb (startsWith chunk currentContent) then chunk
  else drop (length currentContent) chunk.

Definition applyStreamingChunk (m : Message) (type : StreamChunkType) (chunk : jstr) (now : Z) : Message :=
  if bool_decide (status m = Some SError) then m
  else match type with
  | ChunkReasoning =>
      let r := startReasoningTiming m now in
      let appendableChunk := getAppendableChunk (r_content r) chunk in
      set_status SStreaming (set_reasoningStreaming true
        (set_reasoning (Some (mkReasoning (r_content r ++ appendableChunk) (r_duration r) (r_startedAt r)
           (r_completedAt r) (r_durationMs r))) m))
  | ChunkContent =>
      let appendableChunk := getAppendableChunk (v_content (getCurrentVersion m)) chunk in
      let contentMessage := processStreamingContent m appendableChunk now in
      set_status SStreaming
        (if default false (isReasoningStreaming contentMessage) then contentMessage
         else completeReasoningTiming contentMessage now)
  end.

Definition finalizeMessage (m : Message) (apiReasoningContent : option jstr) (now : Z) : Message :=
  let current := v_content (getCurrentVersion m) in
  let parsed := if includes current OPEN then Some (parseThinkTags current) else None in
  let visible := default current (visibleContent <$> parsed) in
  let finalReasoning :=
    str_or (default [] apiReasoningContent)
      (str_or (default [] (r_content <$> reasoning m)) (default [] (parsedReasoning <$> parsed))) in
  let r := startReasoningTiming m now in
  completeReasoningTiming
    (set_reasoningStreaming false
       (set_reasoning
          (if str_truthy finalReasoning
           then Some (mkReasoning finalReasoning (r_duration r) (r_startedAt r) (r_completedAt r)
                        (r_durationMs r))
           else None)
          (updateCurrentVersionContent m visible))) now.

Definition completeAssistantMessage (m : Message) (now : Z) : Message :=
  completeAssistantTiming (set_status SComplete (finalizeMessage m None now)) now.

Definition isAssistantMessageFinal (m : Message) : bool :=
  bool_decide (status m = Some SComplete) || bool_decide (status m = Some SError).

Definition isAssistantMessagePending (m : Message) : bool :=
  bool_decide (status m = Some SLoading) || bool_decide (status m = Some SStreaming).

Definition isPendingAssistantMessage (m : option Message) : bool :=
  match m with
  | Some m => bool_decide (from m = RoleAssistant) && isAssistantMessagePending m
  | None => false
  end.

(** A choice of a non-streaming response: its message's content and reasoning. *)
Record ChatCompletionChoice := mkChoice { c_content : option jstr; c_reasoning : option jstr }.

Definition hasChatCompletionChoice (choices : option (list ChatCompletionChoice)) : bool :=
  match choices with Some (_ :: _) => true | _ => false end.

Definition applyChatCompletionChoice (m : Message) (choice : ChatCompletionChoice) (now : Z) : Message :=
  completeAssistantTiming
    (set_status SComplete
       (finalizeMessage (updateCurrentVersionContent m (default [] (c_content choice)))
          (c_reasoning choice) now)) now.

Definition applyChatCompletionResponse (m : Message) (choices : option (list ChatCompletionChoice))
    (now : Z) : option Message :=
  match choices with
  | Some (choice :: _) => Some (applyChatCompletionChoice m choice now)
  | _ => None
  end.

(** ** Errors *)

Definition API_REQUEST_ERROR : jstr := u "Request error occurred".
Definition INTERRUPTED : jstr := u "Generation was interrupted".
Definition CONNECTION_CLOSED : jstr := u "Connection closed".
Definition PARSE_ERROR : jstr := u "Error parsing response data".
Definition STREAM_START_ERROR : jstr := u "Error establishing connection".

(** The last index the loop from the end stops at. *)
Fixpoint findLastIndex {A} (p : A -> bool) (l : list A) : option nat :=
  match l with
  | [] => None
  | x :: l' =>
      match findLastIndex p l' with
      | Some i => Some (S i)
      | None => if p x then Some 0%nat else None
      end
  end.

Definition sanitizeMessage (m : Message) (now : Z) : Message :=
  let finalized := finalizeMessage m None now in
  let hasReasoning :=
    match reasoning finalized with Some r => str_truthy (trim (r_content r)) | None => false end in
  if hasMessageContent finalized || hasReasoning then
    completeAssistantTiming (set_reasoningStreaming false (set_status SComplete finalized)) now
  else
    completeAssistantTiming (set_reasoningStreaming false (set_status SError
      (updateCurrentVersionContent finalized (API_REQUEST_ERROR ++ u ": " ++ INTERRUPTED)))) now.

Definition sanitizeMessagesOnLoad (messages : list Message) (now : Z) : list Message :=
  match findLastIndex (fun m => isPendingAssistantMessage (Some m)) messages with
  | None => messages
  | Some targetIndex =>
      match messages !! targetIndex with
      | Some m => <[targetIndex := sanitizeMessage m now]> messages
      | None => messages
      end
  end.

(** ** Updating the last message (message-update-utils.ts) *)

Definition updateLastAssistantMessage (messages : list Message) (updater : Message -> Message)
    : list Message :=
  match last messages with
  | None => messages
  | Some m =>
      if negb (bool_decide (from m = RoleAssistant)) then messages
      else removelast messages ++ [updater m]
  end.

Definition updateAssistantMessageWithError (messages : list Message) (errorMessage : jstr)
    (code : option jstr) (title : jstr) (now : Z) : list Message :=
  updateLastAssistantMessage messages (fun m =>
    completeAssistantTiming
      (set_errorCode (match code with Some c => if str_truthy c then Some c else None | None => None end)
         (set_reasoningStreaming false (set_status SError
            (updateCurrentVersionContent m (title ++ u ": " ++ errorMessage))))) now).

(** ** Conversation edits (conversation-message-utils.ts) *)

Definition appendUserMessagePair (messages : list Message) (content : jstr) (k1 id1 k2 id2 : jstr)
    (now : Z) : list Message :=
  messages ++ [createUserMessage k1 id1 content now; createLoadingAssistantMessage k2 id2 now].

Definition findIndex {A} (p : A -> bool) (l : list A) : option nat :=
  fst <$> list_find (fun x => p x = true) l.

Definition createRegeneratedMessages (messages : list Message) (messageKey k id : jstr) (now : Z)
    : option (list Message) :=
  messageIndex ← findIndex (fun m => seqb (key m) messageKey) messages;
  m ← messages !! messageIndex;
  if bool_decide (from m = RoleUser)
  then Some (take (messageIndex + 1) messages ++ [createLoadingAssistantMessage k id now])
  else Some (take messageIndex messages ++ [createLoadingAssistantMessage k id now]).

Definition removeMessageByKey (messages : list Message) (messageKey : jstr) : list Message :=
  List.filter (fun m => negb (seqb (key m) messageKey)) messages.

Fixpoint getPreviousUserMessage (messages : list Message) (beforeIndex : nat) : option Message :=
  match beforeIndex with
  | O => None
  | S index =>
      match messages !! index with
      | Some m => if bool_decide (from m = RoleUser) then Some m else getPreviousUserMessage messages index
      | None => None
      end
  end.

(** The messages, and whether to send them. *)
Definition applyMessageEdit (messages : list Message) (messageKey content : jstr) (shouldSubmit : bool)
    (k id : jstr) (now : Z) : option (list Message * bool) :=
  messageIndex ← findIndex (fun m => seqb (key m) messageKey) messages;
  let updatedMessages := map (fun m =>
    if seqb (key m) messageKey
    then set_createdAt (if shouldSubmit then Some now else createdAt m) (updateCurrentVersionContent m content)
    else m) messages in
  m ← updatedMessages !! messageIndex;
  if negb shouldSubmit || negb (bool_decide (from m = RoleUser)) then Some (updatedMessages, false)
  else Some (take (messageIndex + 1) updatedMessages ++ [createLoadingAssistantMessage k id now], true).

Definition getEditingMessageContent (messages : list Message) (editingKey : option jstr) : jstr :=
  match editingKey with
  | None | Some [] => []
  | Some k =>
      match List.find (fun m => seqb (key m) k) messages with
      | Some m => getMessageContent m
      | None => []
      end
  end.

Record ChatMessageRenderState := mkRenderState {
  alwaysShowActions : bool;
  render_content : jstr;
  isEditing : bool
}.

Definition getChatMessageRenderState (messages : list Message) (m : Message) (messageIndex : Z)
    (editingKey : option jstr) : ChatMessageRenderState :=
  mkRenderState
    ((messageIndex =? Z.of_nat (length messages) - 1) && bool_decide (from m = RoleAssistant))
    (getMessageContent m) (bool_decide (editingKey = Some (key m))).

(** ** What the views read (message-content-utils.ts, message-error-utils.ts,
    message-action-utils.ts) *)

Definition shouldShowMessageLoader (m : Message) (isAssistant : bool) (versionContent : jstr) : bool :=
  isAssistant && negb (default false (isReasoningStreaming m))
  && (bool_decide (status m = Some SLoading)
      || (bool_decide (status m = Some SStreaming) && negb (str_truthy versionContent))).

Definition shouldShowMessageContent (m : Message) (versionContent : jstr) : bool :=
  (bool_decide (from m = RoleUser) || negb (default false (isReasoningStreaming m)))
  && (0 <? length versionContent)%nat.

Definition getDisplayContent (m : Message) (versionContent : jstr) : jstr :=
  if negb (bool_decide (from m = RoleAssistant)) then versionContent
  else if negb (includes versionContent OPEN) then versionContent
  else visibleContent (parseThinkTags versionContent).

Record MessageContentState := mkContentState {
  displayContent : jstr;
  hasSources : bool;
  isAssistant : bool;
  showLoader : bool;
  showMessageContent : bool;
  reasoningContent : option jstr
}.

Definition getMessageContentState (m : Message) (versionContent : jstr) : MessageContentState :=
  let assistant := bool_decide (from m = RoleAssistant) in
  mkContentState (getDisplayContent m versionContent)
    (0 <? length (default [] (sources m)))%nat assistant
    (shouldShowMessageLoader m assistant versionContent)
    (shouldShowMessageContent m versionContent)
    (if assistant
     then match reasoning m with
          | Some r => if str_truthy (r_content r) then Some (r_content r) else None
          | None => None
          end
     else None).

Definition isAdminRole (role : option Z) : bool :=
  match role with Some r => 10 <=? r | None => false end.

Definition isErrorMessage (m : Message) : bool := bool_decide (status m = Some SError).

Record MessageErrorState := mkErrorState {
  err_content : jstr;
  err_isModelPrice : bool;
  err_showSettingsLink : bool
}.

Definition getMessageErrorState (m : Message) (isAdmin : bool) : option MessageErrorState :=
  if negb (isErrorMessage m) then None
  else
    let isModelPriceError := bool_decide (errorCode m = Some (Some (u "model_price_error"))) in
    Some (mkErrorState (str_or (getMessageContent m) (u "An unknown error occurred")) isModelPriceError
            (isModelPriceError && isAdmin)).

Record MessageActionState := mkActionState {
  act_content : jstr;
  act_hasContent : bool;
  act_isAssistant : bool;
  act_isUser : bool;
  act_isLoading : bool
}.

Definition getMessageActionState (m : Message) : MessageActionState :=
  mkActionState (getMessageContent m) (hasMessageContent m) (bool_decide (from m = RoleAssistant))
    (bool_decide (from m = RoleUser)) (isAssistantMessagePending m).

(** ** Request payload (payload-builder.ts) *)

Record PlaygroundConfig := mkPlaygroundConfig {
  model : jstr;
  group_ : jstr;
  temperature : num;
  top_p : num;
  max_tokens : num;
  frequency_penalty : num;
  presence_penalty : num;
  seed : option num;
  stream : bool
}.

Record ParameterEnabled := mkEnabled {
  e_temperature : bool;
  e_top_p : bool;
  e_max_tokens : bool;
  e_frequency_penalty : bool;
  e_presence_penalty : bool;
  e_seed : bool
}.

Record ChatCompletionRequest := mkRequest {
  req_model : jstr;
  req_group : jstr;
  req_messages : list ChatCompletionMessage;
  req_stream : bool;
  req_temperature : option num;
  req_top_p : option num;
  req_max_tokens : option num;
  req_frequency_penalty : option num;
  req_presence_penalty : option num;
  req_seed : option num
}.

Definition buildChatCompletionPayload (messages : list Message) (config : PlaygroundConfig)
    (enabled : ParameterEnabled) : ChatCompletionRequest :=
  let opt (b : bool) (x : num) := if b then Some x else None in
  mkRequest (model config) (group_ config)
    (map formatMessageForAPI (List.filter isValidMessage messages)) (stream config)
    (opt (e_temperature enabled) (temperature config)) (opt (e_top_p enabled) (top_p config))
    (opt (e_max_tokens enabled) (max_tokens config))
    (opt (e_frequency_penalty enabled) (frequency_penalty config))
    (opt (e_presence_penalty enabled) (presence_penalty config))
    (if e_seed enabled then seed config else None).
