(* ===== verification/PlaygroundProps.v ===== *)
(** * Properties of playground messages *)

From Stdlib Require Import ZArith SpecFloat.
From stdpp Require Import base numbers option list sorting.
From S2P Require Import Prelude Collections JsNumber JsValue Json Playground.

(** ** Tagged text

    A text as alternating visible and tagged parts, with a last part that is
    visible or follows a tag never closed. *)

Inductive tail_part := Visible (v : jstr) | Unclosed (v r : jstr).

Definition render_tail (t : tail_part) : jstr :=
  match t with Visible v => v | Unclosed v r => v ++ OPEN ++ r end.

Definition render (pairs : list (jstr * jstr)) (t : tail_part) : jstr :=
  concat (map (fun '(v, r) => v ++ OPEN ++ r ++ CLOSE) pairs) ++ render_tail t.

Definition tail_ok (t : tail_part) : Prop :=
  match t with
  | Visible v => includes v OPEN = false
  | Unclosed v r => includes v OPEN = false /\ includes r CLOSE = false
  end.

(** No opening tag in visible text, no closing tag inside a tagged part. *)
Definition parts_ok (pairs : list (jstr * jstr)) (t : tail_part) : Prop :=
  Forall (fun '(v, r) => includes v OPEN = false /\ includes r CLOSE = false) pairs /\ tail_ok t.

Definition visible_text (pairs : list (jstr * jstr)) (t : tail_part) : jstr :=
  concat (map fst pairs) ++ match t with Visible v | Unclosed v _ => v end.

Definition tagged_parts (pairs : list (jstr * jstr)) (t : tail_part) : list jstr :=
  map snd pairs ++ match t with Visible _ => [] | Unclosed _ r => [r] end.

Definition unclosed (t : tail_part) : bool := match t with Visible _ => false | Unclosed _ _ => true end.

Lemma drop_app_length' {A} (a b : list A) n : length a = n -> drop n (a ++ b) = b.
Proof. intros <-. apply drop_app_length. Qed.

Lemma take_app_length' {A} (a b : list A) n : length a = n -> take n (a ++ b) = a.
Proof. intros <-. apply take_app_length. Qed.

(** The visible parts the loop collects: empty ones are skipped. *)
Lemma opt_part (n : nat) (vis : list jstr) (a : jstr) (b : bool) :
  b = (n <? n + length a)%nat ->
  join [] (if b then vis ++ [a] else vis) = join [] vis ++ a.
Proof.
  intros ->. destruct a as [|x a]; simpl.
  - replace (n <? n + 0)%nat with false by (symmetry; apply Nat.ltb_ge; lia). by rewrite app_nil_r.
  - replace (n <? n + S (length a))%nat with true by (symmetry; apply Nat.ltb_lt; lia).
    by rewrite join_nil_app.
Qed.

Lemma think_loop_spec fuel : forall content pos vis reas, (pos <= length content)%nat ->
  (length content - pos < fuel)%nat ->
  exists pairs t vis', parts_ok pairs t /\ drop pos content = render pairs t
    /\ think_loop fuel content pos vis reas = Some (vis', reas ++ tagged_parts pairs t, unclosed t)
    /\ join [] vis' = join [] vis ++ visible_text pairs t.
Proof.
  induction fuel as [|fuel IH]; intros content pos vis reas Hpos Hf; [lia|].
  cbn [think_loop]. unfold indexOfFrom at 1.
  destruct (indexOf (drop pos content) OPEN) as [i|] eqn:E; cbn [fmap option_fmap option_map].
  2:{ exists [], (Visible (drop pos content)). eexists. split_and!.
      - split; [constructor|]. by apply includes_None in E.
      - done.
      - unfold tagged_parts. simpl. by rewrite app_nil_r.
      - rewrite (opt_part pos _ (drop pos content)); [done|]. rewrite length_drop. f_equal. lia. }
  apply indexOf_Some in E as (a & b & Hs & Ha & Hno); [|done].
  assert (Hlen : (pos + i + 7 <= length content)%nat).
  { apply (f_equal length) in Hs. rewrite length_drop, !length_app in Hs. change (length OPEN) with 7%nat in Hs. lia. }
  assert (Hd7 : drop (pos + i + 7) content = b).
  { replace (pos + i + 7)%nat with (pos + (i + 7))%nat by lia. rewrite <- drop_drop, Hs, app_assoc.
    apply drop_app_length'. rewrite length_app, Ha. done. }
  assert (Hslice : slice pos (pos + i) content = a).
  { unfold slice. replace (pos + i - pos)%nat with i by lia. rewrite Hs. by apply take_app_length'. }
  unfold indexOfFrom. rewrite Hd7, Hslice.
  destruct (indexOf b CLOSE) as [j|] eqn:F; cbn [fmap option_fmap option_map].
  2:{ exists [], (Unclosed a b). eexists. split_and!.
      - split; [constructor|]. split; [done|]. by apply includes_None in F.
      - done.
      - done.
      - rewrite (opt_part pos _ a); [done|]. by rewrite Ha. }
  apply indexOf_Some in F as (r & rest & Hb & Hr & Hno'); [|done].
  assert (Hd8 : drop (pos + i + 7 + j + 8) content = rest).
  { replace (pos + i + 7 + j + 8)%nat with ((pos + i + 7) + (j + 8))%nat by lia.
    rewrite <- drop_drop, Hd7, Hb, app_assoc. apply drop_app_length'. rewrite length_app, Hr. done. }
  assert (Hl8 : (pos + i + 7 + j + 8 <= length content)%nat).
  { apply (f_equal length) in Hb. rewrite <- Hd7, length_drop, !length_app in Hb. change (length CLOSE) with 8%nat in Hb. lia. }
  assert (Hsl : slice (pos + i + 7) (pos + i + 7 + j) content = r).
  { unfold slice. rewrite Hd7. replace (pos + i + 7 + j - (pos + i + 7))%nat with j by lia.
    rewrite Hb. by apply take_app_length'. }
  rewrite Hsl.
  destruct (IH content (pos + i + 7 + j + 8)%nat
    (if (pos <? pos + i)%nat then vis ++ [a] else vis) (reas ++ [r])) as (pairs & t & vis' & Hok & Hrest & Hloop & Hj);
    [lia|lia|].
  exists ((a, r) :: pairs), t, vis'. split_and!.
  - destruct Hok as [H1 H2]. split; [constructor; done|done].
  - rewrite Hs, Hb. rewrite <- Hd8, Hrest. unfold render. cbn [map concat]. by rewrite <- !app_assoc.
  - rewrite Hloop. unfold tagged_parts. cbn [map]. by rewrite <- !app_assoc.
  - rewrite Hj. rewrite (opt_part pos _ a) by (by rewrite Ha). unfold visible_text. cbn [map concat fst].
    by rewrite <- !app_assoc.
Qed.

Lemma parse_parts content : exists pairs t, parts_ok pairs t /\ content = render pairs t
  /\ (includes content OPEN = true -> parseThinkTags content =
       mkParsed (trim (visible_text pairs t)) (trim (join [10; 10]%N (tagged_parts pairs t))) (unclosed t)).
Proof.
  destruct (think_loop_spec (S (length content)) content 0 [] []) as (pairs & t & vis & Hok & Hr & Hl & Hj);
    [lia|lia|].
  exists pairs, t. split; [done|]. split; [done|]. unfold parseThinkTags. intros ->. cbn [negb].
  by rewrite Hl, Hj.
Qed.

(** The <think> parser, on every text: the text splits into visible and tagged
    parts (no opening tag in visible text, no closing tag inside a tagged part),
    and where it has a tag at all, the parser returns the visible parts together,
    the tagged parts separated by blank lines, both trimmed, and whether the last
    tag is open. The loop always ends. *)
Theorem think_tags_decompose (content : jstr) :
  exists pairs t, parts_ok pairs t /\ content = render pairs t
    /\ (includes content OPEN = false -> parseThinkTags content = mkParsed content [] false)
    /\ (includes content OPEN = true -> parseThinkTags content =
         mkParsed (trim (visible_text pairs t)) (trim (join [10; 10]%N (tagged_parts pairs t))) (unclosed t)).
Proof.
  destruct (parse_parts content) as (pairs & t & Hok & Hr & H). exists pairs, t. split_and!; try done.
  unfold parseThinkTags. by intros ->.
Qed.

(** ** Streaming *)

Lemma complete_reasoning_versions m t : versions (completeReasoningTiming m t) = versions m.
Proof.
  unfold completeReasoningTiming. destruct (reasoning m) as [r|]; [|done]. by destruct (r_durationMs r).
Qed.

Lemma process_content m c t : getMessageContent (processStreamingContent m c t) = getMessageContent m ++ c.
Proof.
  unfold processStreamingContent. fold (getMessageContent m).
  assert (E : (if str_truthy c then getMessageContent m ++ c else getMessageContent m)
    = getMessageContent m ++ c) by (destruct c; simpl; [by rewrite app_nil_r|done]).
  rewrite E. by destruct (_ && _).
Qed.

Lemma chunk_content m c t : status m <> Some SError ->
  let m' := applyStreamingChunk m ChunkContent c t in
  getMessageContent m' = getMessageContent m ++ getAppendableChunk (getMessageContent m) c
  /\ status m' = Some SStreaming.
Proof.
  intros Hs. unfold applyStreamingChunk. rewrite bool_decide_eq_false_2 by done. split; [|done].
  rewrite <- (process_content m _ t). unfold getMessageContent, getCurrentVersion.
  fold (getCurrentVersion m). destruct (default false _); cbn [versions set_status]; [done|].
  by rewrite complete_reasoning_versions.
Qed.

(** The content chunks of a stream, each with the time it is applied. *)
Definition stream_chunks (m : Message) (chunks : list (jstr * Z)) : Message :=
  fold_left (fun m p => applyStreamingChunk m ChunkContent (fst p) (snd p)) chunks m.

(** Chunks that continue the text: none begins with all of the text so far. *)
Fixpoint deltas (acc : jstr) (chunks : list jstr) : Prop :=
  match chunks with
  | [] => True
  | c :: cs => (acc = [] \/ startsWith c acc = false) /\ deltas (acc ++ c) cs
  end.

(** Chunks that repeat the text: each one begins with all of it. *)
Fixpoint snapshots (acc : jstr) (chunks : list jstr) : Prop :=
  match chunks with
  | [] => True
  | c :: cs => startsWith c acc = true /\ snapshots c cs
  end.

Lemma appendable_delta acc c : acc = [] \/ startsWith c acc = false -> getAppendableChunk acc c = c.
Proof. unfold getAppendableChunk. intros [-> | ->]; [done|]. by rewrite orb_true_r. Qed.

Lemma appendable_snapshot acc c : startsWith c acc = true -> acc ++ getAppendableChunk acc c = c.
Proof.
  intros H. pose proof H as [q ->]%startsWith_app. unfold getAppendableChunk. rewrite H.
  destruct acc as [|x acc]; [done|]. cbn [str_truthy negb orb]. by rewrite drop_app_length.
Qed.

(** Streaming rebuilds the text from either style of provider: chunks that
    continue the text are appended in order, and chunks that repeat the whole text
    so far replace it, until the stream ends; no chunk touches a message that has
    failed. *)
Theorem streaming_rebuilds_text (m : Message) (chunks : list (jstr * Z)) :
  (status m <> Some SError ->
    (deltas (getMessageContent m) (map fst chunks) ->
       getMessageContent (stream_chunks m chunks) = getMessageContent m ++ concat (map fst chunks))
    /\ (snapshots (getMessageContent m) (map fst chunks) ->
       getMessageContent (stream_chunks m chunks) = default (getMessageContent m) (last (map fst chunks))))
  /\ (status m = Some SError -> stream_chunks m chunks = m).
Proof.
  split.
  - revert m. induction chunks as [|[c t] cs IH]; intros m Hs; cbn [map stream_chunks fold_left fst snd].
    + split; intros _; [by rewrite app_nil_r|done].
    + destruct (chunk_content m c t Hs) as [Hc Hst].
      destruct (IH (applyStreamingChunk m ChunkContent c t)) as [H1 H2]; [by rewrite Hst|].
      rewrite Hc in H1, H2. split.
      * intros [Hd Hr]. rewrite appendable_delta in H1, H2 by done. specialize (H1 Hr).
        unfold stream_chunks in H1. rewrite H1. cbn [concat]. by rewrite app_assoc.
      * intros [Hd Hr]. rewrite appendable_snapshot in H1, H2 by done. specialize (H2 Hr).
        unfold stream_chunks in H2. rewrite H2, last_cons. by destruct (last (map fst cs)).
  - intros Hs. unfold stream_chunks. revert Hs. induction chunks as [|[c t] cs IH]; intros Hs; [done|].
    cbn [fold_left fst snd]. unfold applyStreamingChunk at 2. rewrite bool_decide_eq_true_2 by done.
    by apply IH.
Qed.

Definition demo_loading : Message := createLoadingAssistantMessage (u "k") (u "v") 1000.

Lemma streaming_rebuilds_text_witness :
  getMessageContent (stream_chunks demo_loading [(u "Hel", 1010); (u "lo", 1020); (u "!", 1030)]) = u "Hello!"
  /\ getMessageContent (stream_chunks demo_loading [(u "Hel", 1010); (u "Hello", 1020)]) = u "Hello".
Proof.
  split.
  - apply (proj1 (streaming_rebuilds_text demo_loading [(u "Hel", 1010); (u "lo", 1020); (u "!", 1030)])).
    + done.
    + split; [by left|]. split; [by right|]. split; [by right|]. done.
  - apply (proj1 (streaming_rebuilds_text demo_loading [(u "Hel", 1010); (u "Hello", 1020)])).
    + done.
    + by split.
Defined.

(** A continuing chunk that begins with all of the text so far is taken for a
    repetition: a reply streamed as the same nonempty piece twice (the digits of
    11 one by one, say) is stored as the piece once, and the second is lost. *)
Theorem repeated_delta_lost (m : Message) (piece : jstr) (t1 t2 : Z) :
  status m <> Some SError -> getMessageContent m = [] -> piece <> [] ->
  getMessageContent (stream_chunks m [(piece, t1); (piece, t2)]) = piece
  /\ piece <> piece ++ piece.
Proof.
  intros Hs Hc Hp. split.
  - unfold stream_chunks. cbn [fold_left fst snd]. destruct (chunk_content m piece t1 Hs) as [H1 S1].
    destruct (chunk_content (applyStreamingChunk m ChunkContent piece t1) piece t2) as [H2 _];
      [by rewrite S1|].
    rewrite H2, H1, Hc. cbn [app]. rewrite (appendable_delta [] piece) by (by left).
    apply appendable_snapshot, startsWith_app. exists []. by rewrite app_nil_r.
  - intros H. apply (f_equal length) in H. rewrite length_app in H. destruct piece; simpl in *; [done|lia].
Qed.

Lemma repeated_delta_lost_witness :
  getMessageContent (stream_chunks demo_loading [(u "1", 1010); (u "1", 1020)]) = u "1"
  /\ u "1" <> u "1" ++ u "1".
Proof. apply (repeated_delta_lost demo_loading (u "1") 1010 1020); vm_compute; discriminate || reflexivity. Defined.

(** ** Loading a conversation *)

Definition pending (m : Message) : bool := isPendingAssistantMessage (Some m).

Lemma findLastIndex_spec {A} (p : A -> bool) l :
  match findLastIndex p l with
  | Some i => (exists x, l !! i = Some x /\ p x = true)
              /\ forall j x, l !! j = Some x -> p x = true -> (j <= i)%nat
  | None => forall j x, l !! j = Some x -> p x = false
  end.
Proof.
  induction l as [|y l IH]; cbn [findLastIndex]; [done|].
  destruct (findLastIndex p l) as [i|].
  - destruct IH as [(x & Hx & Hp) H]. split; [by exists x|]. intros [|j] z Hz Hpz; [lia|].
    specialize (H j z Hz Hpz). lia.
  - destruct (p y) eqn:E.
    + split; [by exists y|]. intros [|j] z Hz Hpz; [lia|]. rewrite (IH j z Hz) in Hpz. done.
    + intros [|j] z Hz; [by injection Hz as <-|]. by apply (IH j).
Qed.

Lemma complete_timing_status m t : status (completeAssistantTiming m t) = status m.
Proof. unfold completeAssistantTiming. by destruct (negb _). Qed.

Lemma sanitize_final m t : isAssistantMessageFinal (sanitizeMessage m t) = true.
Proof.
  unfold isAssistantMessageFinal.
  assert (H : status (sanitizeMessage m t) = Some SComplete \/ status (sanitizeMessage m t) = Some SError).
  { unfold sanitizeMessage. destruct (_ || _) eqn:E; rewrite complete_timing_status; [by left|by right]. }
  by destruct H as [-> | ->].
Qed.

Lemma final_not_pending m : isAssistantMessageFinal m = true -> pending m = false.
Proof.
  unfold isAssistantMessageFinal, pending, isPendingAssistantMessage, isAssistantMessagePending.
  destruct (status m) as [[]|]; cbn; try done; by rewrite andb_false_r.
Qed.

(** Loading a conversation settles the last reply that was still pending, and
    only that one: no message is added or dropped, every other message is
    unchanged, and a message is pending afterwards exactly when it was before and
    a later one was too. With at most one pending reply none is left. *)
Theorem load_settles_last_pending (messages : list Message) (now : Z) :
  let out := sanitizeMessagesOnLoad messages now in
  length out = length messages
  /\ (forall i m, messages !! i = Some m -> pending m = false -> out !! i = Some m)
  /\ forall i, (exists m, out !! i = Some m /\ pending m = true) <->
       (exists m, messages !! i = Some m /\ pending m = true)
       /\ exists j m, (i < j)%nat /\ messages !! j = Some m /\ pending m = true.
Proof.
  unfold sanitizeMessagesOnLoad. pose proof (findLastIndex_spec pending messages) as F.
  change (fun m => isPendingAssistantMessage (Some m)) with pending.
  destruct (findLastIndex pending messages) as [t|].
  2:{ split_and!; [done..|]. intros i. split; [intros (m & Hm & Hp); by rewrite (F i m Hm) in Hp|].
      intros [(m & Hm & Hp) _]. by rewrite (F i m Hm) in Hp. }
  destruct F as [(x & Hx & Hpx) Hlast]. rewrite Hx.
  pose proof (final_not_pending _ (sanitize_final x now)) as Hs.
  pose proof (lookup_lt_Some _ _ _ Hx) as Hlt. split_and!.
  - apply length_insert.
  - intros i m Hm Hp. rewrite list_lookup_insert_ne; [done|]. intros ->. congruence.
  - intros i. destruct (decide (i = t)) as [->|Hne].
    + rewrite list_lookup_insert_eq by done. split.
      * intros (m & [= <-] & Hp). congruence.
      * intros [_ (j & m & Hj & Hm & Hp)]. specialize (Hlast j m Hm Hp). lia.
    + rewrite list_lookup_insert_ne by done. split; [|tauto]. intros (m & Hm & Hp).
      split; [by exists m|]. exists t, x. specialize (Hlast i m Hm Hp). split_and!; [lia|done|done].
Qed.

(** ** Conversation edits *)

Definition keys (ms : list Message) : list jstr := map key ms.

Lemma findIndex_key ms k i : findIndex (fun m => seqb (key m) k) ms = Some i ->
  exists pre m post, ms = pre ++ m :: post /\ length pre = i /\ key m = k
                     /\ Forall (fun m => key m <> k) pre.
Proof.
  unfold findIndex. destruct (list_find _ ms) as [[j m]|] eqn:E; [|done]. intros [= ->].
  apply list_find_Some in E as (Hm & Hk & Hpre). apply seqb_eq in Hk.
  exists (take i ms), m, (drop (S i) ms). split_and!.
  - by rewrite take_drop_middle.
  - rewrite length_take. apply lookup_lt_Some in Hm. lia.
  - done.
  - apply Forall_lookup_2. intros j x Hx. apply lookup_take_Some in Hx as [Hx Hj].
    specialize (Hpre j x Hx Hj). by rewrite seqb_eq in Hpre.
Qed.

Lemma findIndex_none ms k : findIndex (fun m => seqb (key m) k) ms = None <-> k ∉ keys ms.
Proof.
  unfold findIndex, keys. destruct (list_find _ ms) as [[j m]|] eqn:E; cbn.
  - split; [done|]. intros H. exfalso. apply list_find_Some in E as (Hm & Hk & _).
    apply seqb_eq in Hk. apply H, list_elem_of_fmap. exists m. split; [done|].
    by eapply list_elem_of_lookup_2.
  - split; [|done]. intros _ (m & -> & Hin)%list_elem_of_fmap.
    apply list_find_None in E. rewrite Forall_forall in E. apply (E m Hin), seqb_refl.
Qed.

(** Regenerating a reply keeps the conversation up to the message it is asked
    for and nothing after it: a user message is kept and answered again, any other
    message is replaced; the result ends in a fresh pending reply, and the request
    is refused exactly when the key is unknown. *)
Theorem regenerate_keeps_prefix (messages : list Message) (messageKey k id : jstr) (now : Z) :
  (createRegeneratedMessages messages messageKey k id now = None <-> messageKey ∉ keys messages)
  /\ forall out, createRegeneratedMessages messages messageKey k id now = Some out ->
       exists pre m post, messages = pre ++ m :: post /\ key m = messageKey
         /\ Forall (fun m => key m <> messageKey) pre
         /\ out = pre ++ (if bool_decide (from m = RoleUser) then [m] else [])
                  ++ [createLoadingAssistantMessage k id now].
Proof.
  unfold createRegeneratedMessages. pose proof (findIndex_none messages messageKey) as Hn.
  destruct (findIndex _ messages) as [i|] eqn:E; cbn [mbind option_bind].
  2:{ split; [|done]. split; [intros _; by apply Hn|done]. }
  apply findIndex_key in E as (pre & m & post & -> & <- & Hk & Hpre).
  rewrite list_lookup_middle by done. cbn [mbind option_bind]. split.
  - split; [by destruct (bool_decide _)|]. intros H. exfalso. apply Hn in H. done.
  - intros out H. exists pre, m, post. split_and!; [done..|].
    destruct (bool_decide (from m = RoleUser)); injection H as <-.
    + change (m :: post) with ([m] ++ post). rewrite (app_assoc pre [m] post).
      rewrite take_app_length' by (rewrite length_app; done). by rewrite <- app_assoc.
    + by rewrite take_app_length.
Qed.

Lemma regenerate_keeps_prefix_witness :
  exists out, createRegeneratedMessages
    [createUserMessage (u "a") (u "1") (u "hi") 5; demo_loading] (u "k") (u "n") (u "2") 9 = Some out
  /\ exists pre m post, [createUserMessage (u "a") (u "1") (u "hi") 5; demo_loading] = pre ++ m :: post
     /\ key m = u "k".
Proof.
  eexists. split; [vm_compute; reflexivity|].
  destruct (proj2 (regenerate_keeps_prefix [createUserMessage (u "a") (u "1") (u "hi") 5; demo_loading]
    (u "k") (u "n") (u "2") 9) _ eq_refl) as (pre & m & post & H1 & H2 & _).
  by exists pre, m, post.
Defined.

Lemma map_edit_ne (f : Message -> Message) ms k : Forall (fun m => key m <> k) ms ->
  map (fun m => if seqb (key m) k then f m else m) ms = ms.
Proof.
  induction 1 as [|m ms Hm _ IH]; [done|]. cbn [map]. rewrite IH.
  by rewrite (proj2 (seqb_neq _ _) Hm).
Qed.

(** Editing a message, in a conversation whose keys are distinct, changes the
    content of that message alone. Submitting the edit of a user message also
    drops everything after it and appends a fresh pending reply, and only then are
    the messages to be sent. *)
Theorem edit_changes_one_message (messages : list Message) (messageKey content k id : jstr)
    (submit : bool) (now : Z) (out : list Message) (send : bool) :
  NoDup (keys messages) ->
  applyMessageEdit messages messageKey content submit k id now = Some (out, send) ->
  exists pre m post, messages = pre ++ m :: post /\ key m = messageKey
    /\ let m' := set_createdAt (if submit then Some now else createdAt m)
                   (updateCurrentVersionContent m content) in
       getMessageContent m' = content /\ key m' = key m /\ from m' = from m
       /\ send = submit && bool_decide (from m = RoleUser)
       /\ out = pre ++ [m'] ++ (if send then [createLoadingAssistantMessage k id now] else post).
Proof.
  intros Hnd. unfold applyMessageEdit.
  destruct (findIndex _ messages) as [i|] eqn:E; cbn [mbind option_bind]; [|done].
  apply findIndex_key in E as (pre & m & post & -> & <- & Hk & Hpre).
  set (f := fun m => set_createdAt (if submit then Some now else createdAt m)
    (updateCurrentVersionContent m content)).
  assert (Hpost : Forall (fun m => key m <> messageKey) post).
  { apply Forall_forall. intros x Hx Hxk. unfold keys in Hnd. rewrite map_app in Hnd.
    apply NoDup_app in Hnd as (_ & _ & Hnd). cbn [map] in Hnd. apply NoDup_cons in Hnd as [Hni _].
    apply Hni, list_elem_of_fmap. exists x. split; [congruence|done]. }
  change (fun m => if seqb (key m) messageKey then set_createdAt (if submit then Some now else createdAt m)
    (updateCurrentVersionContent m content) else m) with
    (fun m => if seqb (key m) messageKey then f m else m).
  rewrite map_app. cbn [map]. rewrite !map_edit_ne by done.
  rewrite (proj2 (seqb_eq _ _) Hk). rewrite list_lookup_middle by done. cbn [mbind option_bind].
  change (from (f m)) with (from m). intros H. exists pre, m, post. split; [done|]. split; [done|].
  destruct submit; cbn [negb orb] in H.
  - destruct (bool_decide (from m = RoleUser)); cbn [negb] in H; injection H as <- <-; split_and!; try done.
    change (f m :: post) with ([f m] ++ post). rewrite (app_assoc pre [f m] post).
    rewrite take_app_length' by (rewrite length_app; done). by rewrite <- app_assoc.
  - injection H as <- <-. by split_and!.
Qed.

Lemma edit_changes_one_message_witness :
  exists out, applyMessageEdit [createUserMessage (u "a") (u "1") (u "hi") 5; demo_loading]
    (u "a") (u "hello") true (u "n") (u "2") 9 = Some (out, true)
  /\ exists pre m post, [createUserMessage (u "a") (u "1") (u "hi") 5; demo_loading] = pre ++ m :: post
     /\ key m = u "a".
Proof.
  eexists. split; [vm_compute; reflexivity|].
  destruct (edit_changes_one_message [createUserMessage (u "a") (u "1") (u "hi") 5; demo_loading]
    (u "a") (u "hello") (u "n") (u "2") true 9 _ true ltac:(apply (bool_decide_eq_true_1 _); vm_compute; reflexivity)
    eq_refl) as (pre & m & post & H1 & H2 & _).
  by exists pre, m, post.
Defined.

(** ** Payload *)

Lemma findIndex_fresh ms m post : key m ∉ keys ms ->
  findIndex (fun x => seqb (key x) (key m)) (ms ++ m :: post) = Some (length ms).
Proof.
  intros Hk. unfold findIndex. rewrite list_find_app_r.
  - cbn [list_find]. rewrite decide_True by apply seqb_refl. cbn. f_equal.
  - apply list_find_None, Forall_forall. intros x Hx E%seqb_eq. apply Hk, list_elem_of_fmap.
    by exists x.
Qed.

(** What is sent after a user message: the valid messages before it in order
    and then the user's text; the pending reply appended for display is not sent,
    nor is any reply without content. Regenerating from the user message sends the
    same text again. *)
Theorem sent_messages_end_with_user (messages : list Message) (text k1 id1 k2 id2 : jstr) (now : Z)
    (config : PlaygroundConfig) (enabled : ParameterEnabled) :
  let sent ms := req_messages (buildChatCompletionPayload ms config enabled) in
  sent (appendUserMessagePair messages text k1 id1 k2 id2 now)
    = sent messages ++ [mkChatMessage RoleUser text]
  /\ (forall c, c ∈ sent messages -> role c = RoleAssistant -> trim (content c) <> [])
  /\ (k1 ∉ keys messages -> forall k id now',
        sent <$> createRegeneratedMessages (appendUserMessagePair messages text k1 id1 k2 id2 now) k1 k id now'
        = Some (sent messages ++ [mkChatMessage RoleUser text])).
Proof.
  assert (Hsent : forall ms, req_messages (buildChatCompletionPayload ms config enabled) =
    map formatMessageForAPI (List.filter isValidMessage ms)) by done.
  cbv zeta. split_and!.
  - rewrite !Hsent. unfold appendUserMessagePair. rewrite List.filter_app, map_app. reflexivity.
  - intros c. rewrite Hsent. intros (m & -> & Hm)%list_elem_of_fmap Hr.
    apply list_elem_of_In, filter_In in Hm as [_ Hv]. cbn in Hr. unfold isValidMessage in Hv.
    destruct (_ =? _)%nat; [done|]. rewrite (bool_decide_eq_true_2 _ Hr) in Hv. cbn [andb] in Hv.
    rewrite negb_involutive in Hv. unfold hasMessageContent in Hv. apply negb_true_iff in Hv.
    by apply seqb_neq in Hv.
  - intros Hk k id now'. unfold createRegeneratedMessages, appendUserMessagePair.
    rewrite (findIndex_fresh messages (createUserMessage k1 id1 text now)) by done. cbn [mbind option_bind]. rewrite list_lookup_middle by done. cbn [mbind option_bind].
    cbn [from createUserMessage]. rewrite bool_decide_eq_true_2 by done.
    change (messages ++ [createUserMessage k1 id1 text now; createLoadingAssistantMessage k2 id2 now])
      with (messages ++ [createUserMessage k1 id1 text now] ++ [createLoadingAssistantMessage k2 id2 now]).
    rewrite app_assoc. rewrite take_app_length' by (rewrite length_app; done).
    cbn [fmap option_fmap option_map]. f_equal. rewrite Hsent, <- app_assoc, List.filter_app, map_app.
    reflexivity.
Qed.
