(* ===== verification/PlaygroundStream.v ===== *)
(** * Streaming requests of the playground

    The decoding of server-sent events (src/web/src/features/playground/lib/
    streaming/stream-utils.ts, request-error-utils.ts) and the controller of
    src/web/src/features/playground/hooks/use-stream-request.ts as a state
    machine: [send], [stop] and [dispose] are called by the view, and between them
    the headers of a request arrive and its event source fires events, in any
    order. The event source belongs to a library; what the controller does with it
    is to open, close and listen. *)

From Stdlib Require Import ZArith SpecFloat.
From stdpp Require Import base numbers option list sorting.
From S2P Require Import Prelude Collections JsNumber JsValue Json Playground.

(** ** Decoding *)

(** [v || d] on untyped values. *)
Definition or_val (v d : jsval) : jsval := if truthy v then v else d.

(** The code, absent where falsy, and the message. *)
Definition parseStreamErrorDetails (data : option jstr) : jsval * jsval :=
  let d := default [] data in
  let fallbackMessage := JStr (str_or d API_REQUEST_ERROR) in
  if negb (str_truthy d) then (JUndef, fallbackMessage)
  else match JSON_parse d with
  | None => (JUndef, fallbackMessage)
  | Some parsed =>
      let e := get parsed (u "error") in
      if negb (truthy e) then (JUndef, fallbackMessage)
      else (or_val (get e (u "code")) JUndef, or_val (get e (u "message")) fallbackMessage)
  end.

(** The updates of an event; [None] where reading it throws. *)
Definition parseStreamMessageUpdates (data : jstr) : option (list (StreamChunkType * jsval)) :=
  match JSON_parse data with
  | None | Some JNull => None
  | Some chunk =>
      let delta := get (get (get chunk (u "choices")) (u "0")) (u "delta") in
      if negb (truthy delta) then Some []
      else
        let part t v := if truthy v then [(t, v)] else [] in
        Some (part ChunkReasoning (get delta (u "reasoning_content"))
              ++ part ChunkContent (get delta (u "content")))
  end.

Definition isStreamDoneMessage (data : jstr) : bool := seqb data (u "[DONE]").

Definition isStreamClosedReadyState (readyState : option Z) : bool :=
  bool_decide (readyState = Some 2).

Definition getStreamReadyStateError (eventReadyState : option Z) (status : option Z) : option jstr :=
  match eventReadyState, status with
  | Some r, Some s =>
      if (2 <=? r) && negb (s =? 200)
      then Some (u "HTTP " ++ Z_str s ++ u ": " ++ CONNECTION_CLOSED) else None
  | _, _ => None
  end.

Definition parseRequestErrorDetails (error : jsval) : jsval * jsval :=
  let data := get (get error (u "response")) (u "data") in
  (or_val (get (get data (u "error")) (u "code")) JUndef,
   or_val (get data (u "message")) (or_val (get error (u "message")) (JStr API_REQUEST_ERROR))).

Example updates_ex :
  parseStreamMessageUpdates (uq "{'choices':[{'delta':{'content':'hi','reasoning_content':''}}]}")
  = Some [(ChunkContent, JStr (u "hi"))]
  /\ parseStreamErrorDetails (Some (uq "{'error':{'message':'no','code':'x'}}")) = (JStr (u "x"), JStr (u "no")).
Proof. vm_compute. done. Qed.

(** ** The controller *)

Inductive callback :=
| OnUpdate (type : StreamChunkType) (chunk : jsval)
| OnComplete
| OnError (error code : jsval).

Definition terminal (c : callback) : bool := match c with OnUpdate _ _ => false | _ => true end.

(** [generation], [source] and the streaming flag are the controller's. A request
    is named by the generation it was sent with, and so is its event source. The
    rest is what the closures of the requests hold: those waiting for their
    headers, those whose source was created, those [completed]; and what the world
    saw: the closed sources and the callbacks. *)
Record Controller := mkController {
  generation : nat;
  source : option nat;
  streaming : bool;
  awaiting : list nat;
  opened : list nat;
  completed : list nat;
  closed : list nat;
  calls : list (nat * callback)
}.

Definition createStreamRequestController : Controller := mkController 0 None false [] [] [] [] [].

Definition set_source (s : option nat) (b : bool) (c : Controller) : Controller :=
  mkController (generation c) s b (awaiting c) (opened c) (completed c) (closed c) (calls c).
Definition close_source (r : nat) (c : Controller) : Controller :=
  mkController (generation c) (source c) (streaming c) (awaiting c) (opened c) (completed c)
    (closed c ++ [r]) (calls c).
Definition call (r : nat) (cb : callback) (c : Controller) : Controller :=
  mkController (generation c) (source c) (streaming c) (awaiting c) (opened c) (completed c) (closed c)
    (calls c ++ [(r, cb)]).
Definition complete_request (r : nat) (c : Controller) : Controller :=
  mkController (generation c) (source c) (streaming c) (awaiting c) (opened c) (r :: completed c)
    (closed c) (calls c).

Definition closeActiveSource (target : nat) (c : Controller) : Controller :=
  let c := close_source target c in
  if bool_decide (source c = Some target) then set_source None false c else c.

(** [send] up to its await. *)
Definition send (c : Controller) : Controller :=
  let r := S (generation c) in
  let closed' := match source c with Some s => closed c ++ [s] | None => closed c end in
  mkController r None false (r :: awaiting c) (opened c) (completed c) closed' (calls c).

Definition isCurrent (r : nat) (c : Controller) : bool :=
  bool_decide (generation c = r) && bool_decide (source c = Some r).

(** [!isCurrent() || completed]. *)
Definition ignores (r : nat) (c : Controller) : bool :=
  negb (isCurrent r c) || bool_decide (r ∈ completed c).

Definition handleError (r : nat) (errorMessage errorCode : jsval) (c : Controller) : Controller :=
  if ignores r c then c
  else closeActiveSource r (call r (OnError errorMessage errorCode) (complete_request r c)).

Definition stop_awaiting (r : nat) (c : Controller) : Controller :=
  mkController (generation c) (source c) (streaming c) (List.filter (fun x => negb (x =? r)%nat) (awaiting c))
    (opened c) (completed c) (closed c) (calls c).

(** [send] when its headers could not be had. *)
Definition headers_failed (r : nat) (message : jsval) (c : Controller) : Controller :=
  let c := stop_awaiting r c in
  if negb (bool_decide (generation c = r)) then c
  else call r (OnError message JUndef) c.

(** [send] from its headers on; [started] is whether [stream()] returns. *)
Definition headers_ready (r : nat) (started : bool) (c : Controller) : Controller :=
  let c := stop_awaiting r c in
  if negb (bool_decide (generation c = r)) then c
  else
    let c := mkController (generation c) (Some r) true (awaiting c) (r :: opened c) (completed c)
               (closed c) (calls c) in
    if started then c else handleError r (JStr STREAM_START_ERROR) JUndef c.

(** The listeners of the source of [r]. *)
Definition on_message (r : nat) (data : jstr) (c : Controller) : Controller :=
  if ignores r c then c
  else if isStreamDoneMessage data then
    call r OnComplete (closeActiveSource r (complete_request r c))
  else match parseStreamMessageUpdates data with
  | Some updates => fold_left (fun c '(t, chunk) => call r (OnUpdate t chunk) c) updates c
  | None => handleError r (JStr PARSE_ERROR) JUndef c
  end.

Definition on_error (r : nat) (readyState : option Z) (data : option jstr) (c : Controller) : Controller :=
  if ignores r c then c
  else if negb (isStreamClosedReadyState readyState) then
    let '(code, message) := parseStreamErrorDetails data in handleError r message code c
  else c.

Definition on_readystatechange (r : nat) (eventReadyState status : option Z) (c : Controller) : Controller :=
  if ignores r c then c
  else match getStreamReadyStateError eventReadyState status with
  | Some message => if str_truthy message then handleError r (JStr message) JUndef c else c
  | None => c
  end.

Definition cancel (notify : bool) (c : Controller) : Controller :=
  let closed' := match source c with Some s => closed c ++ [s] | None => closed c end in
  mkController (S (generation c)) None (if notify then false else streaming c) (awaiting c) (opened c)
    (completed c) closed' (calls c).

Inductive action :=
| ASend
| AStop
| ADispose
| AHeadersFailed (r : nat) (message : jsval)
| AHeaders (r : nat) (started : bool)
| AMessage (r : nat) (data : jstr)
| AError (r : nat) (readyState : option Z) (data : option jstr)
| AReadyState (r : nat) (eventReadyState status : option Z).

(** One step; the headers of a request arrive once, and only a created source has
    listeners. *)
Definition act (a : action) (c : Controller) : Controller :=
  let waits r f := if bool_decide (r ∈ awaiting c) then f c else c in
  let listens r f := if bool_decide (r ∈ opened c) then f c else c in
  match a with
  | ASend => send c
  | AStop => cancel true c
  | ADispose => cancel false c
  | AHeadersFailed r message => waits r (headers_failed r message)
  | AHeaders r started => waits r (headers_ready r started)
  | AMessage r data => listens r (on_message r data)
  | AError r readyState data => listens r (on_error r readyState data)
  | AReadyState r readyState status => listens r (on_readystatechange r readyState status)
  end.

Inductive reachable : Controller -> Prop :=
| reachable_init : reachable createStreamRequestController
| reachable_step c a : reachable c -> reachable (act a c).

Example stream_ex :
  let c := fold_left (fun c a => act a c)
    [ASend; AHeaders 1 true; AMessage 1 (uq "{'choices':[{'delta':{'content':'hi'}}]}"); ASend;
     AMessage 1 (u "[DONE]"); AHeaders 2 true; AMessage 2 (u "[DONE]"); AMessage 2 (u "[DONE]")]
    createStreamRequestController in
  (calls c, source c, streaming c, closed c) =
  ([(1%nat, OnUpdate ChunkContent (JStr (u "hi"))); (2%nat, OnComplete)], None, false, [1%nat; 2%nat]).
Proof. vm_compute. reflexivity. Qed.
