(* ===== verification/PlaygroundStreamProps.v ===== *)
(** * Properties of the stream controller

    Every step of the controller is a sequence of a few primitive transitions;
    the invariants are proved for those, by rule induction. *)

From Stdlib Require Import ZArith SpecFloat.
From stdpp Require Import base numbers option list sorting relations.
From S2P Require Import Prelude Collections JsNumber JsValue Json Playground PlaygroundStream.

(** ** Primitive transitions *)

Definition open_source (r : nat) (c : Controller) : Controller :=
  mkController (generation c) (Some r) true (awaiting c) (r :: opened c) (completed c) (closed c) (calls c).

Definition finish (r : nat) (cb : callback) (c : Controller) : Controller :=
  mkController (generation c) None false (awaiting c) (opened c) (r :: completed c) (closed c ++ [r])
    (calls c ++ [(r, cb)]).

Inductive prim : Controller -> Controller -> Prop :=
| p_send c : prim c (send c)
| p_cancel b c : prim c (cancel b c)
| p_drop r c : prim c (stop_awaiting r c)
| p_fail r m c : r ∈ awaiting c -> generation c = r ->
    prim c (call r (OnError m JUndef) (stop_awaiting r c))
| p_open r c : r ∈ awaiting c -> generation c = r -> prim c (open_source r (stop_awaiting r c))
| p_update r t chunk c : source c = Some r -> prim c (call r (OnUpdate t chunk) c)
| p_finish r cb c : source c = Some r -> terminal cb = true -> prim c (finish r cb c).

Lemma ignores_false r c : ignores r c = false -> generation c = r /\ source c = Some r /\ r ∉ completed c.
Proof.
  unfold ignores, isCurrent. rewrite orb_false_iff, negb_false_iff, andb_true_iff.
  intros [[H1%bool_decide_eq_true_1 H2%bool_decide_eq_true_1] H3%bool_decide_eq_false_1]. done.
Qed.

Lemma closeActive_finish r cb c : source c = Some r ->
  closeActiveSource r (call r cb (complete_request r c)) = finish r cb c
  /\ call r cb (closeActiveSource r (complete_request r c)) = finish r cb c.
Proof.
  intros H. unfold closeActiveSource. cbn [source close_source call complete_request].
  by rewrite !bool_decide_eq_true_2.
Qed.

Lemma handleError_prims r m code c : rtc prim c (handleError r m code c).
Proof.
  unfold handleError. destruct (ignores r c) eqn:E; [done|].
  apply ignores_false in E as (_ & Hs & _). rewrite (proj1 (closeActive_finish _ _ _ Hs)).
  apply rtc_once. by constructor.
Qed.

Lemma updates_prims r updates : forall c, source c = Some r ->
  rtc prim c (fold_left (fun c '(t, chunk) => call r (OnUpdate t chunk) c) updates c).
Proof.
  induction updates as [|[t chunk] updates IH]; intros c Hs; cbn [fold_left]; [done|].
  eapply rtc_l; [by apply p_update|]. by apply IH.
Qed.

Lemma act_prims a c : rtc prim c (act a c).
Proof.
  destruct a as [| | |r m|r started|r data|r rs data|r rs st]; cbn [act].
  - apply rtc_once, p_send.
  - apply rtc_once, p_cancel.
  - apply rtc_once, p_cancel.
  - case_bool_decide as Hw; [|done]. unfold headers_failed. cbn [generation stop_awaiting].
    case_bool_decide as Hg; cbn [negb]; apply rtc_once; by constructor.
  - case_bool_decide as Hw; [|done]. unfold headers_ready. cbn [generation stop_awaiting].
    case_bool_decide as Hg; cbn [negb]; [|apply rtc_once; by constructor].
    eapply rtc_l; [by apply (p_open r)|]. destruct started; [done|]. apply handleError_prims.
  - case_bool_decide as Hw; [|done]. unfold on_message. destruct (ignores r c) eqn:E; [done|].
    apply ignores_false in E as (_ & Hs & _). destruct (isStreamDoneMessage data).
    + rewrite (proj2 (closeActive_finish _ _ _ Hs)). apply rtc_once. by constructor.
    + destruct (parseStreamMessageUpdates data); [by apply updates_prims|apply handleError_prims].
  - case_bool_decide as Hw; [|done]. unfold on_error. destruct (ignores r c); [done|].
    destruct (negb _); [|done]. destruct (parseStreamErrorDetails data). apply handleError_prims.
  - case_bool_decide as Hw; [|done]. unfold on_readystatechange. destruct (ignores r c); [done|].
    destruct (getStreamReadyStateError rs st); [|done]. destruct (str_truthy _); [|done].
    apply handleError_prims.
Qed.

(** ** Invariant *)

Definition calls_of (r : nat) (l : list (nat * callback)) : list callback :=
  map snd (List.filter (fun p => (fst p =? r)%nat) l).

(** Updates, then at most one terminal callback. *)
Definition well_ordered (l : list callback) : Prop :=
  exists us ts, (l = us ++ ts) /\ Forall (fun c => terminal c = false) us /\ (length ts <= 1)%nat.

Record ok (c : Controller) : Prop := mkOk {
  ok_source : forall r, source c = Some r -> r = generation c /\ r ∈ opened c;
  ok_opened : forall r, r ∈ opened c ->
    (r <= generation c)%nat /\ (r ∉ awaiting c) /\ (source c = Some r \/ r ∈ closed c);
  ok_awaiting : forall r, r ∈ awaiting c -> (r <= generation c)%nat;
  ok_fresh : forall r, r ∈ awaiting c \/ (generation c < r)%nat -> calls_of r (calls c) = [];
  ok_current : forall r, source c = Some r -> Forall (fun cb => terminal cb = false) (calls_of r (calls c));
  ok_calls : forall r, well_ordered (calls_of r (calls c))
}.

Lemma calls_of_snoc r l r' cb :
  calls_of r (l ++ [(r', cb)]) = calls_of r l ++ (if (r' =? r)%nat then [cb] else []).
Proof.
  unfold calls_of. rewrite List.filter_app, map_app. cbn. by destruct (r' =? r)%nat.
Qed.

Lemma ordered_snoc l cb : Forall (fun c => terminal c = false) l -> well_ordered (l ++ [cb]).
Proof. intros F. exists l, [cb]. by split_and!. Qed.

Lemma init_ok : ok createStreamRequestController.
Proof.
  split; cbn; try done.
  - intros r H. by apply not_elem_of_nil in H.
  - intros r H. by apply not_elem_of_nil in H.
  - intros r. exists [], []. split_and!; [done|constructor|cbn; lia].
Qed.

Lemma in_stop r c x : x ∈ awaiting (stop_awaiting r c) <-> x ∈ awaiting c /\ x <> r.
Proof.
  cbn. rewrite list_elem_of_In, filter_In, <- list_elem_of_In, negb_true_iff, Nat.eqb_neq. done.
Qed.

Lemma send_ok c : ok c -> ok (send c).
Proof.
  intros [Hs Ho Ha Hf Hc Hl].
  split; cbn; try done.
  - intros r Hr. destruct (Ho r Hr) as (H1 & H2 & H3). split_and!; [lia| |].
    + rewrite not_elem_of_cons. split; [lia|done].
    + right. destruct H3 as [->|H3]; [apply elem_of_app; right; by left|].
      destruct (source c); [apply elem_of_app; by left|done].
  - intros r [->|Hr]%elem_of_cons; [lia|]. specialize (Ha r Hr). lia.
  - intros r [[->|Hr]%elem_of_cons|Hr]; apply Hf; [right; lia|by left|right; lia].
Qed.

Lemma cancel_ok b c : ok c -> ok (cancel b c).
Proof.
  intros [Hs Ho Ha Hf Hc Hl].
  split; cbn; try done.
  - intros r Hr. destruct (Ho r Hr) as (H1 & H2 & H3). split_and!; [lia|done|].
    right. destruct H3 as [->|H3]; [apply elem_of_app; right; by left|].
    destruct (source c); [apply elem_of_app; by left|done].
  - intros r Hr. specialize (Ha r Hr). lia.
  - intros r [Hr|Hr]; apply Hf; [by left|right; lia].
Qed.

Lemma drop_ok r c : ok c -> ok (stop_awaiting r c).
Proof.
  intros [Hs Ho Ha Hf Hc Hl].
  split; try done.
  - intros x Hx. destruct (Ho x Hx) as (H1 & H2 & H3). split_and!; [done| |done].
    rewrite in_stop. tauto.
  - intros x [Hx _]%in_stop. by apply Ha.
  - intros x [[Hx _]%in_stop|Hx]; apply Hf; [by left|by right].
Qed.

Lemma fail_ok r m c : ok c -> r ∈ awaiting c -> generation c = r ->
  ok (call r (OnError m JUndef) (stop_awaiting r c)).
Proof.
  intros [Hs Ho Ha Hf Hc Hl] Hw Hg.
  assert (Hno : calls_of r (calls c) = []) by (apply Hf; by left).
  split; try done.
  - intros x Hx. destruct (Ho x Hx) as (H1 & H2 & H3). split_and!; [done| |done].
    change (x ∉ awaiting (stop_awaiting r c)). rewrite in_stop. tauto.
  - intros x Hx. apply (in_stop r c x) in Hx as [Hx _]. by apply Ha.
  - intros x Hx. cbn [calls call stop_awaiting]. rewrite calls_of_snoc.
    assert (x <> r). { destruct Hx as [Hx|Hx]; [by apply (in_stop r c x) in Hx as [_ ?]|cbn in Hx; lia]. }
    rewrite (proj2 (Nat.eqb_neq r x)) by done. rewrite app_nil_r. apply Hf.
    destruct Hx as [Hx|Hx]; [left; by apply (in_stop r c x) in Hx as [? _]|by right].
  - intros x Hx. cbn [calls call stop_awaiting]. rewrite calls_of_snoc. cbn in Hx.
    destruct (Hs x Hx) as [-> Hop]. destruct (Ho _ Hop) as (_ & Hna & _). by rewrite Hg in Hna.
  - intros x. cbn [calls call stop_awaiting]. rewrite calls_of_snoc.
    destruct (Nat.eqb_spec r x) as [<-|]; [|by rewrite app_nil_r]. rewrite Hno.
    by apply (ordered_snoc []).
Qed.

Lemma open_ok r c : ok c -> r ∈ awaiting c -> generation c = r -> ok (open_source r (stop_awaiting r c)).
Proof.
  intros [Hs Ho Ha Hf Hc Hl] Hw Hg.
  assert (Hno : calls_of r (calls c) = []) by (apply Hf; by left). split; cbn [source generation opened calls open_source stop_awaiting].
  - intros x [= <-]. split; [done|by left].
  - intros x [->|Hx]%elem_of_cons.
    + split_and!; [lia| |by left]. change (r ∉ awaiting (stop_awaiting r c)). rewrite in_stop. tauto.
    + destruct (Ho x Hx) as (H1 & H2 & H3). split_and!; [done| |].
      * change (x ∉ awaiting (stop_awaiting r c)). rewrite in_stop. tauto.
      * right. destruct H3 as [H3|H3]; [|done]. exfalso. destruct (Hs x H3) as [-> _].
         by rewrite Hg in H2.
  - intros x Hx. apply (in_stop r c x) in Hx as [Hx _]. by apply Ha.
  - intros x [Hx|Hx]; apply Hf; [left; by apply (in_stop r c x) in Hx as [? _]|by right].
  - intros x [= <-]. by rewrite Hno.
  - done.
Qed.

Lemma update_ok r t chunk c : ok c -> source c = Some r -> ok (call r (OnUpdate t chunk) c).
Proof.
  intros [Hs Ho Ha Hf Hc Hl] Hr.
  destruct (Hs r Hr) as [Hg Hop]. destruct (Ho r Hop) as (_ & Hna & _).
  split; cbn [source generation opened awaiting closed calls call]; try done.
  - intros x Hx. rewrite calls_of_snoc. assert (x <> r) by (destruct Hx; [naive_solver|lia]).
    rewrite (proj2 (Nat.eqb_neq r x)) by done. rewrite app_nil_r. by apply Hf.
  - intros x Hx. rewrite calls_of_snoc. rewrite Hr in Hx. injection Hx as <-.
    rewrite Nat.eqb_refl. apply Forall_app. split; [by apply Hc|by constructor].
  - intros x. rewrite calls_of_snoc. destruct (Nat.eqb_spec r x) as [<-|]; [|by rewrite app_nil_r].
    by apply ordered_snoc, Hc.
Qed.

Lemma finish_ok r cb c : ok c -> source c = Some r -> terminal cb = true -> ok (finish r cb c).
Proof.
  intros [Hs Ho Ha Hf Hc Hl] Hr Ht.
  destruct (Hs r Hr) as [Hg Hop]. destruct (Ho r Hop) as (_ & Hna & _).
  split; cbn [source generation opened awaiting closed calls finish]; try done.
  - intros x Hx. destruct (Ho x Hx) as (H1 & H2 & H3). split_and!; [done|done|]. right.
    apply elem_of_app. destruct H3 as [H3|H3]; [|by left]. right. rewrite Hr in H3. injection H3 as <-. by left.
  - intros x Hx. rewrite calls_of_snoc. assert (x <> r) by (destruct Hx; [naive_solver|lia]).
    rewrite (proj2 (Nat.eqb_neq r x)) by done. rewrite app_nil_r. by apply Hf.
  - intros x. rewrite calls_of_snoc. destruct (Nat.eqb_spec r x) as [<-|]; [|by rewrite app_nil_r].
    by apply ordered_snoc, Hc.
Qed.

Lemma prim_ok c c' : prim c c' -> ok c -> ok c'.
Proof. destruct 1; eauto using send_ok, cancel_ok, drop_ok, fail_ok, open_ok, update_ok, finish_ok. Qed.

Lemma prims_ok c c' : rtc prim c c' -> ok c -> ok c'.
Proof. induction 1; eauto using prim_ok. Qed.

Lemma reachable_ok c : reachable c -> ok c.
Proof. induction 1; [apply init_ok|]. eapply prims_ok; [apply act_prims|done]. Qed.

(** ** What the controller guarantees *)

(** C27: Every streaming request has at most one outcome: in any state reachable by
    any interleaving of sends, stops, headers and events, the callbacks a request
    received are updates followed by at most one completion or error, with nothing
    after it. *)
Theorem stream_one_outcome (c : Controller) (r : nat) :
  reachable c -> well_ordered (calls_of r (calls c)).
Proof. intros H%reachable_ok. apply (ok_calls _ H). Qed.

Definition exec (acts : list action) (c : Controller) : Controller :=
  fold_left (fun c a => act a c) acts c.

Lemma exec_reachable acts c : reachable c -> reachable (exec acts c).
Proof. revert c. induction acts as [|a acts IH]; intros c H; cbn; [done|]. apply IH. by constructor. Qed.

Definition demo_acts : list action :=
  [ASend; AHeaders 1 true; AMessage 1 (uq "{'choices':[{'delta':{'content':'hi'}}]}");
   AError 1 None None; AMessage 1 (u "[DONE]")].

Lemma stream_one_outcome_witness :
  calls_of 1 (calls (exec demo_acts createStreamRequestController))
    = [OnUpdate ChunkContent (JStr (u "hi")); OnError (JStr API_REQUEST_ERROR) JUndef]
  /\ well_ordered (calls_of 1 (calls (exec demo_acts createStreamRequestController))).
Proof.
  split; [vm_compute; reflexivity|].
  apply (stream_one_outcome (exec demo_acts createStreamRequestController) 1).
  apply (exec_reachable demo_acts). constructor.
Defined.

(** Nothing can call back: no source, and no request waiting is the latest. *)
Definition silent (c : Controller) : Prop :=
  source c = None /\ forall r, r ∈ awaiting c -> (r < generation c)%nat.

Lemma silent_act a c : a <> ASend -> silent c -> silent (act a c) /\ calls (act a c) = calls c.
Proof.
  intros Hne [Hs Ha].
  assert (Hig : forall r, ignores r c = true).
  { intros r. unfold ignores, isCurrent. rewrite Hs. rewrite (bool_decide_eq_false_2 (None = Some r)) by done.
    by rewrite andb_false_r. }
  assert (Hdrop : forall r, silent (stop_awaiting r c) /\ calls (stop_awaiting r c) = calls c).
  { intros r. split; [|done]. split; [done|]. intros x [Hx _]%in_stop. by apply Ha. }
  assert (Hc : forall b, silent (cancel b c) /\ calls (cancel b c) = calls c).
  { intros b. split; [|done]. split; [done|]. intros x Hx. cbn in *. specialize (Ha x Hx). lia. }
  destruct a as [| | |r m|r started|r data|r rs data|r rs st]; cbn [act]; [done|apply Hc|apply Hc|..];
    case_bool_decide as Hw; try done.
  - unfold headers_failed. cbn [generation stop_awaiting]. specialize (Ha r Hw).
    rewrite bool_decide_eq_false_2 by lia. apply Hdrop.
  - unfold headers_ready. cbn [generation stop_awaiting]. specialize (Ha r Hw).
    rewrite bool_decide_eq_false_2 by lia. apply Hdrop.
  - unfold on_message. by rewrite Hig.
  - unfold on_error. by rewrite Hig.
  - unfold on_readystatechange. by rewrite Hig.
Qed.

(** C28: Stopping is final: after [stop] or [dispose], from any reachable state, no
    sequence of late headers and events of earlier requests calls back until the
    next [send]. *)
Theorem stream_stop_is_final (c : Controller) (notify : bool) (acts : list action) :
  reachable c -> ASend ∉ acts -> calls (exec acts (cancel notify c)) = calls c.
Proof.
  intros H%reachable_ok. assert (S : silent (cancel notify c)).
  { split; [done|]. intros r Hr. cbn in *. pose proof (ok_awaiting _ H r Hr). lia. }
  change (calls c) with (calls (cancel notify c)). revert S. generalize (cancel notify c). clear H.
  induction acts as [|a acts IH]; intros x S Hn; cbn; [done|].
  rewrite not_elem_of_cons in Hn. destruct Hn as [Hn1 Hn2].
  destruct (silent_act a x) as [S' E]; [congruence|done|]. fold (exec acts (act a x)).
  by rewrite IH.
Qed.

Lemma stream_stop_is_final_witness :
  calls (exec [AHeaders 2 true; AMessage 1 (u "[DONE]"); AMessage 2 (u "[DONE]")]
    (cancel true (exec [ASend; AHeaders 1 true; ASend] createStreamRequestController))) = [].
Proof.
  apply (stream_stop_is_final (exec [ASend; AHeaders 1 true; ASend] createStreamRequestController) true
    [AHeaders 2 true; AMessage 1 (u "[DONE]"); AMessage 2 (u "[DONE]")]).
  - apply exec_reachable. constructor.
  - rewrite !not_elem_of_cons. split_and!; try discriminate. apply not_elem_of_nil.
Defined.

Lemma flag_act a c : a <> ADispose ->
  streaming c = bool_decide (source c <> None) ->
  streaming (act a c) = bool_decide (source (act a c) <> None).
Proof.
  intros Hne H. assert (He : forall r m code x, streaming x = bool_decide (source x <> None) ->
    streaming (handleError r m code x) = bool_decide (source (handleError r m code x) <> None)).
  { intros r m code x Hx. unfold handleError. destruct (ignores r x) eqn:E; [done|].
    apply ignores_false in E as (_ & Hs & _). by rewrite (proj1 (closeActive_finish _ _ _ Hs)). }
  destruct a as [| | |r m|r started|r data|r rs data|r rs st]; cbn [act];
    [reflexivity|reflexivity|done|..]; destruct (bool_decide (r ∈ _)); try exact H.
  - unfold headers_failed. destruct (negb _); exact H.
  - unfold headers_ready. destruct (negb _); [exact H|]. destruct started; [reflexivity|]. by apply He.
  - unfold on_message. destruct (ignores r c) eqn:E; [done|]. apply ignores_false in E as (_ & Hs & _).
    destruct (isStreamDoneMessage data); [by rewrite (proj2 (closeActive_finish _ _ _ Hs))|].
    destruct (parseStreamMessageUpdates data) as [us|]; [|by apply He]. clear Hs.
    revert c H. induction us as [|[t chunk] us IH]; intros c H; cbn [fold_left]; [done|]. by apply IH.
  - unfold on_error. destruct (ignores r c); [done|]. destruct (negb _); [|done].
    destruct (parseStreamErrorDetails data). by apply He.
  - unfold on_readystatechange. destruct (ignores r c); [done|].
    destruct (getStreamReadyStateError rs st); [|done]. destruct (str_truthy _); [|done]. by apply He.
Qed.

Lemma flag_exec acts : forall c, ADispose ∉ acts -> streaming c = bool_decide (source c <> None) ->
  streaming (exec acts c) = bool_decide (source (exec acts c) <> None).
Proof.
  induction acts as [|a acts IH]; intros c Hn H; [exact H|]. rewrite not_elem_of_cons in Hn.
  destruct Hn as [Hn1 Hn2]. apply (IH (act a c)); [done|]. apply flag_act; [congruence|exact H].
Qed.

(** No connection is leaked and the indicator is right: in any run, every
    event source ever created is closed except the current one, which belongs to
    the latest request; and unless the view was disposed the streaming indicator
    is on exactly when there is a current source. *)
Theorem stream_sources_accounted (acts : list action) :
  let c := exec acts createStreamRequestController in
  (forall r, r ∈ opened c -> source c = Some r \/ r ∈ closed c)
  /\ (forall r, source c = Some r -> r = generation c)
  /\ (ADispose ∉ acts -> streaming c = bool_decide (source c <> None)).
Proof.
  intros c. assert (H : ok c) by (apply reachable_ok, exec_reachable; constructor).
  split_and!.
  - intros r Hr. by destruct (ok_opened _ H r Hr) as (_ & _ & ?).
  - intros r Hr. by destruct (ok_source _ H r Hr).
  - intros Hn. by apply flag_exec.
Qed.
