(* ===== verification/Regex.v ===== *)
(** * Regular expressions

    The fragment of JavaScript's regular expressions the source uses, with the
    backtracking semantics of the language: alternatives are tried from left to
    right, repetition is greedy, and a group keeps the text it matched last. A
    matcher takes the rest of the input, the captures so far and what comes next. *)

From stdpp Require Import base numbers option list sorting.
From S2P Require Import Prelude Collections.

Inductive regex :=
| Lit (p : jstr)
| Cls (p : N -> bool)
| Seq (a b : regex)
| Alt (a b : regex)
| Star (a : regex)
| Grp (i : nat) (a : regex)
| Back (i : nat)
| End
| EndLine
| WordEnd.

(** Line terminators. *)
Definition line_end (c : N) : bool := ((c =? 10) || (c =? 13) || (c =? 8232) || (c =? 8233))%N.

(** [\w]. *)
Definition word_char (c : N) : bool :=
  ((48 <=? c) && (c <=? 57) || (65 <=? c) && (c <=? 90) || (c =? 95) || (97 <=? c) && (c <=? 122))%N.

Abbreviation captures := (list (nat * jstr)).

Fixpoint rmatch {A} (r : regex) (s : jstr) (cs : captures) (k : jstr -> captures -> option A) : option A :=
  match r with
  | Lit p => if startsWith s p then k (drop (length p) s) cs else None
  | Cls p => match s with c :: s' => if p c then k s' cs else None | [] => None end
  | Seq a b => rmatch a s cs (fun s cs => rmatch b s cs k)
  | Alt a b => match rmatch a s cs k with Some x => Some x | None => rmatch b s cs k end
  | Star a =>
      (fix loop (n : nat) (s : jstr) (cs : captures) {struct n} : option A :=
         match n with
         | O => k s cs
         | S n =>
             match rmatch a s cs (fun s' cs' =>
                     if (length s' =? length s)%nat then None else loop n s' cs') with
             | Some x => Some x
             | None => k s cs
             end
         end) (length s) s cs
  | Grp i a => rmatch a s cs (fun s' cs' => k s' (map_set cs' i (take (length s - length s') s)))
  | Back i =>
      let p := default [] (map_get cs i) in
      if startsWith s p then k (drop (length p) s) cs else None
  | End => match s with [] => k s cs | _ => None end
  | EndLine => match s with c :: _ => if line_end c then k s cs else None | [] => k s cs end
  | WordEnd => match s with c :: _ => if word_char c then None else k s cs | [] => k s cs end
  end.

(** The captures of a match of the whole string; a missing group is [None]. *)
Definition rexec (r : regex) (s : jstr) : option captures := rmatch (Seq r End) s [] (fun _ cs => Some cs).

Definition rtest (r : regex) (s : jstr) : bool := match rexec r s with Some _ => true | None => false end.

Definition group_of (cs : captures) (i : nat) : jstr := default [] (map_get cs i).

(** The matches found by [exec] of a global expression, one after the other, with
    the text before each and what is left at the end. [ok] is asked about the
    character before a match, for expressions that begin with an assertion. An
    empty match would be found for ever; none of those below can be empty. *)
Fixpoint search (fuel : nat) (ok : option N -> bool) (r : regex) (prev : option N) (before s : jstr)
    : list (jstr * captures) * jstr :=
  match fuel with
  | O => ([], before ++ s)
  | S fuel =>
      match (if ok prev then rmatch r s [] (fun s' cs => Some (s', cs)) else None) with
      | Some (s', cs) =>
          let m := take (length s - length s') s in
          let '(ms, tail) := search fuel ok r (last m) [] s' in ((before, cs) :: ms, tail)
      | None =>
          match s with
          | [] => ([], before)
          | c :: s' => search fuel ok r (Some c) (before ++ [c]) s'
          end
      end
  end.

Definition exec_all (ok : option N -> bool) (r : regex) (s : jstr) : list captures :=
  map snd (fst (search (S (length s)) ok r None [] s)).

(** [s.split(/r/)]. *)
Definition split_regex (r : regex) (s : jstr) : list jstr :=
  let '(ms, tail) := search (S (length s)) (fun _ => true) r None [] s in map fst ms ++ [tail].

(** [/\br/] where [r] begins with a word character. *)
Definition word_start (prev : option N) : bool := match prev with Some c => negb (word_char c) | None => true end.

(** [s.matchAll(/^r/gm)]: the matches that begin a line, with their places. The
    next search begins where the match ended, or one further if it was empty. *)
Fixpoint match_lines (fuel : nat) (r : regex) (line_start : bool) (index : nat) (s : jstr) : list (nat * jstr) :=
  match fuel with
  | O => []
  | S fuel =>
      let step :=
        match s with
        | [] => []
        | c :: s' => match_lines fuel r (line_end c) (S index) s'
        end in
      if line_start then
        match rmatch r s [] (fun s' _ => Some s') with
        | Some s' =>
            let m := take (length s - length s') s in
            (index, m) ::
            match last m with
            | Some c => match_lines fuel r (line_end c) (index + length m) s'
            | None => step
            end
        | None => step
        end
      else step
  end.

Definition matchAll_lines (r : regex) (s : jstr) : list (nat * jstr) := match_lines (S (length s)) r true 0 s.

(** Derived forms. *)
Definition Plus (a : regex) : regex := Seq a (Star a).
Definition Opt (a : regex) : regex := Alt a (Lit []).
Fixpoint seqs (l : list regex) : regex := match l with [] => Lit [] | [r] => r | r :: l => Seq r (seqs l) end.
Fixpoint alts (l : list regex) : regex := match l with [] => Cls (fun _ => false) | [r] => r | r :: l => Alt r (alts l) end.

Definition one_of (cs : jstr) (c : N) : bool := bool_decide (c ∈ cs).

(** ** Lemmas *)

(** A run is taken whole when the body of the repetition acts like a class on it
    and what comes next cannot start inside it. *)
Lemma rmatch_star_body {A} r (p : N -> bool) a b cs (k : jstr -> captures -> option A) :
  (forall c s (k : jstr -> captures -> option A), p c = true -> rmatch r (c :: s) cs k = k s cs) ->
  (forall k : jstr -> captures -> option A, rmatch r b cs k = None) ->
  Forall (fun c => p c = true) a -> (forall c s, p c = true -> k (c :: s) cs = None) ->
  rmatch (Star r) (a ++ b) cs k = k b cs.
Proof.
  intros Hr Hb Ha Hk. cbn [rmatch].
  set (loop := fix loop (n : nat) (s : jstr) (cs : captures) {struct n} : option A := _).
  assert (forall n, (length a <= n)%nat -> loop n (a ++ b) cs = k b cs) as H.
  { induction Ha as [|c a Hc Ha IH]; intros n Hn.
    - destruct n; [done|]. cbn -[length rmatch]. by rewrite Hb.
    - destruct n as [|n]; [simpl in Hn; lia|]. cbn -[length rmatch app]. cbn [app]. rewrite Hr by done.
      destruct (length (a ++ b) =? length (c :: a ++ b))%nat eqn:E;
        [apply Nat.eqb_eq in E; simpl in E; lia|].
      rewrite IH by (simpl in Hn; lia). destruct (k b cs) eqn:Ek; [done|]. by apply Hk. }
  apply H. rewrite length_app. lia.
Qed.

Lemma rmatch_star_run {A} p a b cs (k : jstr -> captures -> option A) :
  Forall (fun c => p c = true) a ->
  (match b with [] => True | c :: _ => p c = false end) ->
  (forall c s, p c = true -> k (c :: s) cs = None) ->
  rmatch (Star (Cls p)) (a ++ b) cs k = k b cs.
Proof.
  intros Ha Hb Hk. apply (rmatch_star_body _ p); [| |done|done].
  - intros c s k' Hc. cbn. by rewrite Hc.
  - intros k'. destruct b; [done|]. cbn. by rewrite Hb.
Qed.

Lemma rmatch_seq {A} a b s cs (k : jstr -> captures -> option A) :
  rmatch (Seq a b) s cs k = rmatch a s cs (fun s cs => rmatch b s cs k).
Proof. done. Qed.

Lemma rmatch_lit {A} p s cs (k : jstr -> captures -> option A) : rmatch (Lit p) (p ++ s) cs k = k s cs.
Proof.
  cbn [rmatch]. assert (startsWith (p ++ s) p = true) as -> by (apply startsWith_app; by exists s).
  by rewrite drop_app_length.
Qed.

(** A captured nonempty run. *)
Lemma rmatch_grp_run {A} i p a b cs (k : jstr -> captures -> option A) :
  a <> [] -> Forall (fun c => p c = true) a ->
  (match b with [] => True | c :: _ => p c = false end) ->
  (forall c s cs, p c = true -> k (c :: s) cs = None) ->
  rmatch (Grp i (Plus (Cls p))) (a ++ b) cs k = k b (map_set cs i a).
Proof.
  intros Hne Ha Hb Hk. destruct Ha as [|c a Hc Ha]; [done|].
  unfold Plus. cbn [rmatch app]. rewrite Hc. fold (@rmatch A (Star (Cls p))).
  change (rmatch (Star (Cls p)) (a ++ b) cs
            (fun s' cs' => k s' (map_set cs' i (take (length (c :: a ++ b) - length s') (c :: a ++ b))))
          = k b (map_set cs i (c :: a))).
  rewrite rmatch_star_run; [|done|done|intros d s Hd; by apply Hk].
  f_equal. f_equal. rewrite app_comm_cons, length_app, Nat.add_sub. by rewrite take_app_length.
Qed.

(** A greedy run of a class ends at the last place where the rest matches. *)
Lemma rmatch_star_last {A} p a b cs (k : jstr -> captures -> option A) x :
  Forall (fun c => p c = true) a -> k b cs = Some x ->
  (forall b1 b2, b = b1 ++ b2 -> b1 <> [] -> k b2 cs = None) ->
  rmatch (Star (Cls p)) (a ++ b) cs k = Some x.
Proof.
  intros Ha Hb Hk. cbn [rmatch].
  set (loop := fix loop (n : nat) (s : jstr) (cs : captures) {struct n} : option A := _).
  assert (forall b n, (forall b1 b2, b = b1 ++ b2 -> b1 <> [] -> k b2 cs = None) -> loop n b cs = k b cs) as L.
  { clear. intros b n. revert b. induction n as [|n IH]; intros b H; [done|]. cbn -[length].
    destruct b as [|c b]; [done|]. destruct (p c); [|done].
    destruct (_ =? _)%nat; [done|]. rewrite IH.
    - by rewrite (H [c] b).
    - intros b1 b2 -> Hne. by apply (H (c :: b1) b2). }
  assert (forall n, (length a <= n)%nat -> loop n (a ++ b) cs = Some x) as H.
  { induction Ha as [|c a Hc Ha IH]; intros n Hn; [by rewrite L|].
    destruct n as [|n]; [simpl in Hn; lia|]. cbn -[length]. rewrite Hc.
    destruct (length (a ++ b) =? length (c :: a ++ b))%nat eqn:E;
      [apply Nat.eqb_eq in E; simpl in E; lia|].
    by rewrite IH by (simpl in Hn; lia). }
  apply H. rewrite length_app. lia.
Qed.

(** The characters a match can consume. *)
Fixpoint over (P : N -> Prop) (r : regex) : Prop :=
  match r with
  | Lit p => Forall P p
  | Cls p => forall c, p c = true -> P c
  | Seq a b | Alt a b => over P a /\ over P b
  | Star a | Grp _ a => over P a
  | Back _ => False
  | End | EndLine | WordEnd => True
  end.

Lemma rmatch_over {A} P r : over P r -> forall s cs (k : jstr -> captures -> option A) x,
  rmatch r s cs k = Some x -> exists a b cs', s = a ++ b /\ Forall P a /\ k b cs' = Some x.
Proof.
  induction r as [p|p|r1 IH1 r2 IH2|r1 IH1 r2 IH2|r IH|i r IH|i| | |]; intros Ho s cs k x H; cbn [rmatch] in H.
  - destruct (startsWith s p) eqn:E; [|done]. apply startsWith_app in E as [q ->].
    rewrite drop_app_length in H. by exists p, q, cs.
  - destruct s as [|c s]; [done|]. destruct (p c) eqn:E; [|done]. exists [c], s, cs.
    split; [done|]. split; [|done]. constructor; [by apply Ho|constructor].
  - destruct Ho as [H1 H2]. apply IH1 in H as (a & b & cs' & -> & Ha & H); [|done].
    apply IH2 in H as (a' & b' & cs'' & -> & Ha' & H); [|done].
    exists (a ++ a'), b', cs''. rewrite <- app_assoc. split; [done|]. split; [by apply Forall_app|done].
  - destruct Ho as [H1 H2]. destruct (rmatch r1 s cs k) eqn:E; [|by apply IH2 in H].
    apply IH1 in E; [|done]. by injection H as <-.
  - revert H. generalize (length s) at 1. intros n. revert s cs. induction n as [|n IHn]; intros s cs H.
    { by exists [], s, cs. }
    cbn -[length] in H.
    match type of H with match ?t with _ => _ end = _ => destruct t as [y|] eqn:E end; [|by exists [], s, cs].
    apply IH in E as (a & b & cs' & -> & Ha & E); [|done].
    destruct (_ =? _)%nat; [done|]. injection H as ->. apply IHn in E as (a' & b' & cs'' & -> & Ha' & E).
    exists (a ++ a'), b', cs''. rewrite <- app_assoc. split; [done|]. split; [by apply Forall_app|done].
  - apply IH in H as (a & b & cs' & -> & Ha & H); [|done]. by eexists a, b, _.
  - done.
  - destruct s; [|done]. by exists [], [], cs.
  - destruct s as [|c s]; [by exists [], [], cs|]. destruct (line_end c); [|done]. by exists [], (c :: s), cs.
  - destruct s as [|c s]; [by exists [], [], cs|]. destruct (word_char c); [done|]. by exists [], (c :: s), cs.
Qed.

Lemma rtest_over P r s : over P r -> rtest r s = true -> Forall P s.
Proof.
  intros Ho. unfold rtest, rexec. destruct (rmatch _ _ _ _) eqn:E; [|done]. intros _.
  cbn [rmatch] in E. apply (rmatch_over P) in E as (a & b & cs' & -> & Ha & E); [|done].
  destruct b; [|done]. by rewrite app_nil_r.
Qed.

Lemma rmatch_lit_ne {A} p x c s cs (k : jstr -> captures -> option A) :
  head p = Some x -> c <> x -> rmatch (Lit p) (c :: s) cs k = None.
Proof.
  intros Hp Hc. destruct p as [|y p]; [done|]. injection Hp as ->. cbn [rmatch startsWith].
  by replace (c =? x)%N with false by (symmetry; by apply N.eqb_neq).
Qed.

Lemma rmatch_alts_cons {A} r l s cs (k : jstr -> captures -> option A) :
  rmatch (alts (r :: l)) s cs k =
  match rmatch r s cs k with Some x => Some x | None => rmatch (alts l) s cs k end.
Proof. destruct l; [|done]. cbn. destruct (rmatch r s cs k), s; done. Qed.

Lemma rmatch_alts_none {A} l s cs (k : jstr -> captures -> option A) :
  (forall z, z ∈ l -> startsWith s z = false) -> rmatch (alts (map Lit l)) s cs k = None.
Proof.
  induction l as [|z l IH]; intros H; [by destruct s|]. cbn [map]. rewrite rmatch_alts_cons. cbn [rmatch].
  rewrite (H z) by constructor. apply IH. intros w Hw. apply H. by right.
Qed.

(** One of several literals, none of which is the beginning of another. *)
Lemma rmatch_alts_lit {A} l x s cs (k : jstr -> captures -> option A) :
  x ∈ l -> (forall z, z ∈ l -> z <> x -> startsWith (x ++ s) z = false) ->
  rmatch (alts (map Lit l)) (x ++ s) cs k = k s cs.
Proof.
  intros Hx Hne. induction l as [|z l IH]; [by apply elem_of_nil in Hx|].
  cbn [map]. rewrite rmatch_alts_cons.
  assert (forall w, w ∈ l -> w <> x -> startsWith (x ++ s) w = false) as Hl
    by (intros w Hw; apply Hne; by right).
  destruct (decide (x ∈ l)) as [Hxl|Hxl].
  - rewrite IH by done. destruct (decide (z = x)) as [->|Hz].
    + rewrite rmatch_lit. by destruct (k s cs).
    + cbn [rmatch]. by rewrite Hne by (done || constructor).
  - apply elem_of_cons in Hx as [->|Hx]; [|done]. rewrite rmatch_lit. destruct (k s cs); [done|].
    apply rmatch_alts_none. intros w Hw. apply Hl; [done|]. by intros ->.
Qed.

(** ** Texts that lead through an expression

    [leads r a b cs cs']: matching [r] against [a] followed by [b] succeeds with
    [cs'] whenever what comes next succeeds on [b]; backtracking never gets in the
    way of the first choice that works. *)
Definition leads (r : regex) (a b : jstr) (cs cs' : captures) : Prop :=
  forall A (k : jstr -> captures -> option A) x, k b cs' = Some x -> rmatch r (a ++ b) cs k = Some x.

(** [r] has no match at the beginning of [s]. *)
Definition stuck (r : regex) (s : jstr) (cs : captures) : Prop :=
  forall A (k : jstr -> captures -> option A), rmatch r s cs k = None.

Lemma leads_lit p b cs : leads (Lit p) p b cs cs.
Proof. intros A k x H. by rewrite rmatch_lit. Qed.

Lemma leads_seq r1 r2 a1 a2 b cs cs1 cs2 :
  leads r1 a1 (a2 ++ b) cs cs1 -> leads r2 a2 b cs1 cs2 -> leads (Seq r1 r2) (a1 ++ a2) b cs cs2.
Proof. intros H1 H2 A k x H. rewrite <- app_assoc. cbn [rmatch]. by apply H1, H2. Qed.

Lemma leads_grp i r a b cs cs' : leads r a b cs cs' -> leads (Grp i r) a b cs (map_set cs' i a).
Proof.
  intros H A k x Hk. cbn [rmatch]. apply H. by rewrite length_app, Nat.add_sub, take_app_length.
Qed.

Lemma leads_left r1 r2 a b cs cs' : leads r1 a b cs cs' -> leads (Alt r1 r2) a b cs cs'.
Proof. intros H A k x Hk. cbn [rmatch]. by rewrite (H A k x Hk). Qed.

Lemma leads_right r1 r2 a b cs cs' : stuck r1 (a ++ b) cs -> leads r2 a b cs cs' -> leads (Alt r1 r2) a b cs cs'.
Proof. intros Hs H A k x Hk. cbn [rmatch]. rewrite Hs. by apply H. Qed.

Lemma leads_opt_none r b cs : stuck r b cs -> leads (Opt r) [] b cs cs.
Proof. intros Hs. apply leads_right; [done|]. apply (leads_lit []). Qed.

(** A run of a class, and what follows is not in it. *)
Lemma leads_run p a b cs : Forall (fun c => p c = true) a ->
  (match b with [] => True | c :: _ => p c = false end) -> leads (Star (Cls p)) a b cs cs.
Proof.
  intros Ha Hb A k x Hk. cbn [rmatch].
  set (loop := fix loop (n : nat) (s : jstr) (cs : captures) {struct n} : option A := _).
  assert (forall n, loop n b cs = Some x) as Hend.
  { intros [|n]; [done|]. destruct b as [|c b]; [done|]. cbn. by rewrite Hb. }
  assert (forall n, (length a <= n)%nat -> loop n (a ++ b) cs = Some x) as H.
  { induction Ha as [|c a Hc Ha IH]; intros n Hn; [done|].
    destruct n as [|n]; [simpl in Hn; lia|]. cbn -[length]. rewrite Hc.
    destruct (length (a ++ b) =? length (c :: a ++ b))%nat eqn:E;
      [apply Nat.eqb_eq in E; simpl in E; lia|].
    by rewrite IH by (simpl in Hn; lia). }
  apply H. rewrite length_app. lia.
Qed.

Lemma leads_cls p c b cs : p c = true -> leads (Cls p) [c] b cs cs.
Proof. intros H A k x Hk. cbn. by rewrite H. Qed.

Lemma leads_plus p a b cs : a <> [] -> Forall (fun c => p c = true) a ->
  (match b with [] => True | c :: _ => p c = false end) -> leads (Plus (Cls p)) a b cs cs.
Proof.
  intros Hne Ha Hb. destruct Ha as [|c a Hc Ha]; [done|].
  change (c :: a) with ([c] ++ a). eapply leads_seq; [by apply leads_cls|by apply leads_run].
Qed.

(** A repetition taken as often as the text allows. *)
Lemma leads_star r segs b cs : stuck r b cs -> Forall (fun a => a <> []) segs ->
  (forall pre a post, segs = pre ++ a :: post -> leads r a (concat post ++ b) cs cs) ->
  leads (Star r) (concat segs) b cs cs.
Proof.
  intros Hs Hne Hseg A k x Hk. cbn [rmatch].
  set (loop := fix loop (n : nat) (s : jstr) (cs : captures) {struct n} : option A := _).
  assert (forall n, (length segs <= n)%nat -> loop n (concat segs ++ b) cs = Some x) as H.
  { induction segs as [|a segs IH]; intros n Hn.
    - destruct n as [|n]; [done|]. cbn [concat app]. cbn -[rmatch]. by rewrite Hs.
    - destruct n as [|n]; [simpl in Hn; lia|]. inversion_clear Hne as [|? ? Ha Hne'].
      cbn [concat]. rewrite <- app_assoc. cbn -[rmatch length app].
      rewrite (Hseg [] a segs eq_refl A _ x); [done|].
      destruct (_ =? _)%nat eqn:E; [apply Nat.eqb_eq in E; rewrite !length_app in E; destruct a; [done|simpl in E; lia]|].
      apply IH; [done| |simpl in Hn; lia]. intros pre y post ->. by apply (Hseg (a :: pre)). }
  apply H. rewrite length_app. clear -Hne. induction Hne as [|a segs Ha Hne IH]; [simpl; lia|].
  cbn [concat length]. rewrite length_app. destruct a; [done|]. simpl in *. lia.
Qed.

Lemma stuck_lit p s cs : startsWith s p = false -> stuck (Lit p) s cs.
Proof. intros H A k. cbn [rmatch]. by rewrite H. Qed.

Lemma stuck_seq r1 r2 s cs : stuck r1 s cs -> stuck (Seq r1 r2) s cs.
Proof. intros H A k. cbn [rmatch]. apply H. Qed.

Lemma stuck_after p r s cs : stuck r s cs -> stuck (Seq (Lit p) r) (p ++ s) cs.
Proof. intros H A k. rewrite rmatch_seq, rmatch_lit. apply H. Qed.

Lemma stuck_opt r1 r2 s cs : stuck r1 s cs -> stuck r2 s cs -> stuck (Seq (Opt r1) r2) s cs.
Proof. intros H1 H2 A k. unfold Opt. cbn [rmatch]. rewrite H1. destruct s; apply H2. Qed.

(** A run may be left anywhere, but what comes next fails everywhere. *)
Lemma stuck_run p r a b cs : Forall (fun c => p c = true) a ->
  (match b with [] => True | c :: _ => p c = false end) ->
  (forall a1 a2, a = a1 ++ a2 -> stuck r (a2 ++ b) cs) -> stuck (Seq (Star (Cls p)) r) (a ++ b) cs.
Proof.
  intros Ha Hb H A k. cbn [rmatch].
  set (loop := fix loop (n : nat) (s : jstr) (cs : captures) {struct n} : option A := _).
  assert (forall n, loop n (a ++ b) cs = None) as L; [|apply L]. clear -Ha Hb H. 
  induction Ha as [|c a Hc Ha IH]; intros n.
  - specialize (H [] [] eq_refl). destruct n; [apply H|]. cbn -[rmatch]. destruct b as [|d b]; [apply H|].
    cbn. rewrite Hb. apply H.
  - pose proof (H [] (c :: a) eq_refl) as H0. destruct n as [|n]; [apply H0|]. cbn -[length rmatch app].
    cbn [rmatch app]. rewrite Hc. destruct (_ =? _)%nat; [apply H0|].
    rewrite IH; [apply H0|]. intros a1 a2 ->. by apply (H (c :: a1) a2).
Qed.

Lemma leads_exec r s cs : leads r s [] [] cs -> rexec r s = Some cs.
Proof. intros H. unfold rexec. cbn [rmatch]. rewrite <- (app_nil_r s). by apply H. Qed.

(** ** Searches *)

(** The search passes over text in which nothing matches. *)
Lemma search_skip ok r a : forall fuel prev before b,
  (forall a1 c a2, a = a1 ++ c :: a2 -> stuck r (c :: a2 ++ b) []) ->
  search (length a + fuel) ok r prev before (a ++ b)
  = search fuel ok r (match last a with Some c => Some c | None => prev end) (before ++ a) b.
Proof.
  induction a as [|c a IH]; intros fuel prev before b H; [by rewrite app_nil_r|].
  cbn [length Nat.add search app]. pose proof (H [] c a eq_refl) as Hs. unfold stuck in Hs.
  replace (if ok prev then rmatch r (c :: a ++ b) [] (fun s' cs => Some (s', cs)) else None)
    with (@None (jstr * captures)) by (destruct (ok prev); [by rewrite Hs|done]).
  rewrite IH by (intros a1 d a2 ->; by apply (H (c :: a1) d a2)). rewrite <- app_assoc. cbn [app].
  rewrite last_cons. by destruct (last a).
Qed.

Lemma search_match ok r a fuel prev before b cs : ok prev = true -> leads r a b [] cs ->
  search (S fuel) ok r prev before (a ++ b)
  = let '(ms, tail) := search fuel ok r (last a) [] b in ((before, cs) :: ms, tail).
Proof.
  intros Hok H. cbn [search]. rewrite Hok. rewrite (H _ (fun s' cs => Some (s', cs)) (b, cs)) by done.
  by rewrite length_app, Nat.add_sub, take_app_length.
Qed.

Lemma search_end ok r fuel prev before : stuck r [] [] -> search (S fuel) ok r prev before [] = ([], before).
Proof. intros H. cbn [search]. destruct (ok prev); [by rewrite H|done]. Qed.
