(* ===== verification/JsCoerce.v ===== *)
(** * Conversions between JavaScript types

    [String(v)] and [Number(v)] on values that come from JSON text, and what
    [toUpperCase], [toLowerCase] and [parseInt] give where the source compares the
    result with a literal or uses it as a number. [None] is a thrown TypeError. *)

From Stdlib Require Import ZArith SpecFloat.
From stdpp Require Import base numbers option list sorting.
From S2P Require Import Prelude Collections JsNumber JsValue Json Regex.

(** ** To string *)

(** [String(v)]. An object with a member of its own called [toString], which is never
    callable in a value from JSON, cannot be converted. *)
Fixpoint to_string (v : jsval) : option jstr :=
  match v with
  | JArr l =>
      join (u ",") <$>
        foldr (fun x acc => match acc, (match x with JUndef | JNull => Some [] | _ => to_string x end) with
                            | Some ss, Some s => Some (s :: ss)
                            | _, _ => None
                            end) (Some []) l
  | JObj ps => if map_has ps (u "toString") then None else Some (u "[object Object]")
  | JUndef => Some (u "undefined")
  | JNull => Some (u "null")
  | JBool b => Some (if b then u "true" else u "false")
  | JNum n => Some (num_str n)
  | JStr s => Some s
  end.

(** [x || y] on values. *)
Definition js_or (x y : jsval) : jsval := if truthy x then x else y.

(** [String(x ?? '')]. *)
Definition to_string_or_empty (x : jsval) : option jstr :=
  match x with JUndef | JNull => Some [] | _ => to_string x end.

(** ** To number *)

(** A text of digits, points, exponents and signs. *)
Definition number_exponent (s : jstr) : option Z :=
  match s with
  | [] => Some 0
  | c :: s =>
      if one_of (u "eE") c then
        let '(neg, ds) := match s with
                          | 45%N :: s => (true, s)
                          | 43%N :: s => (false, s)
                          | _ => (false, s)
                          end in
        if all_digits ds then Some (if neg : bool then - parse_digits ds else parse_digits ds) else None
      else None
  end.

Definition unsigned_number (neg : bool) (s : jstr) : option num :=
  let '(ip, s) := span_digits s in
  let '(fp, s) := match s with 46%N :: s => span_digits s | _ => ([], s) end in
  if (length (ip ++ fp) =? 0)%nat then None
  else
    e ← number_exponent s;
    Some (dec_to_num neg (N.of_uint (str_uint (ip ++ fp))) (e - Z.of_nat (length fp))).

Definition Number_text (s : jstr) : num :=
  match s with
  | [] => num_of_Z 0
  | 45%N :: s => default S754_nan (unsigned_number true s)
  | 43%N :: s => default S754_nan (unsigned_number false s)
  | _ => default S754_nan (unsigned_number false s)
  end.

Example Number_text_ex :
  map (fun s => num_str (Number_text s)) [u "2"; u "0.15"; u "1e-7"; u "1.5E+3"; u ".5"; u "3."; u "-2"; u "1.2.3"; u "3-1"]
  = [u "2"; u "0.15"; u "1e-7"; u "1500"; u "0.5"; u "3"; u "-2"; u "NaN"; u "NaN"].
Proof. vm_compute. reflexivity. Qed.

(** The digits of a literal with a radix prefix; the value is rounded once. *)
Fixpoint radix_digits (radix : N) (s : jstr) (acc : N) : option N :=
  match s with
  | [] => Some acc
  | c :: s => d ← hex_value c; if (d <? radix)%N then radix_digits radix s (acc * radix + d)%N else None
  end.

Definition radix_number (radix : N) (s : jstr) : num :=
  match s with
  | [] => S754_nan
  | _ => default S754_nan ((fun n => dec_to_num false n 0) <$> radix_digits radix s 0%N)
  end.

(** StringToNumber. *)
Definition string_to_number (s : jstr) : num :=
  let s := trim s in
  match s with
  | 48%N :: c :: s' =>
      if one_of (u "xX") c then radix_number 16 s'
      else if one_of (u "oO") c then radix_number 8 s'
      else if one_of (u "bB") c then radix_number 2 s'
      else Number_text s
  | _ =>
      if seqb s (u "Infinity") || seqb s (u "+Infinity") then S754_infinity false
      else if seqb s (u "-Infinity") then S754_infinity true
      else Number_text s
  end.

(** [Number(v)]: arrays and objects are converted to a string first. *)
Definition to_number (v : jsval) : option num :=
  match v with
  | JUndef => Some S754_nan
  | JNull => Some (num_of_Z 0)
  | JBool b => Some (num_of_Z (if b then 1 else 0))
  | JNum n => Some n
  | JStr s => Some (string_to_number s)
  | JArr _ | JObj _ => string_to_number <$> to_string v
  end.

Example to_number_ex :
  map (fun v => num_str <$> to_number v)
    [JStr (u " 404 "); JStr (u "0x1F4"); JArr [JNum (num_of_Z 429)]; JArr []; JObj []; JNull;
     JStr (u "4e2"); JObj [(u "toString", JNull)]; JStr (u "-Infinity")]
  = [Some (u "404"); Some (u "500"); Some (u "429"); Some (u "0"); Some (u "NaN"); Some (u "0");
     Some (u "400"); None; Some (u "-Infinity")].
Proof. vm_compute. reflexivity. Qed.

(** [parseInt(s, 10)]: the sign and the digits after leading spaces. *)
Definition parseInt (s : jstr) : num :=
  let '(neg, s) := match trimStart s with
                   | 45%N :: s => (true, s)
                   | 43%N :: s => (false, s)
                   | s => (false, s)
                   end in
  match (span_digits s).1 with
  | [] => S754_nan
  | ds => dec_to_num neg (N.of_uint (str_uint ds)) 0
  end.

(** ** Case *)

Definition ascii_upper (c : N) : N := if ((97 <=? c) && (c <=? 122))%N then (c - 32)%N else c.
Definition ascii_lower (c : N) : N := if ((65 <=? c) && (c <=? 90))%N then (c + 32)%N else c.

(** [s.toUpperCase() === lit] and [s.toLowerCase() === lit] for literals of ASCII
    letters to which no letter outside ASCII is mapped: any literal without I or S
    (and their ligatures) in upper case, and without i or k in lower case. *)
Definition upper_is (s lit : jstr) : bool := seqb (map ascii_upper s) lit.
Definition lower_is (s lit : jstr) : bool := seqb (map ascii_lower s) lit.
