(* ===== verification/BillingRules.v ===== *)
(** * Request rules of billing expressions (src/web/src/features/pricing/lib/billing-expr.ts)

    A billing expression is a price expression times any number of request rules,
    factors of the form (conditions ? multiplier : 1). The editor builds the text
    of the rules from conditions on parameters, headers and the time, splits an
    expression into price and rules, and parses the rules back.

    Where the source calls JSON.parse outside a try block, [None] is the exception
    it may throw; the inner option is the source's null. *)

From Stdlib Require Import ZArith SpecFloat.
From stdpp Require Import base numbers option list sorting.
From S2P Require Import Prelude Collections JsNumber JsValue Json JsonProps Regex.

(** ** Data *)

Definition SOURCE_PARAM : jstr := u "param".
Definition SOURCE_HEADER : jstr := u "header".
Definition SOURCE_TIME : jstr := u "time".

Definition MATCH_EQ : jstr := u "eq".
Definition MATCH_CONTAINS : jstr := u "contains".
Definition MATCH_GT : jstr := u "gt".
Definition MATCH_GTE : jstr := u "gte".
Definition MATCH_LT : jstr := u "lt".
Definition MATCH_LTE : jstr := u "lte".
Definition MATCH_EXISTS : jstr := u "exists".
Definition MATCH_RANGE : jstr := u "range".

Definition TIME_FUNCS : list jstr := [u "hour"; u "minute"; u "weekday"; u "month"; u "day"].

Inductive RequestCondition :=
| TimeCondition (timeFunc timezone mode value rangeStart rangeEnd : jstr)
| ParamHeaderCondition (source path mode value : jstr).

Record RequestRuleGroup := mkGroup { conditions : list RequestCondition; multiplier : jstr }.

(** [Partial<RequestCondition>]. *)
Record PartialCondition := mkPartial {
  pc_source : option jstr;
  pc_timeFunc : option jstr;
  pc_timezone : option jstr;
  pc_path : option jstr;
  pc_mode : option jstr;
  pc_value : option jstr;
  pc_rangeStart : option jstr;
  pc_rangeEnd : option jstr
}.

Definition as_partial (c : RequestCondition) : PartialCondition :=
  match c with
  | TimeCondition f tz m v s e =>
      mkPartial (Some SOURCE_TIME) (Some f) (Some tz) None (Some m) (Some v) (Some s) (Some e)
  | ParamHeaderCondition s p m v => mkPartial (Some s) None None (Some p) (Some m) (Some v) None None
  end.

(** ** Regular expressions *)

Definition digit : regex := Cls is_digit.

(** /^-?(?:\d+\.?\d*|\.\d+)(?:[eE][+-]?\d+)?$/ *)
Definition NUMERIC_LITERAL_REGEX : regex := seqs [
  Opt (Lit (u "-"));
  Alt (seqs [Plus digit; Opt (Lit (u ".")); Star digit]) (seqs [Lit (u "."); Plus digit]);
  Opt (seqs [Cls (one_of (u "eE")); Opt (Cls (one_of (u "+-"))); Plus digit])].

(** The characters of numbers, those other than a quote, and the dot without the
    s flag. *)
Definition num_char (c : N) : bool := is_digit c || one_of (u ".eE+-") c.
Definition not_quote (c : N) : bool := negb (c =? 34)%N.
Definition dot (c : N) : bool := negb (one_of [10; 13; 8232; 8233]%N c).

Definition number (i : nat) : regex := Grp i (Plus (Cls num_char)).
Definition name (i : nat) : regex := Grp i (Plus (Cls not_quote)).

(** A JSON string literal: neither quote nor backslash, or a backslash and any
    character, between quotes. *)
Definition string_literal : regex :=
  seqs [Lit (uq "'"); Star (Alt (Cls (fun c => negb ((c =? 34) || (c =? 92))%N)) (Seq (Lit (u "\")) (Cls dot)));
        Lit (uq "'")].

Definition time_func : regex := Grp 1 (alts (map Lit TIME_FUNCS)).

Definition time_range : regex := seqs [
  time_func; Lit (uq "('"); name 2; Lit (uq "') >= "); number 3; Lit (u " || ");
  Back 1; Lit (uq "('"); Back 2; Lit (uq "') < "); number 4].

Definition time_compare : regex := seqs [
  time_func; Lit (uq "('"); name 2; Lit (uq "') "); Grp 3 (alts (map Lit [u "=="; u ">="; u "<"]));
  Lit (u " "); number 4].

Definition header_exists : regex := seqs [Lit (uq "header('"); name 1; Lit (uq "') != ''")].
Definition param_exists : regex := seqs [Lit (uq "param('"); name 1; Lit (uq "') != nil")].
Definition header_contains : regex :=
  seqs [Lit (uq "has(header('"); name 1; Lit (uq "'), "); Grp 2 string_literal; Lit (u ")")].
Definition param_contains : regex := seqs [
  Lit (uq "param('"); name 1; Lit (uq "') != nil && has(param('"); name 2; Lit (uq "'), ");
  Grp 3 string_literal; Lit (u ")")].
Definition param_compare : regex := seqs [
  Lit (uq "param('"); name 1; Lit (uq "') != nil && param('"); name 2; Lit (uq "') ");
  Grp 3 (alts (map Lit [u ">"; u ">="; u "<"; u "<="])); Lit (u " "); number 4].
Definition equals : regex := seqs [
  Grp 1 (alts (map Lit [u "param"; u "header"])); Lit (uq "('"); name 2; Lit (uq "') == ");
  Grp 3 (Plus (Cls dot))].

Definition rule_factor : regex := seqs [
  Lit (u "("); Grp 1 (Plus (Cls (fun _ => true))); Lit (u " ? "); number 2; Lit (u " : 1)")].

(** ** Parsing *)

(** The loop shared by [splitTopLevelMultiply] and [splitTopLevelAnd]: [skip] are
    the characters of a separator still to be stepped over, [cur] is the text
    since [start]. *)
Fixpoint split_loop (sep s : jstr) (skip : nat) (depth : Z) (cur : jstr) : list jstr :=
  match s with
  | [] => [trim cur]
  | c :: s' =>
      match skip with
      | S skip => split_loop sep s' skip depth cur
      | O =>
          let depth := if (c =? 40)%N then depth + 1 else depth in
          let depth := if (c =? 41)%N then depth - 1 else depth in
          if (depth =? 0) && startsWith s sep
          then trim cur :: split_loop sep s' (length sep - 1) depth []
          else split_loop sep s' 0 depth (cur ++ [c])
      end
  end.

Definition splitTopLevelMultiply (expr : jstr) : list jstr :=
  List.filter str_truthy (split_loop (u " * ") expr 0 0 []).

Definition splitTopLevelAnd (expr : jstr) : list jstr :=
  List.filter str_truthy (split_loop (u " && ") expr 0 0 []).

(** [JNull] where the source returns null. *)
Definition parseExprLiteral (raw : jstr) : jsval :=
  let text := trim raw in
  if seqb text (u "true") || seqb text (u "false") then JStr text
  else if rtest NUMERIC_LITERAL_REGEX text then JStr text
  else default JNull (JSON_parse text).

Definition tryParseTimeCondition (expr : jstr) : option RequestCondition :=
  let range m := TimeCondition (group_of m 1) (group_of m 2) MATCH_RANGE [] (group_of m 3) (group_of m 4) in
  match rexec time_range expr with
  | Some m => Some (range m)
  | None =>
      match rexec (seqs [Lit (u "("); time_range; Lit (u ")")]) expr with
      | Some m => Some (range m)
      | None =>
          match rexec time_compare expr with
          | Some m =>
              let opMap := [(u "==", MATCH_EQ); (u ">=", MATCH_GTE); (u "<", MATCH_LT)] in
              Some (TimeCondition (group_of m 1) (group_of m 2)
                      (str_or (default [] (map_get opMap (group_of m 3))) MATCH_EQ) (group_of m 4) [] [])
          | None => None
          end
      end
  end.

Definition orElse {A} (x : option A) (f : A -> option (option RequestCondition))
    (rest : option (option RequestCondition)) : option (option RequestCondition) :=
  match x with Some m => f m | None => rest end.

Definition guard_match (same : captures -> bool) (m : option captures) : option captures :=
  match m with Some cs => if same cs then m else None | None => None end.

Definition same_name (m : captures) : bool := seqb (group_of m 1) (group_of m 2).

(** [value: JSON.parse(text) as string]. *)
Definition contains_condition (source path text : jstr) : option (option RequestCondition) :=
  match JSON_parse text with
  | Some (JStr v) => Some (Some (ParamHeaderCondition source path MATCH_CONTAINS v))
  | _ => None
  end.

Definition tryParseRequestCondition (expr : jstr) : option (option RequestCondition) :=
  orElse (tryParseTimeCondition expr) (fun tc => Some (Some tc)) (
  orElse (rexec header_exists expr)
    (fun m => Some (Some (ParamHeaderCondition SOURCE_HEADER (group_of m 1) MATCH_EXISTS []))) (
  orElse (rexec param_exists expr)
    (fun m => Some (Some (ParamHeaderCondition SOURCE_PARAM (group_of m 1) MATCH_EXISTS []))) (
  orElse (rexec header_contains expr)
    (fun m => contains_condition SOURCE_HEADER (group_of m 1) (group_of m 2)) (
  orElse (guard_match same_name (rexec param_contains expr))
    (fun m => contains_condition SOURCE_PARAM (group_of m 1) (group_of m 3)) (
  orElse (guard_match same_name (rexec param_compare expr))
    (fun m =>
       let opMap := [(u ">", MATCH_GT); (u ">=", MATCH_GTE); (u "<", MATCH_LT); (u "<=", MATCH_LTE)] in
       Some (Some (ParamHeaderCondition SOURCE_PARAM (group_of m 1)
                     (default [] (map_get opMap (group_of m 3))) (group_of m 4)))) (
  orElse (rexec equals expr)
    (fun m => match parseExprLiteral (group_of m 3) with
              | JNull => Some None
              | v => Some (Some (ParamHeaderCondition (group_of m 1) (group_of m 2) MATCH_EQ (to_str v)))
              end)
    (Some None))))))).

(** A loop that parses every part and returns null at the first that is not one. *)
Fixpoint parse_all {A} (parse : jstr -> option (option A)) (parts : list jstr) : option (option (list A)) :=
  match parts with
  | [] => Some (Some [])
  | part :: parts' =>
      match parse part with
      | None => None
      | Some None => Some None
      | Some (Some x) => option_map (option_map (cons x)) (parse_all parse parts')
      end
  end.

Definition tryParseRuleGroupFactor (part : jstr) : option (option RequestRuleGroup) :=
  match rexec rule_factor part with
  | None => Some None
  | Some m =>
      match parse_all (fun ap => tryParseRequestCondition (trim ap)) (splitTopLevelAnd (group_of m 1)) with
      | None => None
      | Some None | Some (Some []) => Some None
      | Some (Some conditions) => Some (Some (mkGroup conditions (group_of m 2)))
      end
  end.

Definition tryParseRequestRuleExpr (expr : jstr) : option (option (list RequestRuleGroup)) :=
  let trimmed := trim expr in
  if negb (str_truthy trimmed) then Some (Some [])
  else parse_all tryParseRuleGroupFactor (splitTopLevelMultiply trimmed).

(** ** Splitting and combining *)

(** The loop of [hasFullOuterParens]: whether the depth returns to zero before the
    last character, and the final depth. *)
Fixpoint outer_loop (s : jstr) (depth : Z) : bool :=
  match s with
  | [] => depth =? 0
  | c :: s' =>
      let depth := if (c =? 40)%N then depth + 1 else depth in
      let depth := if (c =? 41)%N then depth - 1 else depth in
      if (depth =? 0) && negb (bool_decide (s' = [])) then false else outer_loop s' depth
  end.

Definition endsWith (s p : jstr) : bool := startsWith (reverse s) (reverse p).

Definition hasFullOuterParens (expr : jstr) : bool :=
  startsWith expr (u "(") && endsWith expr (u ")") && outer_loop expr 0.

(** [current.slice(1, -1)]. *)
Definition inner (s : jstr) : jstr := removelast (drop 1 s).

(** Every turn drops two characters, so the length of the text is enough fuel. *)
Fixpoint unwrap_loop (fuel : nat) (current : jstr) : jstr :=
  match fuel with
  | O => current
  | S fuel => if hasFullOuterParens current then unwrap_loop fuel (trim (inner current)) else current
  end.

Definition unwrapOuterParens (expr : jstr) : jstr := unwrap_loop (length (trim expr)) (trim expr).

(** Parts that are request rules, and the others. *)
Fixpoint classify (parts : list jstr) : option (list jstr * list jstr) :=
  match parts with
  | [] => Some ([], [])
  | part :: parts' =>
      parsed ← tryParseRequestRuleExpr part;
      '(rules, bases) ← classify parts';
      Some (match parsed with
            | Some (_ :: _) => (part :: rules, bases)
            | _ => (rules, part :: bases)
            end)
  end.

(** The billing expression and the request rules. *)
Definition splitBillingExprAndRequestRules (expr : jstr) : option (jstr * jstr) :=
  let trimmed := trim expr in
  if negb (str_truthy trimmed) then Some ([], [])
  else
    let parts := splitTopLevelMultiply trimmed in
    if (length parts <=? 1)%nat then Some (trimmed, [])
    else match classify parts with
         | None => None
         | Some ([], _) => Some (trimmed, [])
         | Some (ruleParts, [base]) => Some (unwrapOuterParens base, join (u " * ") ruleParts)
         | Some _ => Some (trimmed, [])
         end.

Definition combineBillingExpr (baseExpr requestRuleExpr : jstr) : jstr :=
  let base := trim baseExpr in
  let rules := trim requestRuleExpr in
  if negb (str_truthy base) then []
  else if negb (str_truthy rules) then base
  else u "(" ++ base ++ u ") * " ++ rules.

(** ** Editing *)

Definition createEmptyCondition : RequestCondition := ParamHeaderCondition SOURCE_PARAM [] MATCH_EQ [].

Definition createEmptyTimeCondition : RequestCondition :=
  TimeCondition (u "hour") (u "Asia/Shanghai") MATCH_GTE [] [] [].

Definition createEmptyRuleGroup : RequestRuleGroup := mkGroup [createEmptyCondition] [].

Definition createEmptyTimeRuleGroup : RequestRuleGroup := mkGroup [createEmptyTimeCondition] [].

(** The values and the keys of their labels. *)
Definition getRequestRuleMatchOptions (source : jstr) : list (jstr * jstr) :=
  if seqb source SOURCE_TIME then
    [(MATCH_EQ, u "Equals"); (MATCH_GTE, u "Greater than or equal"); (MATCH_LT, u "Less than");
     (MATCH_RANGE, u "Overnight range")]
  else
    let base := [(MATCH_EQ, u "Equals"); (MATCH_CONTAINS, u "Contains"); (MATCH_EXISTS, u "Exists")] in
    if seqb source SOURCE_HEADER then base
    else base ++ [(MATCH_GT, u "Greater than"); (MATCH_GTE, u "Greater than or equal");
                  (MATCH_LT, u "Less than"); (MATCH_LTE, u "Less than or equal")].

Definition isTimeFunc (value : option jstr) : bool :=
  match value with Some f => bool_decide (f ∈ TIME_FUNCS) | None => false end.

(** The mode where it is offered for the source, else the default. *)
Definition offered_mode (source : jstr) (mode : option jstr) (d : jstr) : jstr :=
  match mode with
  | Some m => if bool_decide (m ∈ (getRequestRuleMatchOptions source).*1) then m else d
  | None => d
  end.

Definition normalizeCondition (cond : option PartialCondition) : RequestCondition :=
  let field (f : PartialCondition -> option jstr) := cond ≫= f in
  let source :=
    if bool_decide (field pc_source = Some SOURCE_TIME) then SOURCE_TIME
    else if bool_decide (field pc_source = Some SOURCE_HEADER) then SOURCE_HEADER
    else SOURCE_PARAM in
  if seqb source SOURCE_TIME then
    TimeCondition
      (if isTimeFunc (field pc_timeFunc) then default [] (field pc_timeFunc) else u "hour")
      (str_or (default [] (field pc_timezone)) (u "Asia/Shanghai"))
      (offered_mode SOURCE_TIME (field pc_mode) MATCH_GTE)
      (default [] (field pc_value)) (default [] (field pc_rangeStart)) (default [] (field pc_rangeEnd))
  else
    ParamHeaderCondition source (default [] (field pc_path))
      (offered_mode source (field pc_mode) MATCH_EQ) (default [] (field pc_value)).

(** ** Building *)

Definition buildExprLiteral (mode value : jstr) : jstr :=
  let text := trim value in
  if seqb mode MATCH_CONTAINS then quote text
  else if seqb text (u "true") || seqb text (u "false") then text
  else if rtest NUMERIC_LITERAL_REGEX text then text
  else quote text.

Definition build_time (timeFunc timezone mode value rangeStart rangeEnd : jstr) : jstr :=
  let fn := timeFunc ++ u "(" ++ quote timezone ++ u ")" in
  if seqb mode MATCH_RANGE then
    let s := trim rangeStart in
    let e := trim rangeEnd in
    if negb (rtest NUMERIC_LITERAL_REGEX s) || negb (rtest NUMERIC_LITERAL_REGEX e) then []
    else fn ++ u " >= " ++ s ++ u " || " ++ fn ++ u " < " ++ e
  else
    let v := trim value in
    if negb (rtest NUMERIC_LITERAL_REGEX v) then []
    else
      let opMap := [(MATCH_EQ, u "=="); (MATCH_GTE, u ">="); (MATCH_LT, u "<")] in
      fn ++ u " " ++ str_or (default [] (map_get opMap mode)) (u "==") ++ u " " ++ v.

Definition build_param_header (source path0 mode value : jstr) : jstr :=
  let path := trim path0 in
  if negb (str_truthy path) then []
  else
    let header := seqb source SOURCE_HEADER in
    let sourceExpr := (if header then u "header(" else u "param(") ++ quote path ++ u ")" in
    let opMap := [(MATCH_GT, u ">"); (MATCH_GTE, u ">="); (MATCH_LT, u "<"); (MATCH_LTE, u "<=")] in
    if seqb mode MATCH_EXISTS then sourceExpr ++ (if header then uq " != ''" else u " != nil")
    else if seqb mode MATCH_CONTAINS then
      let has := u "has(" ++ sourceExpr ++ u ", " ++ buildExprLiteral mode value ++ u ")" in
      if header then has else sourceExpr ++ u " != nil && " ++ has
    else match map_get opMap mode with
         | Some op =>
             let numText := trim value in
             if negb (rtest NUMERIC_LITERAL_REGEX numText) then []
             else sourceExpr ++ u " != nil && " ++ sourceExpr ++ u " " ++ op ++ u " " ++ numText
         | None => sourceExpr ++ u " == " ++ buildExprLiteral mode value
         end.

Definition buildRequestConditionExpr (cond : RequestCondition) : jstr :=
  match normalizeCondition (Some (as_partial cond)) with
  | TimeCondition f tz m v s e => build_time f tz m v s e
  | ParamHeaderCondition s p m v => build_param_header s p m v
  end.

Definition buildRuleGroupFactor (group : RequestRuleGroup) : jstr :=
  let multiplier := trim (multiplier group) in
  if negb (rtest NUMERIC_LITERAL_REGEX multiplier) then []
  else
    let condExprs := List.filter str_truthy (map buildRequestConditionExpr (conditions group)) in
    match condExprs with
    | [] => []
    | _ =>
        let combined :=
          match condExprs with
          | [e] => e
          | _ => join (u " && ")
                   (map (fun e => if includes e (u " || ") then u "(" ++ e ++ u ")" else e) condExprs)
          end in
        u "(" ++ combined ++ u " ? " ++ multiplier ++ u " : 1)"
    end.

Definition buildRequestRuleExpr (groups : list RequestRuleGroup) : jstr :=
  join (u " * ") (List.filter str_truthy (map buildRuleGroupFactor groups)).

Definition demo_groups : list RequestRuleGroup := [
  mkGroup [ParamHeaderCondition SOURCE_PARAM (u " service_tier ") MATCH_EQ (u "fast");
           TimeCondition (u "hour") (u "UTC") MATCH_RANGE [] (u "21") (u "6")] (u "0.5");
  mkGroup [ParamHeaderCondition SOURCE_HEADER (u "x-beta") MATCH_CONTAINS (u "a,b")] (u " 2 ")].

Example build_ex : buildRequestRuleExpr demo_groups =
  uq "(param('service_tier') == 'fast' && (hour('UTC') >= 21 || hour('UTC') < 6) ? 0.5 : 1) * (has(header('x-beta'), 'a,b') ? 2 : 1)".
Proof. vm_compute. reflexivity. Qed.

Example parse_ex : tryParseRequestRuleExpr (buildRequestRuleExpr demo_groups) = Some (Some [
  mkGroup [ParamHeaderCondition SOURCE_PARAM (u "service_tier") MATCH_EQ (u "fast");
           TimeCondition (u "hour") (u "UTC") MATCH_RANGE [] (u "21") (u "6")] (u "0.5");
  mkGroup [ParamHeaderCondition SOURCE_HEADER (u "x-beta") MATCH_CONTAINS (u "a,b")] (u "2")]).
Proof. vm_compute. reflexivity. Qed.

Example split_ex : splitBillingExprAndRequestRules
    (combineBillingExpr (uq "tier('base', p * 2 + c * 4)") (buildRequestRuleExpr demo_groups))
  = Some (uq "tier('base', p * 2 + c * 4)", buildRequestRuleExpr demo_groups).
Proof. vm_compute. reflexivity. Qed.

Example compare_ex :
  let e := buildRequestRuleExpr
    [mkGroup [ParamHeaderCondition SOURCE_PARAM (u "max_tokens") MATCH_GT (u "1000")] (u "2")] in
  e = uq "(param('max_tokens') != nil && param('max_tokens') > 1000 ? 2 : 1)"
  /\ tryParseRequestRuleExpr e = Some None.
Proof. vm_compute. split; reflexivity. Qed.

Example throw_ex : tryParseRequestRuleExpr (uq "(has(header('x'), 'a\q') ? 2 : 1)") = None.
Proof. vm_compute. reflexivity. Qed.
