(* ===== verification/BillingRulesProps.v ===== *)
(** * Properties of request rules

    The rules the editor builds parse back to the normalized conditions, and an
    expression splits into the price and the rules it was combined from, for names
    and values without the characters that the text format gives a meaning. The
    comparisons and containment tests of parameters are the exception. *)

From Stdlib Require Import ZArith SpecFloat.
From stdpp Require Import base numbers option list sorting.
From S2P Require Import Prelude Collections JsNumber JsValue Json JsonProps Regex BillingRules.

(** ** Plain text

    No quote, backslash, parenthesis, ampersand or bar, no control character or
    line separator, and no surrogate. *)

Definition special : jstr := uq "'\()&|" ++ [8232; 8233]%N.

Definition plain (c : N) : Prop :=
  (32 <= c < 65536)%N /\ one_of special c = false /\ is_high c = false /\ is_low c = false.

Abbreviation plain_text s := (Forall plain s).

Definition is_plain (c : N) : bool :=
  (32 <=? c)%N && (c <? 65536)%N && negb (one_of special c) && negb (is_high c) && negb (is_low c).

Lemma plain_checked s : forallb is_plain s = true -> plain_text s.
Proof.
  intros H. apply Forall_forall. intros c Hc. rewrite forallb_forall in H.
  apply list_elem_of_In, H in Hc. unfold is_plain in Hc.
  apply andb_true_iff in Hc as [Hc H1%negb_true_iff]. apply andb_true_iff in Hc as [Hc H2%negb_true_iff].
  apply andb_true_iff in Hc as [Hc H3%negb_true_iff].
  apply andb_true_iff in Hc as [H4%N.leb_le H5%N.ltb_lt]. by split_and!.
Qed.

Lemma plain_ne c d : plain c -> one_of special d = true -> c <> d.
Proof. intros (_ & H & _) Hd ->. congruence. Qed.

Lemma plain_not_quote c : plain c -> not_quote c = true.
Proof.
  intros H. unfold not_quote. apply negb_true_iff, N.eqb_neq. by apply (plain_ne _ 34%N).
Qed.

Lemma plain_quote_unit c : plain c -> quote_unit c = [c].
Proof.
  intros H. pose proof (plain_ne c 34%N H eq_refl). pose proof (plain_ne c 92%N H eq_refl).
  destruct H as (H & _ & Hh & Hl). unfold quote_unit. rewrite Hh, Hl.
  repeat match goal with |- context [(c =? ?n)%N] =>
    replace (c =? n)%N with false by (symmetry; apply N.eqb_neq; lia) end.
  by replace (c <? 32)%N with false by (symmetry; apply N.ltb_ge; lia).
Qed.

Lemma plain_quote_body s : plain_text s -> quote_body s = s.
Proof.
  induction 1 as [|c s Hc Hs IH]; [done|]. cbn [quote_body]. destruct s as [|d s].
  - by apply plain_quote_unit.
  - destruct Hc as (Hc & Hm & Hh & Hl). rewrite Hh. cbn [andb]. rewrite IH.
    by rewrite plain_quote_unit.
Qed.

Lemma plain_quote s : plain_text s -> quote s = 34%N :: s ++ [34%N].
Proof. intros H. unfold quote. by rewrite plain_quote_body. Qed.

Lemma JSON_parse_quote s : plain_text s -> JSON_parse (quote s) = Some (JStr s).
Proof.
  intros H. destruct (stringify_parse [] (JStr s)) as (t & Ht & Hp & _).
  - apply Forall_impl with (1 := H). intros c [Hc _]. lia.
  - constructor.
  - injection Ht as <-. done.
Qed.

(** ** Numbers *)

Definition numeric (s : jstr) : Prop := rtest NUMERIC_LITERAL_REGEX s = true.

Lemma one_of_digit_chars c : is_digit c = true -> num_char c = true.
Proof. unfold num_char. by intros ->. Qed.

Lemma one_of_sub l c : one_of l c = true -> (forall x, x ∈ l -> num_char x = true) -> num_char c = true.
Proof. unfold one_of. intros H Hx. apply bool_decide_eq_true_1 in H. by apply Hx. Qed.

Lemma numeric_chars s : numeric s -> s <> [] /\ Forall (fun c => num_char c = true) s.
Proof.
  intros H. split; [by intros ->|]. revert H. apply rtest_over.
  assert (forall l, Forall (fun x => num_char x = true) l -> forall c, one_of l c = true -> num_char c = true) as O.
  { intros l Hl c Hc. apply (one_of_sub l c Hc). by apply Forall_forall. }
  unfold NUMERIC_LITERAL_REGEX, Opt, Plus, digit. cbn [seqs over].
  split_and!; try exact one_of_digit_chars; try (apply O); by repeat constructor.
Qed.

Lemma num_char_plain c : num_char c = true -> plain c.
Proof.
  unfold num_char. intros H. apply orb_true_iff in H as [H|H].
  - unfold is_digit in H. apply andb_true_iff in H as [H1 H2]. apply N.leb_le in H1, H2.
    split; [lia|]. split; [|split].
    + unfold one_of. apply bool_decide_eq_false_2.
      change special with [34; 92; 40; 41; 38; 124; 8232; 8233]%N. rewrite !elem_of_cons, elem_of_nil. lia.
    + unfold is_high. apply andb_false_iff. left. apply N.leb_gt. lia.
    + unfold is_low. apply andb_false_iff. left. apply N.leb_gt. lia.
  - unfold one_of in H. apply bool_decide_eq_true_1 in H. change (u ".eE+-") with [46; 101; 69; 43; 45]%N in H.
    rewrite !elem_of_cons, elem_of_nil in H. by intuition (subst; split; [lia|done]).
Qed.

Lemma num_char_not_space c : num_char c = true -> is_space c = false.
Proof.
  unfold num_char. intros H. apply orb_true_iff in H as [H|H]; [by apply digit_not_space|].
  unfold one_of in H. apply bool_decide_eq_true_1 in H. change (u ".eE+-") with [46; 101; 69; 43; 45]%N in H.
  rewrite !elem_of_cons, elem_of_nil in H. by intuition subst.
Qed.

Lemma numeric_plain s : numeric s -> plain_text s.
Proof. intros [_ H]%numeric_chars. by apply Forall_impl with (1 := H), num_char_plain. Qed.

Lemma numeric_trimmed s : numeric s -> trim s = s.
Proof.
  intros [_ H]%numeric_chars. apply trim_trimmed, trimmed_no_space.
  by apply Forall_impl with (1 := H), num_char_not_space.
Qed.

(** ** Matching the parts *)

Lemma rmatch_name {A} i a b cs (k : jstr -> captures -> option A) :
  a <> [] -> plain_text a -> head b = Some 34%N -> (forall c s cs, c <> 34%N -> k (c :: s) cs = None) ->
  rmatch (name i) (a ++ b) cs k = k b (map_set cs i a).
Proof.
  intros Hne Ha Hb Hk. destruct b as [|c b]; [done|]. injection Hb as ->. apply rmatch_grp_run; [done| |done|].
  - by apply Forall_impl with (1 := Ha), plain_not_quote.
  - intros c s cs' Hc. apply Hk. intros ->. done.
Qed.

Lemma rmatch_number {A} i a b cs (k : jstr -> captures -> option A) :
  numeric a -> (match b with [] => True | c :: _ => num_char c = false end) ->
  (forall c s cs, num_char c = true -> k (c :: s) cs = None) ->
  rmatch (number i) (a ++ b) cs k = k b (map_set cs i a).
Proof. intros [Hne Ha]%numeric_chars Hb Hk. by apply rmatch_grp_run. Qed.

Lemma rmatch_string {A} a b cs (k : jstr -> captures -> option A) :
  plain_text a -> rmatch string_literal (34%N :: a ++ 34%N :: b) cs k = k b cs.
Proof.
  intros Ha. unfold string_literal. cbn [seqs]. rewrite !rmatch_seq.
  change (34%N :: a ++ 34%N :: b) with (uq "'" ++ (a ++ 34%N :: b)). rewrite rmatch_lit, rmatch_seq.
  rewrite (rmatch_star_body _ (fun c => negb ((c =? 34) || (c =? 92))%N)).
  - change (34%N :: b) with (uq "'" ++ b). by rewrite rmatch_lit.
  - intros c s k' Hc. cbn [rmatch]. rewrite Hc. destruct (k' s cs); [done|].
    apply negb_true_iff, orb_false_iff in Hc as [_ Hc]. change (u "\") with [92%N]. cbn [startsWith].
    by rewrite Hc.
  - done.
  - apply Forall_impl with (1 := Ha). intros c Hc. apply negb_true_iff, orb_false_iff.
    split; apply N.eqb_neq; by apply (plain_ne c).
  - intros c s Hc. eapply rmatch_lit_ne; [reflexivity|]. intros ->. done.
Qed.

Lemma take_front {A} (a b : list A) : take (length (a ++ b) - length b) (a ++ b) = a.
Proof. rewrite length_app, Nat.add_sub. apply take_app_length. Qed.

Lemma rmatch_grp_string {A} i a b cs (k : jstr -> captures -> option A) :
  plain_text a ->
  rmatch (Grp i string_literal) (34%N :: a ++ 34%N :: b) cs k = k b (map_set cs i (34%N :: a ++ [34%N])).
Proof.
  intros Ha.
  change (rmatch (Grp i ?r) ?s cs k) with
    (rmatch r s cs (fun s' cs' => k s' (map_set cs' i (take (length s - length s') s)))).
  rewrite rmatch_string by done. do 2 f_equal.
  replace (34%N :: a ++ 34%N :: b) with ((34%N :: a ++ [34%N]) ++ b) by (cbn; by rewrite <- app_assoc).
  apply take_front.
Qed.

Lemma rmatch_grp_lits {A} i l x s cs (k : jstr -> captures -> option A) :
  x ∈ l -> (forall z, z ∈ l -> z <> x -> startsWith (x ++ s) z = false) ->
  rmatch (Grp i (alts (map Lit l))) (x ++ s) cs k = k s (map_set cs i x).
Proof.
  intros Hx Hl.
  change (rmatch (Grp i ?r) ?s cs k) with
    (rmatch r s cs (fun s' cs' => k s' (map_set cs' i (take (length s - length s') s)))).
  rewrite rmatch_alts_lit by done. by rewrite take_front.
Qed.

(** The next literal cannot match here. *)
Ltac next_fails :=
  intros; rewrite ?rmatch_seq; first [done | eapply rmatch_lit_ne; [reflexivity|]; first [done | by intros ->]].

(** ** The forms of a condition *)

Definition header_exists_text (path : jstr) : jstr := uq "header('" ++ path ++ uq "') != ''".
Definition param_exists_text (path : jstr) : jstr := uq "param('" ++ path ++ uq "') != nil".
Definition header_contains_text (path v : jstr) : jstr :=
  uq "has(header('" ++ path ++ uq "'), " ++ 34%N :: v ++ 34%N :: u ")".
Definition equals_text (source path literal : jstr) : jstr :=
  source ++ uq "('" ++ path ++ uq "') == " ++ literal.
Definition time_range_text (f tz s e : jstr) : jstr :=
  f ++ uq "('" ++ tz ++ uq "') >= " ++ s ++ u " || " ++ f ++ uq "('" ++ tz ++ uq "') < " ++ e.
Definition time_compare_text (f tz op v : jstr) : jstr := f ++ uq "('" ++ tz ++ uq "') " ++ op ++ u " " ++ v.

Lemma header_exists_match path : path <> [] -> plain_text path ->
  rexec header_exists (header_exists_text path) = Some [(1%nat, path)].
Proof.
  intros Hne Hp. unfold rexec, header_exists, header_exists_text. cbn [seqs].
  rewrite !rmatch_seq, rmatch_lit, rmatch_seq.
  rewrite rmatch_name by (done || next_fails).
  reflexivity.
Qed.

Ltac rstep :=
  first [ rewrite rmatch_seq | rewrite rmatch_lit | rewrite rmatch_name by (done || next_fails)
        | rewrite rmatch_grp_string by done | rewrite rmatch_number by (done || next_fails) ].

Ltac rrun := cbn [seqs]; repeat rstep; reflexivity.

Lemma param_exists_match path : path <> [] -> plain_text path ->
  rexec param_exists (param_exists_text path) = Some [(1%nat, path)].
Proof. intros Hne Hp. unfold rexec, param_exists, param_exists_text. rrun. Qed.

Lemma header_contains_match path v : path <> [] -> plain_text path -> plain_text v ->
  rexec header_contains (header_contains_text path v) = Some [(1%nat, path); (2%nat, 34%N :: v ++ [34%N])].
Proof. intros Hne Hp Hv. unfold rexec, header_contains, header_contains_text. rrun. Qed.

(** The lists of literals of the expressions have no prefixes of one another. *)
Ltac lits_differ := 
  let z := fresh in let Hz := fresh in
  intros z Hz; cbn [TIME_FUNCS] in Hz; rewrite !elem_of_cons, elem_of_nil in Hz;
  destruct_or? Hz; subst; first [done | by intros []].

Lemma dot_plain c : plain c -> dot c = true.
Proof.
  intros H. pose proof (plain_ne c 8232%N H eq_refl). pose proof (plain_ne c 8233%N H eq_refl).
  destruct H as [H _]. unfold dot. apply negb_true_iff. unfold one_of. apply bool_decide_eq_false_2.
  rewrite !elem_of_cons, elem_of_nil. lia.
Qed.

Lemma equals_match source path literal : source ∈ [SOURCE_PARAM; SOURCE_HEADER] ->
  path <> [] -> plain_text path -> literal <> [] -> Forall (fun c => dot c = true) literal ->
  rexec equals (equals_text source path literal) = Some [(1%nat, source); (2%nat, path); (3%nat, literal)].
Proof.
  intros Hs Hne Hp Hl Hd. unfold rexec, equals, equals_text. cbn [seqs]. rewrite 2!rmatch_seq.
  rewrite rmatch_grp_lits; [|done|apply list_elem_of_In in Hs as [<-|[<-|[]]]; lits_differ].
  repeat rstep. rewrite <- (app_nil_r literal) at 1. rewrite rmatch_grp_run by done.
  by apply list_elem_of_In in Hs as [<-|[<-|[]]].
Qed.

Lemma equals_not_exists source path literal : source ∈ [SOURCE_PARAM; SOURCE_HEADER] ->
  path <> [] -> plain_text path ->
  rexec header_exists (equals_text source path literal) = None
  /\ rexec param_exists (equals_text source path literal) = None
  /\ rexec header_contains (equals_text source path literal) = None
  /\ rexec param_contains (equals_text source path literal) = None
  /\ rexec param_compare (equals_text source path literal) = None.
Proof.
  intros Hs Hne Hp. unfold equals_text. apply list_elem_of_In in Hs as [<-|[<-|[]]];
    split_and!; try reflexivity;
    unfold rexec, header_exists, param_exists, param_contains, param_compare; cbn [seqs]; rewrite 2!rmatch_seq.
  1-3: change (SOURCE_PARAM ++ uq "('" ++ ?s) with (uq "param('" ++ s); rrun.
  change (SOURCE_HEADER ++ uq "('" ++ ?s) with (uq "header('" ++ s); rrun.
Qed.

Lemma equals_not_time source path literal : source ∈ [SOURCE_PARAM; SOURCE_HEADER] ->
  tryParseTimeCondition (equals_text source path literal) = None.
Proof. intros Hs. by apply list_elem_of_In in Hs as [<-|[<-|[]]]. Qed.

Lemma rmatch_back {A} i p s cs (k : jstr -> captures -> option A) :
  map_get cs i = Some p -> rmatch (Back i) (p ++ s) cs k = k s cs.
Proof. intros H. cbn [rmatch]. rewrite H. apply (rmatch_lit p s cs k). Qed.

Lemma time_func_prefix f s : f ∈ TIME_FUNCS ->
  forall z, z ∈ TIME_FUNCS -> z <> f -> startsWith (f ++ s) z = false.
Proof.
  intros Hf z Hz. apply list_elem_of_In in Hf, Hz.
  destruct Hf as [<-|[<-|[<-|[<-|[<-|[]]]]]], Hz as [<-|[<-|[<-|[<-|[<-|[]]]]]]; done.
Qed.

Lemma rmatch_time_func {A} f s cs (k : jstr -> captures -> option A) : f ∈ TIME_FUNCS ->
  rmatch time_func (f ++ s) cs k = k s (map_set cs 1%nat f).
Proof. intros Hf. by apply rmatch_grp_lits, time_func_prefix. Qed.

Lemma time_range_rmatch {A} f tz s e t cs (k : jstr -> captures -> option A) y :
  f ∈ TIME_FUNCS -> tz <> [] -> plain_text tz -> numeric s -> numeric e ->
  (match t with [] => True | c :: _ => num_char c = false end) ->
  (forall c s cs, num_char c = true -> k (c :: s) cs = None) ->
  cs = [] -> k t [(1%nat, f); (2%nat, tz); (3%nat, s); (4%nat, e)] = Some y ->
  rmatch time_range (time_range_text f tz s e ++ t) cs k = Some y.
Proof.
  intros Hf Hne Htz Hs He Ht Hk -> Hy. unfold time_range, time_range_text. cbn [seqs]. rewrite <- !app_assoc.
  rewrite rmatch_seq, rmatch_time_func by done. repeat rstep. rewrite rmatch_back by done. repeat rstep. rewrite rmatch_back by done. repeat rstep.
  done.
Qed.

Lemma time_range_parse f tz s e : f ∈ TIME_FUNCS -> tz <> [] -> plain_text tz -> numeric s -> numeric e ->
  tryParseTimeCondition (time_range_text f tz s e) = Some (TimeCondition f tz MATCH_RANGE [] s e)
  /\ tryParseTimeCondition (u "(" ++ time_range_text f tz s e ++ u ")")
     = Some (TimeCondition f tz MATCH_RANGE [] s e).
Proof.
  intros Hf Hne Htz Hs He. unfold tryParseTimeCondition. split.
  - assert (rexec time_range (time_range_text f tz s e) = Some [(1%nat, f); (2%nat, tz); (3%nat, s); (4%nat, e)])
      as ->; [|done].
    unfold rexec. rewrite rmatch_seq, <- (app_nil_r (time_range_text f tz s e)). by apply time_range_rmatch.
  - assert (rexec time_range (u "(" ++ time_range_text f tz s e ++ u ")") = None) as -> by reflexivity.
    assert (rexec (seqs [Lit (u "("); time_range; Lit (u ")")]) (u "(" ++ time_range_text f tz s e ++ u ")")
            = Some [(1%nat, f); (2%nat, tz); (3%nat, s); (4%nat, e)]) as ->; [|done].
    unfold rexec. cbn [seqs]. rewrite 2!rmatch_seq, rmatch_lit, rmatch_seq.
    apply time_range_rmatch; try done. intros c s' cs Hc. eapply rmatch_lit_ne; [reflexivity|]. by intros ->.
Qed.

Definition time_ops : list (jstr * jstr) := [(u "==", MATCH_EQ); (u ">=", MATCH_GTE); (u "<", MATCH_LT)].

Lemma time_compare_not_range f tz op v : f ∈ TIME_FUNCS -> tz <> [] -> plain_text tz ->
  op ∈ time_ops.*1 -> numeric v -> rexec time_range (time_compare_text f tz op v) = None.
Proof.
  intros Hf Hne Htz Hop Hv. unfold rexec, time_range, time_compare_text. cbn [seqs]. rewrite 2!rmatch_seq.
  rewrite rmatch_time_func by done. repeat rstep.
  apply list_elem_of_In in Hop as [<-|[<-|[<-|[]]]]; try reflexivity.
  change (uq "') " ++ (u ">=", MATCH_GTE).1 ++ u " " ++ v) with (uq "') >= " ++ v). rewrite <- (app_nil_r v).
  repeat rstep. reflexivity.
Qed.

Lemma time_compare_parse f tz op mode v : f ∈ TIME_FUNCS -> tz <> [] -> plain_text tz ->
  (op, mode) ∈ time_ops -> numeric v ->
  tryParseTimeCondition (time_compare_text f tz op v) = Some (TimeCondition f tz mode v [] []).
Proof.
  intros Hf Hne Htz Hop Hv. unfold tryParseTimeCondition. rewrite time_compare_not_range; try done.
  2: { apply list_elem_of_fmap. by exists (op, mode). }
  assert (rexec (seqs [Lit (u "("); time_range; Lit (u ")")]) (time_compare_text f tz op v) = None) as ->.
  { apply list_elem_of_In in Hf as [<-|[<-|[<-|[<-|[<-|[]]]]]]; reflexivity. }
  assert (rexec time_compare (time_compare_text f tz op v)
          = Some [(1%nat, f); (2%nat, tz); (3%nat, op); (4%nat, v)]) as ->.
  { unfold rexec, time_compare, time_compare_text. cbn [seqs]. rewrite 2!rmatch_seq.
    rewrite rmatch_time_func by done. repeat rstep. rewrite <- (app_nil_r v) at 1.
    rewrite rmatch_grp_lits; [by repeat rstep|by apply (list_elem_of_fmap_2 fst _ _ Hop)|].
    apply list_elem_of_In in Hop as [[= <- <-]|[[= <- <-]|[[= <- <-]|[]]]]; lits_differ. }
  by apply list_elem_of_In in Hop as [[= <- <-]|[[= <- <-]|[[= <- <-]|[]]]].
Qed.

(** The texts of conditions and what they stand for. *)
Inductive form : jstr -> RequestCondition -> Prop :=
| FRange f tz s e : f ∈ TIME_FUNCS -> tz <> [] -> plain_text tz -> numeric s -> numeric e ->
    form (time_range_text f tz s e) (TimeCondition f tz MATCH_RANGE [] s e)
| FCompare f tz op mode v : f ∈ TIME_FUNCS -> tz <> [] -> plain_text tz -> (op, mode) ∈ time_ops ->
    numeric v -> form (time_compare_text f tz op v) (TimeCondition f tz mode v [] [])
| FHeaderExists path : path <> [] -> plain_text path ->
    form (header_exists_text path) (ParamHeaderCondition SOURCE_HEADER path MATCH_EXISTS [])
| FParamExists path : path <> [] -> plain_text path ->
    form (param_exists_text path) (ParamHeaderCondition SOURCE_PARAM path MATCH_EXISTS [])
| FHeaderContains path v : path <> [] -> plain_text path -> plain_text v ->
    form (header_contains_text path v) (ParamHeaderCondition SOURCE_HEADER path MATCH_CONTAINS v)
| FEquals source path v : source ∈ [SOURCE_PARAM; SOURCE_HEADER] -> path <> [] -> plain_text path ->
    plain_text v -> trim v = v ->
    form (equals_text source path (buildExprLiteral MATCH_EQ v)) (ParamHeaderCondition source path MATCH_EQ v).

Lemma quote_trimmed t : plain_text t -> trim (quote t) = quote t.
Proof.
  intros H. rewrite plain_quote by done. apply trim_trimmed. split.
  - by intros c s' [= <- <-].
  - intros c s' E. apply (app_inj_tail (34%N :: t) s' 34%N c) in E as [_ <-]. done.
Qed.

Lemma quote_not_numeric t : rtest NUMERIC_LITERAL_REGEX (quote t) = false.
Proof.
  destruct (rtest _ _) eqn:E; [|done]. apply numeric_chars in E as [_ E]. unfold quote in E.
  by apply Forall_cons in E as [? _].
Qed.

Lemma literal_chars v : plain_text v -> trim v = v ->
  buildExprLiteral MATCH_EQ v <> [] /\ Forall (fun c => c = 34%N \/ plain c) (buildExprLiteral MATCH_EQ v)
  /\ parseExprLiteral (buildExprLiteral MATCH_EQ v) = JStr v.
Proof.
  intros Hp Ht. unfold buildExprLiteral. rewrite Ht. change (seqb MATCH_EQ MATCH_CONTAINS) with false. cbn [negb].
  destruct (seqb v (u "true") || seqb v (u "false")) eqn:E1; [|destruct (rtest NUMERIC_LITERAL_REGEX v) eqn:E2].
  - split; [by intros ->|]. split; [by apply Forall_impl with (1 := Hp); right|].
    unfold parseExprLiteral. rewrite Ht. by rewrite E1.
  - split; [by intros ->|]. split; [by apply Forall_impl with (1 := Hp); right|].
    unfold parseExprLiteral. rewrite Ht. by rewrite E1, E2.
  - split; [done|]. split.
    { rewrite plain_quote by done. constructor; [by left|]. apply Forall_app.
      split; [by apply Forall_impl with (1 := Hp); right|repeat constructor]. }
    unfold parseExprLiteral. rewrite quote_trimmed, quote_not_numeric by done.
    assert (seqb (quote v) (u "true") || seqb (quote v) (u "false") = false) as ->.
    { apply orb_false_iff. by split; apply seqb_neq. }
    by rewrite JSON_parse_quote.
Qed.

Lemma form_parse e c : form e c -> tryParseRequestCondition e = Some (Some c).
Proof.
  intros [f tz s e' Hf Hne Htz Hs He|f tz op mode v Hf Hne Htz Hop Hv|path Hne Hp|path Hne Hp|path v Hne Hp Hv
         |source path v Hs Hne Hp Hv Ht]; unfold tryParseRequestCondition.
  - by rewrite (proj1 (time_range_parse f tz s e' Hf Hne Htz Hs He)).
  - by rewrite (time_compare_parse f tz op mode v).
  - change (tryParseTimeCondition (header_exists_text path)) with (@None RequestCondition).
    by rewrite header_exists_match.
  - change (tryParseTimeCondition (param_exists_text path)) with (@None RequestCondition).
    change (rexec header_exists (param_exists_text path)) with (@None captures).
    by rewrite param_exists_match.
  - change (tryParseTimeCondition (header_contains_text path v)) with (@None RequestCondition).
    change (rexec header_exists (header_contains_text path v)) with (@None captures).
    change (rexec param_exists (header_contains_text path v)) with (@None captures).
    rewrite header_contains_match by done. cbn [orElse]. unfold contains_condition.
    change (group_of _ 2) with (34%N :: v ++ [34%N]). rewrite <- plain_quote by done. by rewrite JSON_parse_quote.
  - destruct (literal_chars v Hv Ht) as (Hl & Hc & El). rewrite equals_not_time by done.
    destruct (equals_not_exists source path (buildExprLiteral MATCH_EQ v) Hs Hne Hp) as (-> & -> & -> & -> & ->).
    rewrite equals_match; try done.
    + cbn [orElse guard_match]. change (group_of _ 3) with (buildExprLiteral MATCH_EQ v). by rewrite El.
    + apply Forall_impl with (1 := Hc). intros x [->|H]; [done|by apply dot_plain].
Qed.

(** ** Nesting

    [scan amp d s] is the depth after [s] from depth [d], if no parenthesis is
    closed that was not opened and [amp] does not occur outside parentheses. *)
Fixpoint scan (amp : N) (d : nat) (s : jstr) : option nat :=
  match s with
  | [] => Some d
  | c :: s' =>
      if (c =? 40)%N then scan amp (S d) s'
      else if (c =? 41)%N then match d with S d' => scan amp d' s' | O => None end
      else if (c =? amp)%N && (d =? 0)%nat then None
      else scan amp d s'
  end.

Lemma scan_app amp d a b : scan amp d (a ++ b) = scan amp d a ≫= fun d' => scan amp d' b.
Proof.
  revert d. induction a as [|c a IH]; intros d; [done|]. cbn [app scan].
  destruct (c =? 40)%N; [apply IH|]. destruct (c =? 41)%N; [destruct d; [done|apply IH]|].
  destruct (_ && _); [done|apply IH].
Qed.

Lemma scan_text amp d s : Forall (fun c => c <> 40%N /\ c <> 41%N /\ (c <> amp \/ d <> O)) s -> scan amp d s = Some d.
Proof.
  induction 1 as [|c s (H1 & H2 & H3) Hs IH]; [done|]. cbn [scan].
  rewrite (proj2 (N.eqb_neq c 40)), (proj2 (N.eqb_neq c 41)) by done.
  destruct ((c =? amp)%N && (d =? 0)%nat) eqn:E; [|done].
  apply andb_true_iff in E as [?%N.eqb_eq ?%Nat.eqb_eq]. intuition.
Qed.

(** Inside parentheses the depth shifts and every character is allowed. *)
Lemma scan_shift amp amp' d d' s : scan amp d s = Some d' -> scan amp' (S d) s = Some (S d').
Proof.
  revert d. induction s as [|c s IH]; intros d; cbn [scan]; [by intros [= ->]|].
  destruct (c =? 40)%N; [apply IH|]. destruct (c =? 41)%N; [destruct d; [done|apply IH]|].
  rewrite andb_false_r. destruct (_ && _); [done|apply IH].
Qed.

Lemma scan_wrap amp amp' s : scan amp 0 s = Some 0%nat -> scan amp' 0 (u "(" ++ s ++ u ")") = Some 0%nat.
Proof.
  intros H. change (u "(" ++ s ++ u ")") with (40%N :: s ++ [41%N]). cbn [scan N.eqb].
  rewrite scan_app, (scan_shift amp amp' 0 0) by done. done.
Qed.

Section Separator.
Context (amp : N) (tail : jstr) (Hamp : amp <> 40%N /\ amp <> 41%N).
Let sep := 32%N :: amp :: tail.

Lemma split_loop_seg s rest d d' cur :
  scan amp d s = Some d' -> head rest <> Some amp ->
  split_loop sep (s ++ rest) 0 (Z.of_nat d) cur = split_loop sep rest 0 (Z.of_nat d') (cur ++ s).
Proof.
  intros Hs Hr. revert d cur Hs. induction s as [|c s IH]; intros d cur Hs.
  { injection Hs as ->. by rewrite app_nil_r. }
  cbn [app split_loop]. cbn [scan] in Hs. destruct (c =? 40)%N eqn:E1.
  { apply N.eqb_eq in E1 as ->. cbn [N.eqb]. cbn -[split_loop Z.add Z.of_nat].
    rewrite andb_false_r. replace (Z.of_nat d + 1) with (Z.of_nat (S d)) by lia.
    rewrite (IH (S d)) by done. by rewrite <- app_assoc. }
  destruct (c =? 41)%N eqn:E2.
  { apply N.eqb_eq in E2 as ->. destruct d as [|d]; [done|].
    cbn -[split_loop Z.sub Z.of_nat]. rewrite andb_false_r.
    replace (Z.of_nat (S d) - 1) with (Z.of_nat d) by lia. rewrite (IH d) by done. by rewrite <- app_assoc. }
  destruct ((Z.of_nat d =? 0) && startsWith (c :: s ++ rest) sep) eqn:E.
  - exfalso. apply andb_true_iff in E as [Ed E]. apply Z.eqb_eq in Ed. assert (d = O) as -> by lia.
    apply startsWith_app in E as [q E]. injection E as -> E. cbn in Hs.
    destruct s as [|c s]; [destruct rest; [done|]; by injection E as -> _|].
    injection E as -> _. cbn [scan] in Hs. destruct Hamp as [Ha1 Ha2].
    rewrite (proj2 (N.eqb_neq amp 40)), (proj2 (N.eqb_neq amp 41)), N.eqb_refl in Hs by done.
    cbn in Hs. by destruct (_ && _) in Hs.
  - destruct (_ && _) in Hs; [done|]. rewrite (IH d) by done. by rewrite <- app_assoc.
Qed.

Lemma split_loop_skip a s d cur : split_loop sep (a ++ s) (length a) d cur = split_loop sep s 0 d cur.
Proof. induction a; [done|]. cbn [app length split_loop]. apply IHa. Qed.

Lemma split_loop_sep rest cur :
  split_loop sep (sep ++ rest) 0 0 cur = trim cur :: split_loop sep rest 0 0 [].
Proof.
  assert (startsWith (sep ++ rest) sep = true) as E by (apply startsWith_app; by exists rest).
  unfold sep at 2. cbn [app split_loop]. cbn [N.eqb Pos.eqb Z.eqb andb].
  change (32%N :: amp :: tail ++ rest) with (sep ++ rest). rewrite E. f_equal.
  change (length sep - 1)%nat with (length (amp :: tail)).
  apply (split_loop_skip (amp :: tail) rest).
Qed.

Lemma split_loop_join parts : amp <> 32%N -> parts <> [] -> Forall (fun p => scan amp 0 p = Some O) parts ->
  split_loop sep (join sep parts) 0 0 [] = map trim parts.
Proof.
  intros Hsp Hne H. induction H as [|p parts Hp Hparts IH]; [done|]. destruct parts as [|q parts].
  - cbn [join map]. rewrite <- (app_nil_r p) at 1. by rewrite (split_loop_seg p [] 0 0).
  - change (join sep (p :: q :: parts)) with (p ++ sep ++ join sep (q :: parts)).
    rewrite (split_loop_seg p _ 0 0); [|done|intros E; apply Hsp; by injection E]. rewrite split_loop_sep.
    cbn [map app]. by rewrite IH.
Qed.
End Separator.

Lemma trim_ends s x y : head s = Some x -> last s = Some y -> is_space x = false -> is_space y = false -> trim s = s.
Proof.
  intros Hx Hy Ex Ey. apply trim_trimmed. split.
  - intros c s' ->. by injection Hx as ->.
  - intros c s' ->. rewrite last_snoc in Hy. by injection Hy as ->.
Qed.

Lemma last_Forall {A} (P : A -> Prop) s : s <> [] -> Forall P s -> exists y, last s = Some y /\ P y.
Proof.
  intros Hne H. destruct s as [|y s _] using rev_ind; [done|]. exists y. rewrite last_snoc.
  apply Forall_app in H as [_ H]. split; [done|]. by inversion H.
Qed.

Lemma scan_plain d s : Forall (fun c => c = 34%N \/ plain c) s -> scan 38 d s = Some d.
Proof.
  intros H. apply scan_text. apply Forall_impl with (1 := H). intros c Hc.
  assert (forall x, x ∈ [40; 41; 38]%N -> c <> x) as N.
  { intros x Hx. destruct Hc as [->|Hc]; [by intros <-; apply list_elem_of_In in Hx as [?|[?|[?|[]]]]|].
    apply (plain_ne c x Hc). by apply list_elem_of_In in Hx as [<-|[<-|[<-|[]]]]. }
  split; [|split; [|left]]; apply N; apply list_elem_of_In; simpl; tauto.
Qed.

Lemma plain_or_quote s : plain_text s -> Forall (fun c => c = 34%N \/ plain c) s.
Proof. intros H. apply Forall_impl with (1 := H). by right. Qed.

Lemma includes_bar s : Forall (fun c => c <> 124%N) s -> includes s (u " || ") = false.
Proof.
  intros H. apply includes_None. destruct (indexOf s (u " || ")) as [i|] eqn:E; [|done].
  apply indexOf_Some in E as (a & b & -> & _); [|done]. exfalso.
  apply Forall_app in H as [_ H]. apply Forall_app in H as [H _]. rewrite Forall_forall in H.
  apply (H 124%N); [|done]. apply list_elem_of_In. vm_compute. tauto.
Qed.

Lemma time_funcs_plain f : f ∈ TIME_FUNCS -> plain_text f /\ f <> [] /\ (exists x, head f = Some x /\ is_space x = false).
Proof.
  intros Hf. apply list_elem_of_In in Hf.
  destruct Hf as [<-|[<-|[<-|[<-|[<-|[]]]]]];
    (split; [by apply plain_checked|split; [done|by eexists]]).
Qed.

(** Evaluate [scan] piece by piece. *)
Ltac scan_const t :=
  let v := eval vm_compute in t in change t with v.
Ltac scan_step :=
  match goal with
  | |- context [scan ?a ?d (?x ++ ?y)] => rewrite (scan_app a d x y)
  | |- context [scan ?a ?d (uq ?s)] => scan_const (scan a d (uq s))
  | |- context [scan ?a ?d (u ?s)] => scan_const (scan a d (u s))
  | _ => rewrite scan_plain by (done || by apply plain_or_quote)
  end; cbn [mbind option_bind].

Lemma numeric_last s : numeric s -> exists y, last s = Some y /\ is_space y = false.
Proof.
  intros [Hne H]%numeric_chars. destruct (last_Forall _ s Hne H) as (y & Hy & Hc). exists y.
  split; [done|by apply num_char_not_space].
Qed.

Lemma plain_no_bar s : Forall (fun c => c = 34%N \/ plain c) s -> Forall (fun c => c <> 124%N) s.
Proof. intros H. apply Forall_impl with (1 := H). intros c [->|Hc]; [done|by apply (plain_ne c)]. Qed.

Lemma no_bar_checked s : forallb (fun c => negb (c =? 124)%N) s = true -> Forall (fun c => c <> 124%N) s.
Proof.
  intros H. apply Forall_forall. intros c Hc%list_elem_of_In. rewrite forallb_forall in H.
  apply H, negb_true_iff, N.eqb_neq in Hc. done.
Qed.

Ltac no_bar :=
  left; apply includes_bar; repeat (apply Forall_app; split);
  first [ apply no_bar_checked; reflexivity
        | apply plain_no_bar; first [eassumption | apply plain_or_quote; eassumption] ].

Definition shape (e : jstr) (c : RequestCondition) : Prop :=
  e <> [] /\ trim e = e /\ scan 38 0 e = Some 0%nat
  /\ (includes e (u " || ") = false \/ tryParseRequestCondition (u "(" ++ e ++ u ")") = Some (Some c)).

Lemma literal_last v : plain_text v -> trim v = v ->
  exists y, last (buildExprLiteral MATCH_EQ v) = Some y /\ is_space y = false.
Proof.
  intros Hp Ht. destruct (literal_chars v Hp Ht) as (Hne & _ & _).
  assert (trimmed (buildExprLiteral MATCH_EQ v)) as [_ H].
  { unfold buildExprLiteral. change (seqb MATCH_EQ MATCH_CONTAINS) with false. rewrite Ht.
    repeat case_match; try (rewrite <- Ht; apply trimmed_trim).
    rewrite <- quote_trimmed by done. apply trimmed_trim. }
  destruct (buildExprLiteral MATCH_EQ v) as [|y s _] using rev_ind; [done|].
  exists y. rewrite last_snoc. split; [done|]. by eapply H.
Qed.

Lemma time_range_shape f tz s e : f ∈ TIME_FUNCS -> tz <> [] -> plain_text tz -> numeric s -> numeric e ->
  shape (time_range_text f tz s e) (TimeCondition f tz MATCH_RANGE [] s e).
Proof.
  intros Hf Hne Htz Hs He.
  destruct (time_funcs_plain f Hf) as (Hfp & Hfne & x & Hx & Hsx). destruct (numeric_last e He) as (y & Hy & Hsy).
  pose proof (numeric_plain _ Hs). pose proof (numeric_plain _ He).
  assert (head (time_range_text f tz s e) = Some x) as Hh by (unfold time_range_text; by rewrite head_app, Hx).
  split; [by intros E; rewrite E in Hh|]. split; [|split].
  - apply (trim_ends _ x y); [done| |done|done]. unfold time_range_text. by rewrite !last_app, Hy.
  - unfold time_range_text. by repeat scan_step.
  - right. unfold tryParseRequestCondition. by rewrite (proj2 (time_range_parse f tz s e Hf Hne Htz Hs He)).
Qed.

Lemma time_compare_shape f tz op mode v c : f ∈ TIME_FUNCS -> plain_text tz -> (op, mode) ∈ time_ops -> numeric v ->
  shape (time_compare_text f tz op v) c.
Proof.
  intros Hf Htz Hop Hv.
  destruct (time_funcs_plain f Hf) as (Hfp & Hfne & x & Hx & Hsx). destruct (numeric_last v Hv) as (y & Hy & Hsy).
  pose proof (numeric_plain _ Hv).
  assert (plain_text op) as Hopp
    by (apply list_elem_of_In in Hop as [[= <- _]|[[= <- _]|[[= <- _]|[]]]]; by apply plain_checked).
  assert (head (time_compare_text f tz op v) = Some x) as Hh by (unfold time_compare_text; by rewrite head_app, Hx).
  split; [by intros E; rewrite E in Hh|]. split; [|split].
  - apply (trim_ends _ x y); [done| |done|done]. unfold time_compare_text. by rewrite !last_app, Hy.
  - unfold time_compare_text. by repeat scan_step.
  - unfold time_compare_text. no_bar.
Qed.

Lemma equals_shape source path v c : source ∈ [SOURCE_PARAM; SOURCE_HEADER] -> plain_text path ->
  plain_text v -> trim v = v -> shape (equals_text source path (buildExprLiteral MATCH_EQ v)) c.
Proof.
  intros Hs Hp Hv Ht. destruct (literal_chars v Hv Ht) as (Hl & Hc & _).
  destruct (literal_last v Hv Ht) as (y & Hy & Hsy).
  assert (plain_text source) as Hsp by (apply list_elem_of_In in Hs as [<-|[<-|[]]]; by apply plain_checked).
  assert (exists x, head source = Some x /\ is_space x = false) as (x & Hx & Hsx)
    by (apply list_elem_of_In in Hs as [<-|[<-|[]]]; by eexists).
  revert Hl Hc Hy. generalize (buildExprLiteral MATCH_EQ v) as literal. intros literal Hl Hc Hy.
  assert (head (equals_text source path literal) = Some x) as Hh
    by (unfold equals_text; by rewrite head_app, Hx).
  split; [by intros E; rewrite E in Hh|]. split; [|split].
  - apply (trim_ends _ x y); [done| |done|done]. unfold equals_text. by rewrite !last_app, Hy.
  - unfold equals_text. by repeat scan_step.
  - unfold equals_text. no_bar.
Qed.

Lemma form_shape e c : form e c -> shape e c.
Proof.
  intros [f tz s e' Hf Hne Htz Hs He|f tz op mode v Hf Hne Htz Hop Hv|path Hne Hp|path Hne Hp|path v Hne Hp Hv
         |source path v Hs Hne Hp Hv Ht].
  - by apply time_range_shape.
  - by apply (time_compare_shape f tz op mode).
  - split; [done|]. split; [|split]; unfold header_exists_text.
    + eapply trim_ends; [done|by rewrite !last_app|done|done].
    + by repeat scan_step.
    + no_bar.
  - split; [done|]. split; [|split]; unfold param_exists_text.
    + eapply trim_ends; [done|by rewrite !last_app|done|done].
    + by repeat scan_step.
    + no_bar.
  - assert (header_contains_text path v = uq "has(header('" ++ path ++ uq "'), '" ++ v ++ uq "')") as -> by done.
    split; [done|]. split; [|split].
    + eapply trim_ends; [done|by rewrite !last_app|done|done].
    + by repeat scan_step.
    + no_bar.
  - by apply equals_shape.
Qed.

(** ** What a condition stands for

    The condition with its fields normalized and trimmed; [None] for one that is
    incomplete and left out. *)
Definition canon_cond (c : RequestCondition) : option RequestCondition :=
  match normalizeCondition (Some (as_partial c)) with
  | TimeCondition f tz m v s e =>
      if seqb m MATCH_RANGE then
        if rtest NUMERIC_LITERAL_REGEX (trim s) && rtest NUMERIC_LITERAL_REGEX (trim e)
        then Some (TimeCondition f tz MATCH_RANGE [] (trim s) (trim e)) else None
      else if rtest NUMERIC_LITERAL_REGEX (trim v) then Some (TimeCondition f tz m (trim v) [] []) else None
  | ParamHeaderCondition s p m v =>
      if str_truthy (trim p)
      then Some (ParamHeaderCondition s (trim p) m (if seqb m MATCH_EXISTS then [] else trim v)) else None
  end.

(** Plain names and values; parameters only compared for equality or existence. *)
Definition representable (c : RequestCondition) : Prop :=
  match normalizeCondition (Some (as_partial c)) with
  | TimeCondition f tz m v s e => plain_text tz
  | ParamHeaderCondition s p m v =>
      plain_text p /\ plain_text v /\ (s = SOURCE_HEADER \/ m = MATCH_EQ \/ m = MATCH_EXISTS)
  end.

Lemma offered_mode_in source mode d : d ∈ (getRequestRuleMatchOptions source).*1 ->
  offered_mode source mode d ∈ (getRequestRuleMatchOptions source).*1.
Proof. intros Hd. unfold offered_mode. destruct mode; [|done]. by case_bool_decide. Qed.

Lemma normalized_ok c :
  match normalizeCondition (Some (as_partial c)) with
  | TimeCondition f tz m v s e =>
      f ∈ TIME_FUNCS /\ tz <> [] /\ m ∈ [MATCH_EQ; MATCH_GTE; MATCH_LT; MATCH_RANGE]
  | ParamHeaderCondition s p m v =>
      s ∈ [SOURCE_PARAM; SOURCE_HEADER] /\ m ∈ (getRequestRuleMatchOptions s).*1
  end.
Proof.
  unfold normalizeCondition. cbn [mbind option_bind].
  set (src := if bool_decide _ then SOURCE_TIME else _).
  assert (src ∈ [SOURCE_TIME; SOURCE_PARAM; SOURCE_HEADER]) as Hsrc.
  { subst src. repeat case_bool_decide; apply list_elem_of_In; simpl; tauto. }
  destruct (seqb src SOURCE_TIME) eqn:E.
  - split_and!.
    + destruct (isTimeFunc _) eqn:Ef; [|apply list_elem_of_In; by left].
      destruct (pc_timeFunc (as_partial c)); [|done]. cbn in Ef. by apply bool_decide_eq_true_1 in Ef.
    + unfold str_or. destruct (str_truthy _) eqn:Et; [|done]. by intros H; rewrite H in Et.
    + apply (offered_mode_in SOURCE_TIME). vm_compute. apply list_elem_of_In. simpl. tauto.
  - apply seqb_neq in E. apply elem_of_cons in Hsrc as [?|Hsrc]; [done|]. split; [done|].
    apply offered_mode_in. apply list_elem_of_In in Hsrc as [<-|[<-|[]]]; vm_compute; apply list_elem_of_In; simpl; tauto.
Qed.

Lemma plain_trim s : plain_text s -> plain_text (trim s).
Proof.
  intros H. apply Forall_forall. intros c Hc. rewrite Forall_forall in H. apply H.
  apply list_elem_of_In, trim_subset, list_elem_of_In, Hc.
Qed.

Lemma call_text f name r : plain_text name ->
  (f ++ u "(" ++ quote name ++ u ")") ++ r = f ++ uq "('" ++ name ++ uq "')" ++ r.
Proof.
  intros H. rewrite plain_quote by done. rewrite <- !app_assoc. f_equal. cbn [app]. by rewrite <- app_assoc.
Qed.

(** The builders print the forms. *)
Lemma build_time_form f tz m v s e :
  f ∈ TIME_FUNCS -> tz <> [] -> m ∈ [MATCH_EQ; MATCH_GTE; MATCH_LT; MATCH_RANGE] -> plain_text tz ->
  if seqb m MATCH_RANGE then
    if rtest NUMERIC_LITERAL_REGEX (trim s) && rtest NUMERIC_LITERAL_REGEX (trim e)
    then form (build_time f tz m v s e) (TimeCondition f tz MATCH_RANGE [] (trim s) (trim e))
    else build_time f tz m v s e = []
  else
    if rtest NUMERIC_LITERAL_REGEX (trim v)
    then form (build_time f tz m v s e) (TimeCondition f tz m (trim v) [] [])
    else build_time f tz m v s e = [].
Proof.
  intros Hf Hne Hm Htz. unfold build_time. destruct (seqb m MATCH_RANGE) eqn:Em.
  - destruct (rtest _ (trim s)) eqn:Es, (rtest _ (trim e)) eqn:Ee; try done. cbn [negb orb andb].
    rewrite !call_text by done. by apply FRange.
  - destruct (rtest _ (trim v)) eqn:Ev; [|done]. cbn [negb].
    assert (exists op, (op, m) ∈ time_ops /\ str_or (default [] (map_get
      [(MATCH_EQ, u "=="); (MATCH_GTE, u ">="); (MATCH_LT, u "<")] m)) (u "==") = op) as (op & Hop & ->).
    { apply list_elem_of_In in Hm as [<-|[<-|[<-|[<-|[]]]]]; [..|done];
        eexists; (split; [|reflexivity]); apply list_elem_of_In; vm_compute; tauto. }
    rewrite !call_text by done. by apply FCompare.
Qed.

Lemma literal_trim m v : buildExprLiteral m (trim v) = buildExprLiteral m v.
Proof. unfold buildExprLiteral. by rewrite trim_idemp. Qed.

Lemma build_param_header_form s p m v :
  s ∈ [SOURCE_PARAM; SOURCE_HEADER] -> m ∈ (getRequestRuleMatchOptions s).*1 -> plain_text p -> plain_text v ->
  (s = SOURCE_HEADER \/ m = MATCH_EQ \/ m = MATCH_EXISTS) ->
  if str_truthy (trim p)
  then form (build_param_header s p m v)
         (ParamHeaderCondition s (trim p) m (if seqb m MATCH_EXISTS then [] else trim v))
  else build_param_header s p m v = [].
Proof.
  intros Hs Hm Hp Hv Hsup. unfold build_param_header. destruct (str_truthy (trim p)) eqn:Ep; [|done]. cbn [negb].
  assert (trim p <> []) as Hne by (by intros E; rewrite E in Ep).
  apply plain_trim in Hp, Hv. set (path := trim p) in *. clearbody path.
  assert (forall src r, (src ++ quote path ++ u ")") ++ r = src ++ 34%N :: path ++ uq "')" ++ r) as R.
  { intros src r. rewrite plain_quote by done. rewrite <- !app_assoc. f_equal. cbn [app]. by rewrite <- !app_assoc. }
  assert (s = SOURCE_PARAM /\ (m = MATCH_EQ \/ m = MATCH_EXISTS)
          \/ s = SOURCE_HEADER /\ (m = MATCH_EQ \/ m = MATCH_CONTAINS \/ m = MATCH_EXISTS)) as H.
  { apply list_elem_of_In in Hs as [<-|[<-|[]]]; [left|right]; split; try done.
    - destruct Hsup as [E|[->| ->]]; [discriminate E|tauto|tauto].
    - change (getRequestRuleMatchOptions SOURCE_HEADER).*1 with [MATCH_EQ; MATCH_CONTAINS; MATCH_EXISTS] in Hm.
      apply list_elem_of_In in Hm as [<-|[<-|[<-|[]]]]; tauto. }
  clear Hs Hm Hsup. destruct H as [[-> [->| ->]]|[-> [->|[->| ->]]]].
  - change (form ((u "param(" ++ quote path ++ u ")") ++ u " == " ++ buildExprLiteral MATCH_EQ v)
              (ParamHeaderCondition SOURCE_PARAM path MATCH_EQ (trim v))).
    rewrite R, <- literal_trim. apply (FEquals SOURCE_PARAM); try done; [by left|apply trim_idemp].
  - change (form ((u "param(" ++ quote path ++ u ")") ++ u " != nil")
              (ParamHeaderCondition SOURCE_PARAM path MATCH_EXISTS [])).
    rewrite R. by apply FParamExists.
  - change (form ((u "header(" ++ quote path ++ u ")") ++ u " == " ++ buildExprLiteral MATCH_EQ v)
              (ParamHeaderCondition SOURCE_HEADER path MATCH_EQ (trim v))).
    rewrite R, <- literal_trim. apply (FEquals SOURCE_HEADER); try done; [by right; left|apply trim_idemp].
  - change (form (u "has(" ++ (u "header(" ++ quote path ++ u ")") ++ u ", " ++ quote (trim v) ++ u ")")
              (ParamHeaderCondition SOURCE_HEADER path MATCH_CONTAINS (trim v))).
    rewrite R, (plain_quote (trim v)) by done.
    replace ((34%N :: trim v ++ [34%N]) ++ u ")") with (34%N :: trim v ++ 34%N :: u ")")
      by (cbn [app]; by rewrite <- app_assoc).
    by apply FHeaderContains.
  - change (form ((u "header(" ++ quote path ++ u ")") ++ uq " != ''")
              (ParamHeaderCondition SOURCE_HEADER path MATCH_EXISTS [])).
    rewrite R. by apply FHeaderExists.
Qed.

Lemma cond_form c : representable c ->
  match canon_cond c with
  | Some c' => form (buildRequestConditionExpr c) c'
  | None => buildRequestConditionExpr c = []
  end.
Proof.
  unfold representable, canon_cond, buildRequestConditionExpr. pose proof (normalized_ok c) as Hn.
  destruct (normalizeCondition (Some (as_partial c))) as [f tz m v s e|s p m v].
  - destruct Hn as (Hf & Hne & Hm). intros Htz. pose proof (build_time_form f tz m v s e Hf Hne Hm Htz) as H.
    destruct (seqb m MATCH_RANGE); [by destruct (_ && _)|by destruct (rtest _ _)].
  - destruct Hn as [Hs Hm]. intros (Hp & Hv & Hsup).
    pose proof (build_param_header_form s p m v Hs Hm Hp Hv Hsup) as H. by destruct (str_truthy _).
Qed.

Lemma conds_form cs : Forall representable cs ->
  Forall2 form (List.filter str_truthy (map buildRequestConditionExpr cs)) (omap canon_cond cs).
Proof.
  induction 1 as [|c cs Hc Hcs IH]; [constructor|]. cbn [map List.filter omap list_omap].
  pose proof (cond_form c Hc) as H. destruct (canon_cond c) as [c'|].
  - destruct (form_shape _ _ H) as [Hne _]. unfold str_truthy.
    destruct (buildRequestConditionExpr c); [done|]. by constructor.
  - rewrite H. done.
Qed.

(** ** Groups *)

(** A nonempty trimmed text that is one operand of the operator [amp]. *)
Definition solid (amp : N) (p : jstr) : Prop := p <> [] /\ trim p = p /\ scan amp 0 p = Some O.

(** An operand that parses to a condition. *)
Definition part_of (p : jstr) (c : RequestCondition) : Prop :=
  solid 38 p /\ tryParseRequestCondition p = Some (Some c).

Lemma form_part e c : form e c -> part_of e c
  /\ part_of (if includes e (u " || ") then u "(" ++ e ++ u ")" else e) c.
Proof.
  intros H. pose proof (form_parse e c H) as Hp. destruct (form_shape e c H) as (Hne & Ht & Hs & Hw).
  split; [done|]. destruct (includes e (u " || ")) eqn:E; [|done]. destruct Hw as [?|Hw]; [done|].
  split; [|done]. split; [done|]. split; [|by apply (scan_wrap 38)].
  apply (trim_ends _ 40%N 41%N); try done. rewrite app_assoc. apply last_snoc.
Qed.

Lemma parse_all_parts ps cs : Forall2 part_of ps cs ->
  parse_all (fun ap => tryParseRequestCondition (trim ap)) ps = Some (Some cs).
Proof.
  induction 1 as [|p c ps cs ((Hne & Ht & _) & Hp) H IH]; [done|]. cbn [parse_all]. by rewrite Ht, Hp, IH.
Qed.

Lemma filter_truthy ps : Forall (fun p => p <> []) ps -> List.filter str_truthy ps = ps.
Proof. intros H. apply filter_all. apply Forall_impl with (1 := H). by intros []. Qed.

Lemma map_trim_id ps : Forall (fun p => trim p = p) ps -> map trim ps = ps.
Proof. induction 1 as [|p ps Hp H IH]; [done|]. cbn [map]. by rewrite Hp, IH. Qed.

Lemma split_solid amp tail ps : amp <> 40%N /\ amp <> 41%N -> amp <> 32%N -> ps <> [] -> Forall (solid amp) ps ->
  List.filter str_truthy (split_loop (32%N :: amp :: tail) (join (32%N :: amp :: tail) ps) 0 0 []) = ps.
Proof.
  intros Ha Hs Hne H. apply Forall_and in H as [H1 H]. apply Forall_and in H as [H2 H3].
  rewrite split_loop_join by done. rewrite map_trim_id by done. by apply filter_truthy.
Qed.

Lemma split_and_solid ps : ps <> [] -> Forall (solid 38) ps -> splitTopLevelAnd (join (u " && ") ps) = ps.
Proof. intros Hne H. by apply (split_solid 38 [38; 32]%N). Qed.

Lemma split_multiply_solid ps : ps <> [] -> Forall (solid 42) ps -> splitTopLevelMultiply (join (u " * ") ps) = ps.
Proof. intros Hne H. by apply (split_solid 42 [32]%N). Qed.

(** The greedy group of a factor ends at the last question mark. *)
Lemma no_later_question m b1 b2 : numeric m -> u " ? " ++ m ++ u " : 1)" = b1 ++ b2 -> b1 <> [] ->
  startsWith b2 (u " ? ") = false.
Proof.
  intros Hm E Hne. destruct (startsWith b2 (u " ? ")) eqn:Es; [|done]. exfalso.
  apply startsWith_app in Es as [q ->].
  change (32%N :: 63%N :: 32%N :: m ++ u " : 1)" = b1 ++ 32%N :: 63%N :: 32%N :: q) in E.
  destruct b1 as [|x b1]; [done|]. injection E as _ E. destruct b1 as [|y b1]; [discriminate E|].
  injection E as _ E. assert (63%N ∈ 32%N :: m ++ u " : 1)") as H.
  { rewrite E. apply elem_of_app. right. right. left. }
  apply elem_of_cons in H as [?|H]; [done|]. apply elem_of_app in H as [H|H].
  - apply numeric_chars in Hm as [_ Hm]. rewrite Forall_forall in Hm. by apply Hm in H.
  - apply list_elem_of_In in H. vm_compute in H. intuition discriminate.
Qed.

Lemma rule_factor_match e m : e <> [] -> numeric m ->
  rexec rule_factor (u "(" ++ e ++ u " ? " ++ m ++ u " : 1)") = Some [(1%nat, e); (2%nat, m)].
Proof.
  intros Hne Hm. unfold rexec, rule_factor. cbn [seqs]. rewrite 2!rmatch_seq, rmatch_lit, rmatch_seq.
  set (t := u " ? " ++ m ++ u " : 1)").
  set (k := fun s cs => rmatch _ s cs _).
  assert (forall cs, k t cs = Some (map_set cs 2%nat m)) as Hk.
  { intros cs. subst k t. cbn beta. by repeat rstep. }
  change (rmatch (Grp 1 ?r) ?s ?cs k) with
    (rmatch r s cs (fun s' cs' => k s' (map_set cs' 1%nat (take (length s - length s') s)))).
  destruct e as [|c e]; [done|]. unfold Plus. rewrite rmatch_seq.
  change (rmatch (Cls _) ((c :: e) ++ t) ?cs ?f) with (f (e ++ t) cs). cbn beta.
  apply rmatch_star_last; [by apply Forall_true| |].
  - rewrite take_front. apply Hk.
  - intros b1 b2 E Hb. subst k. cbn beta. rewrite rmatch_seq. cbn [rmatch]. by rewrite (no_later_question m b1 b2).
Qed.

Lemma join_ne sep f fs : f <> [] -> join sep (f :: fs) <> [].
Proof. destruct f; [done|]. by destruct fs. Qed.

Definition canon_group (g : RequestRuleGroup) : option RequestRuleGroup :=
  if rtest NUMERIC_LITERAL_REGEX (trim (multiplier g)) then
    match omap canon_cond (conditions g) with
    | [] => None
    | cs => Some (mkGroup cs (trim (multiplier g)))
    end
  else None.

(** A factor that parses to a group. *)
Definition factor_of (f : jstr) (g : RequestRuleGroup) : Prop :=
  solid 42 f /\ tryParseRuleGroupFactor f = Some (Some g).

Lemma scan_join_inner ps : Forall (fun p => scan 38 0 p = Some O) ps ->
  scan 42 1 (join (u " && ") ps) = Some 1%nat.
Proof.
  induction 1 as [|p ps Hp H IH]; [done|]. apply (scan_shift 38 42) in Hp. destruct ps as [|q ps]; [done|].
  change (join (u " && ") (p :: q :: ps)) with (p ++ u " && " ++ join (u " && ") (q :: ps)).
  rewrite scan_app, Hp. cbn [mbind option_bind]. by rewrite scan_app.
Qed.

Definition factor_text (ps : list jstr) (m : jstr) : jstr :=
  u "(" ++ join (u " && ") ps ++ u " ? " ++ m ++ u " : 1)".

Lemma factor_text_solid ps m : Forall (solid 38) ps -> numeric m -> solid 42 (factor_text ps m).
Proof.
  intros H Hm. unfold factor_text. split; [done|]. split.
  - apply (trim_ends _ 40%N 41%N); try done. by rewrite !last_app.
  - change (u "(" ++ ?s) with (40%N :: s). cbn [scan N.eqb Pos.eqb].
    rewrite scan_app, scan_join_inner; cbn [mbind option_bind].
    + rewrite scan_app. change (scan 42 1 (u " ? ")) with (Some 1%nat). cbn [mbind option_bind].
      rewrite scan_app, (scan_shift 38 42 0 0); [reflexivity|].
      apply scan_plain, plain_or_quote, numeric_plain, Hm.
    + apply Forall_impl with (1 := H). by intros p (_ & _ & ?).
Qed.

Lemma factor_text_parse ps m : ps <> [] -> Forall (solid 38) ps -> numeric m ->
  tryParseRuleGroupFactor (factor_text ps m) =
  match parse_all (fun ap => tryParseRequestCondition (trim ap)) ps with
  | None => None
  | Some None | Some (Some []) => Some None
  | Some (Some cs) => Some (Some (mkGroup cs m))
  end.
Proof.
  intros Hne H Hm. unfold tryParseRuleGroupFactor, factor_text. rewrite rule_factor_match; [|by destruct H as [|p ps' [? _] _]; [|apply join_ne]|done].
  change (group_of _ 1) with (join (u " && ") ps). change (group_of _ 2) with m. by rewrite split_and_solid.
Qed.

Lemma parts_solid ps cs : Forall2 part_of ps cs -> Forall (solid 38) ps.
Proof. induction 1 as [|p c ps cs [? _] H IH]; by constructor. Qed.

Lemma parts_factor ps cs m : ps <> [] -> Forall2 part_of ps cs -> numeric m ->
  factor_of (factor_text ps m) (mkGroup cs m).
Proof.
  intros Hne H Hm. pose proof (parts_solid _ _ H). split; [by apply factor_text_solid|].
  rewrite factor_text_parse, (parse_all_parts ps cs) by done. by destruct H.
Qed.

Lemma group_factor g : Forall representable (conditions g) ->
  match canon_group g with
  | Some g' => factor_of (buildRuleGroupFactor g) g'
  | None => buildRuleGroupFactor g = []
  end.
Proof.
  intros H. unfold canon_group, buildRuleGroupFactor.
  destruct (rtest NUMERIC_LITERAL_REGEX (trim (multiplier g))) eqn:Em; [|done]. cbn [negb].
  pose proof (conds_form (conditions g) H) as F.
  destruct F as [|e c es cs He F]; [done|]. destruct F as [|e2 c2 es cs He2 F].
  - apply (parts_factor [e]); [done| |done]. constructor; [by apply form_part|constructor].
  - apply (parts_factor (map (fun e => if includes e (u " || ") then u "(" ++ e ++ u ")" else e) (e :: e2 :: es)));
      [done| |done].
    apply Forall2_fmap_l. constructor; [by apply form_part|]. constructor; [by apply form_part|].
    apply Forall2_impl with (1 := F). intros. by apply form_part.
Qed.

Lemma groups_factors gs : Forall (fun g => Forall representable (conditions g)) gs ->
  Forall2 factor_of (List.filter str_truthy (map buildRuleGroupFactor gs)) (omap canon_group gs).
Proof.
  induction 1 as [|g gs Hg Hgs IH]; [constructor|]. cbn [map List.filter omap list_omap].
  pose proof (group_factor g Hg) as H. destruct (canon_group g) as [g'|].
  - pose proof H as [[Hne _] _]. destruct (buildRuleGroupFactor g); [done|]. by constructor.
  - rewrite H. done.
Qed.

(** ** Rules as a product of factors *)

Lemma trim_join sep fs : fs <> [] -> Forall (fun f => f <> [] /\ trim f = f) fs -> trim (join sep fs) = join sep fs.
Proof.
  intros Hne H. apply trim_trimmed.
  assert (forall f, f ∈ fs -> f <> [] /\ trimmed f) as Hf.
  { intros f Hf. rewrite Forall_forall in H. destruct (H f Hf) as [? E]. split; [done|].
    rewrite <- E. apply trimmed_trim. }
  clear H. induction fs as [|f fs IH]; [done|]. destruct fs as [|f2 fs].
  - destruct (Hf f) as [_ ?]; [by left|done].
  - change (join sep (f :: f2 :: fs)) with (f ++ sep ++ join sep (f2 :: fs)).
    destruct (Hf f) as [Hf1 [Hf2 _]]; [by left|]. destruct IH as [_ IH]; [done|intros g Hg; apply Hf; by right|].
    assert (join sep (f2 :: fs) <> []) as Hj by (apply join_ne; destruct (Hf f2); [by right; left|done]).
    split.
    + intros c s' E. destruct f as [|x f]; [done|]. injection E as -> _. by eapply Hf2.
    + intros c s' E. destruct (join sep (f2 :: fs)) as [|y j _] using rev_ind; [done|].
      rewrite !app_assoc in E. apply app_inj_tail in E as [_ <-]. by eapply IH.
Qed.

Lemma parse_all_factors fs gs : Forall2 factor_of fs gs -> parse_all tryParseRuleGroupFactor fs = Some (Some gs).
Proof. induction 1 as [|f g fs gs [_ Hp] H IH]; [done|]. cbn [parse_all]. by rewrite Hp, IH. Qed.

Lemma factors_solid fs gs : Forall2 factor_of fs gs -> Forall (solid 42) fs.
Proof. induction 1 as [|f g fs gs [? _] H IH]; by constructor. Qed.

Lemma trim_solid fs : Forall (solid 42) fs -> trim (join (u " * ") fs) = join (u " * ") fs.
Proof.
  intros H. destruct (decide (fs = [])) as [->|Hne]; [done|]. apply trim_join; [done|].
  apply Forall_impl with (1 := H). by intros f (? & ? & _).
Qed.

Lemma join_solid_truthy fs : fs <> [] -> Forall (solid 42) fs -> str_truthy (join (u " * ") fs) = true.
Proof.
  intros Hne H. destruct H as [|f fs' [Hf _] _]; [done|]. pose proof (join_ne (u " * ") f fs' Hf).
  by destruct (join (u " * ") (f :: fs')).
Qed.

Lemma solid_parse fs : fs <> [] -> Forall (solid 42) fs ->
  tryParseRequestRuleExpr (join (u " * ") fs) = parse_all tryParseRuleGroupFactor fs.
Proof.
  intros Hne H. unfold tryParseRequestRuleExpr. rewrite trim_solid, join_solid_truthy by done. cbn [negb].
  by rewrite split_multiply_solid.
Qed.

Lemma solid_parse_one f : solid 42 f ->
  tryParseRequestRuleExpr f = parse_all tryParseRuleGroupFactor [f].
Proof. intros H. apply (solid_parse [f]); [done|]. constructor; [done|constructor]. Qed.

Lemma factors_parse fs gs : Forall2 factor_of fs gs ->
  tryParseRequestRuleExpr (join (u " * ") fs) = Some (Some gs).
Proof.
  intros H. destruct (decide (fs = [])) as [->|Hne]; [by inversion H|].
  rewrite solid_parse; [by apply parse_all_factors|done|by eapply factors_solid].
Qed.

(** C37: The editor's request rules round-trip: for any groups with plain names and
    values whose parameters are only tested for equality or existence, parsing the
    text built from them gives back the complete groups in order, each condition
    normalized and trimmed; groups and conditions that are incomplete are left out. *)
Theorem request_rules_roundtrip (groups : list RequestRuleGroup) :
  Forall (fun g => Forall representable (conditions g)) groups ->
  tryParseRequestRuleExpr (buildRequestRuleExpr groups) = Some (Some (omap canon_group groups)).
Proof. intros H. apply factors_parse, groups_factors, H. Qed.

Definition is_representable (c : RequestCondition) : bool :=
  match normalizeCondition (Some (as_partial c)) with
  | TimeCondition f tz m v s e => forallb is_plain tz
  | ParamHeaderCondition s p m v =>
      forallb is_plain p && forallb is_plain v && (seqb s SOURCE_HEADER || seqb m MATCH_EQ || seqb m MATCH_EXISTS)
  end.

Lemma representable_checked gs : forallb (fun g => forallb is_representable (conditions g)) gs = true ->
  Forall (fun g => Forall representable (conditions g)) gs.
Proof.
  intros H. apply Forall_forall. intros g Hg%list_elem_of_In. apply Forall_forall. intros c Hc%list_elem_of_In.
  rewrite forallb_forall in H. apply H in Hg. rewrite forallb_forall in Hg. apply Hg in Hc.
  unfold is_representable, representable in *.
  destruct (normalizeCondition (Some (as_partial c))); [by apply plain_checked|].
  apply andb_true_iff in Hc as [[Hp Hv]%andb_true_iff Hm].
  split; [by apply plain_checked|]. split; [by apply plain_checked|].
  apply orb_true_iff in Hm as [[Hm|Hm]%orb_true_iff|Hm]; apply seqb_eq in Hm; auto.
Qed.

Lemma request_rules_roundtrip_witness :
  tryParseRequestRuleExpr (buildRequestRuleExpr demo_groups) = Some (Some (omap canon_group demo_groups))
  /\ length (omap canon_group demo_groups) = 2%nat.
Proof. split; [apply (request_rules_roundtrip demo_groups), representable_checked|]; vm_compute; reflexivity. Defined.

(** ** Comparisons of parameters

    The text of a comparison joins the test that the parameter exists with the
    comparison itself; the second half alone is no condition. *)

Definition compare_half (path op v : jstr) : jstr := uq "param('" ++ path ++ uq "') " ++ op ++ u " " ++ v.
Definition contains_half (path v : jstr) : jstr := uq "has(param('" ++ path ++ uq "'), '" ++ v ++ uq "')".

Definition compare_ops : list (jstr * jstr) :=
  [(MATCH_GT, u ">"); (MATCH_GTE, u ">="); (MATCH_LT, u "<"); (MATCH_LTE, u "<=")].

Lemma compare_half_no_condition path op v : path <> [] -> plain_text path -> op ∈ compare_ops.*2 ->
  tryParseRequestCondition (compare_half path op v) = Some None.
Proof.
  intros Hne Hp Hop. unfold compare_half. set (t := uq "param('" ++ path ++ uq "') " ++ op ++ u " " ++ v).
  assert (forall r, (forall cs (k : jstr -> captures -> option captures),
            rmatch r (path ++ uq "') " ++ op ++ u " " ++ v) cs k = None) ->
          rexec (Seq (Lit (uq "param('")) r) t = None) as R.
  { intros r Hr. unfold rexec. rewrite 2!rmatch_seq. unfold t. by rewrite rmatch_lit. }
  assert (rexec param_exists t = None) as H1.
  { apply R. intros. repeat rstep. by apply list_elem_of_In in Hop as [<-|[<-|[<-|[<-|[]]]]]. }
  assert (rexec param_contains t = None) as H2.
  { apply R. intros. repeat rstep. by apply list_elem_of_In in Hop as [<-|[<-|[<-|[<-|[]]]]]. }
  assert (rexec param_compare t = None) as H3.
  { apply R. intros. repeat rstep. by apply list_elem_of_In in Hop as [<-|[<-|[<-|[<-|[]]]]]. }
  assert (rexec equals t = None) as H4.
  { unfold rexec, equals. cbn [seqs]. rewrite 2!rmatch_seq.
    change t with (u "param" ++ uq "('" ++ path ++ uq "') " ++ op ++ u " " ++ v).
    rewrite rmatch_grp_lits; [|by left|lits_differ]. repeat rstep.
    by apply list_elem_of_In in Hop as [<-|[<-|[<-|[<-|[]]]]]. }
  unfold tryParseRequestCondition. change (tryParseTimeCondition t) with (@None RequestCondition).
  change (rexec header_exists t) with (@None captures). change (rexec header_contains t) with (@None captures).
  by rewrite H1, H2, H3, H4.
Qed.

Lemma contains_half_no_condition path v : tryParseRequestCondition (contains_half path v) = Some None.
Proof. reflexivity. Qed.

Lemma compare_half_solid path op v : plain_text path -> op ∈ compare_ops.*2 -> numeric v -> solid 38 (compare_half path op v).
Proof.
  intros Hp Hop Hv. destruct (numeric_last v Hv) as (y & Hy & Hsy). pose proof (numeric_plain _ Hv).
  assert (plain_text op) by (apply list_elem_of_In in Hop as [<-|[<-|[<-|[<-|[]]]]]; by apply plain_checked).
  split; [done|]. split; unfold compare_half; [|by repeat scan_step].
  apply (trim_ends _ 112%N y); try done. by rewrite !last_app, Hy.
Qed.

Lemma contains_half_solid path v : plain_text path -> plain_text v -> solid 38 (contains_half path v).
Proof.
  intros Hp Hv. split; [done|]. split; unfold contains_half; [|by repeat scan_step].
  apply (trim_ends _ 104%N 41%N); try done. by rewrite !last_app.
Qed.

(** What the editor builds for such a condition. *)
Lemma param_call path r : plain_text path -> (u "param(" ++ quote path ++ u ")") ++ r = uq "param('" ++ path ++ uq "')" ++ r.
Proof. intros H. apply (call_text (u "param")), H. Qed.

Lemma build_compare path mode op value : plain_text path -> trim path <> [] -> (mode, op) ∈ compare_ops ->
  numeric (trim value) ->
  buildRequestConditionExpr (ParamHeaderCondition SOURCE_PARAM path mode value)
  = join (u " && ") [param_exists_text (trim path); compare_half (trim path) op (trim value)].
Proof.
  intros Hp Hne Hop Hv. apply plain_trim in Hp.
  assert (buildRequestConditionExpr (ParamHeaderCondition SOURCE_PARAM path mode value) =
          (if negb (str_truthy (trim path)) then [] else
           if negb (rtest NUMERIC_LITERAL_REGEX (trim value)) then [] else
           (u "param(" ++ quote (trim path) ++ u ")") ++ u " != nil && " ++
           (u "param(" ++ quote (trim path) ++ u ")") ++ u " " ++ op ++ u " " ++ trim value)) as ->.
  { apply list_elem_of_In in Hop as [[= <- <-]|[[= <- <-]|[[= <- <-]|[[= <- <-]|[]]]]]; reflexivity. }
  rewrite Hv. destruct (trim path) as [|c p]; [done|]. cbn [str_truthy negb]. rewrite !param_call by done.
  cbn [join]. unfold param_exists_text, compare_half. by rewrite <- !app_assoc.
Qed.

Lemma build_contains path value : plain_text path -> trim path <> [] -> plain_text value ->
  buildRequestConditionExpr (ParamHeaderCondition SOURCE_PARAM path MATCH_CONTAINS value)
  = join (u " && ") [param_exists_text (trim path); contains_half (trim path) (trim value)].
Proof.
  intros Hp Hne Hv. apply plain_trim in Hp, Hv.
  change (buildRequestConditionExpr (ParamHeaderCondition SOURCE_PARAM path MATCH_CONTAINS value)) with
          (if negb (str_truthy (trim path)) then [] else
           (u "param(" ++ quote (trim path) ++ u ")") ++ u " != nil && " ++
           u "has(" ++ (u "param(" ++ quote (trim path) ++ u ")") ++ u ", " ++ quote (trim value) ++ u ")").
  destruct (trim path) as [|c p]; [done|]. cbn [str_truthy negb]. rewrite !param_call, (plain_quote (trim value)) by done.
  cbn [join]. unfold param_exists_text, contains_half. rewrite <- !app_assoc. cbn [app]. by rewrite <- !app_assoc.
Qed.

Lemma unparsed_half path half mult : path <> [] -> plain_text path -> numeric mult -> solid 38 half ->
  tryParseRequestCondition half = Some None ->
  tryParseRequestRuleExpr (factor_text [param_exists_text path; half] mult) = Some None.
Proof.
  intros Hne Hp Hm Hs Hh. pose proof (FParamExists path Hne Hp) as F.
  destruct (form_part _ _ F) as [[Hs1 Hp1] _].
  assert (Forall (solid 38) [param_exists_text path; half]) as HF
    by (constructor; [done|constructor; [done|constructor]]).
  rewrite solid_parse_one by (by apply factor_text_solid).
  cbn [parse_all]. rewrite factor_text_parse by done. cbn [parse_all].
  destruct Hs1 as (_ & -> & _). rewrite Hp1. destruct Hs as (_ & -> & _). by rewrite Hh.
Qed.

(** The rules the editor builds for a parameter that is compared with a number
    or searched for a text do not parse back: the parser splits them at the && they
    contain and rejects the second half, whatever the name, value and multiplier. *)
Theorem param_comparisons_lost (path mode value mult : jstr) :
  plain_text path -> trim path <> [] -> plain_text value -> numeric (trim mult) ->
  (mode = MATCH_CONTAINS \/ mode ∈ compare_ops.*1 /\ numeric (trim value)) ->
  let rule := buildRequestRuleExpr [mkGroup [ParamHeaderCondition SOURCE_PARAM path mode value] mult] in
  rule <> [] /\ tryParseRequestRuleExpr rule = Some None.
Proof.
  intros Hp Hne Hv Hm Hmode rule.
  assert (exists half, rule = factor_text [param_exists_text (trim path); half] (trim mult)
            /\ solid 38 half /\ tryParseRequestCondition half = Some None) as (half & -> & Hs & Hh).
  { unfold rule, buildRequestRuleExpr. cbn [map List.filter]. unfold buildRuleGroupFactor. cbn [multiplier conditions map].
    rewrite Hm. cbn [negb]. destruct Hmode as [->|[Hmode Hnum]].
    - rewrite build_contains by done. exists (contains_half (trim path) (trim value)).
      split; [reflexivity|]. split; [apply contains_half_solid; by apply plain_trim|reflexivity].
    - apply list_elem_of_fmap in Hmode as ([m op] & -> & Hop). rewrite (build_compare _ _ op) by done.
      exists (compare_half (trim path) op (trim value)). apply plain_trim in Hp.
      assert (op ∈ compare_ops.*2) by (by apply (list_elem_of_fmap_2 snd _ _ Hop)).
      split; [reflexivity|]. split; [by apply compare_half_solid|by apply compare_half_no_condition]. }
  split; [done|]. by apply unparsed_half; [|apply plain_trim| | |].
Qed.

Lemma param_comparisons_lost_witness :
  tryParseRequestRuleExpr (buildRequestRuleExpr
    [mkGroup [ParamHeaderCondition SOURCE_PARAM (u "max_tokens") MATCH_GT (u "1000")] (u "2")]) = Some None.
Proof.
  apply (param_comparisons_lost (u "max_tokens") MATCH_GT (u "1000") (u "2")).
  - apply plain_checked. vm_compute. reflexivity.
  - vm_compute. discriminate.
  - apply plain_checked. vm_compute. reflexivity.
  - vm_compute. reflexivity.
  - right. split; [by left|vm_compute; reflexivity].
Defined.

(** ** Price and rules *)

(** Every parenthesis is closed, and none that was not opened. *)
Definition balanced (s : jstr) : Prop := scan 65536 0 s = Some O.

Lemma outer_loop_inner amp s d d' rest : scan amp d s = Some d' -> rest <> [] ->
  outer_loop (s ++ rest) (Z.of_nat (S d)) = outer_loop rest (Z.of_nat (S d')).
Proof.
  intros Hs Hr. revert d Hs. induction s as [|c s IH]; intros d Hs; [by injection Hs as ->|].
  cbn [app outer_loop]. cbn [scan] in Hs.
  assert (bool_decide (s ++ rest = []) = false) as -> by (apply bool_decide_eq_false_2; by destruct s).
  destruct (c =? 40)%N eqn:E1.
  { apply N.eqb_eq in E1 as ->. cbn [N.eqb Pos.eqb]. rewrite <- (IH (S d)) by done.
    replace (Z.of_nat (S d) + 1) with (Z.of_nat (S (S d))) by lia. by rewrite (proj2 (Z.eqb_neq _ 0)) by lia. }
  destruct (c =? 41)%N.
  { destruct d as [|d]; [done|]. rewrite <- (IH d) by done.
    replace (Z.of_nat (S (S d)) - 1) with (Z.of_nat (S d)) by lia. by rewrite (proj2 (Z.eqb_neq _ 0)) by lia. }
  destruct (_ && _) in Hs; [done|]. rewrite <- (IH d) by done. by rewrite (proj2 (Z.eqb_neq _ 0)) by lia.
Qed.

Lemma wrapped_outer s : balanced s -> hasFullOuterParens (u "(" ++ s ++ u ")") = true.
Proof.
  intros H. unfold hasFullOuterParens.
  assert (endsWith (u "(" ++ s ++ u ")") (u ")") = true) as ->.
  { unfold endsWith. rewrite !reverse_app. apply startsWith_app. eexists. rewrite <- app_assoc. reflexivity. }
  rewrite andb_true_r. apply andb_true_iff. split; [done|]. change (u "(" ++ s ++ u ")") with (40%N :: s ++ [41%N]).
  cbn [outer_loop N.eqb Pos.eqb]. cbn [Z.add Z.eqb andb].
  change 1 with (Z.of_nat 1). by rewrite (outer_loop_inner 65536 s 0 0).
Qed.

Lemma unwrap_wrapped s : balanced s -> trim s = s -> hasFullOuterParens s = false ->
  unwrapOuterParens (u "(" ++ s ++ u ")") = s.
Proof.
  intros Hb Ht Ho. unfold unwrapOuterParens.
  assert (trim (u "(" ++ s ++ u ")") = u "(" ++ s ++ u ")") as ->.
  { apply (trim_ends _ 40%N 41%N); try done. rewrite app_assoc. apply last_snoc. }
  rewrite length_app. change (length (u "(") + ?n)%nat with (S n). cbn [unwrap_loop].
  rewrite wrapped_outer by done.
  assert (inner (u "(" ++ s ++ u ")") = s) as ->.
  { change (inner (u "(" ++ s ++ u ")")) with (removelast (s ++ [41%N])). apply removelast_last. }
  rewrite Ht, length_app, Nat.add_comm. change (length (u ")") + ?n)%nat with (S n). cbn [unwrap_loop]. by rewrite Ho.
Qed.

Lemma classify_factors fs gs : Forall2 factor_of fs gs -> classify fs = Some (fs, []).
Proof.
  induction 1 as [|f g fs gs [Hs Hp] H IH]; [done|]. cbn [classify].
  rewrite solid_parse_one by done. cbn [parse_all]. rewrite Hp. cbn. by rewrite IH.
Qed.

Lemma classify_base w fs rules bases : tryParseRequestRuleExpr w = Some None ->
  classify fs = Some (rules, bases) -> classify (w :: fs) = Some (rules, w :: bases).
Proof. intros Hw H. cbn [classify]. by rewrite Hw, H. Qed.

(** C38: Combining and splitting are inverse, for a price that is not empty, trimmed,
    balanced in its parentheses, not wrapped in a pair of them and no rule itself, and for
    rules the editor builds from groups of which at least one is complete and whose
    conditions have plain names and values and test parameters only for equality or
    existence: the expression combined from the two splits into exactly that price and
    those rules. (Other comparisons of parameters do not split off; see
    [param_comparisons_lost].) *)
Theorem split_combine_roundtrip (base : jstr) (groups : list RequestRuleGroup) :
  base <> [] -> trim base = base -> balanced base -> hasFullOuterParens base = false ->
  tryParseRuleGroupFactor (u "(" ++ base ++ u ")") = Some None ->
  Forall (fun g => Forall representable (conditions g)) groups -> omap canon_group groups <> [] ->
  splitBillingExprAndRequestRules (combineBillingExpr base (buildRequestRuleExpr groups))
  = Some (base, buildRequestRuleExpr groups).
Proof.
  intros Hne Ht Hb Ho Hr Hg Hgs. unfold buildRequestRuleExpr. pose proof (groups_factors groups Hg) as F.
  set (fs := List.filter str_truthy (map buildRuleGroupFactor groups)) in *. clearbody fs.
  assert (fs <> []) as Hfs by (intros ->; by inversion F).
  pose proof (factors_solid _ _ F) as Hs. unfold combineBillingExpr.
  rewrite Ht, trim_solid, join_solid_truthy by done.
  assert (str_truthy base = true) as -> by (by destruct base). cbn [negb].
  assert (solid 42 (u "(" ++ base ++ u ")")) as Hw.
  { split; [done|]. split; [|by apply (scan_wrap 65536)].
    apply (trim_ends _ 40%N 41%N); try done. rewrite app_assoc. apply last_snoc. }
  assert (u "(" ++ base ++ u ") * " ++ join (u " * ") fs = join (u " * ") ((u "(" ++ base ++ u ")") :: fs)) as ->.
  { destruct fs as [|f fs']; [done|]. cbn [join]. by rewrite <- !app_assoc. }
  assert (Forall (solid 42) ((u "(" ++ base ++ u ")") :: fs)) as Hall by (by constructor).
  unfold splitBillingExprAndRequestRules.
  rewrite trim_solid, join_solid_truthy, split_multiply_solid by done. cbn [negb].
  destruct fs as [|f fs']; [done|]. set (w := u "(" ++ base ++ u ")") in *. cbn [length Nat.leb].
  rewrite (classify_base w (f :: fs') (f :: fs') []).
  - unfold w. by rewrite unwrap_wrapped.
  - rewrite solid_parse_one by done. cbn [parse_all]. by rewrite Hr.
  - by eapply classify_factors.
Qed.

Lemma split_combine_roundtrip_witness :
  splitBillingExprAndRequestRules
    (combineBillingExpr (uq "tier('base', p * 2 + c * 4)") (buildRequestRuleExpr demo_groups))
  = Some (uq "tier('base', p * 2 + c * 4)", buildRequestRuleExpr demo_groups).
Proof.
  apply split_combine_roundtrip.
  - discriminate.
  - vm_compute. reflexivity.
  - vm_compute. reflexivity.
  - vm_compute. reflexivity.
  - vm_compute. reflexivity.
  - apply representable_checked. vm_compute. reflexivity.
  - vm_compute. discriminate.
Defined.
