(* ===== verification/PlaygroundChat.v ===== *)
(** * The playground's chat (src/web/src/features/playground/hooks)

    [useChatHandler] (use-chat-handler.ts) sends a conversation, buffers the chunks
    of the reply and writes them into the messages; [usePlaygroundConversation]
    (use-playground-conversation.ts) makes the conversations it sends. It runs on
    top of the stream controller of [PlaygroundStream] and of React:

    - [Hook] is what the handler keeps in refs and state of its own;
    - [View] is React's state of the messages. An update handed to [setMessages] is
      run when React renders, in order, and reads the generation then; React may
      run the first update of an empty queue at once, which [eager] decides;
    - [Chat] puts them together with the controller. [owners] says which generation
      the callbacks of a stream request captured.

    A step of the controller is followed by the callbacks it made; the handlers do
    not call back into the controller. State other than the messages is rendered
    before the next action. Chunks and messages of errors are strings
    ([typed]). Translations are those of the source language. *)

From Stdlib Require Import ZArith SpecFloat.
From stdpp Require Import base numbers option list sorting.
From S2P Require Import Prelude Collections JsNumber JsValue Json Playground PlaygroundStream.

(** ** Updates of the messages *)

Inductive update :=
| USet (ms : list Message)
| UDelete (k : jstr)
| UFlush (g : nat) (reasoning content : jstr)
| UComplete (g : nat)
| UFail (g : nat) (displayError : jstr) (code : option jstr) (errorTitle : jstr)
| UResponse (g : nat) (choices : option (list ChatCompletionChoice))
| UStop (g : nat)
| UDone.

(** The chunks of a flush, reasoning first. *)
Definition apply_pending (reasoning content : jstr) (now : Z) (message : Message) : Message :=
  let updatedMessage :=
    if str_truthy reasoning then applyStreamingChunk message ChunkReasoning reasoning now else message in
  if str_truthy content then applyStreamingChunk updatedMessage ChunkContent content now
  else updatedMessage.

(** What an update does when it is run at time [now], [current] being the value of
    [requestGenerationRef] then. [UDone] was run before. *)
Definition run_update (current : nat) (now : Z) (up : update) (prev : list Message) : list Message :=
  let guarded g f := if (current =? g)%nat then f prev else prev in
  match up with
  | USet ms => ms
  | UDelete k => removeMessageByKey prev k
  | UFlush g reasoning content =>
      guarded g (fun prev => updateLastAssistantMessage prev (apply_pending reasoning content now))
  | UComplete g =>
      guarded g (fun prev => updateLastAssistantMessage prev (fun message =>
        if isAssistantMessageFinal message then message else completeAssistantMessage message now))
  | UFail g displayError code title =>
      guarded g (fun prev => updateAssistantMessageWithError prev displayError code title now)
  | UResponse g choices =>
      guarded g (fun prev => updateLastAssistantMessage prev (fun message =>
        default message (applyChatCompletionResponse message choices now)))
  | UStop g =>
      guarded g (fun prev => updateLastAssistantMessage prev (fun message =>
        if isAssistantMessagePending message then completeAssistantMessage message now else message))
  | UDone => prev
  end.

(** ** React's state *)

(** [rendered] is the value the last render saw, [state] that value with the
    updates run so far. *)
Record View := mkView { rendered : list Message; state : list Message; queue : list update }.

(** The time of an action, whether React runs its first update at once, and the
    settings the handler was given. *)
Record Env := mkEnv { now : Z; eager : bool; config : PlaygroundConfig; parameterEnabled : ParameterEnabled }.

Definition enqueue (env : Env) (current : nat) (up : update) (v : View) : View :=
  if eager env && bool_decide (length (queue v) = 0%nat)
  then mkView (rendered v) (run_update current (now env) up (state v)) [UDone]
  else mkView (rendered v) (state v) (queue v ++ [up]).

Definition run_queue (current : nat) (t : Z) (ups : list update) (ms : list Message) : list Message :=
  fold_left (fun ms up => run_update current t up ms) ups ms.

Definition render (current : nat) (t : Z) (v : View) : View :=
  let ms := run_queue current t (queue v) (state v) in mkView ms ms [].

(** ** The handler *)

Record PendingStreamChunks := mkPending { p_generation : nat; p_content : jstr; p_reasoning : jstr }.

(** [requestGenerationRef], [pendingStreamChunksRef], [streamFlushTimerRef] (the
    generation its callback captured), [abortControllerRef] (the generation of the
    request it aborts) and [isRequesting]. *)
Record Hook := mkHook {
  requestGeneration : nat;
  pendingStreamChunks : PendingStreamChunks;
  streamFlushTimer : option nat;
  abortController : option nat;
  isRequesting : bool
}.

Definition mergePendingStreamChunk (currentChunk nextChunk : jstr) : jstr :=
  if negb (str_truthy currentChunk) || negb (startsWith nextChunk currentChunk)
  then currentChunk ++ nextChunk else nextChunk.

Definition discardPendingStreamUpdates (g : nat) (h : Hook) : Hook :=
  mkHook (requestGeneration h) (mkPending g [] []) None (abortController h) (isRequesting h).

Definition set_pending (p : PendingStreamChunks) (timer : option nat) (h : Hook) : Hook :=
  mkHook (requestGeneration h) p timer (abortController h) (isRequesting h).

Definition set_requesting (b : bool) (h : Hook) : Hook :=
  mkHook (requestGeneration h) (pendingStreamChunks h) (streamFlushTimer h) (abortController h) b.

Definition flushStreamUpdates (env : Env) (g : nat) (hv : Hook * View) : Hook * View :=
  let '(h, v) := hv in
  if negb (g =? requestGeneration h)%nat then (h, v)
  else
    let p := pendingStreamChunks h in
    if negb (p_generation p =? g)%nat then (set_pending p None h, v)
    else if negb (str_truthy (p_reasoning p)) && negb (str_truthy (p_content p))
    then (set_pending p None h, v)
    else (set_pending (mkPending g [] []) None h,
          enqueue env (requestGeneration h) (UFlush g (p_reasoning p) (p_content p)) v).

Definition scheduleStreamFlush (g : nat) (h : Hook) : Hook :=
  if negb (g =? requestGeneration h)%nat then h
  else match streamFlushTimer h with
       | Some _ => h
       | None => set_pending (pendingStreamChunks h) (Some g) h
       end.

Definition handleStreamUpdate (g : nat) (type : StreamChunkType) (chunk : jstr) (h : Hook) : Hook :=
  let p := pendingStreamChunks h in
  if negb (g =? requestGeneration h)%nat then h
  else if negb (p_generation p =? g)%nat then h
  else
    let p' := match type with
              | ChunkReasoning =>
                  mkPending (p_generation p) (p_content p) (mergePendingStreamChunk (p_reasoning p) chunk)
              | ChunkContent =>
                  mkPending (p_generation p) (mergePendingStreamChunk (p_content p) chunk) (p_reasoning p)
              end in
    scheduleStreamFlush g (set_pending p' (streamFlushTimer h) h).

Definition handleStreamComplete (env : Env) (g : nat) (hv : Hook * View) : Hook * View :=
  if negb (g =? requestGeneration (fst hv))%nat then hv
  else
    let '(h, v) := flushStreamUpdates env g hv in
    (set_requesting false h, enqueue env (requestGeneration h) (UComplete g) v).

(** Known messages are translated, and the end of an HTTP error. *)
Definition getDisplayError (t : jstr -> jstr) (error : jstr) : jstr :=
  if bool_decide (error ∈ [API_REQUEST_ERROR; u "Network connection failed or server not responding";
                           PARSE_ERROR; STREAM_START_ERROR; CONNECTION_CLOSED; INTERRUPTED])
  then t error
  else if startsWith (reverse error) (reverse (u ": " ++ CONNECTION_CLOSED))
  then take (length error - length CONNECTION_CLOSED) error ++ t CONNECTION_CLOSED
  else error.

(** The toast is in the result too. *)
Definition handleStreamError (env : Env) (g : nat) (error : jstr) (errorCode : option jstr) (hv : Hook * View)
    : (Hook * View) * list jstr :=
  if negb (g =? requestGeneration (fst hv))%nat then (hv, [])
  else
    let '(h, v) := flushStreamUpdates env g hv in
    let displayError := getDisplayError (fun s => s) error in
    ((set_requesting false h,
      enqueue env (requestGeneration h) (UFail g displayError errorCode API_REQUEST_ERROR) v),
     [displayError]).

(** ** The whole *)

(** [inflight] are the plain requests not answered yet, [aborted] those whose
    signal was aborted, both named by their generation; [sent] are the payloads
    sent, the latest first; [editingMessageKey] is the conversation's. *)
Record Chat := mkChat {
  stream : Controller;
  owners : list (nat * nat);
  hook : Hook;
  view : View;
  inflight : list nat;
  aborted : list nat;
  toasts : list jstr;
  sent : list ChatCompletionRequest;
  editingMessageKey : option jstr
}.

Definition init_chat (ms : list Message) : Chat :=
  mkChat createStreamRequestController [] (mkHook 0 (mkPending 0 [] []) None None false) (mkView ms ms [])
    [] [] [] [] None.

Definition set_hv (hv : Hook * View) (c : Chat) : Chat :=
  mkChat (stream c) (owners c) (fst hv) (snd hv) (inflight c) (aborted c) (toasts c) (sent c) (editingMessageKey c).

Definition isGenerating (c : Chat) : bool := streaming (stream c) || isRequesting (hook c).

(** [abortControllerRef.current?.abort()]. *)
Definition abort_current (c : Chat) : list nat :=
  match abortController (hook c) with Some g => g :: aborted c | None => aborted c end.

Definition sendStreamingChat (env : Env) (messages : list Message) (c : Chat) : Chat :=
  let g := S (requestGeneration (hook c)) in
  let payload := buildChatCompletionPayload messages (config env) (parameterEnabled env) in
  let s := send (stream c) in
  mkChat s ((generation s, g) :: owners c) (mkHook g (mkPending g [] []) None None true) (view c)
    (inflight c) (abort_current c) (toasts c) (payload :: sent c)
    (editingMessageKey c).

(** [sendNonStreamingChat] up to its await. *)
Definition sendNonStreamingChat (env : Env) (messages : list Message) (c : Chat) : Chat :=
  let payload := buildChatCompletionPayload messages (config env) (parameterEnabled env) in
  let g := S (requestGeneration (hook c)) in
  mkChat (cancel true (stream c)) (owners c) (mkHook g (mkPending g [] []) None (Some g) true) (view c)
    (g :: inflight c) (abort_current c) (toasts c) (payload :: sent c)
    (editingMessageKey c).

(** Its [finally] block. *)
Definition finish_request (g : nat) (c : Chat) : Chat :=
  let h := hook c in
  if (requestGeneration h =? g)%nat
  then set_hv (mkHook g (pendingStreamChunks h) (streamFlushTimer h) None false, view c) c
  else c.

Definition settle_request (g : nat) (c : Chat) : Chat :=
  mkChat (stream c) (owners c) (hook c) (view c) (List.filter (fun x => negb (x =? g)%nat) (inflight c))
    (aborted c) (toasts c) (sent c) (editingMessageKey c).

(** [signal.aborted || requestGenerationRef.current !== generation]. *)
Definition superseded (g : nat) (c : Chat) : bool :=
  bool_decide (g ∈ aborted c) || negb (requestGeneration (hook c) =? g)%nat.

Definition stream_error (env : Env) (g : nat) (error : jstr) (code : option jstr) (c : Chat) : Chat :=
  let '(hv, shown) := handleStreamError env g error code (hook c, view c) in
  let c := set_hv hv c in
  mkChat (stream c) (owners c) (hook c) (view c) (inflight c) (aborted c) (toasts c ++ shown) (sent c) (editingMessageKey c).

(** The response of a plain request, and its failure. *)
Definition on_response (env : Env) (g : nat) (choices : option (list ChatCompletionChoice)) (c : Chat) : Chat :=
  let c := settle_request g c in
  finish_request g
    (if superseded g c then c
     else if negb (hasChatCompletionChoice choices) then stream_error env g API_REQUEST_ERROR None c
     else set_hv (hook c, enqueue env (requestGeneration (hook c)) (UResponse g choices) (view c)) c).

(** Values the callbacks take as strings. *)
Definition as_str (v : jsval) : jstr := match v with JStr s => s | _ => [] end.
Definition as_opt_str (v : jsval) : option jstr := match v with JStr s => Some s | _ => None end.

Definition on_failure (env : Env) (g : nat) (error : jsval) (c : Chat) : Chat :=
  let c := settle_request g c in
  finish_request g
    (if superseded g c then c
     else
       let '(errorCode, errorMessage) := parseRequestErrorDetails error in
       stream_error env g (as_str errorMessage) (as_opt_str errorCode) c).

Definition sendChat (env : Env) (messages : list Message) (c : Chat) : Chat :=
  if Playground.stream (config env) then sendStreamingChat env messages c
  else sendNonStreamingChat env messages c.

Definition stopGeneration (env : Env) (c : Chat) : Chat :=
  let stoppedGeneration := requestGeneration (hook c) in
  let '(h, v) := flushStreamUpdates env stoppedGeneration (hook c, view c) in
  let idleGeneration := S stoppedGeneration in
  mkChat (cancel true (stream c)) (owners c)
    (mkHook idleGeneration (mkPending idleGeneration [] []) None None false)
    (enqueue env idleGeneration (UStop idleGeneration) v) (inflight c) (abort_current c) (toasts c) (sent c) (editingMessageKey c).

(** The effects' clean-up functions when the view goes away. *)
Definition unmount (c : Chat) : Chat :=
  let h := hook c in
  mkChat (cancel false (stream c)) (owners c)
    (mkHook (S (requestGeneration h)) (pendingStreamChunks h) None None (isRequesting h)) (view c)
    (inflight c) (abort_current c) (toasts c) (sent c) (editingMessageKey c).

(** A callback of a stream request, with the generation it captured. *)
Definition on_callback (env : Env) (c : Chat) (p : nat * callback) : Chat :=
  let g := default 0%nat (map_get (owners c) (fst p)) in
  match snd p with
  | OnUpdate type chunk => set_hv (handleStreamUpdate g type (as_str chunk) (hook c), view c) c
  | OnComplete => set_hv (handleStreamComplete env g (hook c, view c)) c
  | OnError error code => stream_error env g (as_str error) (as_opt_str code) c
  end.

Definition new_calls (a : action) (s : Controller) : list (nat * callback) :=
  drop (length (calls s)) (calls (act a s)).

Definition on_stream (env : Env) (a : action) (c : Chat) : Chat :=
  fold_left (on_callback env) (new_calls a (stream c))
    (mkChat (act a (stream c)) (owners c) (hook c) (view c) (inflight c) (aborted c) (toasts c) (sent c)
       (editingMessageKey c)).

(** [updateMessages] called by the conversation. *)
Definition updateMessages (env : Env) (up : update) (c : Chat) : Chat :=
  set_hv (hook c, enqueue env (requestGeneration (hook c)) up (view c)) c.

(** ** The conversation (use-playground-conversation.ts) *)

Definition handleSendMessage (env : Env) (text k1 id1 k2 id2 : jstr) (c : Chat) : Chat :=
  let nextMessages := appendUserMessagePair (rendered (view c)) text k1 id1 k2 id2 (now env) in
  sendChat env nextMessages (updateMessages env (USet nextMessages) c).

Definition handleRegenerateMessage (env : Env) (messageKey k id : jstr) (c : Chat) : Chat :=
  match createRegeneratedMessages (rendered (view c)) messageKey k id (now env) with
  | None => c
  | Some nextMessages => sendChat env nextMessages (updateMessages env (USet nextMessages) c)
  end.

(** [setEditingMessageKey]. *)
Definition set_editing (k : option jstr) (c : Chat) : Chat :=
  mkChat (stream c) (owners c) (hook c) (view c) (inflight c) (aborted c) (toasts c) (sent c) k.

Definition handleEditMessage (messageKey : jstr) (c : Chat) : Chat := set_editing (Some messageKey) c.

Definition handleEditOpenChange (open : bool) (c : Chat) : Chat := if negb open then set_editing None c else c.

Definition applyEdit (env : Env) (newContent : jstr) (shouldSubmit : bool) (k id : jstr) (c : Chat) : Chat :=
  match editingMessageKey c with
  | None | Some [] => c
  | Some messageKey =>
      match applyMessageEdit (rendered (view c)) messageKey newContent shouldSubmit k id (now env) with
      | None => c
      | Some (messages, shouldSend) =>
          let c := updateMessages env (USet messages) (set_editing None c) in
          if shouldSend then sendChat env messages c else c
      end
  end.

Definition handleDeleteMessage (env : Env) (messageKey : jstr) (c : Chat) : Chat :=
  updateMessages env (UDelete messageKey) c.

(** ** Steps *)

Inductive chat_action :=
| CSend (text k1 id1 k2 id2 : jstr)
| CRegenerate (messageKey k id : jstr)
| CEditMessage (messageKey : jstr)
| CEditOpenChange (open : bool)
| CEdit (newContent : jstr) (shouldSubmit : bool) (k id : jstr)
| CDelete (messageKey : jstr)
| CStop
| CUnmount
| CStream (a : action)
| CTimer
| CResponse (g : nat) (choices : option (list ChatCompletionChoice))
| CFailure (g : nat) (error : jsval)
| CRender.

Definition chat_act (env : Env) (a : chat_action) (c : Chat) : Chat :=
  match a with
  | CSend text k1 id1 k2 id2 => handleSendMessage env text k1 id1 k2 id2 c
  | CRegenerate messageKey k id => handleRegenerateMessage env messageKey k id c
  | CEditMessage messageKey => handleEditMessage messageKey c
  | CEditOpenChange open => handleEditOpenChange open c
  | CEdit newContent shouldSubmit k id => applyEdit env newContent shouldSubmit k id c
  | CDelete messageKey => handleDeleteMessage env messageKey c
  | CStop => stopGeneration env c
  | CUnmount => unmount c
  | CStream a => on_stream env a c
  | CTimer =>
      match streamFlushTimer (hook c) with
      | Some g => set_hv (flushStreamUpdates env g (hook c, view c)) c
      | None => c
      end
  | CResponse g choices => if bool_decide (g ∈ inflight c) then on_response env g choices c else c
  | CFailure g error => if bool_decide (g ∈ inflight c) then on_failure env g error c else c
  | CRender => set_hv (hook c, render (requestGeneration (hook c)) (now env) (view c)) c
  end.

(** What happens by itself: the controller is only sent to and stopped by the
    handler. *)
Definition background (a : chat_action) : bool :=
  match a with
  | CStream (ASend | AStop | ADispose) => false
  | CStream _ | CTimer | CResponse _ _ | CFailure _ _ | CRender => true
  | _ => false
  end.

Definition typed (cb : callback) : bool :=
  match cb with
  | OnUpdate _ chunk => is_string chunk
  | OnComplete => true
  | OnError error code => is_string error && match code with JStr _ | JUndef => true | _ => false end
  end.

(** The actions a state allows: events whose values have the types the callbacks
    declare. *)
Definition allowed (a : chat_action) (c : Chat) : bool :=
  match a with
  | CStream (ASend | AStop | ADispose) => false
  | CStream a => forallb (fun p => typed (snd p)) (new_calls a (stream c))
  | _ => true
  end.

Inductive chat_reachable : Chat -> Prop :=
| chat_init ms : chat_reachable (init_chat ms)
| chat_step env a c : chat_reachable c -> allowed a c = true -> chat_reachable (chat_act env a c).

Definition chat_exec (acts : list (Env * chat_action)) (c : Chat) : Chat :=
  fold_left (fun c p => chat_act (fst p) (snd p) c) acts c.

(** ** An example *)

Definition demo_config : PlaygroundConfig :=
  mkPlaygroundConfig (u "gpt-4o") [] (num_of_Z 1) (num_of_Z 1) (num_of_Z 4096) (num_of_Z 0)
    (num_of_Z 0) None true.
Definition demo_enabled : ParameterEnabled := mkEnabled true false false false false false.
Definition demo_env (t : Z) (b : bool) : Env := mkEnv t b demo_config demo_enabled.
Definition at_ (t : Z) : Env := demo_env t false.
Definition data_ (s : jstr) : jstr := uq "{'choices':[{'delta':{'content':'" ++ s ++ uq "'}}]}".

Definition demo_send : list (Env * chat_action) :=
  [(at_ 10, CSend (u "hi") (u "k1") (u "i1") (u "k2") (u "i2")); (at_ 10, CRender);
   (at_ 20, CStream (AHeaders 1 true)); (at_ 30, CStream (AMessage 1 (data_ (u "He"))));
   (at_ 35, CStream (AMessage 1 (data_ (u "llo")))); (at_ 80, CTimer); (at_ 85, CRender);
   (at_ 90, CStream (AMessage 1 (data_ (u " you"))))].

Example demo_complete :
  let c := chat_exec (demo_send ++ [(at_ 95, CStream (AMessage 1 (u "[DONE]"))); (at_ 99, CRender)]) (init_chat []) in
  map (fun m => (getMessageContent m, status m)) (state (view c))
  = [(u "hi", None); (u "Hello you", Some SComplete)] /\ isGenerating c = false.
Proof. vm_compute. done. Qed.

Example demo_stop :
  let c := chat_exec (demo_send ++ [(at_ 95, CStop); (at_ 99, CRender)]) (init_chat []) in
  map (fun m => (getMessageContent m, status m)) (state (view c))
  = [(u "hi", None); (u "Hello", Some SComplete)] /\ isGenerating c = false.
Proof. vm_compute. done. Qed.
