(* ===== verification/PlaygroundChatProps.v ===== *)
(** * Properties of the playground's chat

    Stopping is final across the controller, the buffer, the timer, plain requests
    and React's queue; the stored reply refines what the stream delivered; and what
    becomes of the text still buffered when the user stops. *)

From Stdlib Require Import ZArith SpecFloat.
From stdpp Require Import base numbers option list sorting.
From S2P Require Import Prelude Collections JsNumber JsValue Json Playground PlaygroundStream.
From S2P Require Import PlaygroundProps PlaygroundStreamProps PlaygroundChat.

Create HintDb chat.

(** ** What the operations leave alone *)

Lemma flush_generation env g hv : requestGeneration (fst (flushStreamUpdates env g hv)) = requestGeneration (fst hv).
Proof. destruct hv as [h v]. unfold flushStreamUpdates. by repeat case_match. Qed.

Lemma update_generation g t chunk h : requestGeneration (handleStreamUpdate g t chunk h) = requestGeneration h.
Proof. unfold handleStreamUpdate, scheduleStreamFlush. by repeat case_match. Qed.

(** Everything but the hook and the view, and the generation. *)
Definition frame (c c' : Chat) : Prop :=
  stream c' = stream c /\ owners c' = owners c /\ inflight c' = inflight c /\ aborted c' = aborted c
  /\ requestGeneration (hook c') = requestGeneration (hook c).

#[export] Instance frame_preorder : PreOrder frame.
Proof. split; [by intros c; split_and!|]. intros a b c (?&?&?&?&?) (?&?&?&?&?). split_and!; congruence. Qed.

Lemma stream_error_frame env g e code c : frame c (stream_error env g e code c).
Proof.
  unfold stream_error, handleStreamError. cbn [fst]. destruct (negb _); [by split_and!|].
  pose proof (flush_generation env g (hook c, view c)) as H.
  destruct (flushStreamUpdates env g (hook c, view c)). by split_and!.
Qed.

Lemma on_callback_frame env c p : frame c (on_callback env c p).
Proof.
  unfold on_callback. destruct (snd p).
  - split_and!; try done. apply update_generation.
  - unfold handleStreamComplete. cbn [fst]. destruct (negb _); [by split_and!|].
    pose proof (flush_generation env (default 0%nat (map_get (owners c) p.1)) (hook c, view c)) as H.
    destruct (flushStreamUpdates _ _ (hook c, view c)). by split_and!.
  - apply stream_error_frame.
Qed.

Lemma callbacks_frame env ps : forall c, frame c (fold_left (on_callback env) ps c).
Proof.
  induction ps as [|p ps IH]; intros c; cbn [fold_left]; [reflexivity|].
  etransitivity; [apply on_callback_frame|apply IH].
Qed.

(** ** Events of the controller *)

Definition stream_event (a : action) : bool := match a with ASend | AStop | ADispose => false | _ => true end.

Definition emits (c c' : Controller) : Prop :=
  generation c' = generation c /\ exists cbs, calls c' = calls c ++ map (pair (generation c)) cbs.

Lemma emits_nil c c' : generation c' = generation c -> calls c' = calls c -> emits c c'.
Proof. intros Hg Hc. split; [done|]. exists []. by rewrite app_nil_r. Qed.

Lemma handleError_emits r m code c : emits c (handleError r m code c).
Proof.
  unfold handleError. destruct (ignores r c) eqn:E; [by apply emits_nil|].
  apply ignores_false in E as (Hg & Hs & _). rewrite (proj1 (closeActive_finish _ _ _ Hs)).
  split; [done|]. exists [OnError m code]. by rewrite Hg.
Qed.

Lemma updates_emit r ups : forall c, generation c = r ->
  emits c (fold_left (fun c '(t, chunk) => call r (OnUpdate t chunk) c) ups c).
Proof.
  induction ups as [|[t chunk] ups IH]; intros c Hg; cbn [fold_left]; [by apply emits_nil|].
  destruct (IH (call r (OnUpdate t chunk) c)) as [H1 [cbs H2]]; [done|]. split; [done|].
  exists (OnUpdate t chunk :: cbs). rewrite H2. cbn. rewrite <- app_assoc. by rewrite Hg.
Qed.

(** Only the latest request is called back. *)
Lemma act_emits a c : stream_event a = true -> emits c (act a c).
Proof.
  intros Ha. destruct a as [| | |r m|r started|r data|r rs data|r rs st]; try done; cbn [act];
    (case_bool_decide; [|by apply emits_nil]).
  - unfold headers_failed. cbn [generation stop_awaiting]. case_bool_decide as Hg; cbn [negb]; [|by apply emits_nil].
    split; [done|]. exists [OnError m JUndef]. by rewrite Hg.
  - unfold headers_ready. cbn [generation stop_awaiting]. case_bool_decide as Hg; cbn [negb]; [|by apply emits_nil].
    destruct started; [by apply emits_nil|]. apply (handleError_emits r _ _ (mkController _ _ _ _ _ _ _ _)).
  - unfold on_message. destruct (ignores r c) eqn:E; [by apply emits_nil|].
    apply ignores_false in E as (Hg & Hs & _). destruct (isStreamDoneMessage data).
    + rewrite (proj2 (closeActive_finish _ _ _ Hs)). split; [done|]. exists [OnComplete]. by rewrite Hg.
    + destruct (parseStreamMessageUpdates data); [by apply updates_emit|apply handleError_emits].
  - unfold on_error. destruct (ignores r c); [by apply emits_nil|]. destruct (negb _); [|by apply emits_nil].
    destruct (parseStreamErrorDetails data). apply handleError_emits.
  - unfold on_readystatechange. destruct (ignores r c); [by apply emits_nil|].
    destruct (getStreamReadyStateError rs st); [|by apply emits_nil].
    destruct (str_truthy _); [|by apply emits_nil]. apply handleError_emits.
Qed.

Lemma new_calls_spec a c : stream_event a = true ->
  exists cbs, new_calls a c = map (pair (generation c)) cbs /\ calls (act a c) = calls c ++ new_calls a c.
Proof.
  intros Ha. destruct (act_emits a c Ha) as [_ [cbs H]]. exists cbs. unfold new_calls. rewrite H, drop_app_length. done.
Qed.

(** ** Reachable chats *)

Record chat_ok (c : Chat) : Prop := mkChatOk {
  chat_ok_stream : reachable (stream c);
  chat_ok_inflight : forall g, g ∈ inflight c -> (g <= requestGeneration (hook c))%nat
}.

Lemma chat_ok_frame c c' : frame c c' -> chat_ok c -> chat_ok c'.
Proof. intros (E1 & _ & E2 & _ & E3) [H1 H2]. split; [by rewrite E1|]. rewrite E2, E3. done. Qed.

Lemma set_hv_ok h v c : (requestGeneration (hook c) <= requestGeneration h)%nat ->
  chat_ok c -> chat_ok (set_hv (h, v) c).
Proof. intros Hg [H1 H2]. split; [done|]. intros g Hi. specialize (H2 g Hi). cbn. lia. Qed.

Lemma updateMessages_ok env up c : chat_ok c -> chat_ok (updateMessages env up c).
Proof. apply set_hv_ok. done. Qed.

Lemma sendChat_ok env ms c : chat_ok c -> chat_ok (sendChat env ms c).
Proof.
  intros [H1 H2]. unfold sendChat. destruct (Playground.stream _); split; cbn.
  - apply (reachable_step _ ASend), H1.
  - intros g Hg. specialize (H2 g Hg). lia.
  - apply (reachable_step _ AStop), H1.
  - intros g [->|Hg]%elem_of_cons; [lia|]. specialize (H2 g Hg). lia.
Qed.

Lemma finish_request_ok g c : chat_ok c -> chat_ok (finish_request g c).
Proof.
  intros H. unfold finish_request. destruct (_ =? _)%nat eqn:E; [|done]. apply Nat.eqb_eq in E.
  apply set_hv_ok; [cbn; lia|done].
Qed.

Lemma settle_inflight g x c : x ∈ inflight (settle_request g c) -> x ∈ inflight c.
Proof. cbn. rewrite list_elem_of_In, filter_In, <- list_elem_of_In. by intros [? _]. Qed.

Lemma settle_request_ok g c : chat_ok c -> chat_ok (settle_request g c).
Proof.
  intros [H1 H2]. split; [done|]. intros x Hx. by eapply H2, settle_inflight.
Qed.

Lemma on_stream_ok env a c : chat_ok c -> chat_ok (on_stream env a c).
Proof.
  intros [H1 H2]. eapply chat_ok_frame; [apply callbacks_frame|]. split; [by apply reachable_step|done].
Qed.

Lemma set_editing_ok k c : chat_ok c -> chat_ok (set_editing k c).
Proof. by intros [H1 H2]. Qed.

#[local] Hint Resolve set_editing_ok updateMessages_ok sendChat_ok finish_request_ok settle_request_ok on_stream_ok : chat.

Lemma chat_act_ok env a c : chat_ok c -> chat_ok (chat_act env a c).
Proof.
  intros H. destruct a as [t k1 i1 k2 i2|mk k i|mk|o|t s k i|mk| | |a| |g ch|g e|]; cbn [chat_act].
  - unfold handleSendMessage. auto with chat.
  - unfold handleRegenerateMessage. case_match; auto with chat.
  - by apply set_editing_ok.
  - destruct o; [done|by apply set_editing_ok].
  - unfold applyEdit. repeat case_match; auto with chat.
  - unfold handleDeleteMessage. auto with chat.
  - unfold stopGeneration. destruct (flushStreamUpdates _ _ _). destruct H as [H1 H2]. split.
    + apply (reachable_step _ AStop), H1.
    + intros g Hg. specialize (H2 g Hg). cbn. lia.
  - destruct H as [H1 H2]. split; [apply (reachable_step _ ADispose), H1|].
    intros g Hg. specialize (H2 g Hg). cbn. lia.
  - auto with chat.
  - case_match; [|done]. pose proof (flush_generation env n (hook c, view c)) as E.
    destruct (flushStreamUpdates env n (hook c, view c)). apply set_hv_ok; [cbn in *; lia|done].
  - case_bool_decide; [|done]. unfold on_response. apply finish_request_ok.
    destruct (superseded _ _); [auto with chat|]. destruct (negb _); [|apply set_hv_ok; auto with chat].
    eapply chat_ok_frame; [apply stream_error_frame|]. auto with chat.
  - case_bool_decide; [|done]. unfold on_failure. apply finish_request_ok.
    destruct (superseded _ _); [auto with chat|]. destruct (parseRequestErrorDetails e).
    eapply chat_ok_frame; [apply stream_error_frame|]. auto with chat.
  - by apply set_hv_ok.
Qed.

Lemma chat_reachable_ok c : chat_reachable c -> chat_ok c.
Proof.
  induction 1; [|by apply chat_act_ok]. split; [constructor|]. intros g Hg. by apply not_elem_of_nil in Hg.
Qed.

(** ** Stopping *)

(** Nothing is under way: no event can call back, no timer is set, no update waits
    and no request in flight is the current one. *)
Record idle_chat (c : Chat) : Prop := mkIdle {
  idle_stream : silent (stream c) /\ streaming (stream c) = false;
  idle_timer : streamFlushTimer (hook c) = None;
  idle_requesting : isRequesting (hook c) = false;
  idle_queue : queue (view c) = [];
  idle_inflight : forall g, g ∈ inflight c -> (g < requestGeneration (hook c))%nat
}.

Lemma silent_flag a c : stream_event a = true -> silent c -> streaming c = false -> streaming (act a c) = false.
Proof.
  intros Ha S H. rewrite flag_act; [|by destruct a|].
  - destruct (silent_act a c) as [[-> _] _]; [by destruct a|done|]. done.
  - destruct S as [-> _]. by rewrite H.
Qed.

Lemma idle_act env a c : background a = true -> idle_chat c ->
  idle_chat (chat_act env a c) /\ state (view (chat_act env a c)) = state (view c).
Proof.
  intros Hb [[S F] T R Q I].
  assert (forall g, g ∈ inflight c -> superseded g (settle_request g c) = true) as Hs.
  { intros g Hg. unfold superseded. cbn [requestGeneration hook settle_request]. specialize (I g Hg).
    rewrite (proj2 (Nat.eqb_neq _ g)) by lia. apply orb_true_r. }
  assert (forall g, g ∈ inflight c -> idle_chat (finish_request g (settle_request g c))
            /\ state (view (finish_request g (settle_request g c))) = state (view c)) as Hf.
  { intros g Hg. unfold finish_request. cbn [requestGeneration hook settle_request]. specialize (I g Hg) as Hlt.
    rewrite (proj2 (Nat.eqb_neq _ g)) by lia. split; [|done]. split; try done.
    intros x Hx. by eapply I, settle_inflight. }
  destruct a as [t k1 i1 k2 i2|mk k i|mk|o|t s k i|mk| | |a| |g ch|g e|]; try done; cbn [chat_act].
  - assert (stream_event a = true) as Ha by (by destruct a).
    destruct (silent_act a (stream c)) as [S' E]; [by destruct a|done|].
    unfold on_stream. assert (new_calls a (stream c) = []) as ->.
    { unfold new_calls. rewrite E. apply drop_all. }
    cbn [fold_left]. split; [|done]. split; try done. split; [done|]. by apply silent_flag.
  - rewrite T. by split.
  - case_bool_decide as Hg; [|by split]. unfold on_response. rewrite Hs by done. by apply Hf.
  - case_bool_decide as Hg; [|by split]. unfold on_failure. rewrite Hs by done. by apply Hf.
  - unfold render. rewrite Q. by split.
Qed.

Lemma idle_exec acts : forall c, forallb (fun p => background (snd p)) acts = true -> idle_chat c ->
  idle_chat (chat_exec acts c) /\ state (view (chat_exec acts c)) = state (view c).
Proof.
  induction acts as [|[env a] acts IH]; intros c Hb H; [done|]. cbn [forallb snd] in Hb.
  apply andb_true_iff in Hb as [Ha Hb]. destruct (idle_act env a c Ha H) as [H' E].
  destruct (IH _ Hb H') as [H'' E']. split; [done|]. cbn. by rewrite <- E.
Qed.

Lemma stop_idle env env' c : chat_ok c -> idle_chat (chat_act env' CRender (stopGeneration env c)).
Proof.
  intros [H1%reachable_ok H2]. unfold stopGeneration. destruct (flushStreamUpdates _ _ _).
  split; try done; cbn.
  - split; [|done]. split; [done|]. intros r Hr. pose proof (ok_awaiting _ H1 r Hr). cbn in *. lia.
  - intros g Hg. specialize (H2 g Hg). lia.
Qed.

(** C30: Stopping a chat is final: once React has rendered the stop, nothing that was
    under way (late headers and events of streams, timers, answers to plain
    requests, further renders), in any order, changes the messages or shows the
    chat as generating again, until the user acts. *)
Theorem chat_stop_is_final (c : Chat) (env env' : Env) (acts : list (Env * chat_action)) :
  chat_reachable c -> forallb (fun p => background (snd p)) acts = true ->
  let stopped := chat_act env' CRender (chat_act env CStop c) in
  state (view (chat_exec acts stopped)) = state (view stopped) /\ isGenerating (chat_exec acts stopped) = false.
Proof.
  intros H%chat_reachable_ok Hb stopped.
  destruct (idle_exec acts stopped Hb (stop_idle env env' c H)) as [[[_ F] _ R _ _] E].
  split; [done|]. unfold isGenerating. by rewrite F, R.
Qed.

(** The actions of a run, each allowed where it happens. *)
Fixpoint run_allowed (acts : list (Env * chat_action)) (c : Chat) : bool :=
  match acts with
  | [] => true
  | (env, a) :: acts => allowed a c && run_allowed acts (chat_act env a c)
  end.

Lemma run_reachable acts : forall c, chat_reachable c -> run_allowed acts c = true -> chat_reachable (chat_exec acts c).
Proof.
  induction acts as [|[env a] acts IH]; intros c Hc H; [done|]. apply andb_true_iff in H as [Ha H].
  apply IH; [by constructor|done].
Qed.

Lemma chat_stop_is_final_witness :
  let stopped := chat_act (at_ 96) CRender (chat_act (at_ 95) CStop (chat_exec demo_send (init_chat []))) in
  let late := [(at_ 97, CStream (AMessage 1 (data_ (u "!")))); (at_ 98, CStream (AMessage 1 (u "[DONE]")));
               (at_ 99, CTimer); (at_ 99, CRender)] in
  state (view (chat_exec late stopped)) = state (view stopped) /\ isGenerating (chat_exec late stopped) = false.
Proof.
  apply chat_stop_is_final; [|reflexivity]. apply run_reachable; [constructor|]. vm_compute. reflexivity.
Defined.

(** ** Stopping and the buffer *)

Definition discard_buffer (c : Chat) : Chat :=
  set_hv (discardPendingStreamUpdates (requestGeneration (hook c)) (hook c), view c) c.

Lemma run_queue_snoc g t ups up ms : run_queue g t (ups ++ [up]) ms = run_update g t up (run_queue g t ups ms).
Proof. apply fold_left_app. Qed.

Lemma after_stop env env' c : let g := requestGeneration (hook c) in
  state (view (chat_act env' CRender (chat_act env CStop c)))
  = state (render (S g) (now env') (enqueue env (S g) (UStop (S g)) (snd (flushStreamUpdates env g (hook c, view c))))).
Proof. cbn [chat_act]. unfold stopGeneration. by destruct (flushStreamUpdates _ _ _). Qed.

(** What a flush of the current generation queues. *)
Definition flush_updates (h : Hook) : list update :=
  let p := pendingStreamChunks h in
  if (p_generation p =? requestGeneration h)%nat && (str_truthy (p_reasoning p) || str_truthy (p_content p))
  then [UFlush (requestGeneration h) (p_reasoning p) (p_content p)] else [].

Lemma flush_view env h v : snd (flushStreamUpdates env (requestGeneration h) (h, v))
  = fold_left (fun v up => enqueue env (requestGeneration h) up v) (flush_updates h) v.
Proof.
  unfold flushStreamUpdates, flush_updates. rewrite Nat.eqb_refl. cbn [negb].
  destruct (_ =? _)%nat, (str_truthy (p_reasoning _)), (str_truthy (p_content _)); done.
Qed.

Lemma enqueue_waits env g up v : eager env = false \/ queue v <> [] ->
  enqueue env g up v = mkView (rendered v) (state v) (queue v ++ [up]).
Proof. unfold enqueue. intros [->|H]; [done|]. destruct (queue v); [done|]. by rewrite andb_false_r. Qed.

(** What becomes of the text that was received but not flushed when the user
    stops. The flush the handler does first is queued as an update for the stopped
    generation; where React does not run it at once (an update already waits, or
    React chooses not to), the generation has moved on by the time it renders, and
    the messages are the same as if that text had never been received. Only where
    React runs the update at once is the text kept. *)
Theorem stop_buffer_lost_unless_eager (c : Chat) (env env' : Env) :
  let after c := state (view (chat_act env' CRender (chat_act env CStop c))) in
  let p := pendingStreamChunks (hook c) in
  (eager env = false \/ queue (view c) <> [] -> after c = after (discard_buffer c))
  /\ (eager env = true -> queue (view c) = [] -> p_generation p = requestGeneration (hook c) ->
      p_content p <> [] ->
      after c = run_update (S (requestGeneration (hook c))) (now env') (UStop (S (requestGeneration (hook c))))
        (updateLastAssistantMessage (state (view c)) (apply_pending (p_reasoning p) (p_content p) (now env)))).
Proof.
  intros after p. subst after. cbv beta. rewrite !after_stop, !flush_view. split.
  - intros H. assert (flush_updates (hook (discard_buffer c)) = []) as -> by (unfold flush_updates; by rewrite andb_false_r).
    change (view (discard_buffer c)) with (view c).
    change (requestGeneration (hook (discard_buffer c))) with (requestGeneration (hook c)).
    set (g := requestGeneration (hook c)). unfold flush_updates. destruct (_ && _); [|done]. cbn [fold_left].
    rewrite (enqueue_waits env g), !(enqueue_waits env (S g)) by
      (done || (right; cbn; by destruct (queue (view c)))).
    unfold render. cbn [queue state]. rewrite !run_queue_snoc. cbn [run_update]. fold g.
    by rewrite (proj2 (Nat.eqb_neq (S g) g)) by lia.
  - intros He Hq Hg Hc. unfold flush_updates. fold p. rewrite Hg, Nat.eqb_refl.
    destruct (p_content p) as [|x pc] eqn:E; [done|]. rewrite orb_true_r. cbn [andb fold_left].
    unfold enqueue at 2. rewrite He, Hq. cbn [length andb]. rewrite bool_decide_eq_true_2 by done.
    unfold enqueue. rewrite bool_decide_eq_false_2 by done. rewrite andb_false_r.
    unfold render. cbn [queue state app run_queue fold_left]. cbn [run_update]. by rewrite !Nat.eqb_refl.
Qed.

Lemma stop_buffer_lost_unless_eager_witness :
  let c := chat_exec demo_send (init_chat []) in
  let texts_after env c := map getMessageContent (state (view (chat_act (at_ 99) CRender (chat_act env CStop c)))) in
  p_content (pendingStreamChunks (hook c)) = u " you"
  /\ texts_after (demo_env 95 false) c = [u "hi"; u "Hello"]
  /\ texts_after (demo_env 95 true) c = [u "hi"; u "Hello you"].
Proof.
  intros c texts_after. split; [vm_compute; reflexivity|]. split.
  - unfold texts_after. rewrite (proj1 (stop_buffer_lost_unless_eager c (demo_env 95 false) (at_ 99))) by (by left).
    vm_compute. reflexivity.
  - unfold texts_after. rewrite (proj2 (stop_buffer_lost_unless_eager c (demo_env 95 true) (at_ 99)));
      vm_compute; done.
Defined.
