(* ===== verification/PlaygroundReply.v ===== *)
(** * The reply a chat stores refines what its stream delivered

    The abstract specification of a streamed reply is given by the callbacks of its
    request ([texts], [thoughts], [outcome_of]) and by how chunks are joined
    ([assembled]); the implementation spreads it over the controller, a buffer with a
    timer, and a queue of state updates that React runs when it renders. [reply_inv]
    relates the two, and every background step keeps it. *)

From Stdlib Require Import ZArith SpecFloat.
From stdpp Require Import base numbers option list sorting.
From S2P Require Import Prelude Collections JsNumber JsValue Json Playground PlaygroundStream.
From S2P Require Import PlaygroundProps PlaygroundStreamProps PlaygroundChat PlaygroundChatProps.

(** ** The specification *)






















(** ** Messages *)

(** The reply: the message the send made. *)
Definition reply_msg (k : jstr) (m : Message) : Prop := from m = RoleAssistant /\ key m = k.












(** ** The view *)

Section reply.
Context (pre : list Message) (k : jstr) (g : nat).

(** Whenever React renders, the messages are [pre] and a reply of which [P]. *)
Definition settled (v : View) (P : Message -> Prop) : Prop :=
  forall t, exists m, run_queue g t (queue v) (state v) = pre ++ [m] /\ reply_msg k m /\ P m.

Lemma settled_mono v (P Q : Message -> Prop) : (forall m, P m -> Q m) -> settled v P -> settled v Q.
Proof. intros H S t. destruct (S t) as (m & E & Hm & HP). exists m. auto. Qed.











(** ** The handler *)













End reply.

(** ** The chat *)














