(* ===== verification/PlaygroundStorage.v ===== *)
(** * The playground's storage (src/web/src/features/playground/lib/storage, lib/state,
      hooks/use-playground-state.ts)

    What the playground keeps in the browser's local storage: its settings and the
    conversation, and the hook that loads and saves them. The storage is a map from
    keys to texts that refuses a write when it is full ([fits]); the schemas are
    zod's, so their [parse] is a parameter, [None] where it throws. Whether a value
    is the same object as another, which the loader asks, is a flag of the result
    that made it. *)

From Stdlib Require Import ZArith SpecFloat.
From stdpp Require Import base numbers option list sorting.
From S2P Require Import Prelude Collections JsNumber JsValue Json Regex Playground.

(** ** Constants (storage-schema.ts, constants.ts) *)

Definition STORAGE_VERSION : Z := 1.
Definition MAX_STORED_MESSAGES : nat := 100.
Definition MAX_STORED_MESSAGES_BYTES : N := 1048576.
Definition MAX_LOADED_MESSAGES_CHARS : N := 120000.
Definition MAX_LOADED_MESSAGE_CHARS : N := 40000.

Definition CONFIG : jstr := u "playground_config".
Definition MESSAGES : jstr := u "playground_messages".
Definition PARAMETER_ENABLED : jstr := u "playground_parameter_enabled".

Definition DEFAULT_GROUP : jstr := u "default".

Definition DEFAULT_CONFIG : PlaygroundConfig :=
  mkPlaygroundConfig (u "gpt-4o") DEFAULT_GROUP (dec_to_num false 7 (-1)) (num_of_Z 1) (num_of_Z 4096)
    (num_of_Z 0) (num_of_Z 0) None true.

Definition DEFAULT_PARAMETER_ENABLED : ParameterEnabled := mkEnabled true true false true true false.

(** Lengths are compared in binary. *)
Definition size (s : jstr) : N := N.of_nat (length s).

(** ** Limits on what is loaded *)

Definition TRUNCATED_CONTENT_SUFFIX : jstr := [10; 10]%N ++ u "[...]".
Definition MIN_PREFIX_COLLAPSE_LENGTH : N := 2000.
Definition MIN_REPEATED_SECTION_COUNT : N := 3.

(** [/^#{2,6}\s+\d+\.\s+.+$/]: two to six marks, a number with a dot, and text. *)
Definition SECTION_HEADING_LINE_PATTERN : regex :=
  let mark := Lit (u "#") in
  seqs [mark; mark; Opt (Seq mark (Opt (Seq mark (Opt (Seq mark (Opt mark))))));
        Plus (Cls is_space); Plus (Cls is_digit); Lit (u "."); Plus (Cls is_space);
        Plus (Cls (fun c => negb (line_end c))); EndLine].

Definition trimMessages (messages : list Message) : list Message * bool :=
  if (length messages <=? MAX_STORED_MESSAGES)%nat then (messages, false)
  else (drop (length messages - MAX_STORED_MESSAGES) messages, true).

Definition getMessageSize (m : Message) : N :=
  let versionsSize := fold_left (fun total v => total + size (v_content v))%N (versions m) 0%N in
  (versionsSize + match reasoning m with Some r => size (r_content r) | None => 0 end)%N.

Definition truncateText (text : jstr) (maxLength : N) : jstr :=
  if (size text <=? maxLength)%N then text
  else if (maxLength <=? size TRUNCATED_CONTENT_SUFFIX)%N then take (N.to_nat maxLength) text
  else take (N.to_nat (maxLength - size TRUNCATED_CONTENT_SUFFIX)) text ++ TRUNCATED_CONTENT_SUFFIX.

(** Places and headings. *)
Definition getSectionOccurrences (text : jstr) : list (nat * jstr) :=
  matchAll_lines SECTION_HEADING_LINE_PATTERN text.

Definition getHeadingCounts (occurrences : list (nat * jstr)) : list (jstr * N) :=
  fold_left (fun counts o => map_set counts (snd o) (default 0 (map_get counts (snd o)) + 1)%N) occurrences [].

Definition findLastRepeatedSectionRunStart (text : jstr) : option nat :=
  let occurrences := getSectionOccurrences text in
  let headingCounts := getHeadingCounts occurrences in
  let '(_, lastRepeatedIndexes) :=
    fold_left (fun '(seenHeadings, indexes) o =>
      let count := default 0%N (map_get headingCounts (snd o)) in
      if (count <? MIN_REPEATED_SECTION_COUNT)%N || set_has seenHeadings (snd o) then (seenHeadings, indexes)
      else (set_add seenHeadings (snd o), indexes ++ [fst o])) (reverse occurrences) ([], []) in
  match lastRepeatedIndexes with
  | [] => None
  | i :: rest => Some (fold_left Nat.min rest i)
  end.

Definition collapseRepeatedSectionSnapshots (text : jstr) : jstr :=
  if (size text <? MIN_PREFIX_COLLAPSE_LENGTH)%N then text
  else match findLastRepeatedSectionRunStart text with
  | None => text
  | Some lastRepeatedRunStart => drop lastRepeatedRunStart text
  end.

(** The versions and whether one of them changed. *)
Definition normalize_versions (vs : list MessageVersion) : list MessageVersion * bool :=
  fold_right (fun version '(acc, changed) =>
    let collapsedContent := collapseRepeatedSectionSnapshots (v_content version) in
    let content := truncateText collapsedContent MAX_LOADED_MESSAGE_CHARS in
    if seqb content (v_content version) && seqb collapsedContent (v_content version)
    then (version :: acc, changed) else (mkVersion (v_id version) content :: acc, true)) ([], false) vs.

(** The message and whether it is a new object. *)
Definition normalizeStoredMessageForLoad (now : Z) (m : Message) : Message * bool :=
  let '(vs, versionsChanged) := normalize_versions (versions m) in
  let truncated := (fun r => mkReasoning (truncateText (r_content r) MAX_LOADED_MESSAGE_CHARS) (r_duration r)
                               (r_startedAt r) (r_completedAt r) (r_durationMs r)) <$> reasoning m in
  let changed := versionsChanged || negb (bool_decide (r_content <$> truncated = r_content <$> reasoning m)) in
  let normalized := if changed then set_reasoning truncated (set_versions vs m) else m in
  if negb (isAssistantMessagePending normalized) then (normalized, changed)
  else
    let hasContent := hasMessageContent normalized in
    let hasReasoning :=
      match reasoning normalized with Some r => str_truthy (trim (r_content r)) | None => false end in
    if negb hasContent && negb hasReasoning then (normalized, changed)
    else
      let completed :=
        default now (coalesce (completedAt normalized)
          (coalesce (r ← reasoning normalized; r_completedAt r)
             (coalesce (startedAt normalized) (createdAt normalized)))) in
      (completeAssistantTiming
         (set_reasoningStreaming false (set_status SComplete (finalizeMessage normalized None now))) completed,
       true).

(** The loop from the last message; it always makes a new array. *)
Fixpoint size_loop (rest : list Message) (totalSize : N) (result : list Message) : list Message :=
  match rest with
  | [] => result
  | message :: rest =>
      let messageSize := getMessageSize message in
      if (0 <? length result)%nat && (MAX_LOADED_MESSAGES_CHARS <? totalSize + messageSize)%N then result
      else size_loop rest (totalSize + messageSize)%N (result ++ [message])
  end.

Definition trimMessagesByContentSize (messages : list Message) : list Message * bool :=
  (reverse (size_loop (reverse messages) 0 []), true).

(** ** Values *)

Definition opt_val {A} (f : A -> jsval) (x : option A) : jsval := match x with Some x => f x | None => JUndef end.
Definition int_val (z : Z) : jsval := JNum (num_of_Z z).

Definition role_val (r : MessageRole) : jsval :=
  JStr (match r with RoleUser => u "user" | RoleAssistant => u "assistant" | RoleSystem => u "system" end).
Definition status_val (s : MessageStatus) : jsval :=
  JStr (match s with SLoading => u "loading" | SStreaming => u "streaming" | SComplete => u "complete"
        | SError => u "error" end).

(** A message as an object, its members in the order of the schema. *)
Definition message_val (m : Message) : jsval :=
  JObj [(u "key", JStr (key m)); (u "from", role_val (from m));
        (u "versions", JArr (map (fun v => JObj [(u "id", JStr (v_id v)); (u "content", JStr (v_content v))])
                               (versions m)));
        (u "createdAt", opt_val int_val (createdAt m)); (u "startedAt", opt_val int_val (startedAt m));
        (u "completedAt", opt_val int_val (completedAt m)); (u "durationMs", opt_val int_val (durationMs m));
        (u "sources", opt_val (fun l => JArr (map (fun '(href, title) =>
           JObj [(u "href", JStr href); (u "title", JStr title)]) l)) (sources m));
        (u "reasoning", opt_val (fun r =>
           JObj [(u "content", JStr (r_content r)); (u "duration", int_val (r_duration r));
                 (u "startedAt", opt_val int_val (r_startedAt r));
                 (u "completedAt", opt_val int_val (r_completedAt r));
                 (u "durationMs", opt_val int_val (r_durationMs r))]) (reasoning m));
        (u "isReasoningStreaming", opt_val JBool (isReasoningStreaming m));
        (u "isReasoningComplete", opt_val JBool (isReasoningComplete m));
        (u "isContentComplete", opt_val JBool (isContentComplete m));
        (u "status", opt_val status_val (status m));
        (u "errorCode", opt_val (fun c => match c with Some s => JStr s | None => JNull end) (errorCode m))].

Definition messages_val (ms : list Message) : jsval := JArr (map message_val ms).

(** Settings as they are stored, every member optional. A stored [seed] may be
    null. *)
Record PartialConfig := mkPartialConfig {
  pc_model : option jstr;
  pc_group : option jstr;
  pc_temperature : option num;
  pc_top_p : option num;
  pc_max_tokens : option num;
  pc_frequency_penalty : option num;
  pc_presence_penalty : option num;
  pc_seed : option (option num);
  pc_stream : option bool
}.

Record PartialEnabled := mkPartialEnabled {
  pe_temperature : option bool;
  pe_top_p : option bool;
  pe_max_tokens : option bool;
  pe_frequency_penalty : option bool;
  pe_presence_penalty : option bool;
  pe_seed : option bool
}.

Definition config_val (c : PartialConfig) : jsval :=
  JObj [(u "model", opt_val JStr (pc_model c)); (u "group", opt_val JStr (pc_group c));
        (u "temperature", opt_val JNum (pc_temperature c)); (u "top_p", opt_val JNum (pc_top_p c));
        (u "max_tokens", opt_val JNum (pc_max_tokens c));
        (u "frequency_penalty", opt_val JNum (pc_frequency_penalty c));
        (u "presence_penalty", opt_val JNum (pc_presence_penalty c));
        (u "seed", opt_val (fun s => match s with Some n => JNum n | None => JNull end) (pc_seed c));
        (u "stream", opt_val JBool (pc_stream c))].

Definition enabled_val (e : PartialEnabled) : jsval :=
  JObj [(u "temperature", opt_val JBool (pe_temperature e)); (u "top_p", opt_val JBool (pe_top_p e));
        (u "max_tokens", opt_val JBool (pe_max_tokens e));
        (u "frequency_penalty", opt_val JBool (pe_frequency_penalty e));
        (u "presence_penalty", opt_val JBool (pe_presence_penalty e)); (u "seed", opt_val JBool (pe_seed e))].

Definition full_config (c : PlaygroundConfig) : PartialConfig :=
  mkPartialConfig (Some (model c)) (Some (group_ c)) (Some (temperature c)) (Some (top_p c)) (Some (max_tokens c))
    (Some (frequency_penalty c)) (Some (presence_penalty c)) (Some (seed c)) (Some (stream c)).

Definition full_enabled (e : ParameterEnabled) : PartialEnabled :=
  mkPartialEnabled (Some (e_temperature e)) (Some (e_top_p e)) (Some (e_max_tokens e))
    (Some (e_frequency_penalty e)) (Some (e_presence_penalty e)) (Some (e_seed e)).

(** [{ ...DEFAULT, ...loaded }]. *)
Definition merge_config (d : PlaygroundConfig) (p : PartialConfig) : PlaygroundConfig :=
  mkPlaygroundConfig (default (model d) (pc_model p)) (default (group_ d) (pc_group p))
    (default (temperature d) (pc_temperature p)) (default (top_p d) (pc_top_p p))
    (default (max_tokens d) (pc_max_tokens p)) (default (frequency_penalty d) (pc_frequency_penalty p))
    (default (presence_penalty d) (pc_presence_penalty p)) (default (seed d) (pc_seed p))
    (default (stream d) (pc_stream p)).

Definition merge_enabled (d : ParameterEnabled) (p : PartialEnabled) : ParameterEnabled :=
  mkEnabled (default (e_temperature d) (pe_temperature p)) (default (e_top_p d) (pe_top_p p))
    (default (e_max_tokens d) (pe_max_tokens p)) (default (e_frequency_penalty d) (pe_frequency_penalty p))
    (default (e_presence_penalty d) (pe_presence_penalty p)) (default (e_seed d) (pe_seed p)).

(** ** Loading and saving *)

Abbreviation Storage := (list (jstr * jstr)).

Section storage.
Context (fits : Storage -> bool).
Context (messagesSchema_parse : jsval -> option (list Message)).
Context (playgroundConfigSchema_parse : jsval -> option PartialConfig).
Context (parameterEnabledSchema_parse : jsval -> option PartialEnabled).

(** [setItem]; [None] where it throws. *)
Definition setItem (k text : jstr) (s : Storage) : option Storage :=
  let s' := map_set s k text in if fits s' then Some s' else None.

(** The value, JavaScript's null included; [None] where parsing throws. *)
Definition readStoredValue (k : jstr) (s : Storage) : option jsval :=
  match map_get s k with
  | None | Some [] => Some JNull
  | Some saved => JSON_parse saved
  end.

Definition readStoredMessagesValue (s : Storage) : option jsval * Storage :=
  match map_get s MESSAGES with
  | None | Some [] => (Some JNull, s)
  | Some saved =>
      if (MAX_STORED_MESSAGES_BYTES <? size saved)%N then (Some JNull, map_delete s MESSAGES)
      else (JSON_parse saved, s)
  end.

(** [k in value]. *)
Definition has_member (k : jstr) (v : jsval) : bool :=
  match v with
  | JObj ps => map_has ps k
  | JArr l => match array_index k with Some n => (N.to_nat n <? length l)%nat | None => seqb k (u "length") end
  | _ => false
  end.

Definition unwrapStoredValue (value : jsval) : jsval :=
  if negb (truthy value) || negb (is_object value) then value
  else if has_member (u "version") value && has_member (u "data") value then get value (u "data")
  else value.

Definition stored_text (data : jsval) : jstr :=
  default (u "undefined") (JSON_stringify (JObj [(u "version", int_val STORAGE_VERSION); (u "data", data)])).

Definition writeStoredValue (k : jstr) (data : jsval) (s : Storage) : option Storage :=
  setItem k (stored_text data) s.

(** The messages that are stored; an error is caught. *)
Definition saveMessages (messages : list Message) (s : Storage) : Storage :=
  let '(trimmed, _) := trimMessages messages in
  match messagesSchema_parse (messages_val trimmed) with
  | None => s
  | Some parsed => default s (writeStoredValue MESSAGES (messages_val parsed) s)
  end.

(** What the loader makes of the messages it read, and whether it saves them. *)
Definition load_pipeline (now : Z) (parsed : list Message) : list Message * bool :=
  let normalized := map (normalizeStoredMessageForLoad now) parsed in
  let normalizedChanged := existsb snd normalized in
  let '(trimmed, trimmedNew) := trimMessages (map fst normalized) in
  let '(sizeTrimmed, sizeNew) := trimMessagesByContentSize trimmed in
  let sanitized := sanitizeMessagesOnLoad sizeTrimmed now in
  let sanitizedNew := existsb (fun m => isPendingAssistantMessage (Some m)) sizeTrimmed in
  (sanitized, normalizedChanged || trimmedNew || sizeNew || sanitizedNew).

Definition loadMessages (now : Z) (s : Storage) : option (list Message) * Storage :=
  let '(saved, s) := readStoredMessagesValue s in
  match saved with
  | None => (None, s)
  | Some saved =>
      if negb (truthy saved) then (None, s)
      else match messagesSchema_parse (unwrapStoredValue saved) with
      | None => (None, s)
      | Some parsed =>
          let '(sanitized, changed) := load_pipeline now parsed in
          (Some sanitized, if changed then saveMessages sanitized s else s)
      end
  end.

Definition no_config : PartialConfig := mkPartialConfig None None None None None None None None None.
Definition no_enabled : PartialEnabled := mkPartialEnabled None None None None None None.

Definition loadConfig (s : Storage) : PartialConfig :=
  match readStoredValue CONFIG s with
  | None => no_config
  | Some saved =>
      if negb (truthy saved) then no_config
      else default no_config (playgroundConfigSchema_parse (unwrapStoredValue saved))
  end.

Definition saveConfig (config : PartialConfig) (s : Storage) : Storage :=
  match playgroundConfigSchema_parse (config_val config) with
  | None => s
  | Some parsed => default s (writeStoredValue CONFIG (config_val parsed) s)
  end.

Definition loadParameterEnabled (s : Storage) : PartialEnabled :=
  match readStoredValue PARAMETER_ENABLED s with
  | None => no_enabled
  | Some saved =>
      if negb (truthy saved) then no_enabled
      else default no_enabled (parameterEnabledSchema_parse (unwrapStoredValue saved))
  end.

Definition saveParameterEnabled (e : PartialEnabled) (s : Storage) : Storage :=
  match parameterEnabledSchema_parse (enabled_val e) with
  | None => s
  | Some parsed => default s (writeStoredValue PARAMETER_ENABLED (enabled_val parsed) s)
  end.

Definition clearPlaygroundData (s : Storage) : Storage :=
  map_delete (map_delete (map_delete s CONFIG) PARAMETER_ENABLED) MESSAGES.

(** ** Initial state (playground-state-utils.ts) *)

Definition getInitialPlaygroundConfig (s : Storage) : PlaygroundConfig :=
  merge_config DEFAULT_CONFIG (loadConfig s).

Definition getInitialParameterEnabled (s : Storage) : ParameterEnabled :=
  merge_enabled DEFAULT_PARAMETER_ENABLED (loadParameterEnabled s).

Definition getInitialMessages (now : Z) (s : Storage) : list Message * Storage :=
  let '(loaded, s) := loadMessages now s in (default [] loaded, s).

(** ** The state (use-playground-state.ts)

    React runs what is handed to a setter when it renders, in order; it may run the first
    one of an empty queue at once ([eager]), and then does not run it again ([Ran]). The
    updaters of this hook write to the storage and set timers as they run. *)

Inductive StateUpdate (A : Type) :=
| SetState (x : A)
| Update (f : A -> A)
| Ran.
Arguments SetState {A}.
Arguments Update {A}.
Arguments Ran {A}.

(** [loadPending] is the timer of the first effect, [saveTimer] the one of
    [messagesSaveTimerRef]; each of the three states has its queue. *)
Record PlaygroundState := mkState {
  st_config : PlaygroundConfig;
  configQueue : list (StateUpdate PlaygroundConfig);
  st_enabled : ParameterEnabled;
  enabledQueue : list (StateUpdate ParameterEnabled);
  st_messages : list Message;
  messagesQueue : list (StateUpdate (list Message));
  isLoadingMessages : bool;
  loadPending : bool;
  cancelled : bool;
  saveTimer : bool;
  latestMessages : list Message;
  hasLoadedMessages : bool;
  storage : Storage
}.

Definition usePlaygroundState (s : Storage) : PlaygroundState :=
  mkState (getInitialPlaygroundConfig s) [] (getInitialParameterEnabled s) [] [] [] true true false false [] false s.

Definition set_config (c : PlaygroundConfig) (q : list (StateUpdate PlaygroundConfig)) (s : Storage)
    (st : PlaygroundState) : PlaygroundState :=
  mkState c q (st_enabled st) (enabledQueue st) (st_messages st) (messagesQueue st) (isLoadingMessages st)
    (loadPending st) (cancelled st) (saveTimer st) (latestMessages st) (hasLoadedMessages st) s.

Definition set_enabled (e : ParameterEnabled) (q : list (StateUpdate ParameterEnabled)) (s : Storage)
    (st : PlaygroundState) : PlaygroundState :=
  mkState (st_config st) (configQueue st) e q (st_messages st) (messagesQueue st) (isLoadingMessages st)
    (loadPending st) (cancelled st) (saveTimer st) (latestMessages st) (hasLoadedMessages st) s.

Definition set_messages (ms : list Message) (q : list (StateUpdate (list Message))) (st : PlaygroundState)
    : PlaygroundState :=
  mkState (st_config st) (configQueue st) (st_enabled st) (enabledQueue st) ms q (isLoadingMessages st)
    (loadPending st) (cancelled st) (saveTimer st) (latestMessages st) (hasLoadedMessages st) (storage st).

Definition persistMessages (messagesToSave : list Message) (st : PlaygroundState) : PlaygroundState :=
  mkState (st_config st) (configQueue st) (st_enabled st) (enabledQueue st) (st_messages st) (messagesQueue st)
    (isLoadingMessages st) (loadPending st) (cancelled st)
    (if hasLoadedMessages st then true else saveTimer st) messagesToSave (hasLoadedMessages st) (storage st).

(** What React does with one update. *)
Definition run_message_update (up : StateUpdate (list Message)) (st : PlaygroundState) : PlaygroundState :=
  match up with
  | SetState ms => set_messages ms (messagesQueue st) st
  | Update updater =>
      let newMessages := updater (st_messages st) in
      set_messages newMessages (messagesQueue st) (persistMessages newMessages st)
  | Ran => st
  end.

Definition run_config_update (up : StateUpdate PlaygroundConfig) (st : PlaygroundState) : PlaygroundState :=
  match up with
  | SetState c => set_config c (configQueue st) (storage st) st
  | Update change =>
      let updated := change (st_config st) in
      set_config updated (configQueue st) (saveConfig (full_config updated) (storage st)) st
  | Ran => st
  end.

Definition run_enabled_update (up : StateUpdate ParameterEnabled) (st : PlaygroundState) : PlaygroundState :=
  match up with
  | SetState e => set_enabled e (enabledQueue st) (storage st) st
  | Update change =>
      let updated := change (st_enabled st) in
      set_enabled updated (enabledQueue st) (saveParameterEnabled (full_enabled updated) (storage st)) st
  | Ran => st
  end.

(** The setters. *)
Definition setMessages (eager : bool) (up : StateUpdate (list Message)) (st : PlaygroundState) : PlaygroundState :=
  if eager && bool_decide (length (messagesQueue st) = 0%nat)
  then let st := run_message_update up st in set_messages (st_messages st) [Ran] st
  else set_messages (st_messages st) (messagesQueue st ++ [up]) st.

Definition setConfigState (eager : bool) (up : StateUpdate PlaygroundConfig) (st : PlaygroundState) : PlaygroundState :=
  if eager && bool_decide (length (configQueue st) = 0%nat)
  then let st := run_config_update up st in set_config (st_config st) [Ran] (storage st) st
  else set_config (st_config st) (configQueue st ++ [up]) (storage st) st.

Definition setParameterEnabled (eager : bool) (up : StateUpdate ParameterEnabled) (st : PlaygroundState)
    : PlaygroundState :=
  if eager && bool_decide (length (enabledQueue st) = 0%nat)
  then let st := run_enabled_update up st in set_enabled (st_enabled st) [Ran] (storage st) st
  else set_enabled (st_enabled st) (enabledQueue st ++ [up]) (storage st) st.

(** A render runs the queues in the order of the hooks. *)
Definition render_config (st : PlaygroundState) : PlaygroundState :=
  fold_left (fun st up => run_config_update up st) (configQueue st) (set_config (st_config st) [] (storage st) st).
Definition render_enabled (st : PlaygroundState) : PlaygroundState :=
  fold_left (fun st up => run_enabled_update up st) (enabledQueue st) (set_enabled (st_enabled st) [] (storage st) st).
Definition render_messages (st : PlaygroundState) : PlaygroundState :=
  fold_left (fun st up => run_message_update up st) (messagesQueue st) (set_messages (st_messages st) [] st).
Definition render_state (st : PlaygroundState) : PlaygroundState := render_messages (render_enabled (render_config st)).

Definition updateMessages (eager : bool) (updater : list Message -> list Message) (st : PlaygroundState)
    : PlaygroundState := setMessages eager (Update updater) st.

Definition clearMessages (eager : bool) (st : PlaygroundState) : PlaygroundState := updateMessages eager (fun _ => []) st.

(** [isLoadingMessages] is the value the next render has. *)
Definition load_timer (eager : bool) (now : Z) (st : PlaygroundState) : PlaygroundState :=
  if negb (loadPending st) then st
  else
    let '(loadedMessages, s) := getInitialMessages now (storage st) in
    if cancelled st
    then mkState (st_config st) (configQueue st) (st_enabled st) (enabledQueue st) (st_messages st) (messagesQueue st)
           (isLoadingMessages st) false true (saveTimer st) (latestMessages st) (hasLoadedMessages st) s
    else setMessages eager (SetState loadedMessages)
           (mkState (st_config st) (configQueue st) (st_enabled st) (enabledQueue st) (st_messages st)
              (messagesQueue st) false false false (saveTimer st) loadedMessages true s).

Definition save_timer (st : PlaygroundState) : PlaygroundState :=
  if saveTimer st
  then mkState (st_config st) (configQueue st) (st_enabled st) (enabledQueue st) (st_messages st) (messagesQueue st)
         (isLoadingMessages st) (loadPending st) (cancelled st) false (latestMessages st) (hasLoadedMessages st)
         (saveMessages (latestMessages st) (storage st))
  else st.

(** The clean-up of both effects; the reference keeps the cleared timer. What is still
    queued is never run. *)
Definition unmount (st : PlaygroundState) : PlaygroundState :=
  mkState (st_config st) [] (st_enabled st) [] (st_messages st) [] (isLoadingMessages st) (loadPending st) true false
    (latestMessages st) (hasLoadedMessages st)
    (if saveTimer st then saveMessages (latestMessages st) (storage st) else storage st).

Definition updateConfig (eager : bool) (change : PlaygroundConfig -> PlaygroundConfig) (st : PlaygroundState)
    : PlaygroundState := setConfigState eager (Update change) st.

Definition updateParameterEnabled (eager : bool) (change : ParameterEnabled -> ParameterEnabled) (st : PlaygroundState)
    : PlaygroundState := setParameterEnabled eager (Update change) st.

Definition resetConfig (eager : bool) (st : PlaygroundState) : PlaygroundState :=
  let st := setParameterEnabled eager (SetState DEFAULT_PARAMETER_ENABLED) (setConfigState eager (SetState DEFAULT_CONFIG) st) in
  set_enabled (st_enabled st) (enabledQueue st)
    (saveParameterEnabled (full_enabled DEFAULT_PARAMETER_ENABLED) (saveConfig (full_config DEFAULT_CONFIG) (storage st))) st.

(** What can happen once the messages are loaded. *)
Inductive state_action :=
| SMessages (eager : bool) (updater : list Message -> list Message)
| SClear (eager : bool)
| SRender
| STimer
| SConfig (eager : bool) (change : PlaygroundConfig -> PlaygroundConfig)
| SEnabled (eager : bool) (change : ParameterEnabled -> ParameterEnabled)
| SReset (eager : bool).

Definition state_act (a : state_action) (st : PlaygroundState) : PlaygroundState :=
  match a with
  | SMessages eager updater => updateMessages eager updater st
  | SClear eager => clearMessages eager st
  | SRender => render_state st
  | STimer => save_timer st
  | SConfig eager change => updateConfig eager change st
  | SEnabled eager change => updateParameterEnabled eager change st
  | SReset eager => resetConfig eager st
  end.

Definition state_run (acts : list state_action) (st : PlaygroundState) : PlaygroundState :=
  fold_left (fun st a => state_act a st) acts st.
End storage.

Arguments SetState {A}.
Arguments Update {A}.
Arguments Ran {A}.
