(* ===== verification/PlaygroundStorageProps.v ===== *)
(** * Properties of the playground's storage

    What loading may return, for every stored text and every schema: the limits on
    the messages, and that the messages kept are the longest tail within them. What
    leaving the playground stores, and the conversations too long to be read back. *)

From Stdlib Require Import ZArith SpecFloat.
From stdpp Require Import base numbers option list sorting.
From S2P Require Import Prelude Collections JsNumber JsValue Json Regex Playground PlaygroundProps PlaygroundStorage.

Local Open Scope N_scope.

(** ** Sizes *)

Definition total_size (ms : list Message) : N := fold_right (fun m n => getMessageSize m + n) 0 ms.

Lemma total_app a b : total_size (a ++ b) = total_size a + total_size b.
Proof. induction a as [|m a IH]; simpl; [done|]. rewrite IH. lia. Qed.

Lemma total_reverse l : total_size (reverse l) = total_size l.
Proof.
  induction l as [|m l IH]; [done|]. rewrite reverse_cons, total_app, IH. simpl. lia.
Qed.

Lemma size_app a b : size (a ++ b) = size a + size b.
Proof. unfold size. rewrite length_app. lia. Qed.

Lemma size_take n s : size (take n s) <= N.of_nat n.
Proof. unfold size. rewrite length_take. lia. Qed.

Lemma size_trim s : size (trim s) <= size s.
Proof.
  unfold trim. destruct (trimEnd_prefix (trimStart s)) as [q Hq]. destruct (trimStart_suffix s) as (p & Hp & _).
  apply (f_equal size) in Hq, Hp. rewrite size_app in Hq, Hp. lia.
Qed.

Definition versions_size (vs : list MessageVersion) : N := fold_right (fun v n => size (v_content v) + n) 0 vs.

Lemma message_size m : getMessageSize m =
  versions_size (versions m) + match reasoning m with Some r => size (r_content r) | None => 0 end.
Proof.
  unfold getMessageSize. f_equal.
  assert (forall vs n, fold_left (fun total v => total + size (v_content v)) vs n = n + versions_size vs) as H.
  { induction vs as [|v vs IH]; intros n; simpl; [lia|]. rewrite IH. lia. }
  apply H.
Qed.

Lemma content_size m : size (getMessageContent m) <= versions_size (versions m).
Proof. unfold getMessageContent, getCurrentVersion. destruct (versions m) as [|v vs]; cbn; [done|lia]. Qed.

(** ** The tail that is kept *)

Lemma size_loop_spec rest : forall total result, total = total_size result ->
  (total <= MAX_LOADED_MESSAGES_CHARS \/ (length result <= 1)%nat) ->
  exists taken dropped, rest = taken ++ dropped /\ size_loop rest total result = result ++ taken
    /\ (total_size (result ++ taken) <= MAX_LOADED_MESSAGES_CHARS \/ (length (result ++ taken) <= 1)%nat)
    /\ (forall m, head dropped = Some m ->
          result ++ taken <> [] /\ MAX_LOADED_MESSAGES_CHARS < total_size (result ++ taken) + getMessageSize m).
Proof.
  induction rest as [|m rest IH]; intros total result -> Hb; cbn [size_loop].
  - exists [], []. rewrite !app_nil_r. split_and!; done.
  - destruct ((0 <? length result)%nat && _) eqn:E.
    + apply andb_true_iff in E as [E1%Nat.ltb_lt E2%N.ltb_lt]. exists [], (m :: rest). rewrite app_nil_r.
      split_and!; try done. intros m' [= <-]. split; [|done]. intros ->. simpl in E1. lia.
    + assert (total_size (result ++ [m]) = total_size result + getMessageSize m) as Et
        by (rewrite total_app; simpl; lia).
      destruct (IH (total_size result + getMessageSize m) (result ++ [m])) as (taken & dropped & -> & H1 & H2 & H3).
      * done.
      * rewrite length_app. apply andb_false_iff in E as [E%Nat.ltb_ge|E%N.ltb_ge]; [right; simpl; lia|by left].
      * exists (m :: taken), dropped. rewrite <- app_assoc in *. by split_and!.
Qed.

(** The size limit keeps the longest tail of the conversation within it. *)
Lemma size_tail messages :
  let kept := fst (trimMessagesByContentSize messages) in
  exists dropped, messages = dropped ++ kept
    /\ (total_size kept <= MAX_LOADED_MESSAGES_CHARS \/ (length kept <= 1)%nat)
    /\ forall m, last dropped = Some m ->
         kept <> [] /\ MAX_LOADED_MESSAGES_CHARS < getMessageSize m + total_size kept.
Proof.
  unfold trimMessagesByContentSize. cbn [fst].
  destruct (size_loop_spec (reverse messages) 0 []) as (taken & dropped & E & -> & H1 & H2); [done|by left|].
  cbn [app] in *. exists (reverse dropped). rewrite total_reverse, length_reverse. split_and!.
  - rewrite <- reverse_app, <- E. by rewrite reverse_involutive.
  - done.
  - intros m Hm. rewrite last_reverse in Hm. destruct (H2 m Hm) as [Hne Hlt]. split; [|lia].
    intros He. apply Hne. apply (f_equal reverse) in He. by rewrite reverse_involutive in He.
Qed.

(** ** Limits *)

Lemma truncate_size text n : size (truncateText text n) <= n.
Proof.
  unfold truncateText. destruct (N.leb_spec (size text) n); [done|].
  destruct (N.leb_spec n (size TRUNCATED_CONTENT_SUFFIX)) as [H1|H1].
  - pose proof (size_take (N.to_nat n) text). lia.
  - rewrite size_app. pose proof (size_take (N.to_nat (n - size TRUNCATED_CONTENT_SUFFIX)) text). lia.
Qed.

Definition within (n : N) (m : Message) : Prop :=
  Forall (fun v => size (v_content v) <= n) (versions m)
  /\ match reasoning m with Some r => size (r_content r) <= n | None => True end.

Lemma join_size sep l : size (join sep l) <= fold_right (fun p n => size p + size sep + n) 0 l.
Proof.
  induction l as [|p l IH]; [simpl; unfold size; simpl; lia|]. destruct l as [|q l]; [simpl; lia|].
  cbn [join fold_right] in *. rewrite !size_app. lia.
Qed.

(** The parts of a text with tags take no more room than the text. *)
Lemma parse_size content : includes content OPEN = true ->
  size (visibleContent (parseThinkTags content)) + size (parsedReasoning (parseThinkTags content)) <= size content.
Proof.
  intros Hi. destruct (parse_parts content) as (pairs & t & _ & Ec & H). rewrite (H Hi). cbn.
  pose proof (size_trim (visible_text pairs t)). pose proof (size_trim (join [10; 10] (tagged_parts pairs t))).
  pose proof (join_size [10; 10] (tagged_parts pairs t)).
  assert (size (visible_text pairs t) + fold_right (fun p n => size p + size [10; 10] + n) 0 (tagged_parts pairs t)
          <= size (render pairs t)) as Hr.
  { clear. unfold visible_text, tagged_parts, render. induction pairs as [|[a b] pairs IH].
    - destruct t as [v|v r]; cbn; rewrite ?app_nil_r; [lia|]. unfold render_tail. rewrite !size_app.
      change (size OPEN) with 7. change (size [10; 10]) with 2. lia.
    - cbn [map concat fst snd app fold_right] in *. rewrite !size_app in *. change (size OPEN) with 7 in *.
      change (size CLOSE) with 8. change (size [10; 10]) with 2 in *. lia. }
  rewrite <- Ec in Hr. lia.
Qed.

Definition reasoning_size (m : Message) : N := match reasoning m with Some r => size (r_content r) | None => 0 end.

Lemma complete_reasoning_size m t : reasoning_size (completeReasoningTiming m t) = reasoning_size m.
Proof.
  unfold completeReasoningTiming, reasoning_size. destruct (reasoning m) as [r|] eqn:E; [|by rewrite E].
  destruct (r_durationMs r); [by rewrite E|done].
Qed.

Lemma complete_timing_sizes m t : versions (completeAssistantTiming m t) = versions m
  /\ reasoning (completeAssistantTiming m t) = reasoning m.
Proof. unfold completeAssistantTiming. by destruct (negb _). Qed.

(** What finalizing leaves: one version and the reasoning, together no larger. *)
Lemma finalize_sizes m t : let m' := finalizeMessage m None t in
  (exists v, versions m' = [v] /\ size (v_content v) <= size (getMessageContent m)
     /\ size (v_content v) + reasoning_size m' <= size (getMessageContent m) + reasoning_size m)
  /\ reasoning_size m' <= N.max (size (getMessageContent m)) (reasoning_size m).
Proof.
  unfold finalizeMessage. cbn zeta. rewrite complete_reasoning_versions, complete_reasoning_size.
  fold (getMessageContent m). cbn [versions set_reasoningStreaming set_reasoning updateCurrentVersionContent set_versions].
  change (str_or (default [] None) ?x) with x.
  assert (forall visible parsed : jstr, size visible + size parsed <= size (getMessageContent m) ->
    let r := str_or (default [] (r_content <$> reasoning m)) parsed in
    size visible + (if str_truthy r then size r else 0) <= size (getMessageContent m) + reasoning_size m
    /\ (if str_truthy r then size r else 0) <= N.max (size (getMessageContent m)) (reasoning_size m)) as H.
  { intros visible parsed Hs. cbn zeta. unfold str_or, reasoning_size.
    destruct (reasoning m) as [r0|]; cbn [fmap option_fmap option_map default from_option id].
    - destruct (str_truthy (r_content r0)) eqn:E; [rewrite E; lia|]. destruct (str_truthy parsed); lia.
    - cbn [str_truthy]. destruct (str_truthy parsed); lia. }
  unfold reasoning_size at 1 3. cbn [reasoning set_reasoningStreaming set_reasoning].
  destruct (includes (getMessageContent m) OPEN) eqn:E; cbn [fmap option_fmap option_map default from_option id].
  - pose proof (parse_size _ E) as Hp. pose proof (H _ _ Hp) as [H1 H2].
    split; [eexists; split; [done|]; split; [cbn [v_content]; lia|]|]; by destruct (str_truthy (str_or _ _)).
  - destruct (H (getMessageContent m) []) as [H1 H2]; [change (size []) with 0; lia|].
    split; [eexists; split; [done|]; split; [done|]|]; by destruct (str_truthy (str_or _ _)).
Qed.

Lemma finalize_within n m t : size (getMessageContent m) <= n -> reasoning_size m <= n ->
  within n (finalizeMessage m None t) /\ getMessageSize (finalizeMessage m None t) <= getMessageSize m.
Proof.
  intros Hc Hr. destruct (finalize_sizes m t) as [(v & Ev & Hvc & Hs) H]. pose proof (content_size m) as Hv.
  rewrite !message_size. fold (reasoning_size m) (reasoning_size (finalizeMessage m None t)). split; [split|].
  - rewrite Ev. constructor; [lia|constructor].
  - unfold reasoning_size in *. destruct (reasoning (finalizeMessage m None t)); [lia|done].
  - rewrite Ev. simpl. lia.
Qed.

Lemma within_content n m : within n m -> size (getMessageContent m) <= n.
Proof.
  intros [H _]. unfold getMessageContent, getCurrentVersion. destruct H; cbn; [apply N.le_0_l|done].
Qed.

Lemma within_reasoning n m : within n m -> reasoning_size m <= n.
Proof. intros [_ H]. unfold reasoning_size. destruct (reasoning m); [done|apply N.le_0_l]. Qed.

Lemma within_timing n m t : within n m -> within n (completeAssistantTiming m t).
Proof. intros [H1 H2]. unfold within. destruct (complete_timing_sizes m t) as [-> ->]. done. Qed.

Lemma collapse_suffix text : exists n, collapseRepeatedSectionSnapshots text = drop n text.
Proof.
  unfold collapseRepeatedSectionSnapshots. destruct (_ <? _); [by exists 0%nat|].
  destruct (findLastRepeatedSectionRunStart text) as [n|]; [by exists n|by exists 0%nat].
Qed.

Lemma normalize_versions_within vs : let '(vs', changed) := normalize_versions vs in
  Forall (fun v => size (v_content v) <= MAX_LOADED_MESSAGE_CHARS) vs' /\ (changed = false -> vs' = vs).
Proof.
  induction vs as [|v vs IH]; cbn [normalize_versions fold_right]; [by split|].
  fold (normalize_versions vs). destruct (normalize_versions vs) as [vs' changed]. destruct IH as [IH1 IH2].
  set (content := truncateText _ _). pose proof (truncate_size (collapseRepeatedSectionSnapshots (v_content v)) MAX_LOADED_MESSAGE_CHARS) as T.
  fold content in T. destruct (seqb content (v_content v) && _) eqn:E.
  - apply andb_true_iff in E as [E%seqb_eq _]. split; [constructor; [by rewrite <- E|done]|].
    intros H. by rewrite IH2.
  - by split; [constructor|].
Qed.

Lemma normalize_within now m : within MAX_LOADED_MESSAGE_CHARS (fst (normalizeStoredMessageForLoad now m)).
Proof.
  unfold normalizeStoredMessageForLoad. pose proof (normalize_versions_within (versions m)) as V.
  destruct (normalize_versions (versions m)) as [vs versionsChanged]. destruct V as [V1 V2].
  match goal with |- context [if ?b then set_reasoning ?r ?x else m] => set (changed := b); set (tr := r) end.
  set (normalized := if changed then _ else m).
  assert (within MAX_LOADED_MESSAGE_CHARS normalized) as Hn.
  { subst normalized. destruct changed eqn:E; subst changed tr.
    - split; [done|]. cbn. destruct (reasoning m); cbn; [apply truncate_size|done].
    - apply orb_false_iff in E as [E1 E2]. rewrite (V2 E1) in V1. split; [done|].
      apply negb_false_iff, bool_decide_eq_true_1 in E2. destruct (reasoning m) as [r|]; [|done].
      cbn in E2. injection E2 as E2. rewrite <- E2. apply truncate_size. }
  destruct (negb (isAssistantMessagePending normalized)); [done|]. destruct (negb _ && negb _); [done|].
  cbn [fst]. apply within_timing. apply (finalize_within _ _ now); [by apply within_content|by apply within_reasoning].
Qed.

Definition interrupted_text : jstr := API_REQUEST_ERROR ++ u ": " ++ INTERRUPTED.

Lemma sanitize_within m t : within MAX_LOADED_MESSAGE_CHARS m ->
  within MAX_LOADED_MESSAGE_CHARS (sanitizeMessage m t)
  /\ getMessageSize (sanitizeMessage m t) <= getMessageSize m + size interrupted_text.
Proof.
  intros H. destruct (finalize_within MAX_LOADED_MESSAGE_CHARS m t) as [F1 F2];
    [by apply within_content|by apply within_reasoning|].
  unfold sanitizeMessage. set (f := finalizeMessage m None t) in *.
  destruct (hasMessageContent f || _); (split; [apply within_timing|]).
  - done.
  - rewrite !message_size in *. match goal with |- context [completeAssistantTiming ?x t] => set (m1 := x) end.
    destruct (complete_timing_sizes m1 t) as [-> ->]. subst m1.
    cbn [versions reasoning set_reasoningStreaming set_status]. lia.
  - destruct F1 as [_ F1]. split; [|done]. constructor; [|constructor]. by vm_compute.
  - rewrite !message_size in *. match goal with |- context [completeAssistantTiming ?x t] => set (m1 := x) end.
    destruct (complete_timing_sizes m1 t) as [-> ->]. subst m1. unfold interrupted_text.
    cbn [versions reasoning set_reasoningStreaming set_status updateCurrentVersionContent set_versions versions_size fold_right v_content].
    lia.
Qed.

Lemma total_insert ms i m m' : ms !! i = Some m ->
  total_size (<[i := m']> ms) + getMessageSize m = total_size ms + getMessageSize m'.
Proof.
  revert i. induction ms as [|x ms IH]; intros [|i] H; [done|done|injection H as ->|].
  - change (getMessageSize m' + total_size ms + getMessageSize m = getMessageSize m + total_size ms + getMessageSize m').
    lia.
  - specialize (IH i H). change (getMessageSize x + total_size (<[i:=m']> ms) + getMessageSize m
      = getMessageSize x + total_size ms + getMessageSize m'). lia.
Qed.

Lemma sanitize_load_within ms t : Forall (within MAX_LOADED_MESSAGE_CHARS) ms ->
  let out := sanitizeMessagesOnLoad ms t in
  Forall (within MAX_LOADED_MESSAGE_CHARS) out /\ length out = length ms
  /\ total_size out <= total_size ms + size interrupted_text.
Proof.
  intros H. unfold sanitizeMessagesOnLoad. destruct (findLastIndex _ ms) as [i|]; [|split_and!; [done|done|lia]].
  destruct (ms !! i) as [m|] eqn:E; [|split_and!; [done|done|lia]].
  destruct (sanitize_within m t) as [W S]; [by eapply Forall_lookup_1|].
  split_and!; [by apply Forall_insert|apply length_insert|].
  pose proof (total_insert ms i m (sanitizeMessage m t) E). lia.
Qed.

Lemma trim_length ms : (length (fst (trimMessages ms)) <= MAX_STORED_MESSAGES)%nat
  /\ exists n, fst (trimMessages ms) = drop n ms.
Proof.
  unfold trimMessages. destruct (Nat.leb_spec (length ms) MAX_STORED_MESSAGES); cbn [fst].
  - split; [done|]. by exists 0%nat.
  - split; [rewrite length_drop; lia|]. by eexists.
Qed.

Lemma pipeline_bounds now parsed : let out := fst (load_pipeline now parsed) in
  (length out <= MAX_STORED_MESSAGES)%nat /\ Forall (within MAX_LOADED_MESSAGE_CHARS) out
  /\ (total_size out <= MAX_LOADED_MESSAGES_CHARS + size interrupted_text \/ (length out <= 1)%nat).
Proof.
  unfold load_pipeline. set (normalized := map _ parsed).
  assert (Forall (within MAX_LOADED_MESSAGE_CHARS) (map fst normalized)) as Hn.
  { subst normalized. rewrite map_map. apply Forall_fmap, Forall_true. intros m. apply normalize_within. }
  destruct (trim_length (map fst normalized)) as [L [n Hd]].
  destruct (trimMessages (map fst normalized)) as [trimmed b]. cbn [fst] in L, Hd.
  pose proof (size_tail trimmed) as (dropped & E & B & _). destruct (trimMessagesByContentSize trimmed) as [kept b'].
  cbn [fst] in *. assert (Forall (within MAX_LOADED_MESSAGE_CHARS) kept) as Hk.
  { assert (Forall (within MAX_LOADED_MESSAGE_CHARS) trimmed) as Ht by (rewrite Hd; by apply Forall_drop).
    rewrite E in Ht. by apply Forall_app in Ht as [_ Ht]. }
  destruct (sanitize_load_within kept now Hk) as (S1 & S2 & S3). rewrite S2.
  apply (f_equal length) in E. rewrite length_app in E. split_and!; [lia|done|].
  destruct B as [B|B]; [left; lia|by right].
Qed.

(** C31: Whatever the storage holds and the schema lets through, a conversation that
    is loaded has at most 100 messages, no version of a message and no reasoning is
    longer than 40000 characters, and unless a single message is left they have
    120000 characters together, or as many more as the note about an interrupted
    reply takes (at most 50 in the source language). *)
Theorem load_bounds (fits : Storage -> bool) (messagesSchema_parse : jsval -> option (list Message))
    (now : Z) (s : Storage) :
  match fst (loadMessages fits messagesSchema_parse now s) with
  | None => True
  | Some out =>
      (length out <= 100)%nat /\ Forall (within 40000) out
      /\ (total_size out <= 120050 \/ (length out <= 1)%nat)
  end.
Proof.
  unfold loadMessages. destruct (readStoredMessagesValue s) as [[saved|] s1]; [|done].
  destruct (negb (truthy saved)); [done|]. destruct (messagesSchema_parse _) as [parsed|]; [|done].
  pose proof (pipeline_bounds now parsed) as B. by destruct (load_pipeline now parsed).
Qed.

(** ** Leaving the playground *)

Definition conversation_text (ms : list Message) : jstr := stored_text (messages_val (fst (trimMessages ms))).

Section saving.
Context (fits : Storage -> bool) (parse_messages : jsval -> option (list Message)).
Context (parse_config : jsval -> option PartialConfig) (parse_enabled : jsval -> option PartialEnabled).

Lemma save_text ms s :
  (forall s, fits s = true) -> parse_messages (messages_val (fst (trimMessages ms))) = Some (fst (trimMessages ms)) ->
  saveMessages fits parse_messages ms s = map_set s MESSAGES (conversation_text ms).
Proof.
  intros Hf Hp. unfold saveMessages, conversation_text. destruct (trimMessages ms) as [trimmed b]. cbn [fst] in *.
  rewrite Hp. unfold writeStoredValue, setItem. by rewrite Hf.
Qed.

Lemma save_config_frame c s : map_get (saveConfig fits parse_config c s) MESSAGES = map_get s MESSAGES.
Proof.
  unfold saveConfig. destruct (parse_config _) as [p|]; [|done]. unfold writeStoredValue, setItem.
  destruct (fits _); [|done]. by apply map_get_set_ne.
Qed.

Lemma save_enabled_frame e s : map_get (saveParameterEnabled fits parse_enabled e s) MESSAGES = map_get s MESSAGES.
Proof.
  unfold saveParameterEnabled. destruct (parse_enabled _) as [p|]; [|done]. unfold writeStoredValue, setItem.
  destruct (fits _); [|done]. by apply map_get_set_ne.
Qed.

Definition accepted (ms : list Message) : Prop :=
  parse_messages (messages_val (fst (trimMessages ms))) = Some (fst (trimMessages ms)).

(** The messages of the state are the latest, and wait for the timer or are stored. *)
Definition safe (st : PlaygroundState) : Prop :=
  hasLoadedMessages st = true /\ latestMessages st = st_messages st /\
  (saveTimer st = true \/ (accepted (latestMessages st) ->
     map_get (storage st) MESSAGES = Some (conversation_text (latestMessages st)))).

Definition changes (q : list (StateUpdate (list Message))) : Prop :=
  Forall (fun up => match up with SetState _ => False | _ => True end) q.

(** Either nothing but changes is queued and the state is safe, or a change is queued,
    with nothing but changes after it. *)
Definition kept (st : PlaygroundState) : Prop :=
  (safe st /\ changes (messagesQueue st)) \/
  (hasLoadedMessages st = true /\
   exists q updater q', messagesQueue st = q ++ Update updater :: q' /\ changes q').

(** The parts of the state the settings do not touch. *)
Definition same_messages (st st' : PlaygroundState) : Prop :=
  hasLoadedMessages st' = hasLoadedMessages st /\ latestMessages st' = latestMessages st
  /\ st_messages st' = st_messages st /\ messagesQueue st' = messagesQueue st /\ saveTimer st' = saveTimer st
  /\ map_get (storage st') MESSAGES = map_get (storage st) MESSAGES.

#[local] Instance same_messages_preorder : PreOrder same_messages.
Proof. split; [by intros st; split_and!|]. unfold same_messages. intros a b c. intuition congruence. Qed.

Lemma kept_same st st' : same_messages st st' -> kept st -> kept st'.
Proof.
  intros (E1 & E2 & E3 & E4 & E5 & E6). unfold kept, safe. by rewrite E1, E2, E3, E4, E5, E6.
Qed.

Lemma run_config_same up st : same_messages st (run_config_update fits parse_config up st).
Proof. destruct up; split_and!; try done. cbn. apply save_config_frame. Qed.

Lemma run_enabled_same up st : same_messages st (run_enabled_update fits parse_enabled up st).
Proof. destruct up; split_and!; try done. cbn. apply save_enabled_frame. Qed.

Lemma fold_same {A} (f : PlaygroundState -> A -> PlaygroundState) l :
  (forall st x, same_messages st (f st x)) -> forall st, same_messages st (fold_left f l st).
Proof.
  intros H. induction l as [|x l IH]; intros st; [reflexivity|]. cbn [fold_left].
  transitivity (f st x); [apply H|apply IH].
Qed.

Lemma setConfig_same eager up st : same_messages st (setConfigState fits parse_config eager up st).
Proof. unfold setConfigState. destruct (_ && _); [|by split_and!]. transitivity (run_config_update fits parse_config up st); [apply run_config_same|by split_and!]. Qed.

Lemma setEnabled_same eager up st : same_messages st (setParameterEnabled fits parse_enabled eager up st).
Proof. unfold setParameterEnabled. destruct (_ && _); [|by split_and!]. transitivity (run_enabled_update fits parse_enabled up st); [apply run_enabled_same|by split_and!]. Qed.

Lemma reset_same eager st : same_messages st (resetConfig fits parse_config parse_enabled eager st).
Proof.
  unfold resetConfig. etransitivity; [etransitivity; [apply (setConfig_same eager (SetState DEFAULT_CONFIG))|apply setEnabled_same]|].
  split_and!; try done. cbn. by rewrite save_enabled_frame, save_config_frame.
Qed.

(** *** Changes of the messages *)

Lemma run_change_safe up st : (match up with SetState _ => False | _ => True end) -> safe st -> safe (run_message_update up st).
Proof.
  intros Hu (Hl & He & Hs). destruct up as [ms|f|]; [done| |done]. split_and!; [done|done|]. left. cbn. by rewrite Hl.
Qed.

Lemma run_changes_safe q : changes q -> forall st, safe st -> safe (fold_left (fun st up => run_message_update up st) q st).
Proof.
  induction 1 as [|up q Hu _ IH]; intros st Hs; [done|]. cbn [fold_left]. by apply IH, run_change_safe.
Qed.

Lemma run_loaded up st : hasLoadedMessages (run_message_update up st) = hasLoadedMessages st.
Proof. by destruct up. Qed.

Lemma run_updates_loaded q : forall st,
  hasLoadedMessages (fold_left (fun st up => run_message_update up st) q st) = hasLoadedMessages st.
Proof. induction q as [|up q IH]; intros st; [done|]. cbn [fold_left]. by rewrite IH, run_loaded. Qed.

Lemma update_safe f st : hasLoadedMessages st = true -> safe (run_message_update (Update f) st).
Proof. intros Hl. split_and!; [done|done|]. left. cbn. by rewrite Hl. Qed.

Lemma run_updates_queue q : forall st,
  messagesQueue (fold_left (fun st up => run_message_update up st) q st) = messagesQueue st.
Proof. induction q as [|up q IH]; intros st; [done|]. cbn [fold_left]. rewrite IH. by destruct up. Qed.

(** After a render everything is safe. *)
Lemma render_messages_safe st : kept st -> safe (render_messages st) /\ messagesQueue (render_messages st) = [].
Proof.
  intros Hk. unfold render_messages. split; [|by rewrite run_updates_queue].
  destruct Hk as [[Hs Hq]|(Hl & q & f & q' & -> & Hq)]; [by apply run_changes_safe|].
  rewrite fold_left_app. cbn [fold_left]. apply run_changes_safe; [done|]. apply update_safe.
  by rewrite run_updates_loaded.
Qed.

Lemma render_safe st : kept st -> let st' := render_state fits parse_config parse_enabled st in safe st' /\ messagesQueue st' = [].
Proof.
  intros Hk. apply render_messages_safe. eapply kept_same; [|exact Hk].
  unfold render_config, render_enabled. etransitivity; [|apply fold_same; intros; apply run_enabled_same].
  etransitivity; [|by split_and!]. etransitivity; [|apply fold_same; intros; apply run_config_same]. by split_and!.
Qed.

Lemma updateMessages_kept eager f st : hasLoadedMessages st = true ->
  kept (updateMessages eager f st).
Proof.
  intros Hl. unfold updateMessages, setMessages. destruct (_ && _).
  - left. split; [by apply update_safe|]. by repeat constructor.
  - right. split; [done|]. exists (messagesQueue st), f, []. by split; [|constructor].
Qed.

Lemma kept_loaded st : kept st -> hasLoadedMessages st = true.
Proof. by intros [[[? _] _]|[? _]]. Qed.

Lemma save_timer_kept st : (forall s, fits s = true) -> kept st -> kept (save_timer fits parse_messages st).
Proof.
  intros Hf Hk. unfold save_timer. destruct (saveTimer st) eqn:E; [|done].
  destruct Hk as [[(Hl & He & Hs) Hq]|Hk]; [|by right]. left. split; [|done]. split_and!; [done|done|]. right.
  cbn. intros Ha. rewrite save_text by done. apply map_get_set_eq.
Qed.

Lemma state_act_kept a st : (forall s, fits s = true) -> kept st ->
  kept (state_act fits parse_messages parse_config parse_enabled a st).
Proof.
  intros Hf Hk. pose proof (kept_loaded st Hk) as Hl. destruct a; cbn [state_act].
  - by apply updateMessages_kept.
  - by apply updateMessages_kept.
  - left. destruct (render_safe st Hk) as [Hs ->]. by split; [|constructor].
  - by apply save_timer_kept.
  - eapply kept_same, Hk. apply setConfig_same.
  - eapply kept_same, Hk. apply setEnabled_same.
  - eapply kept_same, Hk. apply reset_same.
Qed.

Lemma state_run_kept acts : forall st, (forall s, fits s = true) -> kept st ->
  kept (state_run fits parse_messages parse_config parse_enabled acts st).
Proof. induction acts as [|a acts IH]; intros st Hf Hk; [done|]. cbn. by apply IH, state_act_kept. Qed.

(** C32: Leaving keeps what was on screen: once the stored conversation has been loaded and
    then changed, however it was changed further, React ran the changes (at once or when
    it rendered), the save timer fired and the settings were changed, closing the
    playground after a render leaves the storage with the text of the conversation on
    screen, or of its last 100 messages; provided the storage is not full and the schema
    accepts the conversation. *)
Theorem leaving_stores_conversation (st : PlaygroundState) (eager : bool) (updater : list Message -> list Message)
    (acts : list state_action) :
  let st' := render_state fits parse_config parse_enabled
               (state_run fits parse_messages parse_config parse_enabled acts (updateMessages eager updater st)) in
  hasLoadedMessages st = true -> (forall s, fits s = true) ->
  parse_messages (messages_val (fst (trimMessages (st_messages st')))) = Some (fst (trimMessages (st_messages st'))) ->
  map_get (storage (unmount fits parse_messages st')) MESSAGES = Some (conversation_text (st_messages st')).
Proof.
  intros st' Hl Hf Hp.
  assert (kept (state_run fits parse_messages parse_config parse_enabled acts (updateMessages eager updater st))) as Hk.
  { apply state_run_kept; [done|]. by apply updateMessages_kept. }
  apply render_safe in Hk as [(_ & He & Hs) _]. fold st' in He, Hs. unfold unmount. cbn [storage].
  rewrite <- He in Hp |- *. destruct (saveTimer st').
  - rewrite save_text by done. apply map_get_set_eq.
  - destruct Hs as [Hs|Hs]; [done|]. by apply Hs.
Qed.

(** A change that React has not run when the playground is closed is not stored. *)
Theorem queued_change_not_stored (st : PlaygroundState) (updater : list Message -> list Message) :
  saveTimer st = false ->
  storage (unmount fits parse_messages (updateMessages false updater st)) = storage st.
Proof. intros H. unfold unmount. cbn. by rewrite H. Qed.

(** A conversation whose text is over the limit of one mebibyte is stored in full
    and thrown away by the next load: saving does not check the limit that loading
    enforces, so the whole history is lost, not only its oldest part. *)
Theorem long_history_lost (ms : list Message) (now : Z) (s : Storage) :
  map_ok s -> (forall s, fits s = true) ->
  parse_messages (messages_val (fst (trimMessages ms))) = Some (fst (trimMessages ms)) ->
  MAX_STORED_MESSAGES_BYTES < size (conversation_text ms) ->
  let saved := saveMessages fits parse_messages ms s in
  map_get saved MESSAGES = Some (conversation_text ms)
  /\ fst (loadMessages fits parse_messages now saved) = None
  /\ map_get (snd (loadMessages fits parse_messages now saved)) MESSAGES = None.
Proof.
  intros Hs Hf Hp Hlt saved. subst saved. rewrite save_text by done. split; [apply map_get_set_eq|].
  unfold loadMessages, readStoredMessagesValue. rewrite map_get_set_eq.
  destruct (conversation_text ms) as [|c t] eqn:E; [by vm_compute in Hlt|].
  rewrite (proj2 (N.ltb_lt _ _) Hlt). cbn [truthy negb fst snd]. split; [done|].
  rewrite map_get_delete by (by apply map_set_ok). by rewrite bool_decide_eq_true_2.
Qed.
End saving.

(** ** Witnesses *)

(** A schema that reads the members of [message_val]. *)
Definition as_string (v : jsval) : option jstr := match v with JStr s => Some s | _ => None end.
Definition as_bool (v : jsval) : option bool := match v with JBool b => Some b | _ => None end.
Definition as_int (v : jsval) : option Z := match v with JNum n => if isInteger n then Some (num_trunc n) else None | _ => None end.
Definition optional {A} (f : jsval -> option A) (v : jsval) : option (option A) :=
  match v with JUndef => Some None | _ => Some <$> f v end.
Definition as_list {A} (f : jsval -> option A) (v : jsval) : option (list A) :=
  match v with JArr l => mapM f l | _ => None end.

Definition read_role (v : jsval) : option MessageRole :=
  List.find (fun r => is_str v (default [] (as_string (role_val r)))) [RoleUser; RoleAssistant; RoleSystem].
Definition read_status (v : jsval) : option MessageStatus :=
  List.find (fun s => is_str v (default [] (as_string (status_val s)))) [SLoading; SStreaming; SComplete; SError].

Definition read_reasoning (v : jsval) : option Reasoning :=
  content ← as_string (get v (u "content")); duration ← as_int (get v (u "duration"));
  started ← optional as_int (get v (u "startedAt")); completed ← optional as_int (get v (u "completedAt"));
  ms ← optional as_int (get v (u "durationMs"));
  Some (mkReasoning content duration started completed ms).

Definition read_message (v : jsval) : option Message :=
  k ← as_string (get v (u "key")); role ← read_role (get v (u "from"));
  vs ← as_list (fun v => id ← as_string (get v (u "id")); c ← as_string (get v (u "content")); Some (mkVersion id c))
         (get v (u "versions"));
  created ← optional as_int (get v (u "createdAt")); started ← optional as_int (get v (u "startedAt"));
  completed ← optional as_int (get v (u "completedAt")); ms ← optional as_int (get v (u "durationMs"));
  srcs ← optional (as_list (fun v => h ← as_string (get v (u "href")); t ← as_string (get v (u "title")); Some (h, t)))
           (get v (u "sources"));
  r ← optional read_reasoning (get v (u "reasoning"));
  b1 ← optional as_bool (get v (u "isReasoningStreaming")); b2 ← optional as_bool (get v (u "isReasoningComplete"));
  b3 ← optional as_bool (get v (u "isContentComplete")); st ← optional read_status (get v (u "status"));
  code ← optional (fun v => match v with JNull => Some None | _ => Some <$> as_string v end) (get v (u "errorCode"));
  if (length vs =? 0)%nat then None else Some (mkMessage k role vs created started completed ms srcs r b1 b2 b3 st code).

Definition read_messages (v : jsval) : option (list Message) := as_list read_message v.

Definition demo_conversation : list Message :=
  [createUserMessage (u "k1") (u "i1") (u "hi") 1000; createLoadingAssistantMessage (u "k2") (u "i2") 1000].

Lemma leaving_stores_conversation_witness :
  let st := load_timer (fun _ => true) read_messages false 5 (usePlaygroundState (fun _ => None) (fun _ => None) []) in
  let st' := render_state (fun _ => true) (fun _ => None) (fun _ => None)
    (state_run (fun _ => true) read_messages (fun _ => None) (fun _ => None)
       [SReset true; SRender; STimer; SMessages false (fun ms => ms ++ drop 1 demo_conversation); SConfig false id]
       (updateMessages false (fun ms => ms ++ take 1 demo_conversation) st)) in
  st_messages st' = demo_conversation
  /\ map_get (storage (unmount (fun _ => true) read_messages st')) MESSAGES = Some (conversation_text demo_conversation).
Proof.
  intros st st'. assert (st_messages st' = demo_conversation) as E by (vm_compute; reflexivity). split; [exact E|].
  rewrite <- E. apply (leaving_stores_conversation (fun _ => true) read_messages (fun _ => None) (fun _ => None) st false
    (fun ms => ms ++ take 1 demo_conversation)); [reflexivity|done|]. vm_compute. reflexivity.
Defined.

Lemma join_elem sep x l : x ∈ l -> size x <= size (join sep l).
Proof.
  induction l as [|y l IH]; [by intros ?%not_elem_of_nil|]. intros [->|H]%elem_of_cons.
  - destruct l; [done|]. cbn [join]. rewrite size_app. lia.
  - destruct l as [|z l]; [by apply not_elem_of_nil in H|]. cbn [join] in *. rewrite !size_app. specialize (IH H). lia.
Qed.

Lemma wrap_elem op cl x l : x ∈ l -> size x <= size (wrap [] [] op cl l).
Proof.
  intros H. apply (join_elem (u ",")) in H. destruct l; [unfold size in *; simpl in *; lia|].
  unfold wrap. change (?a :: ?b) with ([a] ++ b). rewrite !size_app. lia.
Qed.

Lemma array_elem v t l : v ∈ l -> JSON_stringify v = Some t -> size t <= size (default [] (JSON_stringify (JArr l))).
Proof.
  intros H E. apply wrap_elem, list_elem_of_fmap. exists v. split; [|done].
  change (t = default (u "null") (JSON_stringify v)). by rewrite E.
Qed.

Lemma object_member k v t ps : (k, v) ∈ ps -> JSON_stringify v = Some t ->
  size t <= size (default [] (JSON_stringify (JObj ps))).
Proof.
  intros H E. assert (size t <= size (quote k ++ u ":" ++ t)) as L by (rewrite !size_app; lia).
  etransitivity; [exact L|]. apply wrap_elem, list_elem_of_omap. exists (k, Some t). split; [|done].
  rewrite own_entries_perm. apply list_elem_of_fmap. exists (k, v). split; [|done].
  change ((k, Some t) = (k, JSON_stringify v)). by rewrite E.
Qed.

Lemma quote_size s : size s <= size (quote s).
Proof.
  unfold quote. change (34 :: ?x) with ([34] ++ x). rewrite !size_app.
  assert (size s <= size (quote_body s)) as H; [|lia]. induction s as [s IH] using (induction_ltof1 _ (@length N)).
  unfold ltof in IH. destruct s as [|c s]; [done|]. cbn [quote_body].
  assert (1 <= size (quote_unit c)) as Hq by (unfold quote_unit, esc_unicode; repeat case_match; by vm_compute).
  assert (size (c :: s) = 1 + size s) as Es by (unfold size; simpl; lia).
  destruct s as [|d s]; [by rewrite Es; cbn|].
  destruct (is_high c && is_low d).
  - specialize (IH s). unfold size in *. simpl in *. lia.
  - specialize (IH (d :: s)). rewrite Es, size_app. simpl in *. lia.
Qed.

Definition text_size (v : jsval) : N := size (default [] (JSON_stringify v)).

Definition container (v : jsval) : bool := match v with JStr _ | JArr _ | JObj _ => true | _ => false end.

Lemma container_text v : container v = true -> JSON_stringify v = Some (default [] (JSON_stringify v)).
Proof. by destruct v. Qed.

Lemma array_size v l : container v = true -> v ∈ l -> text_size v <= text_size (JArr l).
Proof. intros Hc Hv. apply (array_elem v); [done|by apply container_text]. Qed.

Lemma object_size k v ps : container v = true -> (k, v) ∈ ps -> text_size v <= text_size (JObj ps).
Proof. intros Hc Hv. apply (object_member k v); [done|by apply container_text]. Qed.

Definition version_val (v : MessageVersion) : jsval :=
  JObj [(u "id", JStr (v_id v)); (u "content", JStr (v_content v))].

Lemma message_text m : text_size (JArr (map version_val (versions m))) <= text_size (message_val m).
Proof. apply (object_size (u "versions")); [done|]. right. right. left. Qed.

Lemma version_text v : size (v_content v) <= text_size (version_val v).
Proof.
  etransitivity; [apply quote_size|]. apply (object_size (u "content") (JStr (v_content v))); [done|]. right. left.
Qed.

Lemma stored_size d : container d = true -> text_size d <= size (stored_text d).
Proof. intros H. apply (object_size (u "data") d); [done|]. right. left. Qed.

(** A stored conversation takes more room than any version in it. *)
Lemma conversation_size ms m v : (length ms <= MAX_STORED_MESSAGES)%nat -> m ∈ ms -> v ∈ versions m ->
  size (v_content v) <= size (conversation_text ms).
Proof.
  intros Hl Hm Hv. unfold conversation_text, trimMessages. rewrite (proj2 (Nat.leb_le _ _) Hl). cbn [fst].
  etransitivity; [apply version_text|]. etransitivity; [apply (array_size _ (map version_val (versions m)))|];
    [done|by apply list_elem_of_fmap; exists v|].
  etransitivity; [apply message_text|]. etransitivity; [apply (array_size _ (map message_val ms))|];
    [done|by apply list_elem_of_fmap; exists m|].
  by apply stored_size.
Qed.

Definition long_message : Message := createUserMessage (u "k") (u "i") (replicate (N.to_nat 1048577) 97) 0.

Lemma read_user_message c : read_messages (messages_val [createUserMessage (u "k") (u "i") c 0])
  = Some [createUserMessage (u "k") (u "i") c 0].
Proof. vm_compute. reflexivity. Qed.

Lemma long_history_lost_witness :
  let saved := saveMessages (fun _ => true) read_messages [long_message] [] in
  fst (loadMessages (fun _ => true) read_messages 5 saved) = None
  /\ map_get (snd (loadMessages (fun _ => true) read_messages 5 saved)) MESSAGES = None.
Proof.
  apply (long_history_lost (fun _ => true) read_messages [long_message] 5 []).
  - constructor.
  - done.
  - apply read_user_message.
  - apply N.lt_le_trans with (size (replicate (N.to_nat 1048577) 97)).
    + unfold size. rewrite length_replicate, N2Nat.id. reflexivity.
    + apply (conversation_size [long_message] long_message (mkVersion (u "i") (replicate (N.to_nat 1048577) 97)));
        [by apply Nat.leb_le|left|left].
Defined.
