(* ===== verification/Tiers.v ===== *)
(** * Tiered prices (src/web/src/features/pricing/lib: billing-expr.ts, tier-expr.ts)

    A price is written as an expression: a tier with a label and a sum of prices per
    token, or several such tiers chosen by conditions. The editor writes it from a table of tiers
    ([generateExprFromVisualConfig]) and reads it back ([tryParseVisualConfig]); the
    pricing page reads it with a parser of its own ([parseTiersFromExpr]). Both
    readers are regular expressions. [evalExprLocally] hands the text to the
    JavaScript engine and is not modelled. *)

From Stdlib Require Import ZArith SpecFloat.
From stdpp Require Import base numbers option list sorting.
From S2P Require Import Prelude Collections JsNumber JsValue Json Regex JsCoerce BillingRules.

(** ** Variables (billing-expr.ts) *)

Inductive Side := SideInput | SideOutput | SideCondition.

Record BillingVar := mkVar {
  bv_key : jstr;
  field : option jstr;
  tierField : option jstr;
  label : jstr;
  shortLabel : jstr;
  side : Side;
  isBase : bool;
  isConditionOnly : bool;
  bv_group : option jstr
}.

Definition BILLING_VARS : list BillingVar := [
  mkVar (u "p") (Some (u "inputPrice")) (Some (u "input_unit_cost")) (u "Input price") (u "Input") SideInput
    true false None;
  mkVar (u "c") (Some (u "outputPrice")) (Some (u "output_unit_cost")) (u "Completion price") (u "Output")
    SideOutput true false None;
  mkVar (u "len") None None (u "Input length") (u "Length") SideCondition false true None;
  mkVar (u "cr") (Some (u "cacheReadPrice")) (Some (u "cache_read_unit_cost")) (u "Cache read price")
    (u "Cache Read") SideInput false false (Some (u "cache"));
  mkVar (u "cc") (Some (u "cacheCreatePrice")) (Some (u "cache_create_unit_cost")) (u "Cache create price")
    (u "Cache Write") SideInput false false (Some (u "cache"));
  mkVar (u "cc1h") (Some (u "cacheCreate1hPrice")) (Some (u "cache_create_1h_unit_cost"))
    (u "Cache create (1h) price") (u "Cache Write (1h)") SideInput false false (Some (u "cache"));
  mkVar (u "img") (Some (u "imagePrice")) (Some (u "image_unit_cost")) (u "Image input price") (u "Image In")
    SideInput false false (Some (u "media"));
  mkVar (u "img_o") (Some (u "imageOutputPrice")) (Some (u "image_output_unit_cost")) (u "Image output price")
    (u "Image Out") SideOutput false false (Some (u "media"));
  mkVar (u "ai") (Some (u "audioInputPrice")) (Some (u "audio_input_unit_cost")) (u "Audio input price")
    (u "Audio In") SideInput false false (Some (u "media"));
  mkVar (u "ao") (Some (u "audioOutputPrice")) (Some (u "audio_output_unit_cost")) (u "Audio output price")
    (u "Audio Out") SideOutput false false (Some (u "media"))].

Definition BILLING_PRICING_VARS : list BillingVar := List.filter (fun v => negb (isConditionOnly v)) BILLING_VARS.

Definition BILLING_CONDITION_VARS : list jstr :=
  map bv_key (List.filter (fun v => isBase v || isConditionOnly v) BILLING_VARS).

Definition BILLING_VAR_KEY_TO_FIELD : list (jstr * jstr) :=
  map (fun v => (bv_key v, default [] (field v))) BILLING_PRICING_VARS.

Definition BILLING_EXTRA_VARS : list BillingVar :=
  List.filter (fun v => negb (isBase v) && negb (isConditionOnly v)) BILLING_VARS.

(** Fields and variables. *)
Definition BILLING_CACHE_VAR_MAP : list (jstr * jstr) :=
  map (fun v => (default [] (tierField v), bv_key v)) BILLING_EXTRA_VARS.

Definition spaces : regex := Star (Cls is_space).

(** [\s*\*\s*([\d.eE+-]+)]. *)
Definition times (i : nat) : regex := seqs [spaces; Lit (u "*"); spaces; number i].

(** After [\b]. *)
Definition BILLING_VAR_REGEX : regex :=
  Seq (Grp 1 (alts (map (fun v => Lit (bv_key v)) BILLING_PRICING_VARS))) (times 2).

(** ** Conditions *)

Record TierCondition := mkCond { tc_var : jstr; tc_op : jstr; tc_value : num }.

Definition cond_char (c : N) : bool := is_digit c || one_of (u ".eE+") c.

Definition cond_var : regex := alts (map Lit [u "p"; u "c"; u "len"]).
Definition cond_op : regex := alts (map Lit [u "<"; u "<="; u ">"; u ">="]).

(** [(?:p|c|len)\s*(?:<|<=|>|>=)\s*[\d.eE+]+]. *)
Definition cond_pattern : regex := seqs [cond_var; spaces; cond_op; spaces; Plus (Cls cond_char)].

Definition and_pattern : regex := seqs [spaces; Lit (u "&&"); spaces].

(** [condGroup], as group 1. *)
Definition condGroup : regex := Grp 1 (Seq cond_pattern (Star (Seq and_pattern cond_pattern))).

(** [/^(p|c|len)\s*(<|<=|>|>=)\s*([\d.eE+]+)$/]. *)
Definition cond_exact : regex :=
  seqs [Grp 1 cond_var; spaces; Grp 2 cond_op; spaces; Grp 3 (Plus (Cls cond_char))].

(** The conditions of a tier, from the text of the group. *)
Definition parse_conditions (condStr : jstr) : list TierCondition :=
  if str_truthy condStr then
    omap (fun cp => cm ← rexec cond_exact (trim cp);
                    Some (mkCond (group_of cm 1) (group_of cm 2) (Number_text (group_of cm 3))))
      (split_regex and_pattern condStr)
  else [].

(** ** The parser of the pricing page *)

(** Digits, a colon and the rest after a v. *)
Definition version_pattern : regex :=
  seqs [Lit (u "v"); Grp 1 (Plus (Cls is_digit)); Lit (u ":"); Grp 2 (Star (Cls (fun _ => true)))].

Definition stripExprVersion (exprStr : jstr) : num * jstr :=
  if negb (str_truthy exprStr) then (num_of_Z 1, [])
  else match rexec version_pattern exprStr with
  | Some m => (Number_text (group_of m 1), group_of m 2)
  | None => (num_of_Z 1, exprStr)
  end.

(** [x || 0]. *)
Definition or_zero (n : num) : num := if num_truthy n then n else num_of_Z 0.

(** Prices by field. *)
Definition parseTierBody (bodyStr : jstr) : list (jstr * num) :=
  let coeffs :=
    fold_left (fun coeffs m =>
      if map_has coeffs (group_of m 1) then coeffs
      else map_set coeffs (group_of m 1) (Number_text (group_of m 2)))
      (exec_all word_start BILLING_VAR_REGEX bodyStr) [] in
  map (fun '(varName, f) => (f, or_zero (default S754_nan (map_get coeffs varName)))) BILLING_VAR_KEY_TO_FIELD.

Record ParsedTier := mkParsedTier { pt_label : jstr; pt_conditions : list TierCondition; pt_prices : list (jstr * num) }.

(** An optional condition with a question mark, and a tier with its label as group 2. *)
Definition tier_pattern (body : regex) : regex :=
  seqs [Opt (seqs [condGroup; spaces; Lit (u "?"); spaces]); Lit (uq "tier('");
        Grp 2 (Star (Cls not_quote)); Lit (uq "',"); spaces; body; Lit (u ")")].

Definition parseTiersFromExpr (exprStr : jstr) : list ParsedTier :=
  if negb (str_truthy exprStr) then []
  else
    let '(_, body) := stripExprVersion exprStr in
    map (fun m => mkParsedTier (group_of m 2) (parse_conditions (group_of m 1)) (parseTierBody (group_of m 3)))
      (exec_all (fun _ => true) (tier_pattern (Grp 3 (Plus (Cls (fun c => negb (c =? 41)%N))))) body).

(** ** The table of the editor (tier-expr.ts) *)

Inductive CacheMode := CACHE_MODE_TIMED | CACHE_MODE_GENERIC.

Inductive TierValue := VNum (n : num) | VStr (s : jstr).

Record TierConditionInput := mkInput { ti_var : jstr; ti_op : jstr; ti_value : option TierValue }.

Record VisualTier := mkTier {
  vt_label : jstr;
  vt_conditions : list TierConditionInput;
  input_unit_cost : num;
  output_unit_cost : num;
  cache_mode : CacheMode;
  cache_read_unit_cost : num;
  cache_create_unit_cost : num;
  cache_create_1h_unit_cost : num;
  image_unit_cost : num;
  image_output_unit_cost : num;
  audio_input_unit_cost : num;
  audio_output_unit_cost : num
}.

(** A tier some of whose members are missing. *)
Record PartialTier := mkPartialTier {
  pv_label : option jstr;
  pv_conditions : option (list TierConditionInput);
  pv_input : option num;
  pv_output : option num;
  pv_mode : option CacheMode;
  pv_extra : list (jstr * num)
}.

Definition getTierCacheMode (tier : option PartialTier) : CacheMode :=
  match t ← tier; pv_mode t with
  | Some mode => mode
  | None =>
      let n := default S754_nan (t ← tier; map_get (pv_extra t) (u "cache_create_1h_unit_cost")) in
      if num_ltb (num_of_Z 0) n then CACHE_MODE_TIMED else CACHE_MODE_GENERIC
  end.

(** The members spread from [tier] come after the first defaults. *)
Definition normalizeVisualTier (tier : PartialTier) : VisualTier :=
  let extra f := or_zero (default S754_nan (map_get (pv_extra tier) f)) in
  mkTier (default [] (pv_label tier)) (default [] (pv_conditions tier))
    (default (num_of_Z 0) (pv_input tier)) (default (num_of_Z 0) (pv_output tier))
    (getTierCacheMode (Some tier))
    (extra (u "cache_read_unit_cost")) (extra (u "cache_create_unit_cost"))
    (extra (u "cache_create_1h_unit_cost")) (extra (u "image_unit_cost")) (extra (u "image_output_unit_cost"))
    (extra (u "audio_input_unit_cost")) (extra (u "audio_output_unit_cost")).

Definition createDefaultVisualConfig : list VisualTier :=
  [normalizeVisualTier (mkPartialTier (Some (u "base")) (Some []) (Some (num_of_Z 0)) (Some (num_of_Z 0))
     (Some CACHE_MODE_GENERIC) [])].

(** A tier as a member list. *)
Definition as_partial_tier (t : VisualTier) : PartialTier :=
  mkPartialTier (Some (vt_label t)) (Some (vt_conditions t)) (Some (input_unit_cost t)) (Some (output_unit_cost t))
    (Some (cache_mode t))
    [(u "cache_read_unit_cost", cache_read_unit_cost t); (u "cache_create_unit_cost", cache_create_unit_cost t);
     (u "cache_create_1h_unit_cost", cache_create_1h_unit_cost t); (u "image_unit_cost", image_unit_cost t);
     (u "image_output_unit_cost", image_output_unit_cost t); (u "audio_input_unit_cost", audio_input_unit_cost t);
     (u "audio_output_unit_cost", audio_output_unit_cost t)].

Definition normalizeVisualConfig (tiers : option (list VisualTier)) : list VisualTier :=
  match tiers with
  | None | Some [] => createDefaultVisualConfig
  | Some tiers => map (fun tier => normalizeVisualTier (as_partial_tier tier)) tiers
  end.

Definition value_text (v : TierValue) : jstr := match v with VNum n => num_str n | VStr s => s end.

Definition is_empty (v : TierValue) : bool := match v with VStr [] => true | _ => false end.

Definition buildConditionStr (conditions : list TierConditionInput) : jstr :=
  join (u " && ")
    (omap (fun c =>
       match ti_value c with
       | Some v =>
           if str_truthy (ti_var c) && str_truthy (ti_op c) && negb (is_empty v)
           then Some (ti_var c ++ u " " ++ ti_op c ++ u " " ++ value_text v) else None
       | None => None
       end) conditions).

(** The part of an extra price, unless it is zero. *)
Definition extra_part (v : num) (exprVar : jstr) : option jstr :=
  let v := or_zero v in
  if negb (num_eqb v (num_of_Z 0)) then Some (exprVar ++ u " * " ++ num_str v) else None.

Definition buildTierBodyExpr (tier : VisualTier) : jstr :=
  let extra f := default S754_nan (map_get (pv_extra (as_partial_tier tier)) f) in
  join (u " + ")
    ([u "p * " ++ num_str (or_zero (input_unit_cost tier)); u "c * " ++ num_str (or_zero (output_unit_cost tier))]
     ++ omap (fun '(f, exprVar) => extra_part (extra f) exprVar) BILLING_CACHE_VAR_MAP).

Definition EMPTY_PRICE : jstr := u "p * 0 + c * 0".

Definition tier_text (label : jstr) (tier : VisualTier) : jstr :=
  uq "tier('" ++ label ++ uq "', " ++ buildTierBodyExpr tier ++ u ")".

(** The parts of several tiers, the first being number [i]. *)
Fixpoint tier_parts (i : nat) (tiers : list VisualTier) : list jstr :=
  match tiers with
  | [] => []
  | tier :: rest =>
      let label := str_or (vt_label tier) (u "tier_" ++ Z_str (Z.of_nat i)) in
      let body := tier_text label tier in
      let cond := buildConditionStr (vt_conditions tier) in
      (if (0 <? length rest)%nat && str_truthy cond then cond ++ u " ? " ++ body else body)
      :: tier_parts (S i) rest
  end.

Definition generateExprFromVisualConfig (tiers : option (list VisualTier)) : jstr :=
  match tiers with
  | None | Some [] => EMPTY_PRICE
  | Some [tier] =>
      let body := tier_text (str_or (vt_label tier) (u "default")) tier in
      let cond := buildConditionStr (vt_conditions tier) in
      if str_truthy cond then cond ++ u " ? " ++ body ++ u " : " ++ EMPTY_PRICE else body
  | Some tiers => join (u " : ") (tier_parts 1 tiers)
  end.

(** [\s*\+\s*v\s*\*\s*(number)], optional. *)
Definition opt_cache (i : nat) (v : jstr) : regex := Opt (seqs [spaces; Lit (u "+"); spaces; Lit v; times i]).

(** The sum of a tier; its numbers are the groups from [i] on. *)
Definition bodyPat (i : nat) : regex :=
  seqs ([Lit (u "p"); times i; spaces; Lit (u "+"); spaces; Lit (u "c"); times (i + 1)]
        ++ imap (fun j '(_, v) => opt_cache (i + 2 + j) v) BILLING_CACHE_VAR_MAP).

Definition singleRe : regex :=
  seqs [Lit (uq "tier('"); Grp 1 (Star (Cls not_quote)); Lit (uq "',"); spaces; bodyPat 2; Lit (u ")")].

(** The extra prices a match captured, by field. *)
Definition extra_matches (m : captures) (i : nat) : list (jstr * option jstr) :=
  imap (fun j '(f, _) => (f, map_get m (i + 2 + j)%nat)) BILLING_CACHE_VAR_MAP.

(** The table's tier from a match whose label is group [l] and whose numbers are the
    groups from [i] on. *)
Definition tier_of_match (m : captures) (l i : nat) (conditions : list TierConditionInput) : VisualTier :=
  normalizeVisualTier
    (mkPartialTier (Some (group_of m l)) (Some conditions) (Some (Number_text (group_of m i)))
       (Some (Number_text (group_of m (i + 1)))) None
       (omap (fun p => (fun val => (fst p, Number_text val)) <$> snd p) (extra_matches m i))).

Definition without_spaces (s : jstr) : jstr := List.filter (fun c => negb (is_space c)) s.

Definition input_condition (c : TierCondition) : TierConditionInput :=
  mkInput (tc_var c) (tc_op c) (Some (VNum (tc_value c))).

Definition tryParseVisualConfig (exprStr : jstr) : option (list VisualTier) :=
  if negb (str_truthy exprStr) then None
  else
    let body := match rexec version_pattern exprStr with Some m => group_of m 2 | None => exprStr end in
    match rexec singleRe body with
    | Some simple => Some (normalizeVisualConfig (Some [tier_of_match simple 1 2 []]))
    | None =>
        let tiers := map (fun m => tier_of_match m 2 3 (map input_condition (parse_conditions (group_of m 1))))
                       (exec_all (fun _ => true) (tier_pattern (bodyPat 3)) body) in
        match tiers with
        | [] => None
        | _ =>
            let cfg := normalizeVisualConfig (Some tiers) in
            let regenerated := generateExprFromVisualConfig (Some cfg) in
            if seqb (without_spaces regenerated) (without_spaces body) then Some cfg else None
        end
    end.

(** ** Estimator *)

Definition ESTIMATOR_VARS : list (jstr * jstr) := [
  (u "cr", u "cacheReadTokens"); (u "cc", u "cacheCreateTokens"); (u "cc1h", u "cacheCreate1hTokens");
  (u "img", u "imageTokens"); (u "img_o", u "imageOutputTokens"); (u "ai", u "audioInputTokens");
  (u "ao", u "audioOutputTokens")].

Definition exprUsesExtraVars (exprStr : jstr) : bool :=
  if negb (str_truthy exprStr) then false
  else (0 <? length (exec_all word_start (Seq (alts (map (fun f => Lit (fst f)) ESTIMATOR_VARS)) WordEnd) exprStr))%nat.

(** ** Examples *)

Definition dnum (m : N) (e : Z) : num := dec_to_num false m e.

Definition demo_tiers : list VisualTier := [
  mkTier (u "short") [mkInput (u "len") (u "<=") (Some (VNum (dnum 32000 0)))] (dnum 25 (-1)) (dnum 15 0)
    CACHE_MODE_GENERIC (dnum 25 (-2)) (num_of_Z 0) (num_of_Z 0) (num_of_Z 0) (num_of_Z 0) (num_of_Z 0) (dnum 3 0);
  mkTier (u "long") [] (dnum 5 0) (dnum 225 (-1)) CACHE_MODE_TIMED (num_of_Z 0) (num_of_Z 0) (dnum 1 (-7))
    (num_of_Z 0) (num_of_Z 0) (num_of_Z 0) (num_of_Z 0)].

Example generate_ex : generateExprFromVisualConfig (Some demo_tiers)
  = uq "len <= 32000 ? tier('short', p * 2.5 + c * 15 + cr * 0.25 + ao * 3) : tier('long', p * 5 + c * 22.5 + cc1h * 1e-7)".
Proof. vm_compute. reflexivity. Qed.

Example reparse_ex : tryParseVisualConfig (generateExprFromVisualConfig (Some demo_tiers)) = Some demo_tiers.
Proof. vm_compute. reflexivity. Qed.

Example parse_page_ex :
  map (fun t => (pt_label t, pt_conditions t, List.filter (fun p => num_truthy (snd p)) (pt_prices t)))
    (parseTiersFromExpr (generateExprFromVisualConfig (Some demo_tiers)))
  = [(u "short", [mkCond (u "len") (u "<=") (dnum 32000 0)],
      [(u "inputPrice", dnum 25 (-1)); (u "outputPrice", dnum 15 0); (u "cacheReadPrice", dnum 25 (-2));
       (u "audioOutputPrice", dnum 3 0)]);
     (u "long", [], [(u "inputPrice", dnum 5 0); (u "outputPrice", dnum 225 (-1)); (u "cacheCreate1hPrice", dnum 1 (-7))])].
Proof. vm_compute. reflexivity. Qed.

(** A difference in place of a number passes for a number in a single tier. *)
Example single_nan_ex :
  option_map (fun cfg => generateExprFromVisualConfig (Some cfg)) (tryParseVisualConfig (uq "tier('base', p * 3-1 + c * 2)"))
  = Some (uq "tier('base', p * 0 + c * 2)").
Proof. vm_compute. reflexivity. Qed.

Example extra_ex : map exprUsesExtraVars [u "p * 1 + cr * 2"; u "price * 2 + abc"; u "ai_x + img_o"] = [true; false; true].
Proof. vm_compute. reflexivity. Qed.
