(* ===== verification/TiersProps.v ===== *)
(** * Properties of tiered prices

    What the editor writes, both readers read back: the editor's own
    ([tiers_roundtrip]) and the one of the pricing page ([page_shows_tiers]). The
    proofs follow the text through the regular expressions with [leads]. *)

From Stdlib Require Import ZArith SpecFloat.
From stdpp Require Import base numbers option list sorting.
From S2P Require Import Prelude Collections JsNumber JsValue Json Regex JsCoerce BillingRules BillingRulesProps Tiers.

Create HintDb tiers.

(** ** Tiers that can be written *)

(** A number that JavaScript prints so that it reads back. *)
Definition printable (chars : N -> bool) (n : num) : Prop :=
  Number_text (num_str n) = n /\ num_str n <> [] /\ Forall (fun c => chars c = true) (num_str n).

Definition good_cost (n : num) : Prop := or_zero n = n /\ printable num_char n.

Definition cond_vars : list jstr := [u "p"; u "c"; u "len"].
Definition cond_ops : list jstr := [u "<"; u "<="; u ">"; u ">="].

Definition good_cond (c : TierConditionInput) : Prop :=
  ti_var c ∈ cond_vars /\ ti_op c ∈ cond_ops
  /\ exists n, ti_value c = Some (VNum n) /\ printable cond_char n.

(** The extra prices with their variables. *)
Definition extras (t : VisualTier) : list (jstr * num) :=
  [(u "cr", cache_read_unit_cost t); (u "cc", cache_create_unit_cost t); (u "cc1h", cache_create_1h_unit_cost t);
   (u "img", image_unit_cost t); (u "img_o", image_output_unit_cost t); (u "ai", audio_input_unit_cost t);
   (u "ao", audio_output_unit_cost t)].

Record good_tier (t : VisualTier) : Prop := mkGoodTier {
  gt_label : vt_label t <> [] /\ Forall (fun c => not_quote c = true) (vt_label t);
  gt_conditions : Forall good_cond (vt_conditions t);
  gt_input : good_cost (input_unit_cost t);
  gt_output : good_cost (output_unit_cost t);
  gt_extras : Forall (fun p => good_cost (snd p)) (extras t);
  gt_mode : cache_mode t
    = if num_ltb (num_of_Z 0) (cache_create_1h_unit_cost t) then CACHE_MODE_TIMED else CACHE_MODE_GENERIC
}.

(** Every tier but the last is chosen by a condition, and the last of several is
    the one for the rest. *)
Fixpoint chained (tiers : list VisualTier) : Prop :=
  match tiers with
  | [] => False
  | [t] => vt_conditions t = []
  | t :: rest => vt_conditions t <> [] /\ chained rest
  end.

Definition good_config (tiers : list VisualTier) : Prop :=
  Forall good_tier tiers /\ (chained tiers \/ length tiers = 1%nat).

(** ** Texts *)

Definition extra_text (p : jstr * num) : jstr :=
  if num_eqb (snd p) (num_of_Z 0) then [] else u " + " ++ fst p ++ u " * " ++ num_str (snd p).

Definition body_text (t : VisualTier) : jstr :=
  u "p * " ++ num_str (input_unit_cost t) ++ u " + " ++ u "c * " ++ num_str (output_unit_cost t)
  ++ concat (map extra_text (extras t)).

Lemma join_extra sep x l : join sep (x :: l) = x ++ concat (map (app sep) l).
Proof.
  revert x. induction l as [|y l IH]; intros x; [by rewrite app_nil_r|].
  change (join sep (x :: y :: l)) with (x ++ sep ++ join sep (y :: l)). rewrite IH. cbn [map concat]. by rewrite !app_assoc.
Qed.

Lemma extra_parts t : omap (fun '(f, exprVar) =>
    extra_part (default S754_nan (map_get (pv_extra (as_partial_tier t)) f)) exprVar) BILLING_CACHE_VAR_MAP
  = omap (fun p => extra_part (snd p) (fst p)) (extras t).
Proof. reflexivity. Qed.

Lemma extra_texts l : Forall (fun p : jstr * num => good_cost (snd p)) l ->
  concat (map (app (u " + ")) (omap (fun p => extra_part (snd p) (fst p)) l)) = concat (map extra_text l).
Proof.
  induction 1 as [|[v n] l [Hn _] Hl IH]; [done|]. cbn [omap list_omap map concat snd fst]. unfold extra_part at 1, extra_text at 1.
  cbn [snd fst] in *. rewrite Hn. destruct (num_eqb n (num_of_Z 0)); cbn [negb]; [done|].
  cbn [map concat]. rewrite <- IH. by rewrite <- !app_assoc.
Qed.

Lemma body_expr t : good_tier t -> buildTierBodyExpr t = body_text t.
Proof.
  intros [_ _ [Hi _] [Ho _] He _]. unfold buildTierBodyExpr, body_text. cbv zeta. rewrite extra_parts, Hi, Ho.
  cbn [app]. rewrite join_extra. cbn [map concat]. rewrite extra_texts by done. by rewrite <- !app_assoc.
Qed.

(** ** Prices *)

(** What follows a number does not continue it. *)
Definition ends (p : N -> bool) (b : jstr) : Prop := match b with [] => True | c :: _ => p c = false end.

Lemma leads_cons r1 r2 l a1 a2 b cs cs1 cs2 :
  leads r1 a1 (a2 ++ b) cs cs1 -> leads (seqs (r2 :: l)) a2 b cs1 cs2 -> leads (seqs (r1 :: r2 :: l)) (a1 ++ a2) b cs cs2.
Proof. apply leads_seq. Qed.

Lemma leads_space b cs : ends is_space b -> leads spaces [32%N] b cs cs.
Proof. intros H. apply leads_run; [by constructor|done]. Qed.

Lemma chars_end chars (s b : jstr) : (forall c, chars c = true -> is_space c = false) -> s <> [] ->
  Forall (fun c => chars c = true) s -> ends is_space (s ++ b).
Proof. intros H Hne Hc. destruct Hc as [|c l Hc Hl]; [done|]. by apply H. Qed.

Lemma printable_ends chars n b : (forall c, chars c = true -> is_space c = false) -> printable chars n ->
  ends is_space (num_str n ++ b).
Proof. intros H (_ & Hne & Hc). by apply (chars_end chars). Qed.

Lemma leads_times_text i s b cs : s <> [] -> Forall (fun c => num_char c = true) s -> ends num_char b ->
  leads (times i) (u " * " ++ s) b cs (map_set cs i s).
Proof.
  intros Hne Hs Hb. apply (leads_cons _ _ _ [32%N] ([42%N] ++ [32%N] ++ s) _ _ cs); [by apply leads_space|].
  eapply leads_cons; [apply leads_lit|]. eapply leads_cons; [|by apply leads_grp, leads_plus].
  apply leads_space. by apply (chars_end num_char); [apply num_char_not_space|..].
Qed.

Lemma leads_times i n b cs : printable num_char n -> ends num_char b ->
  leads (times i) (u " * " ++ num_str n) b cs (map_set cs i (num_str n)).
Proof. intros (_ & Hne & Hs) Hb. by apply leads_times_text. Qed.

(** An extra price in the pattern. *)
Definition plus_var (i : nat) (v : jstr) : regex := seqs [spaces; Lit (u "+"); spaces; Lit v; times i].

Lemma leads_plus_var i v n b cs : v <> [] -> ends is_space v -> printable num_char n -> ends num_char b ->
  leads (plus_var i v) (u " + " ++ v ++ u " * " ++ num_str n) b cs (map_set cs i (num_str n)).
Proof.
  intros Hne Hv Hn Hb.
  apply (leads_cons _ _ _ [32%N] ([43%N] ++ [32%N] ++ v ++ u " * " ++ num_str n) _ _ cs); [by apply leads_space|].
  eapply leads_cons; [apply leads_lit|]. eapply leads_cons; [|eapply leads_cons; [apply leads_lit|by apply leads_times]].
  apply leads_space. by destruct v.
Qed.

Definition apart (v w : jstr) : Prop := forall i s cs, stuck (plus_var i v) (u " + " ++ w ++ u " * " ++ s) cs.

Definition var_names : list jstr := [u "cr"; u "cc"; u "cc1h"; u "img"; u "img_o"; u "ai"; u "ao"].

(** A run of one space. *)
Lemma stuck_space r b cs : ends is_space b -> stuck r (32%N :: b) cs -> stuck r b cs -> stuck (Seq spaces r) (32%N :: b) cs.
Proof.
  intros Hb H1 H2. apply (stuck_run is_space r [32%N] b); [by constructor|done|].
  intros [|x [|y a1]] a2 E; by simplify_eq/=.
Qed.

Lemma stuck_no_space r b cs : ends is_space b -> stuck r b cs -> stuck (Seq spaces r) b cs.
Proof. intros Hb H. apply (stuck_run is_space r [] b); [constructor|done|]. intros [|??] a2 E; by simplify_eq/=. Qed.

Lemma stuck_times i c s cs : is_space c = false -> c <> 42%N -> stuck (times i) (c :: s) cs.
Proof.
  intros Hs Hc. apply stuck_no_space; [done|]. apply stuck_seq, stuck_lit.
  change (u "*") with [42%N]. cbn [startsWith]. by rewrite (proj2 (N.eqb_neq c 42)).
Qed.

(** Names that differ early, or by a longer ending. *)
Lemma apart_names v w : ends is_space v -> v <> [] -> ends is_space w -> w <> [] ->
  (forall s, startsWith (w ++ s) v = false)
  \/ (exists c w', w = v ++ c :: w' /\ is_space c = false /\ c <> 42%N) -> apart v w.
Proof.
  intros Hv Hvn Hw Hwn H i s cs.
  assert (stuck (Seq (Lit v) (times i)) (w ++ u " * " ++ s) cs) as Hs.
  { destruct H as [H|(c & w' & -> & Hc & Hn)]; [by apply stuck_seq, stuck_lit|].
    rewrite <- app_assoc. apply stuck_after. by apply stuck_times. }
  apply stuck_space; [done|by apply stuck_seq, stuck_lit|]. apply (stuck_after [43%N]).
  apply stuck_space; [by destruct w| |done]. apply stuck_seq, stuck_lit. destruct v as [|x v]; [done|].
  cbn [startsWith]. rewrite (proj2 (N.eqb_neq 32 x)); [done|]. intros <-. by vm_compute in Hv.
Qed.

(** No variable is mistaken for a later one. *)
Lemma vars_apart : ForallOrdPairs apart var_names.
Proof.
  unfold var_names. repeat match goal with
  | |- ForallOrdPairs _ (_ :: _) => constructor
  | |- List.Forall _ (_ :: _) => constructor
  | |- ForallOrdPairs _ [] => constructor
  | |- List.Forall _ [] => constructor
  end; (apply apart_names; [done..|]); first [by left | right; by eexists _, _].
Qed.

Fixpoint opts (i : nat) (vs : list jstr) : regex :=
  match vs with
  | [] => Lit []
  | [v] => opt_cache i v
  | v :: vs => Seq (opt_cache i v) (opts (S i) vs)
  end.

(** The captures of the extra prices. *)
Fixpoint caps (i : nat) (l : list (jstr * num)) (cs : captures) : captures :=
  match l with
  | [] => cs
  | (v, n) :: l => caps (S i) l (if num_eqb n (num_of_Z 0) then cs else map_set cs i (num_str n))
  end.

Lemma extra_head l b : concat (map extra_text l) ++ b = b
  \/ exists w s, w ∈ map fst l /\ concat (map extra_text l) ++ b = u " + " ++ w ++ u " * " ++ s.
Proof.
  induction l as [|[w n] l IH]; [by left|]. cbn [map concat]. unfold extra_text at 1 3. cbn [fst snd].
  destruct (num_eqb n (num_of_Z 0)).
  - destruct IH as [IH|(x & s & Hx & IH)]; [by left|]. right. exists x, s. split; [by right|done].
  - right. exists w. eexists. split; [left|]. by rewrite <- !app_assoc.
Qed.

Lemma extra_ends l b : ends num_char b -> ends num_char (concat (map extra_text l) ++ b).
Proof. intros Hb. destruct (extra_head l b) as [->|(w & s & _ & ->)]; done. Qed.

Lemma leads_opts l : forall i b cs, ForallOrdPairs apart (map fst l) ->
  Forall (fun p : jstr * num => fst p <> [] /\ ends is_space (fst p) /\ printable num_char (snd p)) l ->
  ends num_char b -> (forall i v cs, stuck (plus_var i v) b cs) ->
  leads (opts i (map fst l)) (concat (map extra_text l)) b cs (caps i l cs).
Proof.
  induction l as [|[v n] l IH]; intros i b cs Ha Hl Hb Hs; [apply (leads_lit [])|].
  inversion_clear Ha as [|? ? Hv Hp]. inversion_clear Hl as [|? ? (Hne & Hsp & Hn) Hl']. cbn [fst snd] in *.
  assert (leads (opt_cache i v) (extra_text (v, n)) (concat (map extra_text l) ++ b) cs
            (if num_eqb n (num_of_Z 0) then cs else map_set cs i (num_str n))) as H1.
  { unfold extra_text at 1. cbn [fst snd]. destruct (num_eqb n (num_of_Z 0)).
    - apply leads_opt_none. destruct (extra_head l b) as [->|(w & s & Hw & ->)]; [apply Hs|].
      rewrite List.Forall_forall in Hv. apply Hv. by apply list_elem_of_In.
    - apply leads_left. apply leads_plus_var; try done. by apply extra_ends. }
  destruct l as [|p l].
  - cbn [map opts concat caps]. rewrite app_nil_r. cbn [map concat] in H1. exact H1.
  - cbn [caps]. cbn [map concat]. change (opts i (v :: map fst (p :: l))) with (Seq (opt_cache i v) (opts (S i) (map fst (p :: l)))).
    eapply leads_seq; [exact H1|]. by apply IH.
Qed.

Definition body_caps (i : nat) (t : VisualTier) (cs : captures) : captures :=
  caps (i + 2) (extras t) (map_set (map_set cs i (num_str (input_unit_cost t))) (i + 1)%nat (num_str (output_unit_cost t))).

Definition body_regex (i : nat) : regex :=
  seqs [Lit (u "p"); times i; spaces; Lit (u "+"); spaces; Lit (u "c"); times (i + 1); opts (i + 2) var_names].

Lemma bodyPat_2 : bodyPat 2 = body_regex 2.
Proof. reflexivity. Qed.

Lemma bodyPat_3 : bodyPat 3 = body_regex 3.
Proof. reflexivity. Qed.

Lemma body_split t : body_text t =
  u "p" ++ (u " * " ++ num_str (input_unit_cost t)) ++ [32%N] ++ [43%N] ++ [32%N] ++ u "c"
  ++ (u " * " ++ num_str (output_unit_cost t)) ++ concat (map extra_text (extras t)).
Proof.
  unfold body_text. change (u "p * ") with (u "p" ++ u " * "). change (u "c * ") with (u "c" ++ u " * ").
  change (u " + ") with ([32%N] ++ [43%N] ++ [32%N]). by rewrite <- !app_assoc.
Qed.

Lemma extras_ready t : good_tier t ->
  Forall (fun p : jstr * num => fst p <> [] /\ ends is_space (fst p) /\ printable num_char (snd p)) (extras t).
Proof.
  intros [_ _ _ _ He _]. apply Forall_forall. intros [v n] Hp. rewrite Forall_forall in He.
  destruct (He _ Hp) as [_ Hn].
  assert (forallb (fun p => match fst p with c :: _ => negb (is_space c) | [] => false end) (extras t) = true) as Hv by done.
  rewrite forallb_forall in Hv. specialize (Hv _ (proj1 (list_elem_of_In _ _) Hp)). cbn [fst snd] in *.
  destruct v as [|c v]; [done|]. split_and!; [done| |done]. by apply negb_true_iff.
Qed.

Lemma leads_body i t b cs : good_tier t -> leads (body_regex i) (body_text t) (u ")" ++ b) cs (body_caps i t cs).
Proof.
  intros H. pose proof H as [_ _ [_ Hi] [_ Ho] _ _]. rewrite body_split.
  eapply leads_cons; [apply leads_lit|]. eapply leads_cons; [by apply leads_times|].
  eapply leads_cons; [by apply leads_space|]. eapply leads_cons; [apply (leads_lit [43%N])|].
  eapply leads_cons; [by apply leads_space|]. eapply leads_cons; [apply leads_lit|].
  eapply leads_cons; [apply leads_times; [done|by apply extra_ends]|].
  apply (leads_opts (extras t)); [apply vars_apart|by apply extras_ready|done|].
  intros j v cs'. apply stuck_no_space; [done|]. by apply stuck_seq, stuck_lit.
Qed.

(** ** Reading a match *)

Lemma caps_get i l cs j : map_get (caps i l cs) j =
  match (if (i <=? j)%nat then l !! (j - i)%nat else None) with
  | Some (_, n) => if num_eqb n (num_of_Z 0) then map_get cs j else Some (num_str n)
  | None => map_get cs j
  end.
Proof.
  revert i cs. induction l as [|[v n] l IH]; intros i cs; cbn [caps].
  - by destruct (i <=? j)%nat.
  - rewrite IH. destruct (Nat.leb_spec (S i) j) as [Hl|Hl].
    + rewrite (proj2 (Nat.leb_le i j)) by lia. replace (j - i)%nat with (S (j - S i)) by lia. cbn [lookup list_lookup].
      assert (map_get (if num_eqb n (num_of_Z 0) then cs else map_set cs i (num_str n)) j = map_get cs j) as ->; [|done].
      destruct (num_eqb n (num_of_Z 0)); [done|]. apply map_get_set_ne. lia.
    + destruct (Nat.leb_spec i j) as [Hl'|Hl'].
      * replace (j - i)%nat with 0%nat by lia. cbn [lookup list_lookup]. destruct (num_eqb n (num_of_Z 0)); [done|].
        replace j with i by lia. apply map_get_set_eq.
      * destruct (num_eqb n (num_of_Z 0)); [done|]. apply map_get_set_ne. lia.
Qed.

(** The table's tier comes back from the captures of its text. *)
Lemma extra_value n : good_cost n ->
  or_zero (default S754_nan (Number_text <$> (if num_eqb n (num_of_Z 0) then None else Some (num_str n)))) = n.
Proof.
  intros [Hz [Hr _]]. destruct (num_eqb n (num_of_Z 0)) eqn:E; cbn [fmap option_fmap option_map default from_option id].
  - destruct n as [[|]|[|]| |[|] m e]; try done.
  - by rewrite Hr.
Qed.

Lemma map_get_present (l : list (jstr * option jstr)) f : NoDup (map fst l) ->
  map_get (omap (fun p => (fun val => (fst p, Number_text val)) <$> snd p) l) f
  = Number_text <$> (o ← map_get l f; o).
Proof.
  induction l as [|[g o] l IH]; intros Hn; [done|]. apply NoDup_cons in Hn as [Hg Hn]. cbn [omap list_omap snd fst].
  cbn [map_get]. destruct o as [val|]; cbn [fmap option_fmap option_map].
  - cbn [map_get]. case_bool_decide; [done|]. by apply IH.
  - case_bool_decide as E; [|by apply IH]. subst g. cbn [mbind option_bind]. rewrite IH by done.
    assert (map_get l f = None) as ->; [|done]. apply map_get_None. unfold map_keys. exact Hg.
Qed.

(** The captures a tier's text leaves, its numbers being the groups from [i] on. *)
Definition holds_body (m : captures) (i : nat) (t : VisualTier) : Prop :=
  group_of m i = num_str (input_unit_cost t) /\ group_of m (i + 1) = num_str (output_unit_cost t)
  /\ forall j v n, extras t !! j = Some (v, n) ->
       map_get m (i + 2 + j)%nat = if num_eqb n (num_of_Z 0) then None else Some (num_str n).

Lemma matches_fields m i : NoDup (map fst (extra_matches m i)).
Proof. apply (bool_decide_unpack _). vm_compute. done. Qed.

Lemma matches_get m i :
  let has f j := map_get (extra_matches m i) f = Some (map_get m (i + 2 + j)%nat) in
  has (u "cache_read_unit_cost") 0%nat /\ has (u "cache_create_unit_cost") 1%nat
  /\ has (u "cache_create_1h_unit_cost") 2%nat /\ has (u "image_unit_cost") 3%nat
  /\ has (u "image_output_unit_cost") 4%nat /\ has (u "audio_input_unit_cost") 5%nat
  /\ has (u "audio_output_unit_cost") 6%nat.
Proof. split_and!; reflexivity. Qed.

Lemma tier_read m l i t : good_tier t -> group_of m l = vt_label t -> holds_body m i t ->
  tier_of_match m l i (vt_conditions t) = t.
Proof.
  intros G Hl (Hi & Ho & He). unfold tier_of_match. rewrite Hl, Hi, Ho.
  pose proof G as [_ _ [_ (-> & _)] [_ (-> & _)] Hc Hm].
  set (ex := omap _ (extra_matches m i)). pose proof (matches_fields m i) as Hn.
  assert (forall j f v n, map_get (extra_matches m i) f = Some (map_get m (i + 2 + j)%nat) ->
    extras t !! j = Some (v, n) -> or_zero (default S754_nan (map_get ex f)) = n) as Hx.
  { intros j f v n Hp Hj. subst ex. rewrite map_get_present, Hp by done. cbn [mbind option_bind]. rewrite (He j v n Hj).
    apply extra_value. rewrite Forall_forall in Hc. apply (Hc (v, n)). by eapply list_elem_of_lookup_2. }
  unfold normalizeVisualTier. cbn [pv_label pv_conditions pv_input pv_output pv_extra default from_option id].
  destruct (matches_get m i) as (M0 & M1 & M2 & M3 & M4 & M5 & M6).
  rewrite (Hx 0%nat _ _ _ M0 eq_refl), (Hx 1%nat _ _ _ M1 eq_refl), (Hx 2%nat _ _ _ M2 eq_refl),
    (Hx 3%nat _ _ _ M3 eq_refl), (Hx 4%nat _ _ _ M4 eq_refl), (Hx 5%nat _ _ _ M5 eq_refl), (Hx 6%nat _ _ _ M6 eq_refl).
  assert (getTierCacheMode (Some (mkPartialTier (Some (vt_label t)) (Some (vt_conditions t)) (Some (input_unit_cost t))
    (Some (output_unit_cost t)) None ex)) = cache_mode t) as ->; [|by destruct t].
  rewrite Hm. unfold getTierCacheMode. cbn [mbind option_bind pv_mode pv_extra].
  pose proof (Hx 2%nat _ _ _ M2 eq_refl) as E.
  destruct (default S754_nan (map_get ex (u "cache_create_1h_unit_cost"))) as [[|]|[|]| |[|] mm e] eqn:Ed; rewrite <- E; done.
Qed.

(** ** Conditions *)

(** Case analysis on an element of an explicit list. *)
Ltac members H :=
  repeat (apply elem_of_cons in H; destruct H as [H|H]; [try rewrite H|]); [..|by apply not_elem_of_nil in H].

Definition cond_number (c : TierConditionInput) : num :=
  match ti_value c with Some (VNum n) => n | _ => num_of_Z 0 end.

Definition cond_text (c : TierConditionInput) : jstr :=
  ti_var c ++ u " " ++ ti_op c ++ u " " ++ num_str (cond_number c).

Lemma good_cond_number c : good_cond c -> printable cond_char (cond_number c) /\ ti_value c = Some (VNum (cond_number c)).
Proof. intros (_ & _ & n & Hv & Hn). unfold cond_number. by rewrite Hv. Qed.

Lemma condition_str cs : Forall good_cond cs -> buildConditionStr cs = join (u " && ") (map cond_text cs).
Proof.
  intros H. unfold buildConditionStr. f_equal. induction H as [|c cs Hc H IH]; [done|]. cbn [omap list_omap map].
  destruct (good_cond_number c Hc) as [_ ->]. destruct Hc as (Hv & Ho & _). cbn [is_empty negb].
  assert (str_truthy (ti_var c) = true) as -> by (members Hv; done).
  assert (str_truthy (ti_op c) = true) as -> by (members Ho; done).
  cbn [andb]. by rewrite IH.
Qed.

(** A group or a sequence around an alternative is an alternative. *)
Definition splits (f : regex -> regex) : Prop := forall r1 r2 s cs A (k : jstr -> captures -> option A),
  rmatch (f (Alt r1 r2)) s cs k
  = match rmatch (f r1) s cs k with Some x => Some x | None => rmatch (f r2) s cs k end.

Lemma leads_op f op t b cs cs' : splits f -> op ∈ cond_ops ->
  (forall o s, startsWith s o = false -> stuck (f (Lit o)) s cs) ->
  (forall o s, stuck (f (Lit o)) (o ++ 61%N :: s) cs) ->
  leads (f (Lit op)) (op ++ 32%N :: t) b cs cs' -> leads (f cond_op) (op ++ 32%N :: t) b cs cs'.
Proof.
  intros Hf Hop Hs He H.
  assert (cond_op = Alt (Lit (u "<")) (Alt (Lit (u "<=")) (Alt (Lit (u ">")) (Lit (u ">="))))) as -> by done.
  intros A k x Hk. specialize (H A k x Hk). rewrite !Hf.
  members Hop; rewrite Hop in H.
  - by rewrite H.
  - assert (rmatch (f (Lit (u "<"))) ((u "<=" ++ 32%N :: t) ++ b) cs k = None) as -> by apply (He (u "<")).
    by rewrite H.
  - rewrite (Hs (u "<")), (Hs (u "<=")) by done. by rewrite H.
  - rewrite (Hs (u "<")), (Hs (u "<=")) by done.
    assert (rmatch (f (Lit (u ">"))) ((u ">=" ++ 32%N :: t) ++ b) cs k = None) as -> by apply (He (u ">")). done.
Qed.

Lemma leads_var v b cs : v ∈ cond_vars -> leads cond_var v b cs cs.
Proof.
  intros Hv. members Hv.
  - apply leads_left, leads_lit.
  - apply leads_right; [by apply stuck_lit|]. apply leads_left, leads_lit.
  - apply leads_right; [by apply stuck_lit|]. apply leads_right; [by apply stuck_lit|]. apply leads_lit.
Qed.

Lemma cond_char_not_space c : cond_char c = true -> is_space c = false.
Proof.
  intros H. apply num_char_not_space. unfold cond_char, num_char in *. apply orb_true_iff in H as [->|H]; [done|].
  apply orb_true_iff. right. unfold one_of in *. apply bool_decide_eq_true_1 in H. apply bool_decide_eq_true_2.
  members H; by apply (bool_decide_unpack _).
Qed.

Lemma stuck_plus p c s cs : p c = false -> stuck (Plus (Cls p)) (c :: s) cs.
Proof. intros H. apply stuck_seq. intros A k. cbn. by rewrite H. Qed.

Lemma stuck_grp i r s cs : stuck r s cs -> stuck (Grp i r) s cs.
Proof. intros H A k. apply H. Qed.

Lemma stuck_grp_after i p r s cs : (forall cs, stuck r s cs) -> stuck (Seq (Grp i (Lit p)) r) (p ++ s) cs.
Proof.
  intros H A k.
  change (rmatch (Lit p) (p ++ s) cs
    (fun s' cs' => rmatch r s' (map_set cs' i (take (length (p ++ s) - length s') (p ++ s))) k) = None).
  rewrite rmatch_lit. apply H.
Qed.

(** The end of a condition, with and without groups. *)
Lemma leads_bound n b cs : printable cond_char n -> ends cond_char b ->
  leads (seqs [spaces; Plus (Cls cond_char)]) (32%N :: num_str n) b cs cs.
Proof.
  intros Hn Hb. apply (leads_cons _ _ _ [32%N] (num_str n) _ _ cs);
    [apply leads_space; eapply printable_ends; [apply cond_char_not_space|done]|].
  destruct Hn as (_ & Hne & Hc). by apply leads_plus.
Qed.

Lemma leads_bound_grp i n b cs : printable cond_char n -> ends cond_char b ->
  leads (seqs [spaces; Grp i (Plus (Cls cond_char))]) (32%N :: num_str n) b cs (map_set cs i (num_str n)).
Proof.
  intros Hn Hb. apply (leads_cons _ _ _ [32%N] (num_str n) _ _ cs);
    [apply leads_space; eapply printable_ends; [apply cond_char_not_space|done]|].
  destruct Hn as (_ & Hne & Hc). by apply leads_grp, leads_plus.
Qed.

Lemma op_not_space op : op ∈ cond_ops -> forall s, ends is_space (op ++ s).
Proof. intros H s. by members H. Qed.

Lemma leads_cond c b cs : good_cond c -> ends cond_char b -> leads cond_pattern (cond_text c) b cs cs.
Proof.
  intros Hc Hb. destruct (good_cond_number c Hc) as [Hn _]. destruct Hc as (Hv & Ho & _).
  eapply leads_cons; [by apply leads_var|]. eapply leads_cons; [apply leads_space; rewrite <- app_assoc; by apply op_not_space|].
  apply (leads_op (fun r => Seq r (seqs [spaces; Plus (Cls cond_char)]))); [done|done| | |].
  - intros o s Hs. by apply stuck_seq, stuck_lit.
  - intros o s. apply stuck_after. apply stuck_no_space; [done|]. by apply stuck_plus.
  - eapply leads_seq; [apply leads_lit|]. by apply leads_bound.
Qed.

Lemma cond_groups c : good_cond c ->
  rexec cond_exact (cond_text c)
  = Some [(1%nat, ti_var c); (2%nat, ti_op c); (3%nat, num_str (cond_number c))].
Proof.
  intros Hc. destruct (good_cond_number c Hc) as [Hn _]. destruct Hc as (Hv & Ho & _). apply leads_exec.
  eapply leads_cons; [by apply leads_grp, leads_var|].
  eapply leads_cons; [apply leads_space; rewrite <- app_assoc; by apply op_not_space|].
  apply (leads_op (fun r => Seq (Grp 2 r) (seqs [spaces; Grp 3 (Plus (Cls cond_char))]))); [done|done| | |].
  - intros o s Hs. by apply stuck_seq, stuck_grp, stuck_lit.
  - intros o s. apply stuck_grp_after. intros cs. apply stuck_no_space; [done|]. by apply stuck_grp, stuck_plus.
  - eapply leads_seq; [apply leads_grp, leads_lit|]. by apply (leads_bound_grp 3).
Qed.

(** Text the search for a conjunction passes over: single spaces between characters
    that are neither spaces nor ampersands. *)
Definition firm (c : N) : Prop := is_space c = false /\ c <> 38%N.

Fixpoint tidy (s : jstr) : Prop :=
  match s with
  | [] => True
  | c :: s' => (firm c \/ (c = 32%N /\ match s' with d :: _ => firm d | [] => False end)) /\ tidy s'
  end.

Lemma tidy_word w s : Forall firm w -> tidy s -> tidy (w ++ s).
Proof. induction 1; intros Hs; [done|]. split; [by left|]. by apply IHForall. Qed.

Lemma tidy_space w s : w <> [] -> Forall firm w -> tidy s -> tidy (32%N :: w ++ s).
Proof.
  intros Hne Hw Hs. split; [|by apply tidy_word]. right. split; [done|]. destruct Hw; [done|]. done.
Qed.

Lemma cond_char_firm c : cond_char c = true -> firm c.
Proof. intros H. split; [by apply cond_char_not_space|]. by intros ->. Qed.

Lemma firm_text s : forallb (fun c => negb (is_space c) && negb (c =? 38)%N) s = true -> Forall firm s.
Proof.
  rewrite forallb_forall. intros H. apply Forall_forall. intros c Hc. apply list_elem_of_In, H, andb_true_iff in Hc as [H1 H2].
  apply negb_true_iff in H1. split; [done|]. by apply negb_true_iff, N.eqb_neq in H2.
Qed.

Lemma cond_tidy c : good_cond c -> tidy (cond_text c).
Proof.
  intros Hc. destruct (good_cond_number c Hc) as [(_ & Hne & Hn) _]. destruct Hc as (Hv & Ho & _).
  apply tidy_word; [apply firm_text; by members Hv|].
  apply (tidy_space (ti_op c) (32%N :: num_str (cond_number c)));
    [by members Ho|apply firm_text; by members Ho|].
  rewrite <- (app_nil_r (num_str (cond_number c))). apply tidy_space; [done| |done].
  eapply Forall_impl; [exact Hn|]. apply cond_char_firm.
Qed.

Lemma stuck_amp c s cs : c <> 38%N -> stuck (seqs [Lit (u "&&"); spaces]) (c :: s) cs.
Proof.
  intros Hc. apply stuck_seq, stuck_lit. change (u "&&") with [38%N; 38%N]. cbn [startsWith].
  by rewrite (proj2 (N.eqb_neq c 38)).
Qed.

Lemma stuck_and c s : tidy (c :: s) -> forall b cs, stuck and_pattern (c :: s ++ b) cs.
Proof.
  intros [[[H1 H2]|[-> H]] _] b cs.
  - apply stuck_no_space; [done|]. by apply stuck_amp.
  - destruct s as [|d s]; [done|]. destruct H as [H1 H2].
    apply stuck_space; [done|by apply stuck_amp|by apply stuck_amp].
Qed.

Lemma tidy_suffix a s : tidy (a ++ s) -> tidy s.
Proof. induction a; [done|]. intros [_ H]. by apply IHa. Qed.

Lemma and_stuck_nil cs : stuck and_pattern [] cs.
Proof. intros A k. reflexivity. Qed.

Lemma leads_and b cs : ends is_space b -> leads and_pattern (u " && ") b cs cs.
Proof.
  intros Hb. apply (leads_cons _ _ _ [32%N] (u "&& ") _ _ cs); [by apply leads_space|].
  apply (leads_cons _ _ _ (u "&&") [32%N] _ _ cs); [apply leads_lit|]. by apply leads_space.
Qed.

Lemma split_ands texts : texts <> [] -> Forall (fun t => tidy t /\ t <> [] /\ ends is_space t) texts ->
  forall fuel prev, (length (join (u " && ") texts) < fuel)%nat ->
  (let '(ms, tail) := search fuel (fun _ => true) and_pattern prev [] (join (u " && ") texts) in map fst ms ++ [tail])
  = texts.
Proof.
  induction texts as [|t texts IH]; intros Hne H fuel prev Hf; [done|].
  inversion_clear H as [|? ? (Ht & Htn & Hts) H'].
  assert (forall b a1 c a2, t = a1 ++ c :: a2 -> stuck and_pattern (c :: a2 ++ b) []) as Hskip.
  { intros b a1 c a2 ->. apply stuck_and. by eapply tidy_suffix. }
  destruct texts as [|t2 texts].
  - cbn [join] in *. replace fuel with (length t + S (fuel - length t - 1))%nat by lia.
    pose proof (search_skip (fun _ => true) and_pattern t (S (fuel - length t - 1)) prev [] [] (Hskip [])) as E.
    rewrite app_nil_r in E. rewrite E. by rewrite search_end by apply and_stuck_nil.
  - set (rest := t2 :: texts) in *. change (join (u " && ") (t :: rest)) with (t ++ u " && " ++ join (u " && ") rest) in *.
    rewrite !length_app in Hf. change (length (u " && ")) with 4%nat in Hf.
    replace fuel with (length t + S (fuel - length t - 1))%nat by lia.
    rewrite search_skip by apply Hskip.
    rewrite (search_match _ _ (u " && ") _ _ _ (join (u " && ") rest) []); [|done|].
    + specialize (IH ltac:(done) H' (fuel - length t - 1)%nat (last (u " && ")) ltac:(lia)).
      destruct (search _ _ _ _ _ (join (u " && ") rest)) as [ms tail]. cbn [map fst app] in *. by rewrite IH.
    + apply leads_and. inversion_clear H' as [|? ? (_ & Hn2 & Hs2) _]. destruct t2; [done|]. by destruct texts.
Qed.

Lemma cond_text_shape c : good_cond c -> tidy (cond_text c) /\ cond_text c <> [] /\ ends is_space (cond_text c).
Proof.
  intros Hc. split; [by apply cond_tidy|]. destruct Hc as (Hv & _ & _). unfold cond_text. by members Hv.
Qed.

Lemma cond_trim c : good_cond c -> trim (cond_text c) = cond_text c.
Proof.
  intros Hc. destruct (cond_text_shape c Hc) as (_ & Hne & Hs). destruct (good_cond_number c Hc) as [(_ & Hn & Hch) _].
  destruct (last_Forall (fun c => is_space c = false) (num_str (cond_number c))) as (y & Hy & Hys); [done| |].
  { eapply Forall_impl; [exact Hch|]. apply cond_char_not_space. }
  destruct (cond_text c) as [|x l] eqn:E; [done|]. apply (trim_ends _ x y); [done| |done|done].
  rewrite <- E. unfold cond_text. rewrite !last_app, Hy. done.
Qed.

Definition page_cond (c : TierConditionInput) : TierCondition := mkCond (ti_var c) (ti_op c) (cond_number c).

Lemma parse_conds cs : Forall good_cond cs -> parse_conditions (buildConditionStr cs) = map page_cond cs.
Proof.
  intros H. rewrite condition_str by done. destruct cs as [|c cs]; [done|]. unfold parse_conditions.
  assert (str_truthy (join (u " && ") (map cond_text (c :: cs))) = true) as ->.
  { inversion_clear H as [|? ? Hc _]. destruct (cond_text_shape c Hc) as (_ & Hne & _). cbn [map].
    rewrite join_extra. by destruct (cond_text c). }
  assert (split_regex and_pattern (join (u " && ") (map cond_text (c :: cs))) = map cond_text (c :: cs)) as ->.
  { apply split_ands; [done| |lia]. apply Forall_fmap. eapply Forall_impl; [exact H|]. apply cond_text_shape. }
  induction H as [|d ds Hd H IH]; [done|]. cbn [map omap list_omap].
  rewrite cond_trim, cond_groups by done. cbn [mbind option_bind]. f_equal; [|exact IH].
  destruct (good_cond_number d Hd) as [(Hr & _) _].
  change (mkCond (ti_var d) (ti_op d) (Number_text (num_str (cond_number d))) = page_cond d). by rewrite Hr.
Qed.

(** ** Tiers *)

Definition cond_part (t : VisualTier) : jstr :=
  match vt_conditions t with [] => [] | _ => buildConditionStr (vt_conditions t) ++ u " ? " end.

Definition part_text (t : VisualTier) : jstr := cond_part t ++ tier_text (vt_label t) t.

(** The captures before the prices. *)
Definition head_caps (t : VisualTier) : captures :=
  map_set (match vt_conditions t with [] => [] | _ => [(1%nat, buildConditionStr (vt_conditions t))] end) 2%nat (vt_label t).

Lemma stuck_condition c s cs : one_of (u "pcl") c = false -> stuck cond_pattern (c :: s) cs.
Proof.
  intros H. apply stuck_seq. apply bool_decide_eq_false_1 in H.
  assert (forall v, v ∈ cond_vars -> startsWith (c :: s) v = false) as Hv.
  { intros v Hv. destruct (startsWith (c :: s) v) eqn:E; [|done]. apply startsWith_app in E as [q E].
    exfalso. apply H. members Hv; rewrite Hv in E; injection E as -> _; by apply (bool_decide_unpack _). }
  intros A k. cbn [cond_var alts map rmatch]. rewrite !Hv by (by apply (bool_decide_unpack _)). done.
Qed.

Lemma leads_conditions cs b : cs <> [] -> Forall good_cond cs ->
  leads condGroup (buildConditionStr cs) (u " ? " ++ b) [] [(1%nat, buildConditionStr cs)].
Proof.
  intros Hne H. rewrite condition_str by done. apply (leads_grp 1 _ _ _ [] []). destruct cs as [|c cs]; [done|].
  inversion_clear H as [|? ? Hc H']. cbn [map]. rewrite join_extra.
  assert (forall l, ends cond_char (concat (map (app (u " && ")) (map cond_text l)) ++ u " ? " ++ b)) as He by (by intros [|??]).
  eapply leads_seq; [by apply leads_cond|]. apply leads_star.
  - apply stuck_seq. apply stuck_space; [done|by apply stuck_amp|by apply stuck_amp].
  - apply Forall_fmap, Forall_fmap, Forall_true. done.
  - intros pre a post E. rewrite map_map in E.
    apply fmap_app_inv in E as (pre' & rest & _ & E & ->). destruct rest as [|d rest]; [done|].
    assert (a = u " && " ++ cond_text d /\ post = map (fun x => u " && " ++ cond_text x) rest) as [-> ->]
      by (injection E; done).
    apply Forall_app in H' as [_ H']. inversion_clear H' as [|? ? Hd _].
    eapply leads_seq; [|apply leads_cond; [done|]].
    + apply leads_and. destruct (cond_text_shape d Hd) as (_ & Hn & Hs). by destruct (cond_text d).
    + rewrite <- (map_map cond_text (app (u " && "))). apply He.
Qed.

Lemma leads_part bodyr t b cs : good_tier t ->
  leads bodyr (buildTierBodyExpr t) (u ")" ++ b) (head_caps t) cs ->
  leads (tier_pattern bodyr) (part_text t) b [] cs.
Proof.
  intros H Hb. pose proof H as [[Hl Hq] Hc _ _ _ _]. unfold part_text, tier_pattern.
  assert (leads (Opt (seqs [condGroup; spaces; Lit (u "?"); spaces])) (cond_part t) (tier_text (vt_label t) t ++ b) []
    (match vt_conditions t with [] => [] | _ => [(1%nat, buildConditionStr (vt_conditions t))] end)) as H1.
  { unfold cond_part. destruct (vt_conditions t) as [|c cs'] eqn:E.
    - apply leads_opt_none. apply stuck_seq, stuck_grp, stuck_seq. by apply stuck_condition.
    - apply leads_left. eapply leads_cons; [by apply leads_conditions|].
      apply (leads_cons _ _ _ [32%N] (u "? ") _ _ [(1%nat, buildConditionStr (c :: cs'))]); [by apply leads_space|].
      apply (leads_cons _ _ _ (u "?") [32%N] _ _ [(1%nat, buildConditionStr (c :: cs'))]); [apply leads_lit|].
      by apply leads_space. }
  eapply leads_cons; [exact H1|]. unfold tier_text.
  eapply leads_cons; [apply leads_lit|]. eapply leads_cons; [apply leads_grp, leads_run; [done|done]|].
  change (uq "', ") with (uq "'," ++ [32%N]). rewrite <- app_assoc.
  eapply leads_cons; [apply leads_lit|]. eapply leads_cons; [|eapply leads_cons; [exact Hb|apply leads_lit]].
  apply leads_space. rewrite body_expr by done. done.
Qed.

(** ** Searching for tiers *)

Lemma stuck_tier bodyr c s cs : one_of (u "pclt") c = false -> stuck (tier_pattern bodyr) (c :: s) cs.
Proof.
  intros H. apply stuck_opt; [apply stuck_seq, stuck_grp, stuck_seq, stuck_condition|apply stuck_seq, stuck_lit].
  - apply bool_decide_eq_false_2. intros Hc. apply bool_decide_eq_false_1 in H. apply H.
    change (u "pcl") with [112%N; 99%N; 108%N] in Hc. members Hc; by apply (bool_decide_unpack _).
  - change (uq "tier('") with (116%N :: drop 1 (uq "tier('")). cbn [startsWith].
    rewrite (proj2 (N.eqb_neq c 116)); [done|]. intros ->. by vm_compute in H.
Qed.

Lemma part_not_empty t : good_tier t -> exists c s, part_text t = c :: s.
Proof.
  intros H. destruct (part_text t) as [|c s] eqn:E; [|by exists c, s].
  apply (f_equal length) in E. unfold part_text, tier_text in E. rewrite !length_app in E.
  change (length (uq "tier('")) with 6%nat in E. change (length []) with 0%nat in E. lia.
Qed.

Definition separator : jstr := u " : ".

(** Every part is found, and nothing between the parts. *)
Lemma search_parts bodyr (parts : list (VisualTier * captures)) :
  Forall (fun p => good_tier (fst p) /\ forall b, leads (tier_pattern bodyr) (part_text (fst p)) b [] (snd p)) parts ->
  parts <> [] -> forall fuel prev tail,
  (length (join separator (map (fun p => part_text (fst p)) parts) ++ tail) < fuel)%nat ->
  (forall a1 c a2, tail = a1 ++ c :: a2 -> stuck (tier_pattern bodyr) (c :: a2) []) ->
  forall before, map snd (fst (search fuel (fun _ => true) (tier_pattern bodyr) prev before
    (join separator (map (fun p => part_text (fst p)) parts) ++ tail))) = map snd parts.
Proof.
  induction 1 as [|[t cs] parts [Hg Hl] H IH]; intros Hne fuel prev tail Hf Ht before; [done|]. cbn [fst snd] in *.
  assert (1 <= length (part_text t))%nat as Hp by (destruct (part_not_empty t Hg) as (c & s & ->); simpl; lia).
  destruct parts as [|p parts].
  - cbn [map join fst] in *. destruct fuel as [|fuel]; [lia|]. rewrite (search_match _ _ _ _ _ _ _ cs) by done.
    rewrite length_app in Hf.
    pose proof (search_skip (fun _ => true) (tier_pattern bodyr) tail (S (fuel - length tail - 1)) (last (part_text t)) [] []) as E.
    rewrite app_nil_r in E. replace (length tail + S (fuel - length tail - 1))%nat with fuel in E by lia.
    rewrite E, search_end; [done|by intros A k|]. intros a1 d a2 Ed. rewrite app_nil_r. by eapply Ht.
  - set (rest := p :: parts) in *.
    change (join separator (map (fun p => part_text (fst p)) ((t, cs) :: rest)))
      with (part_text t ++ separator ++ join separator (map (fun p => part_text (fst p)) rest)) in *.
    rewrite <- !app_assoc in *. rewrite !length_app in Hf. change (length separator) with 3%nat in Hf.
    destruct fuel as [|fuel]; [lia|]. rewrite (search_match _ _ _ _ _ _ _ cs) by done.
    replace fuel with (length separator + (fuel - 3))%nat by (change (length separator) with 3%nat; lia).
    rewrite search_skip.
    2:{ intros a1 d a2 Ed. apply stuck_tier. assert (d ∈ separator) as Hd by (rewrite Ed; apply elem_of_app; right; by left).
        change separator with [32%N; 58%N; 32%N] in Hd. members Hd; by vm_compute. }
    specialize (IH ltac:(done) (fuel - 3)%nat (match last separator with Some c => Some c | None => last (part_text t) end)
      tail ltac:(rewrite length_app; lia) Ht ([] ++ separator)).
    destruct (search _ _ _ _ _ _) as [ms rest_tail]. cbn [map snd fst] in *. by rewrite IH.
Qed.

(** ** What the editor writes *)

Definition tail_text (tiers : list VisualTier) : jstr :=
  match tiers with
  | [t] => match vt_conditions t with [] => [] | _ => separator ++ EMPTY_PRICE end
  | _ => []
  end.

Lemma cond_truthy cs : Forall good_cond cs -> str_truthy (buildConditionStr cs) = match cs with [] => false | _ => true end.
Proof.
  intros H. rewrite condition_str by done. destruct H as [|c cs Hc H]; [done|]. cbn [map]. rewrite join_extra.
  destruct (cond_text_shape c Hc) as (_ & Hne & _). by destruct (cond_text c).
Qed.

Lemma label_kept l d : l <> [] -> str_or l d = l.
Proof. by destruct l. Qed.

Lemma parts_text tiers : Forall good_tier tiers -> chained tiers -> forall i, tier_parts i tiers = map part_text tiers.
Proof.
  induction 1 as [|t tiers Hg H IH]; intros Hc i; [done|]. pose proof Hg as [[Hl _] Hcs _ _ _ _].
  cbn [tier_parts map]. rewrite label_kept, cond_truthy by done. unfold part_text at 1, cond_part.
  destruct tiers as [|t2 tiers].
  - cbn [chained] in Hc. by rewrite Hc.
  - destruct Hc as [Hne Hc]. rewrite IH by done. destruct (vt_conditions t) as [|c cs] eqn:E; [done|].
    cbn [length Nat.ltb Nat.leb andb]. f_equal. by rewrite <- app_assoc.
Qed.

Lemma generate_text tiers : good_config tiers ->
  generateExprFromVisualConfig (Some tiers) = join separator (map part_text tiers) ++ tail_text tiers.
Proof.
  intros [H Hc]. destruct tiers as [|t [|t2 tiers]].
  - by destruct Hc as [Hc|Hc].
  - inversion_clear H as [|? ? Hg _]. pose proof Hg as [[Hl _] Hcs _ _ _ _].
    cbn [generateExprFromVisualConfig map join tail_text]. rewrite label_kept, cond_truthy by done.
    unfold part_text, cond_part. destruct (vt_conditions t); [by rewrite app_nil_r|].
    rewrite <- !app_assoc. done.
  - destruct Hc as [Hc|Hc]; [|done].
    change (join (u " : ") (tier_parts 1 (t :: t2 :: tiers)) = join separator (map part_text (t :: t2 :: tiers)) ++ []).
    by rewrite app_nil_r, parts_text.
Qed.

Fixpoint all_suffixes (P : jstr -> Prop) (s : jstr) : Prop :=
  match s with [] => True | _ :: s' => P s /\ all_suffixes P s' end.

Lemma all_suffixes_use P s a1 c a2 : all_suffixes P s -> s = a1 ++ c :: a2 -> P (c :: a2).
Proof.
  revert s. induction a1 as [|x a1 IH]; intros s H ->; [apply H|]. destruct H as [_ H]. by apply (IH _ H).
Qed.

(** No tier in the price of the rest. *)
Lemma tail_stuck bodyr tiers : forall a1 c a2, tail_text tiers = a1 ++ c :: a2 -> stuck (tier_pattern bodyr) (c :: a2) [].
Proof.
  assert (all_suffixes (fun s => stuck (tier_pattern bodyr) s []) (separator ++ EMPTY_PRICE)) as H.
  { cbn [app separator EMPTY_PRICE]. cbn [all_suffixes u String.length]. 
    repeat (split; [first [by apply stuck_tier
      | apply stuck_opt; [intros A k; reflexivity|by apply stuck_seq, stuck_lit]]|]). done. }
  intros a1 c a2 E. unfold tail_text in E. destruct tiers as [|t [|??]]; [by destruct a1| |by destruct a1].
  destruct (vt_conditions t); [by destruct a1|]. by eapply (all_suffixes_use _ _ _ _ _ H).
Qed.

(** ** Captures *)

Lemma body_caps_get i t cs j : (j < i)%nat -> map_get (body_caps i t cs) j = map_get cs j.
Proof.
  intros H. unfold body_caps. rewrite caps_get, (proj2 (Nat.leb_gt (i + 2) j)) by lia.
  rewrite !map_get_set_ne by lia. done.
Qed.

Lemma body_holds i t cs : (forall j, (i <= j)%nat -> map_get cs j = None) -> holds_body (body_caps i t cs) i t.
Proof.
  intros H. unfold holds_body, group_of, body_caps. split_and!.
  - rewrite caps_get, (proj2 (Nat.leb_gt (i + 2) i)) by lia. rewrite map_get_set_ne, map_get_set_eq by lia. done.
  - rewrite caps_get, (proj2 (Nat.leb_gt (i + 2) (i + 1))) by lia. by rewrite map_get_set_eq.
  - intros j v n Hj. rewrite caps_get, (proj2 (Nat.leb_le _ _)) by lia.
    replace (i + 2 + j - (i + 2))%nat with j by lia. rewrite Hj. destruct (num_eqb n (num_of_Z 0)); [|done].
    rewrite !map_get_set_ne by lia. apply H. lia.
Qed.

(** A tier of the table is its own normal form. *)
Lemma normalize_good t : good_tier t -> normalizeVisualTier (as_partial_tier t) = t.
Proof.
  intros [_ _ _ _ He _]. unfold extras in He. rewrite !Forall_cons in He.
  destruct He as ((H0 & _) & (H1 & _) & (H2 & _) & (H3 & _) & (H4 & _) & (H5 & _) & (H6 & _) & _). cbn [snd] in *.
  destruct t as [l cs i o m c0 c1 c2 c3 c4 c5 c6].
  change (mkTier l cs i o m (or_zero c0) (or_zero c1) (or_zero c2) (or_zero c3) (or_zero c4) (or_zero c5) (or_zero c6)
    = mkTier l cs i o m c0 c1 c2 c3 c4 c5 c6). cbn in H0, H1, H2, H3, H4, H5, H6. congruence.
Qed.

Lemma normalize_config tiers : tiers <> [] -> Forall good_tier tiers -> normalizeVisualConfig (Some tiers) = tiers.
Proof.
  intros Hne H. assert (map (fun tier => normalizeVisualTier (as_partial_tier tier)) tiers = tiers) as E.
  { clear Hne. induction H as [|t tiers Ht H IH]; [done|]. cbn [map]. by rewrite normalize_good, IH. }
  unfold normalizeVisualConfig. by destruct tiers.
Qed.

Lemma head_caps_get t : good_tier t ->
  group_of (head_caps t) 1 = buildConditionStr (vt_conditions t) /\ group_of (head_caps t) 2 = vt_label t
  /\ forall j, (3 <= j)%nat -> map_get (head_caps t) j = None.
Proof.
  intros _. unfold head_caps, group_of. split_and!.
  - by destruct (vt_conditions t).
  - by rewrite map_get_set_eq.
  - intros j Hj. rewrite map_get_set_ne by lia. destruct (vt_conditions t); [done|]. cbn [map_get].
    by rewrite bool_decide_eq_false_2 by lia.
Qed.

Lemma good_nonempty tiers : good_config tiers -> tiers <> [].
Proof. by intros [_ [H|H]] ->. Qed.

(** What a search finds in the text of a configuration. *)
Lemma exec_tiers bodyr (f : VisualTier -> captures) tiers : good_config tiers ->
  (forall t b, good_tier t -> leads bodyr (buildTierBodyExpr t) (u ")" ++ b) (head_caps t) (f t)) ->
  exec_all (fun _ => true) (tier_pattern bodyr) (generateExprFromVisualConfig (Some tiers)) = map f tiers.
Proof.
  intros G Hb. rewrite generate_text by done. unfold exec_all.
  pose proof (search_parts bodyr (map (fun t => (t, f t)) tiers)) as S. rewrite !map_map in S. cbn [fst snd] in S.
  apply S; [|by destruct tiers; [apply good_nonempty in G|]|apply Nat.lt_succ_diag_r|apply tail_stuck].
  apply Forall_fmap. eapply Forall_impl; [apply (proj1 G)|]. intros t Ht. split; [done|]. intros b. by apply leads_part, Hb.
Qed.

Lemma generate_head tiers : good_config tiers ->
  exists c s, generateExprFromVisualConfig (Some tiers) = c :: s /\ one_of (u "pclt") c = true
    /\ (c = 116%N -> exists t, tiers = [t] /\ vt_conditions t = []).
Proof.
  intros G. rewrite generate_text by done. pose proof G as [H Hc]. destruct tiers as [|t tiers]; [by destruct Hc|].
  inversion_clear H as [|? ? Hg _]. pose proof Hg as [_ Hcs _ _ _ _]. cbn [map]. rewrite join_extra. unfold part_text, cond_part.
  destruct (vt_conditions t) as [|c cs] eqn:E.
  - eexists 116%N, _. split; [done|]. split; [done|]. intros _. exists t. destruct tiers; [done|].
    destruct Hc as [[Hc _]|Hc]; done.
  - rewrite condition_str by done. cbn [map]. rewrite join_extra. unfold cond_text at 1.
    inversion_clear Hcs as [|? ? (Hv & _) _].
    assert (exists x y, ti_var c = x :: y /\ one_of (u "pclt") x = true /\ x <> 116%N) as (x & y & -> & Hx & Hne)
      by (members Hv; by eexists _, _).
    eexists x, _. split; [by rewrite <- !app_assoc|]. split; [done|]. done.
Qed.

Lemma stuck_rexec r s : stuck r s [] -> rexec r s = None.
Proof. intros H. unfold rexec. cbn [rmatch]. apply H. Qed.

Lemma no_version c s : one_of (u "pclt") c = true -> rexec version_pattern (c :: s) = None.
Proof.
  intros H. apply stuck_rexec, stuck_seq, stuck_lit. change (u "v") with [118%N]. cbn [startsWith].
  rewrite (proj2 (N.eqb_neq c 118)); [done|]. intros ->. by vm_compute in H.
Qed.

Lemma single_match t : good_tier t -> vt_conditions t = [] ->
  rexec singleRe (tier_text (vt_label t) t) = Some (body_caps 2 t [(1%nat, vt_label t)]).
Proof.
  intros Hg Hc. pose proof Hg as [[Hl Hq] _ _ _ _ _]. apply leads_exec. unfold tier_text, singleRe.
  rewrite body_expr by done. eapply leads_cons; [apply leads_lit|].
  eapply leads_cons; [apply (leads_grp 1 _ _ _ [] []), leads_run; [done|done]|].
  change (uq "', ") with (uq "'," ++ [32%N]). rewrite <- app_assoc.
  eapply leads_cons; [apply leads_lit|]. eapply leads_cons; [by apply leads_space|].
  rewrite bodyPat_2. eapply leads_cons; [by apply (leads_body 2 t [])|]. apply leads_lit.
Qed.

Lemma tiers_read_back (tiers : list VisualTier) :
  good_config tiers -> tryParseVisualConfig (generateExprFromVisualConfig (Some tiers)) = Some tiers.
Proof.
  intros G. pose proof (good_nonempty _ G) as Hne. destruct (generate_head tiers G) as (c & s & E & Hc & Ht).
  unfold tryParseVisualConfig. rewrite E. cbn [str_truthy negb]. rewrite no_version by done.
  destruct (decide (c = 116%N)) as [->|Hn].
  - destruct (Ht eq_refl) as (t & -> & Hcs). pose proof G as [Hg _]. apply Forall_cons in Hg as [Hg _].
    assert (116%N :: s = tier_text (vt_label t) t) as Es.
    { rewrite <- E, generate_text by done. cbn [map join tail_text]. unfold part_text, cond_part. rewrite Hcs. apply app_nil_r. }
    rewrite Es, single_match by done. f_equal. rewrite <- Hcs at 1. rewrite (tier_read _ 1 2 t).
    + apply normalize_config; [done|]. by constructor.
    + done.
    + unfold group_of. by rewrite body_caps_get by lia.
    + apply body_holds. intros j Hj. cbn [map_get]. by rewrite bool_decide_eq_false_2 by lia.
  - rewrite stuck_rexec.
    2:{ apply stuck_seq, stuck_lit. change (uq "tier('") with (116%N :: drop 1 (uq "tier('")). cbn [startsWith].
        by rewrite (proj2 (N.eqb_neq c 116)). }
    rewrite <- E, (exec_tiers (bodyPat 3) (fun t => body_caps 3 t (head_caps t))); [|done|].
    2:{ intros t b Hg. rewrite bodyPat_3, body_expr by done. by apply leads_body. }
    rewrite map_map. assert (map (fun t => tier_of_match (body_caps 3 t (head_caps t)) 2 3
        (map input_condition (parse_conditions (group_of (body_caps 3 t (head_caps t)) 1)))) tiers = tiers) as ->.
    { destruct G as [Hg _]. clear -Hg. induction Hg as [|t tiers Hg H IH]; [done|]. cbn [map]. rewrite IH. f_equal.
      destruct (head_caps_get t Hg) as (H1 & H2 & H3). pose proof Hg as [_ Hcs _ _ _ _].
      unfold group_of at 1. rewrite body_caps_get by lia. fold (group_of (head_caps t) 1). rewrite H1, parse_conds by done.
      assert (map input_condition (map page_cond (vt_conditions t)) = vt_conditions t) as ->.
      { clear -Hcs. induction Hcs as [|c cs Hc Hcs IH]; [done|]. cbn [map]. rewrite IH. f_equal.
        destruct (good_cond_number c Hc) as [_ Hv]. destruct c. cbn in *. unfold input_condition. cbn. by rewrite Hv. }
      apply tier_read; [done| |by apply body_holds]. unfold group_of. by rewrite body_caps_get by lia. }
    destruct tiers as [|t tiers]; [done|]. rewrite (normalize_config (t :: tiers)) by (done || apply G).
    by rewrite seqb_refl.
Qed.

(** C39: The editor reads back what it writes, for tables of this kind: every label is
    nonempty and has no quote; of several tiers each but the last has a condition and the
    last has none; conditions compare p, c or len with a number that prints in digits,
    points, exponents and plus signs (no minus sign, so neither -5 nor 1e-7) and reads back;
    prices are numbers other than NaN that print so that they read back; the cache mode is
    the timed one exactly when the price of the one-hour cache is positive. For such a table
    parsing the generated expression gives exactly that table. *)
Theorem tiers_roundtrip (tiers : list VisualTier) :
  good_config tiers -> tryParseVisualConfig (generateExprFromVisualConfig (Some tiers)) = Some tiers.
Proof. apply tiers_read_back. Qed.

(** ** The pricing page *)

Definition nonzero (p : jstr * num) : bool := negb (num_eqb (snd p) (num_of_Z 0)).

(** The terms of a price. *)
Definition terms (t : VisualTier) : list (jstr * num) :=
  (u "p", input_unit_cost t) :: (u "c", output_unit_cost t) :: List.filter nonzero (extras t).

Definition term_text (p : jstr * num) : jstr := fst p ++ u " * " ++ num_str (snd p).

Lemma extra_terms l : concat (map extra_text l) = concat (map (app (u " + ")) (map term_text (List.filter nonzero l))).
Proof.
  induction l as [|p l IH]; [done|]. cbn [map concat List.filter]. unfold extra_text at 1. unfold nonzero at 1.
  destruct (num_eqb (snd p) (num_of_Z 0)); cbn [negb]; [exact IH|]. cbn [map concat]. by rewrite IH.
Qed.

Lemma body_terms t : body_text t = join (u " + ") (map term_text (terms t)).
Proof.
  unfold body_text, terms. cbn [map]. rewrite join_extra. cbn [map concat]. rewrite <- extra_terms.
  unfold term_text. cbn [fst snd]. by rewrite <- !app_assoc.
Qed.

Definition price_vars : list jstr := map bv_key BILLING_PRICING_VARS.

Lemma leads_alts f zs v rest t b cs cs' : splits f -> Forall (fun z => stuck (f (Lit z)) (t ++ b) cs) zs ->
  leads (f (Lit v)) t b cs cs' -> leads (f (alts (map Lit (zs ++ v :: rest)))) t b cs cs'.
Proof.
  intros Hf Hz H A k x Hk. specialize (H A k x Hk). induction Hz as [|z zs Hz Hzs IH]; cbn [app map].
  - destruct rest as [|j rest]; [done|]. change (alts (Lit v :: map Lit (j :: rest))) with (Alt (Lit v) (alts (map Lit (j :: rest)))).
    by rewrite Hf, H.
  - destruct (zs ++ v :: rest) as [|y ys] eqn:E; [by destruct zs|].
    change (alts (Lit z :: map Lit (y :: ys))) with (Alt (Lit z) (alts (map Lit (y :: ys)))). by rewrite Hf, Hz.
Qed.

(** [z] is not taken for [v]. *)
Definition differs (z v : jstr) : Prop :=
  (forall s, startsWith (v ++ s) z = false) \/ (exists c w, v = z ++ c :: w /\ is_space c = false /\ c <> 42%N).

Lemma stuck_var z v s cs : differs z v -> stuck (Seq (Grp 1 (Lit z)) (times 2)) (v ++ s) cs.
Proof.
  intros [H|(c & w & -> & Hc & Hn)]; [by apply stuck_seq, stuck_grp, stuck_lit|].
  rewrite <- app_assoc. apply stuck_grp_after. intros cs'. by apply stuck_times.
Qed.

Lemma vars_differ : forall zs v rest, price_vars = zs ++ v :: rest -> Forall (fun z => differs z v) zs.
Proof.
  assert (ForallOrdPairs differs price_vars) as H.
  { unfold price_vars. cbn [BILLING_PRICING_VARS BILLING_VARS List.filter isConditionOnly negb map bv_key].
    repeat match goal with
    | |- ForallOrdPairs _ (_ :: _) => constructor
    | |- List.Forall _ (_ :: _) => constructor
    | |- ForallOrdPairs _ [] => constructor
    | |- List.Forall _ [] => constructor
    end; first [by left | right; by eexists _, _]. }
  revert H. generalize price_vars as l. intros l H zs v rest ->. apply Forall_forall. intros z Hz.
  apply list_elem_of_split in Hz as (a & b & ->). rewrite <- app_assoc in H. cbn [app] in H.
  induction a as [|x a IH]; inversion_clear H as [|? ? H1 H2]; [|by apply IH].
  rewrite List.Forall_forall in H1. apply H1. apply in_or_app. right. by left.
Qed.

Lemma leads_term v n b : v ∈ price_vars -> printable num_char n -> ends num_char b ->
  leads BILLING_VAR_REGEX (term_text (v, n)) b [] [(1%nat, v); (2%nat, num_str n)].
Proof.
  intros Hv Hn Hb. apply list_elem_of_split in Hv as (zs & rest & E). unfold BILLING_VAR_REGEX.
  rewrite <- (map_map bv_key Lit). fold price_vars. rewrite E.
  apply (leads_alts (fun r => Seq (Grp 1 r) (times 2))); [done| |].
  - eapply Forall_impl; [by apply (vars_differ zs v rest)|]. intros z Hz. unfold term_text. cbn [fst].
    rewrite <- app_assoc. by apply stuck_var.
  - eapply leads_seq; [apply (leads_grp 1 _ _ _ [] []), leads_lit|]. by apply (leads_times 2).
Qed.

Lemma stuck_billing c s cs : one_of (u "pcia") c = false -> stuck BILLING_VAR_REGEX (c :: s) cs.
Proof.
  intros H. apply stuck_seq, stuck_grp. intros A k. rewrite <- (map_map bv_key Lit). apply rmatch_alts_none.
  intros z Hz. destruct (startsWith (c :: s) z) eqn:E; [|done]. apply startsWith_app in E as [q E]. exfalso.
  apply bool_decide_eq_false_1 in H. apply H.
  assert (exists x y, z = x :: y /\ x ∈ u "pcia") as (x & y & -> & Hx).
  { change (map bv_key BILLING_PRICING_VARS)
      with [u "p"; u "c"; u "cr"; u "cc"; u "cc1h"; u "img"; u "img_o"; u "ai"; u "ao"] in Hz.
    members Hz; eexists _, _; (split; [reflexivity|by apply (bool_decide_unpack _)]). }
  by injection E as -> _.
Qed.

Definition term_caps (p : jstr * num) : captures := [(1%nat, fst p); (2%nat, num_str (snd p))].

Lemma search_terms ts : Forall (fun p => fst p ∈ price_vars /\ printable num_char (snd p)) ts -> ts <> [] ->
  forall fuel prev before, (length (join (u " + ") (map term_text ts)) < fuel)%nat -> word_start prev = true ->
  map snd (fst (search fuel word_start BILLING_VAR_REGEX prev before (join (u " + ") (map term_text ts)))) = map term_caps ts.
Proof.
  induction 1 as [|[v n] ts [Hv Hn] H IH]; intros Hne fuel prev before Hf Hp; [done|]. cbn [fst snd] in *.
  assert (1 <= length (term_text (v, n)))%nat as Hl.
  { unfold term_text. rewrite !length_app. change (length (u " * ")) with 3%nat. lia. }
  destruct fuel as [|fuel]; [lia|]. destruct ts as [|p ts].
  - cbn [map join] in *. rewrite <- (app_nil_r (term_text (v, n))).
    rewrite (search_match _ _ _ _ _ _ _ (term_caps (v, n))) by (done || by apply leads_term).
    destruct fuel as [|fuel]; [lia|]. rewrite search_end; [done|by intros A k].
  - set (rest := p :: ts) in *.
    change (join (u " + ") (map term_text ((v, n) :: rest))) with (term_text (v, n) ++ u " + " ++ join (u " + ") (map term_text rest)) in *.
    rewrite !length_app in Hf. change (length (u " + ")) with 3%nat in Hf.
    rewrite (search_match _ _ _ _ _ _ _ (term_caps (v, n))) by (done || by apply leads_term).
    replace fuel with (length (u " + ") + (fuel - 3))%nat by (change (length (u " + ")) with 3%nat; lia).
    rewrite search_skip.
    2:{ intros a1 d a2 Ed. apply stuck_billing. assert (d ∈ u " + ") as Hd by (rewrite Ed; apply elem_of_app; right; by left).
        change (u " + ") with [32%N; 43%N; 32%N] in Hd. members Hd; by vm_compute. }
    specialize (IH ltac:(done) (fuel - 3)%nat (Some 32%N) ([] ++ u " + ") ltac:(lia) eq_refl).
    change (match last (u " + ") with Some c => Some c | None => last (term_text (v, n)) end) with (Some 32%N).
    destruct (search _ _ _ _ _ _) as [ms tail]. cbn [map snd fst] in *. by rewrite IH.
Qed.

Lemma fold_coeffs ts : NoDup (map fst ts) -> Forall (fun p => Number_text (num_str (snd p)) = snd p) ts -> forall acc,
  (forall v, v ∈ map fst ts -> map_get acc v = None) ->
  fold_left (fun coeffs m =>
      if map_has coeffs (group_of m 1) then coeffs
      else map_set coeffs (group_of m 1) (Number_text (group_of m 2))) (map term_caps ts) acc = acc ++ ts.
Proof.
  induction ts as [|[v n] ts IH]; intros Hd Hn acc Ha; [by rewrite app_nil_r|].
  apply NoDup_cons in Hd as [Hv Hd]. inversion_clear Hn as [|? ? Hnn Hn']. cbn [map fold_left fst snd] in *.
  change (group_of (term_caps (v, n)) 1) with v. change (group_of (term_caps (v, n)) 2) with (num_str n). rewrite Hnn.
  assert (map_get acc v = None) as Hav by (apply Ha; left). unfold map_has. rewrite Hav.
  rewrite map_set_fresh by (by apply map_get_None). rewrite IH; [by rewrite <- app_assoc|done|done|].
  intros w Hw. apply map_get_None. unfold map_keys. rewrite fmap_app, not_elem_of_app. split.
  - apply map_get_None, Ha. by right.
  - intros Hin%list_elem_of_singleton. cbn in Hin. by subst w.
Qed.

Lemma map_get_filter (l : list (jstr * num)) v n : NoDup (map fst l) -> map_get l v = Some n ->
  map_get (List.filter nonzero l) v = if num_eqb n (num_of_Z 0) then None else Some n.
Proof.
  induction l as [|[w m] l IH]; intros Hd H; [done|]. apply NoDup_cons in Hd as [Hw Hd]. cbn [List.filter map_get] in *.
  destruct (decide (w = v)) as [->|Hne].
  - rewrite bool_decide_eq_true_2 in H by done. injection H as ->. unfold nonzero at 1. cbn [snd].
    destruct (num_eqb n (num_of_Z 0)); cbn [negb]; [|cbn [map_get]; by rewrite bool_decide_eq_true_2].
    apply map_get_None. unfold map_keys. intros (q & -> & Hq)%list_elem_of_fmap. apply Hw.
    apply list_elem_of_In, filter_In in Hq as [Hq _]. apply list_elem_of_fmap. exists q. by rewrite list_elem_of_In.
  - rewrite bool_decide_eq_false_2 in H by done.
    destruct (nonzero (w, m)); [cbn [map_get]; rewrite bool_decide_eq_false_2 by done|]; by apply IH.
Qed.

Lemma NoDup_filter_keys (l : list (jstr * num)) : NoDup (map fst l) -> NoDup (map fst (List.filter nonzero l)).
Proof.
  induction l as [|p l IH]; intros Hd; [done|]. apply NoDup_cons in Hd as [Hp Hd]. cbn [List.filter].
  destruct (nonzero p); [|by apply IH]. cbn [map]. apply NoDup_cons. split; [|by apply IH].
  intros (q & E & Hq)%list_elem_of_fmap. apply Hp. apply list_elem_of_In, filter_In in Hq as [Hq _].
  apply list_elem_of_fmap. exists q. by rewrite list_elem_of_In.
Qed.

Lemma extras_names t : map fst (extras t) = var_names.
Proof. reflexivity. Qed.

Lemma filter_names t v : v ∈ map fst (List.filter nonzero (extras t)) -> v ∈ var_names.
Proof.
  intros (q & -> & Hq)%list_elem_of_fmap. apply list_elem_of_In, filter_In in Hq as [Hq _].
  rewrite <- (extras_names t). apply list_elem_of_fmap. exists q. by rewrite list_elem_of_In.
Qed.

Lemma terms_names t : NoDup (map fst (terms t)) /\ Forall (fun v => v ∈ price_vars) (map fst (terms t)).
Proof.
  assert (forall v, v ∈ var_names -> v ∈ price_vars /\ v <> u "p" /\ v <> u "c") as H.
  { intros v Hv. unfold var_names in Hv.
    members Hv; (split; [by apply (bool_decide_unpack _)|split; by apply (bool_decide_unpack _)]). }
  unfold terms. cbn [map fst]. split.
  - apply NoDup_cons. split; [|apply NoDup_cons; split].
    + rewrite not_elem_of_cons. split; [by apply (bool_decide_unpack _)|]. intros Hp%filter_names%H. tauto.
    + intros Hp%filter_names%H. tauto.
    + apply NoDup_filter_keys. rewrite extras_names. by apply (bool_decide_unpack _).
  - constructor; [by apply (bool_decide_unpack _)|]. constructor; [by apply (bool_decide_unpack _)|].
    apply Forall_forall. intros v Hv%filter_names. by apply H.
Qed.

Lemma terms_good t : good_tier t -> Forall (fun p => good_cost (snd p)) (terms t).
Proof.
  intros [_ _ Hi Ho He _]. unfold terms. constructor; [done|]. constructor; [done|]. apply Forall_forall.
  intros p Hp. apply list_elem_of_In, filter_In in Hp as [Hp _]. rewrite Forall_forall in He. apply He.
  by apply list_elem_of_In.
Qed.

Definition prices (t : VisualTier) : list (jstr * num) :=
  [(u "inputPrice", input_unit_cost t); (u "outputPrice", output_unit_cost t);
   (u "cacheReadPrice", cache_read_unit_cost t); (u "cacheCreatePrice", cache_create_unit_cost t);
   (u "cacheCreate1hPrice", cache_create_1h_unit_cost t); (u "imagePrice", image_unit_cost t);
   (u "imageOutputPrice", image_output_unit_cost t); (u "audioInputPrice", audio_input_unit_cost t);
   (u "audioOutputPrice", audio_output_unit_cost t)].

Definition page_tier (t : VisualTier) : ParsedTier :=
  mkParsedTier (vt_label t) (map page_cond (vt_conditions t)) (prices t).

Lemma coefficient n : good_cost n ->
  or_zero (default S754_nan (if num_eqb n (num_of_Z 0) then None else Some n)) = n.
Proof.
  intros [Hz [Hr _]]. destruct (num_eqb n (num_of_Z 0)) eqn:E; [|done].
  destruct n as [[|]|[|]| |[|] m e]; try done.
Qed.

Lemma page_prices t : good_tier t -> parseTierBody (body_text t) = prices t.
Proof.
  intros G. pose proof (terms_good t G) as Hg. destruct (terms_names t) as [Hd Hn]. rewrite body_terms.
  unfold parseTierBody, exec_all. rewrite search_terms; [|..|lia|done]; [|apply Forall_forall|done].
  2:{ intros p Hp. rewrite Forall_forall in Hg. rewrite Forall_forall in Hn. split; [apply Hn, list_elem_of_fmap; by exists p|apply Hg, Hp]. }
  rewrite fold_coeffs; [|done| |done].
  2:{ eapply Forall_impl; [exact Hg|]. intros p (_ & H & _). done. }
  cbn [app]. pose proof G as [_ _ Hi Ho He _].
  assert (forall v n, v <> u "p" -> v <> u "c" -> map_get (extras t) v = Some n ->
    or_zero (default S754_nan (map_get (terms t) v)) = n) as Hx.
  { intros v n Hp Hc Hv. unfold terms. cbn [map_get]. rewrite !bool_decide_eq_false_2 by done.
    rewrite (map_get_filter _ _ n) by (done || (rewrite extras_names; by apply (bool_decide_unpack _))).
    apply coefficient. apply map_get_Some_elem in Hv. rewrite Forall_forall in He. apply (He _ Hv). }
  change BILLING_VAR_KEY_TO_FIELD with [(u "p", u "inputPrice"); (u "c", u "outputPrice"); (u "cr", u "cacheReadPrice");
    (u "cc", u "cacheCreatePrice"); (u "cc1h", u "cacheCreate1hPrice"); (u "img", u "imagePrice");
    (u "img_o", u "imageOutputPrice"); (u "ai", u "audioInputPrice"); (u "ao", u "audioOutputPrice")].
  cbn [map]. rewrite (Hx (u "cr") _ ltac:(done) ltac:(done) eq_refl), (Hx (u "cc") _ ltac:(done) ltac:(done) eq_refl),
    (Hx (u "cc1h") _ ltac:(done) ltac:(done) eq_refl), (Hx (u "img") _ ltac:(done) ltac:(done) eq_refl),
    (Hx (u "img_o") _ ltac:(done) ltac:(done) eq_refl), (Hx (u "ai") _ ltac:(done) ltac:(done) eq_refl),
    (Hx (u "ao") _ ltac:(done) ltac:(done) eq_refl).
  change (map_get (terms t) (u "p")) with (Some (input_unit_cost t)).
  change (map_get (terms t) (u "c")) with (Some (output_unit_cost t)).
  destruct Hi as [Hi _], Ho as [Ho _]. change (default S754_nan (Some ?x)) with x. by rewrite Hi, Ho.
Qed.

Definition no_paren (c : N) : bool := negb (c =? 41)%N.

Lemma num_char_no_paren c : num_char c = true -> no_paren c = true.
Proof. intros H. unfold no_paren. apply negb_true_iff, N.eqb_neq. by intros ->. Qed.

Lemma body_chars t : good_tier t -> Forall (fun c => no_paren c = true) (body_text t).
Proof.
  intros G. assert (forall n, printable num_char n -> Forall (fun c => no_paren c = true) (num_str n)) as Hn.
  { intros n (_ & _ & H). eapply Forall_impl; [exact H|]. apply num_char_no_paren. }
  assert (forall s, forallb no_paren s = true -> Forall (fun c => no_paren c = true) s) as Hs.
  { intros s H. rewrite forallb_forall in H. apply Forall_forall. intros c Hc. apply H. by apply list_elem_of_In. }
  pose proof G as [_ _ [_ Hi] [_ Ho] _ _]. pose proof (extras_ready t G) as Hx. unfold body_text.
  rewrite !Forall_app. split_and!; try (by apply Hs); try (by apply Hn).
  assert (Forall (fun p : jstr * num => forallb no_paren (fst p) = true) (extras t)) as Hv.
  { apply Forall_forall. intros p Hp. assert (fst p ∈ var_names) as Hin by (rewrite <- (extras_names t); apply list_elem_of_fmap; by exists p).
    unfold var_names in Hin. by members Hin. }
  induction Hx as [|p l (_ & _ & Hp) Hx IH]; [constructor|]. inversion_clear Hv as [|? ? Hpv Hv'].
  cbn [map concat]. apply Forall_app. split; [|by apply IH]. unfold extra_text. destruct (num_eqb _ _); [constructor|].
  rewrite !Forall_app. split_and!; first [by apply Hs|by apply Hn].
Qed.

(** C40: The two readers agree on such tables: for a table with nonempty labels without
    quotes, conditions on every tier but the last of several and none on the last, bounds
    that print without a minus sign, prices that print readably and the cache mode the
    prices imply (the tables of [good_config], which the editor reads back), the parser of
    the pricing page finds in the editor's text the same tiers in the same order, with
    their labels, conditions and prices. *)
Theorem page_shows_tiers (tiers : list VisualTier) :
  good_config tiers -> parseTiersFromExpr (generateExprFromVisualConfig (Some tiers)) = map page_tier tiers.
Proof.
  intros G. destruct (generate_head tiers G) as (c & s & E & Hc & _). unfold parseTiersFromExpr, stripExprVersion.
  assert (str_truthy (generateExprFromVisualConfig (Some tiers)) = true) as -> by (by rewrite E). cbn [negb].
  assert (rexec version_pattern (generateExprFromVisualConfig (Some tiers)) = None) as -> by (rewrite E; by apply no_version).
  rewrite (exec_tiers _ (fun t => map_set (head_caps t) 3%nat (body_text t))); [|done|].
  2:{ intros t b Hg. rewrite body_expr by done. apply leads_grp, leads_plus; [by rewrite body_split|by apply body_chars|done]. }
  rewrite map_map. destruct G as [Hg _]. clear -Hg. induction Hg as [|t tiers Hg H IH]; [done|]. cbn [map]. rewrite IH.
  f_equal. destruct (head_caps_get t Hg) as (H1 & H2 & _). pose proof Hg as [_ Hcs _ _ _ _]. unfold page_tier.
  unfold group_of. rewrite !map_get_set_ne by lia. rewrite map_get_set_eq. fold (group_of (head_caps t) 1) (group_of (head_caps t) 2).
  rewrite H1, H2, parse_conds by done. f_equal. by apply page_prices.
Qed.

(** ** Witnesses *)

Definition is_num_text (chars : N -> bool) (s : jstr) : bool :=
  (0 <? length s)%nat && forallb chars s.

Lemma printable_checked chars n : Number_text (num_str n) = n -> is_num_text chars (num_str n) = true -> printable chars n.
Proof.
  intros H1 H2. apply andb_true_iff in H2 as [H2 H3]. split_and!; [done|by intros E; rewrite E in H2|].
  rewrite forallb_forall in H3. apply Forall_forall. intros c Hc. apply H3. by apply list_elem_of_In.
Qed.

Lemma cost_checked n : or_zero n = n -> Number_text (num_str n) = n -> is_num_text num_char (num_str n) = true -> good_cost n.
Proof. intros H1 H2 H3. split; [done|]. by apply printable_checked. Qed.

Ltac checked_cost := apply cost_checked; vm_compute; reflexivity.

Lemma label_checked s : forallb not_quote s = true -> s <> [] -> s <> [] /\ Forall (fun c => not_quote c = true) s.
Proof.
  intros H Hne. split; [done|]. rewrite forallb_forall in H. apply Forall_forall. intros c Hc. apply H. by apply list_elem_of_In.
Qed.

Lemma demo_good : good_config demo_tiers.
Proof.
  split; [|left; by split]. constructor; [|constructor; [|constructor]]; apply mkGoodTier.
  1,7: apply label_checked; vm_compute; done.
  2,3,7,8: checked_cost.
  2,5: unfold extras; repeat (constructor; [checked_cost|]); constructor.
  2,4: vm_compute; reflexivity.
  - constructor; [|constructor]. split; [by apply (bool_decide_unpack _)|]. split; [by apply (bool_decide_unpack _)|].
    exists (dnum 32000 0). split; [reflexivity|]. apply printable_checked; vm_compute; reflexivity.
  - constructor.
Qed.

Lemma tiers_roundtrip_witness : tryParseVisualConfig (generateExprFromVisualConfig (Some demo_tiers)) = Some demo_tiers.
Proof. apply tiers_roundtrip, demo_good. Defined.

Lemma page_shows_tiers_witness :
  parseTiersFromExpr (generateExprFromVisualConfig (Some demo_tiers)) = map page_tier demo_tiers.
Proof. apply page_shows_tiers, demo_good. Defined.

(** The restriction on bounds is needed: the patterns of both readers have no minus sign in
    a bound. The editor refuses what it wrote for a negative bound, and the pricing page
    shows the tier without its condition. *)
Definition negative_bound : list VisualTier :=
  match demo_tiers with
  | t :: rest =>
      mkTier (vt_label t) [mkInput (u "len") (u "<") (Some (VNum (num_of_Z (-5))))] (input_unit_cost t)
        (output_unit_cost t) (cache_mode t) (cache_read_unit_cost t) (cache_create_unit_cost t)
        (cache_create_1h_unit_cost t) (image_unit_cost t) (image_output_unit_cost t) (audio_input_unit_cost t)
        (audio_output_unit_cost t) :: rest
  | [] => []
  end.

Theorem negative_bound_unreadable :
  tryParseVisualConfig (generateExprFromVisualConfig (Some negative_bound)) = None
  /\ map pt_conditions (parseTiersFromExpr (generateExprFromVisualConfig (Some negative_bound))) = [[]; []].
Proof. split; vm_compute; reflexivity. Qed.

(** ** A price that is not a number *)

Definition no_extras : list (jstr * num) := map (fun v => (v, num_of_Z 0)) var_names.

(** A single tier is read without comparing what would be written again: where
    the price of the input is a text of digits and signs that is not a numeral (a
    difference such as 3-1, say), the reader takes the expression all the same, and
    what the editor then writes has the price zero in its place. *)
Theorem single_tier_price_lost (label A B : jstr) :
  label <> [] -> Forall (fun c => not_quote c = true) label ->
  is_num_text num_char A = true -> is_num_text num_char B = true -> Number_text A = S754_nan ->
  exists tier,
    tryParseVisualConfig (uq "tier('" ++ label ++ uq "', " ++ u "p * " ++ A ++ u " + c * " ++ B ++ u ")") = Some [tier]
    /\ input_unit_cost tier = S754_nan
    /\ generateExprFromVisualConfig (Some [tier])
       = uq "tier('" ++ label ++ uq "', " ++ u "p * 0 + c * " ++ num_str (or_zero (Number_text B)) ++ u ")".
Proof.
  intros Hl Hq HA HB Hn.
  assert (forall s, is_num_text num_char s = true -> s <> [] /\ Forall (fun c => num_char c = true) s) as Ht.
  { intros s H. apply andb_true_iff in H as [H1 H2]. split; [by intros ->|].
    rewrite forallb_forall in H2. apply Forall_forall. intros c Hc. apply H2. by apply list_elem_of_In. }
  destruct (Ht A HA) as [HA1 HA2]. destruct (Ht B HB) as [HB1 HB2]. clear Ht.
  set (m := caps 4 no_extras [(1%nat, label); (2%nat, A); (3%nat, B)]).
  assert (rexec singleRe (uq "tier('" ++ label ++ uq "', " ++ u "p * " ++ A ++ u " + c * " ++ B ++ u ")") = Some m) as Hm.
  { apply leads_exec. unfold singleRe. rewrite bodyPat_2. unfold body_regex.
    assert (forall b, uq "', " ++ u "p * " ++ A ++ u " + c * " ++ B ++ b
      = uq "'," ++ [32%N] ++ (u "p" ++ (u " * " ++ A) ++ [32%N] ++ [43%N] ++ [32%N] ++ u "c" ++ (u " * " ++ B)
          ++ concat (map extra_text no_extras)) ++ b) as -> by (intros b; by rewrite <- !app_assoc).
    eapply leads_cons; [apply leads_lit|]. eapply leads_cons; [apply (leads_grp 1 _ _ _ [] []), leads_run; [done|done]|].
    eapply leads_cons; [apply leads_lit|]. eapply leads_cons; [by apply leads_space|].
    eapply leads_cons; [|apply leads_lit].
    eapply leads_cons; [apply leads_lit|]. eapply leads_cons; [by apply leads_times_text|].
    eapply leads_cons; [by apply leads_space|]. eapply leads_cons; [apply (leads_lit [43%N])|].
    eapply leads_cons; [by apply leads_space|]. eapply leads_cons; [apply leads_lit|].
    eapply leads_cons; [by apply leads_times_text|].
    apply (leads_opts no_extras 4); [apply vars_apart| |done|].
    - apply Forall_fmap, Forall_forall. intros v Hv. cbn [fst snd].
      split_and!; [by members Hv|by members Hv|apply printable_checked; vm_compute; reflexivity].
    - intros j v cs'. apply stuck_no_space; [done|]. by apply stuck_seq, stuck_lit. }
  exists (normalizeVisualTier (mkPartialTier (Some label) (Some []) (Some S754_nan) (Some (Number_text B)) None [])).
  unfold tryParseVisualConfig. change (str_truthy (uq "tier('" ++ ?x)) with true. cbn [negb].
  change (rexec version_pattern (uq "tier('" ++ ?x)) with (rexec version_pattern (116%N :: drop 1 (uq "tier('") ++ x)).
  rewrite no_version by done. rewrite Hm. split_and!.
  - f_equal. unfold tier_of_match. change (group_of m 1) with label. change (group_of m 2) with A.
    change (group_of m (2 + 1)) with B. rewrite Hn.
    assert (omap (fun p => (fun val => (fst p, Number_text val)) <$> snd p) (extra_matches m 2) = []) as -> by reflexivity.
    reflexivity.
  - reflexivity.
  - cbn [generateExprFromVisualConfig]. change (vt_label (normalizeVisualTier _)) with label. rewrite label_kept by done.
    cbn [normalizeVisualTier vt_conditions]. reflexivity.
Qed.

Lemma single_tier_price_lost_witness : exists tier,
  tryParseVisualConfig (uq "tier('base', p * 3-1 + c * 2)") = Some [tier]
  /\ input_unit_cost tier = S754_nan
  /\ generateExprFromVisualConfig (Some [tier]) = uq "tier('base', p * 0 + c * 2)".
Proof.
  apply (single_tier_price_lost (u "base") (u "3-1") (u "2")); [done|by apply label_checked|vm_compute; reflexivity..].
Defined.
