(* ===== verification/ParamOverride.v ===== *)
(** * Parameter overrides: data and texts
    (src/web/src/features/channels/components/dialogs/param-override-editor-dialog.tsx)

    A channel can override the parameters of a request. The editor shows the JSON text
    of the overrides as a list of operations ([parseInitialState]) and writes it back
    ([buildOperationsJson]); the values of some operations have editors of their own
    ([parseReturnErrorDraft], [parsePruneObjectsDraft]) that keep their state only as
    the text of the value. The dialog that holds this state is in ParamOverrideEditor.v.

    Operations, conditions and rules get an id from a module-level counter and the
    clock: [M] is the monad of computations that take ids and may throw a TypeError. *)

From Stdlib Require Import ZArith SpecFloat.
From stdpp Require Import base numbers option list sorting.
From S2P Require Import Prelude Collections JsNumber JsValue Json Regex JsCoerce.

(** ** Data *)

Record ParamOverrideCondition := mkCondition {
  c_id : jstr;
  c_path : jstr;
  c_mode : jstr;
  c_value_text : jstr;
  c_invert : bool;
  c_pass_missing_key : bool
}.

Record ParamOverrideOperation := mkOperation {
  o_id : jstr;
  o_description : jstr;
  o_path : jstr;
  o_mode : jstr;
  o_from : jstr;
  o_to : jstr;
  o_value_text : jstr;
  o_keep_origin : bool;
  o_logic : jstr;
  o_conditions : list ParamOverrideCondition
}.

(** What an error says: what [t(key, { line })] is asked for, or a TypeError of the
    language. The code uses the empty text for no error; here that is [None]. *)
Inductive EditorError :=
| Told (key : jstr) (line : option nat)
| TypeError.

(** ** Constants *)

Definition OPERATION_MODE_OPTIONS : list (jstr * jstr) := [
  (u "Set Field", u "set");
  (u "Delete Field", u "delete");
  (u "Append to End", u "append");
  (u "Prepend to Start", u "prepend");
  (u "Copy Field", u "copy");
  (u "Move Field", u "move");
  (u "String Replace", u "replace");
  (u "Regex Replace", u "regex_replace");
  (u "Trim Prefix", u "trim_prefix");
  (u "Trim Suffix", u "trim_suffix");
  (u "Ensure Prefix", u "ensure_prefix");
  (u "Ensure Suffix", u "ensure_suffix");
  (u "Trim Space", u "trim_space");
  (u "To Lowercase", u "to_lower");
  (u "To Uppercase", u "to_upper");
  (u "Return Custom Error", u "return_error");
  (u "Prune Object Items", u "prune_objects");
  (u "Pass Through Headers", u "pass_headers");
  (u "Sync Fields", u "sync_fields");
  (u "Set Request Header", u "set_header");
  (u "Delete Request Header", u "delete_header");
  (u "Copy Request Header", u "copy_header");
  (u "Move Request Header", u "move_header")
].

Definition OPERATION_MODE_VALUES : list jstr := new_set OPERATION_MODE_OPTIONS.*2.

Definition OPERATION_MODE_LABEL_MAP : list (jstr * jstr) :=
  fold_left (fun acc item => map_set acc item.2 item.1) OPERATION_MODE_OPTIONS [].

Definition CONDITION_MODE_OPTIONS : list (jstr * jstr) := [
  (u "Exact Match", u "full");
  (u "Prefix", u "prefix");
  (u "Suffix", u "suffix");
  (u "Contains", u "contains");
  (u "Greater Than", u "gt");
  (u "Greater Than or Equal", u "gte");
  (u "Less Than", u "lt");
  (u "Less Than or Equal", u "lte")
].

Definition CONDITION_MODE_VALUES : list jstr := new_set CONDITION_MODE_OPTIONS.*2.

(** Which fields an operation uses; an absent flag is false. *)
Record ModeMeta := mkMeta {
  path : bool;
  pathOptional : bool;
  value : bool;
  from : bool;
  to : bool;
  keepOrigin : bool;
  pathAlias : bool
}.

Definition meta_none : ModeMeta := mkMeta false false false false false false false.
Definition meta_path : ModeMeta := mkMeta true false false false false false false.
Definition meta_path_value : ModeMeta := mkMeta true false true false false false false.
Definition meta_set : ModeMeta := mkMeta true false true false false true false.
Definition meta_from_to : ModeMeta := mkMeta false false false true true false false.
Definition meta_replace : ModeMeta := mkMeta true false false true false false false.
Definition meta_headers : ModeMeta := mkMeta false false false true true true true.

Definition MODE_META : list (jstr * ModeMeta) := [
  (u "delete", meta_path);
  (u "set", meta_set);
  (u "append", meta_set);
  (u "prepend", meta_set);
  (u "copy", meta_from_to);
  (u "move", meta_from_to);
  (u "replace", meta_replace);
  (u "regex_replace", meta_replace);
  (u "trim_prefix", meta_path_value);
  (u "trim_suffix", meta_path_value);
  (u "ensure_prefix", meta_path_value);
  (u "ensure_suffix", meta_path_value);
  (u "trim_space", meta_path);
  (u "to_lower", meta_path);
  (u "to_upper", meta_path);
  (u "return_error", mkMeta false false true false false false false);
  (u "prune_objects", mkMeta false true true false false false false);
  (u "pass_headers", mkMeta false false true false false true false);
  (u "sync_fields", meta_from_to);
  (u "set_header", meta_set);
  (u "delete_header", meta_path);
  (u "copy_header", meta_headers);
  (u "move_header", meta_headers)
].

(** Members every object inherits: [MODE_META[m]] is a function or an object without
    any of the flags for these. *)
Definition inherited_members : list jstr := [
  u "constructor"; u "__defineGetter__"; u "__defineSetter__"; u "hasOwnProperty";
  u "__lookupGetter__"; u "__lookupSetter__"; u "isPrototypeOf"; u "propertyIsEnumerable";
  u "toString"; u "valueOf"; u "__proto__"; u "toLocaleString"
].

(** [MODE_META[mode] || MODE_META.set]. *)
Definition mode_meta (mode : jstr) : ModeMeta :=
  match map_get MODE_META mode with
  | Some m => m
  | None => if set_has inherited_members mode then meta_none else meta_set
  end.

Definition VALUE_REQUIRED_MODES : list jstr := [
  u "trim_prefix"; u "trim_suffix"; u "ensure_prefix"; u "ensure_suffix"; u "set_header";
  u "return_error"; u "prune_objects"; u "pass_headers"
].

Definition FROM_REQUIRED_MODES : list jstr := [
  u "copy"; u "move"; u "replace"; u "regex_replace"; u "copy_header"; u "move_header"; u "sync_fields"
].

Definition TO_REQUIRED_MODES : list jstr := [
  u "copy"; u "move"; u "copy_header"; u "move_header"; u "sync_fields"
].

(** ** Templates *)

Definition jnum (z : Z) : jsval := JNum (num_of_Z z).
Definition jstrs (l : list jstr) : jsval := JArr (map JStr l).

Definition LEGACY_TEMPLATE : jsval :=
  JObj [(u "temperature", jnum 0); (u "max_tokens", jnum 1000)].

Definition OPERATION_TEMPLATE : jsval := JObj [(u "operations", JArr [
  JObj [
    (u "description", JStr (u "Set default temperature for openai/* models."));
    (u "path", JStr (u "temperature"));
    (u "mode", JStr (u "set"));
    (u "value", JNum (dec_to_num false 7 (-1)));
    (u "conditions", JArr [JObj [(u "path", JStr (u "model")); (u "mode", JStr (u "prefix"));
                                 (u "value", JStr (u "openai/"))]]);
    (u "logic", JStr (u "AND"))]])].

Definition HEADER_PASSTHROUGH_TEMPLATE : jsval := JObj [(u "operations", JArr [
  JObj [
    (u "description", JStr (u "Pass through X-Request-Id header to upstream."));
    (u "mode", JStr (u "pass_headers"));
    (u "value", jstrs [u "X-Request-Id"]);
    (u "keep_origin", JBool true)]])].

Definition GEMINI_IMAGE_4K_TEMPLATE : jsval :=
  let cond m v := JObj [(u "path", JStr (u "original_model")); (u "mode", JStr m); (u "value", JStr v)] in
  JObj [(u "operations", JArr [
  JObj [
    (u "description", JStr (u "Set imageSize to 4K when model contains gemini/image and ends with 4k."));
    (u "mode", JStr (u "set"));
    (u "path", JStr (u "generationConfig.imageConfig.imageSize"));
    (u "value", JStr (u "4K"));
    (u "conditions", JArr [cond (u "contains") (u "gemini"); cond (u "contains") (u "image");
                           cond (u "suffix") (u "4k")]);
    (u "logic", JStr (u "AND"))]])].

Definition CODEX_CLI_HEADER_PASSTHROUGH_HEADERS : list jstr := [
  u "Originator"; u "Session_id"; u "Thread_id"; u "Session-Id"; u "Thread-Id";
  u "X-Client-Request-Id"; u "User-Agent"; u "X-Codex-Beta-Features"; u "X-Codex-Turn-State";
  u "X-Codex-Turn-Metadata"; u "X-Codex-Window-Id"; u "X-Codex-Parent-Thread-Id";
  u "X-OpenAI-Subagent"; u "X-OpenAI-Memgen-Request"; u "X-ResponsesAPI-Include-Timing-Metrics";
  u "X-OpenAI-Internal-Codex-Responses-Lite"
].

Definition CLAUDE_CLI_HEADER_PASSTHROUGH_HEADERS : list jstr := [
  u "X-Stainless-Arch"; u "X-Stainless-Lang"; u "X-Stainless-Os"; u "X-Stainless-Package-Version";
  u "X-Stainless-Retry-Count"; u "X-Stainless-Runtime"; u "X-Stainless-Runtime-Version";
  u "X-Stainless-Timeout"; u "User-Agent"; u "X-App"; u "Anthropic-Beta";
  u "Anthropic-Dangerous-Direct-Browser-Access"; u "Anthropic-Version"
].

Definition buildPassHeadersTemplate (headers : list jstr) : jsval := JObj [(u "operations", JArr [
  JObj [(u "mode", JStr (u "pass_headers")); (u "value", jstrs headers); (u "keep_origin", JBool true)]])].

Definition CODEX_CLI_HEADER_PASSTHROUGH_TEMPLATE : jsval := JObj [(u "operations", JArr [
  JObj [(u "mode", JStr (u "pass_headers")); (u "value", jstrs CODEX_CLI_HEADER_PASSTHROUGH_HEADERS);
        (u "keep_origin", JBool true)]])].

Definition CLAUDE_CLI_HEADER_PASSTHROUGH_TEMPLATE : jsval :=
  buildPassHeadersTemplate CLAUDE_CLI_HEADER_PASSTHROUGH_HEADERS.

Definition AWS_BEDROCK_ANTHROPIC_COMPAT_TEMPLATE : jsval :=
  let same k := (k, JStr k) in
  let drop k := (k, JNull) in
  JObj [(u "operations", JArr [
  JObj [
    (u "description", JStr (u "Normalize anthropic-beta header tokens for Bedrock compatibility."));
    (u "mode", JStr (u "set_header"));
    (u "path", JStr (u "anthropic-beta"));
    (u "value", JObj [
      (u "advanced-tool-use-2025-11-20", JStr (u "tool-search-tool-2025-10-19"));
      drop (u "bash_20241022"); drop (u "bash_20250124"); drop (u "code-execution-2025-08-25");
      same (u "compact-2026-01-12"); same (u "computer-use-2025-01-24");
      same (u "computer-use-2025-11-24"); same (u "context-1m-2025-08-07");
      same (u "context-management-2025-06-27"); drop (u "effort-2025-11-24");
      drop (u "fast-mode-2026-02-01"); drop (u "files-api-2025-04-14");
      drop (u "fine-grained-tool-streaming-2025-05-14"); same (u "interleaved-thinking-2025-05-14");
      drop (u "mcp-client-2025-11-20"); drop (u "mcp-client-2025-04-04");
      drop (u "mcp-servers-2025-12-04"); drop (u "output-128k-2025-02-19");
      drop (u "structured-output-2024-03-01"); drop (u "prompt-caching-scope-2026-01-05");
      drop (u "skills-2025-10-02"); drop (u "structured-outputs-2025-11-13");
      drop (u "text_editor_20241022"); drop (u "text_editor_20250124");
      drop (u "token-efficient-tools-2025-02-19"); same (u "tool-search-tool-2025-10-19");
      drop (u "web-fetch-2025-09-10"); drop (u "web-search-2025-03-05"); drop (u "oauth-2025-04-20")])];
  JObj [
    (u "description", JStr (u "Remove all tools[*].custom.input_examples before upstream relay."));
    (u "mode", JStr (u "delete"));
    (u "path", JStr (u "tools.*.custom.input_examples"))]])].

Inductive PresetKind := KindOperations | KindLegacy.

Record TemplatePresetConfig := mkPreset {
  preset_label : jstr;
  kind : PresetKind;
  payload : jsval
}.

Definition TEMPLATE_PRESET_CONFIG : list (jstr * TemplatePresetConfig) := [
  (u "operations_default", mkPreset (u "New Format Template") KindOperations OPERATION_TEMPLATE);
  (u "legacy_default", mkPreset (u "Legacy Format Template") KindLegacy LEGACY_TEMPLATE);
  (u "pass_headers_auth",
    mkPreset (u "Header Passthrough (X-Request-Id)") KindOperations HEADER_PASSTHROUGH_TEMPLATE);
  (u "gemini_image_4k", mkPreset (u "Gemini Image 4K") KindOperations GEMINI_IMAGE_4K_TEMPLATE);
  (u "claude_cli_headers_passthrough",
    mkPreset (u "Claude CLI Header Passthrough") KindOperations CLAUDE_CLI_HEADER_PASSTHROUGH_TEMPLATE);
  (u "codex_cli_headers_passthrough",
    mkPreset (u "Codex CLI Header Passthrough") KindOperations CODEX_CLI_HEADER_PASSTHROUGH_TEMPLATE);
  (u "aws_bedrock_anthropic_beta_override",
    mkPreset (u "AWS Bedrock Claude Compat") KindOperations AWS_BEDROCK_ANTHROPIC_COMPAT_TEMPLATE)
].

(** ** Ids *)

(** A computation from the value of [localIdSeed] to its result, [None] when it throws,
    and the value the counter has then. *)
Definition M (A : Type) : Type := Z -> option A * Z.

#[export] Instance M_ret : MRet M := fun A x s => (Some x, s).
#[export] Instance M_bind : MBind M := fun A B k m s =>
  match m s with
  | (Some x, s') => k x s'
  | (None, s') => (None, s')
  end.

(** A TypeError. *)
Definition throw {A} : M A := fun s => (None, s).

(** The value of a conversion that may throw. *)
Definition lift {A} (o : option A) : M A := fun s => (o, s).

(** A field of a value: reading a member of null throws, and so does reading one of
    undefined, which the source's default argument replaces by an empty object. *)
Definition field_of (v : jsval) (k : jstr) : M jsval :=
  match v with JNull => throw | _ => mret (get v k) end.

Definition string_or_empty (v : jsval) : jstr := match v with JStr s => s | _ => [] end.

(** [set.has(v) ? v : fallback] for a set of strings. *)
Definition mode_or (modes : list jstr) (fallback : jstr) (v : jsval) : jstr :=
  match v with JStr s => if set_has modes s then s else fallback | _ => fallback end.

(** ** Values as text *)

(** [JSON.stringify] of a value that is not undefined. *)
Definition stringify (v : jsval) : jstr := default [] (JSON_stringify v).
Definition stringify_indent (v : jsval) : jstr := default [] (JSON_stringify_indent v).

Definition toValueText (v : jsval) : jstr :=
  match v with
  | JUndef => []
  | JStr s => s
  | _ => stringify v
  end.

Definition parseLooseValue (valueText : jstr) : jsval :=
  let raw := trim valueText in
  match raw with
  | [] => JStr []
  | _ => default (JStr raw) (JSON_parse raw)
  end.

Definition verifyJSON (text : jstr) : bool := bool_decide (is_Some (JSON_parse text)).

(** [parsed && typeof parsed === 'object' && !Array.isArray(parsed)]. *)
Definition is_plain_object (v : jsval) : bool := truthy v && is_object v && negb (is_array v).

(** [if (b) payload[k] = v]. *)
Definition put (b : bool) (k : jstr) (v : jsval) (payload : list (jstr * jsval)) : list (jstr * jsval) :=
  if b then map_set payload k v else payload.

Section WithClock.

(** [Date.now()] at the call that takes the given value of the counter. *)
Variable now : Z -> Z.

Definition local_id (n : Z) : jstr := u "po_" ++ Z_str (now n) ++ u "_" ++ Z_str n.

Definition nextLocalId : M jstr := fun s => (Some (local_id s), s + 1).

(** ** From values to operations *)

Definition normalizeCondition (condition : jsval) : M ParamOverrideCondition :=
  id ← nextLocalId;
  path ← field_of condition (u "path");
  mode ← field_of condition (u "mode");
  value ← field_of condition (u "value");
  invert ← field_of condition (u "invert");
  pass_missing_key ← field_of condition (u "pass_missing_key");
  mret (mkCondition id (string_or_empty path) (mode_or CONDITION_MODE_VALUES (u "full") mode)
          (toValueText value) (is_true invert) (is_true pass_missing_key)).

Definition createDefaultCondition : M ParamOverrideCondition := normalizeCondition (JObj []).

(** [String(v || dflt).toUpperCase() === lit]. *)
Definition logic_is (v : jsval) (dflt lit : jstr) : option bool :=
  (fun s => upper_is s lit) <$> to_string (js_or v (JStr dflt)).

Definition normalizeOperation (operation : jsval) : M ParamOverrideOperation :=
  id ← nextLocalId;
  description ← field_of operation (u "description");
  path ← field_of operation (u "path");
  mode ← field_of operation (u "mode");
  value ← field_of operation (u "value");
  keep_origin ← field_of operation (u "keep_origin");
  from ← field_of operation (u "from");
  to ← field_of operation (u "to");
  logic ← field_of operation (u "logic");
  is_and ← lift (logic_is logic (u "OR") (u "AND"));
  conditions ← field_of operation (u "conditions");
  conditions ← match conditions with JArr l => mapM normalizeCondition l | _ => mret [] end;
  mret (mkOperation id (string_or_empty description) (string_or_empty path)
          (mode_or OPERATION_MODE_VALUES (u "set") mode) (string_or_empty from) (string_or_empty to)
          (toValueText value) (is_true keep_origin) (if is_and : bool then u "AND" else u "OR") conditions).

Definition createDefaultOperation : M ParamOverrideOperation :=
  normalizeOperation (JObj [(u "mode", JStr (u "set"))]).

(** ** Lists of operations *)

Inductive DropPosition := Before | After.

(** [ops.findIndex(o => o.id === id)]; [None] is -1. *)
Definition find_id (id : jstr) (ops : list ParamOverrideOperation) : option nat :=
  fst <$> list_find (fun o => o_id o = id) ops.

Definition reorderOperations (ops : list ParamOverrideOperation) (sourceId targetId : jstr)
    (position : DropPosition) : list ParamOverrideOperation :=
  if negb (str_truthy sourceId) || negb (str_truthy targetId) || seqb sourceId targetId then ops
  else match find_id sourceId ops with
  | None => ops
  | Some srcIdx =>
      match ops !! srcIdx with
      | None => ops
      | Some moved =>
          let next := take srcIdx ops ++ drop (S srcIdx) ops in
          match find_id targetId next with
          | None => ops
          | Some i =>
              let insertIdx := match position with After => S i | Before => i end in
              take insertIdx next ++ moved :: drop insertIdx next
          end
      end
  end.

Definition isOperationBlank (operation : ParamOverrideOperation) : bool :=
  let hasCondition := existsb (fun c =>
    str_truthy (trim (c_path c)) || str_truthy (trim (c_value_text c)) ||
    negb (seqb (c_mode c) (u "full")) || c_invert c || c_pass_missing_key c) (o_conditions operation) in
  seqb (o_mode operation) (u "set") &&
  negb (str_truthy (trim (o_path operation))) &&
  negb (str_truthy (trim (o_from operation))) &&
  negb (str_truthy (trim (o_to operation))) &&
  seqb (trim (o_value_text operation)) [] &&
  negb (o_keep_origin operation) &&
  negb hasCondition.

Definition getOperationSummary (operation : ParamOverrideOperation) (index : nat) : jstr :=
  let mode := str_or (o_mode operation) (u "set") in
  let modeLabel := str_or (default [] (map_get OPERATION_MODE_LABEL_MAP mode)) mode in
  let from := trim (o_from operation) in
  let to := trim (o_to operation) in
  let line := Z_str (Z.of_nat index + 1) ++ u ". " ++ modeLabel ++ [32; 183; 32]%N in
  if seqb mode (u "sync_fields") then line ++ str_or from (str_or to (u "-"))
  else line ++ str_or (trim (o_path operation)) (str_or from (str_or to (u "-"))).

(** ** Sync targets *)

Inductive SyncType := SyncJson | SyncHeader.

Definition parseSyncTargetSpec (spec : jstr) : SyncType * jstr :=
  let raw := trim spec in
  match raw with
  | [] => (SyncJson, [])
  | _ =>
      match indexOf raw (u ":") with
      | None => (SyncJson, raw)
      | Some idx =>
          let prefix := trim (take idx raw) in
          let key := trim (drop (S idx) raw) in
          if lower_is prefix (u "header") then (SyncHeader, key) else (SyncJson, key)
      end
  end.

Definition buildSyncTargetSpec (type : SyncType) (key : jstr) : jstr :=
  let normalizedType := match type with SyncHeader => u "header" | SyncJson => u "json" end in
  let normalizedKey := trim key in
  match normalizedKey with
  | [] => []
  | _ => normalizedType ++ u ":" ++ normalizedKey
  end.

(** ** The draft of a return_error value *)

Record ReturnErrorDraft := mkReturnErrorDraft {
  re_message : jstr;
  re_statusCode : num;
  re_code : jstr;
  re_type : jstr;
  re_skipRetry : bool;
  re_simpleMode : bool
}.

Definition return_error_defaults : ReturnErrorDraft :=
  mkReturnErrorDraft [] (num_of_Z 400) [] [] true true.

(** A status code between 100 and 599, else 400. *)
Definition valid_status (n : num) : num :=
  if isInteger n && num_leb (num_of_Z 100) n && num_leb n (num_of_Z 599) then n else num_of_Z 400.

(** [String(v || w || '').trim()]. *)
Definition text_or (v w : jsval) : option jstr := trim <$> to_string (js_or v (js_or w (JStr []))).

(** The fields of a JSON object; [None] when one of the conversions throws. *)
Definition return_error_fields (parsed : jsval) : option ReturnErrorDraft :=
  let statusRaw := match get parsed (u "status_code") with JUndef => get parsed (u "status") | v => v end in
  statusValue ← to_number statusRaw;
  message ← text_or (get parsed (u "message")) (get parsed (u "msg"));
  code ← text_or (get parsed (u "code")) (JStr []);
  type ← text_or (get parsed (u "type")) (JStr []);
  Some (mkReturnErrorDraft message (valid_status statusValue) code type
          (match get parsed (u "skip_retry") with JBool false => false | _ => true end) false).

Definition parseReturnErrorDraft (valueText : jstr) : ReturnErrorDraft :=
  let raw := trim valueText in
  match raw with
  | [] => return_error_defaults
  | _ =>
      let plain := mkReturnErrorDraft raw (num_of_Z 400) [] [] true true in
      match JSON_parse raw with
      | Some parsed => if is_plain_object parsed then default plain (return_error_fields parsed) else plain
      | None => plain
      end
  end.

Definition buildReturnErrorValueText (draft : ReturnErrorDraft) : jstr :=
  let message := trim (re_message draft) in
  if re_simpleMode draft then message
  else
    let payload := [(u "message", JStr message); (u "status_code", JNum (valid_status (re_statusCode draft)))] in
    let code := trim (re_code draft) in
    let type := trim (re_type draft) in
    let payload := put (str_truthy code) (u "code") (JStr code) payload in
    let payload := put (str_truthy type) (u "type") (JStr type) payload in
    let payload := put (negb (re_skipRetry draft)) (u "skip_retry") (JBool false) payload in
    stringify (JObj payload).

(** ** The draft of a prune_objects value *)

(** The same fields as a condition. *)
Definition PruneRule : Type := ParamOverrideCondition.

Record PruneObjectsDraft := mkPruneDraft {
  pd_simpleMode : bool;
  pd_typeText : jstr;
  pd_logic : jstr;
  pd_recursive : bool;
  pd_rules : list PruneRule
}.

Definition prune_defaults : PruneObjectsDraft := mkPruneDraft true [] (u "AND") true [].
Definition prune_type (typeText : jstr) : PruneObjectsDraft := mkPruneDraft true typeText (u "AND") true [].

(** The same body as [normalizeCondition]. *)
Definition normalizePruneRule (rule : jsval) : M PruneRule := normalizeCondition rule.

(** [try { m } catch { d }]. *)
Definition try_or {A} (m : M A) (d : A) : M A := fun s =>
  match m s with
  | (None, s') => (Some d, s')
  | r => r
  end.

(** One rule per member of an object of expected values. *)
Definition rules_of_entries (ps : list (jstr * jsval)) : M (list PruneRule) :=
  mapM (fun p : jstr * jsval =>
    normalizePruneRule (JObj [(u "path", JStr p.1); (u "mode", JStr (u "full")); (u "value", p.2)]))
    (own_entries ps).

Definition where_rules (v : jsval) : M (list PruneRule) :=
  match v with JObj ps => rules_of_entries ps | _ => mret [] end.

Definition condition_rules (v : jsval) : M (list PruneRule) :=
  match v with
  | JArr l => mapM normalizePruneRule (List.filter (fun item => truthy item && is_object item) l)
  | JObj ps => rules_of_entries ps
  | _ => mret []
  end.

Definition is_undefined (v : jsval) : bool := match v with JUndef => true | _ => false end.

Definition prune_object (parsed : jsval) : M PruneObjectsDraft :=
  rules ← where_rules (get parsed (u "where"));
  more ← condition_rules (get parsed (u "conditions"));
  typeText ← match get parsed (u "type") with
             | JUndef => mret []
             | v => lift (trim <$> to_string v)
             end;
  is_or ← lift (logic_is (get parsed (u "logic")) (u "AND") (u "OR"));
  let recursive := match get parsed (u "recursive") with JBool false => false | _ => true end in
  let hasAdvancedFields :=
    existsb (fun k => negb (is_undefined (get parsed k)))
      [u "logic"; u "recursive"; u "where"; u "conditions"] in
  mret (mkPruneDraft (negb hasAdvancedFields) typeText (if is_or : bool then u "OR" else u "AND")
          recursive (rules ++ more)).

Definition parsePruneObjectsDraft (valueText : jstr) : M PruneObjectsDraft :=
  let raw := trim valueText in
  match raw with
  | [] => mret prune_defaults
  | _ =>
      match JSON_parse raw with
      | None => mret (prune_type raw)
      | Some parsed =>
          try_or
            match parsed with
            | JStr s => mret (prune_type (trim s))
            | JObj _ => prune_object parsed
            | _ => lift ((fun s => prune_type (trim s)) <$> to_string_or_empty parsed)
            end
            (prune_type raw)
      end
  end.

Definition prune_condition (rule : PruneRule) : jsval :=
  let conditionPayload := [
    (u "path", JStr (trim (c_path rule)));
    (u "mode", JStr (if set_has CONDITION_MODE_VALUES (c_mode rule) then c_mode rule else u "full"))] in
  let valueRaw := trim (c_value_text rule) in
  let conditionPayload := put (str_truthy valueRaw) (u "value") (parseLooseValue valueRaw) conditionPayload in
  let conditionPayload := put (c_invert rule) (u "invert") (JBool true) conditionPayload in
  JObj (put (c_pass_missing_key rule) (u "pass_missing_key") (JBool true) conditionPayload).

Definition buildPruneObjectsValueText (draft : PruneObjectsDraft) : jstr :=
  let typeText := trim (pd_typeText draft) in
  if pd_simpleMode draft then typeText
  else
    let payload := put (str_truthy typeText) (u "type") (JStr typeText) [] in
    let payload :=
      put (upper_is (str_or (pd_logic draft) (u "AND")) (u "OR")) (u "logic") (JStr (u "OR")) payload in
    let payload := put (negb (pd_recursive draft)) (u "recursive") (JBool false) payload in
    let conditions :=
      map prune_condition (List.filter (fun r => str_truthy (trim (c_path r))) (pd_rules draft)) in
    let payload := put (negb (bool_decide (length conditions = 0)%nat)) (u "conditions") (JArr conditions) payload in
    if negb (truthy (get (JObj payload) (u "type"))) && negb (truthy (get (JObj payload) (u "conditions")))
    then stringify (JObj [(u "logic", JStr (u "AND"))])
    else stringify (JObj payload).

(** ** Pass-through headers *)

(** [l.map(i => String(i ?? '').trim()).filter(Boolean)]. *)
Definition header_names (l : list jsval) : option (list jstr) :=
  List.filter str_truthy <$> mapM (fun i => trim <$> to_string_or_empty i) l.

Definition parsePassHeaderNames (rawValue : jsval) : option (list jstr) :=
  match rawValue with
  | JArr l => header_names l
  | JObj _ =>
      match get rawValue (u "headers"), get rawValue (u "header") with
      | JArr l, _ => header_names l
      | _, JUndef => Some []
      | _, h => header_names [h]
      end
  | JStr s => Some (List.filter str_truthy (map trim (split 44 s)))
  | _ => Some []
  end.

Definition buildConditionPayload (condition : ParamOverrideCondition) : option jsval :=
  let path := trim (c_path condition) in
  if negb (str_truthy path) then None
  else
    let payload := [
      (u "path", JStr path);
      (u "mode", JStr (str_or (c_mode condition) (u "full")));
      (u "value", parseLooseValue (c_value_text condition))] in
    let payload := put (c_invert condition) (u "invert") (JBool true) payload in
    Some (JObj (put (c_pass_missing_key condition) (u "pass_missing_key") (JBool true) payload)).

(** ** Validation *)

(** A return_error value that is an object needs a message; a conversion that throws is
    caught and accepted. *)
Definition return_error_message_missing (raw : jstr) : bool :=
  match JSON_parse raw with
  | Some parsed =>
      is_plain_object parsed &&
      match text_or (get parsed (u "message")) (JStr []) with
      | Some s => negb (str_truthy s)
      | None => false
      end
  | None => false
  end.

(** The body of the loop for the operation on the given line. *)
Definition validateOperation (line : nat) (op : ParamOverrideOperation) : option EditorError :=
  let mode := str_or (o_mode op) (u "set") in
  let meta := mode_meta mode in
  let pathValue := str_truthy (trim (o_path op)) in
  let fromValue := str_truthy (trim (o_from op)) in
  let toValue := str_truthy (trim (o_to op)) in
  let raw := trim (o_value_text op) in
  let told key := Some (Told key (Some line)) in
  if path meta && negb pathValue then told (u "Rule {{line}} is missing target path")
  else if set_has FROM_REQUIRED_MODES mode && negb fromValue && negb (pathAlias meta && pathValue)
  then told (u "Rule {{line}} is missing source field")
  else if set_has TO_REQUIRED_MODES mode && negb toValue && negb (pathAlias meta && pathValue)
  then told (u "Rule {{line}} is missing target field")
  else if set_has VALUE_REQUIRED_MODES mode && seqb raw []
  then told (u "Rule {{line}} is missing value")
  else if seqb mode (u "return_error") && negb (str_truthy raw)
  then told (u "Rule {{line}} is missing value")
  else if seqb mode (u "return_error") && return_error_message_missing raw
  then told (u "Rule {{line}} return_error requires a message field")
  else if seqb mode (u "prune_objects") && negb (str_truthy raw)
  then told (u "Rule {{line}} prune_objects is missing conditions")
  else if seqb mode (u "pass_headers") then
    if negb (str_truthy raw) then told (u "Rule {{line}} pass_headers is missing header names")
    else match parsePassHeaderNames (parseLooseValue raw) with
         | None => Some TypeError
         | Some [] => told (u "Rule {{line}} pass_headers format is invalid")
         | Some _ => None
         end
  else None.

(** The first error of operations numbered from the given line on. *)
Fixpoint validate_from (line : nat) (operations : list ParamOverrideOperation) : option EditorError :=
  match operations with
  | [] => None
  | op :: ops =>
      match validateOperation line op with
      | Some e => Some e
      | None => validate_from (S line) ops
      end
  end.

Definition validateOperations (operations : list ParamOverrideOperation) : option EditorError :=
  validate_from 1 operations.

(** ** The state shown for a text *)

Inductive EditMode := Visual | Json.
Inductive VisualMode := Operations | Legacy.

Record EditorState := mkEditorState {
  s_editMode : EditMode;
  s_visualMode : VisualMode;
  s_legacyValue : jstr;
  s_operations : list ParamOverrideOperation;
  s_jsonText : jstr;
  s_jsonError : option EditorError
}.

(** The operations of a list of values, or one default operation. *)
Definition operations_or_default (l : list jsval) : M (list ParamOverrideOperation) :=
  match l with
  | [] => op ← createDefaultOperation; mret [op]
  | _ => mapM normalizeOperation l
  end.

Definition parseInitialState (text : jstr) : M EditorState :=
  let trimmed := trim text in
  match trimmed with
  | [] => op ← createDefaultOperation; mret (mkEditorState Visual Operations [] [op] [] None)
  | _ =>
      match JSON_parse trimmed with
      | None =>
          op ← createDefaultOperation;
          mret (mkEditorState Json Operations [] [op] text (Some (Told (u "Invalid JSON format") None)))
      | Some parsed =>
          let pretty := stringify_indent parsed in
          if is_plain_object parsed then
            match get parsed (u "operations") with
            | JArr l => ops ← operations_or_default l; mret (mkEditorState Visual Operations [] ops pretty None)
            | _ => op ← createDefaultOperation; mret (mkEditorState Visual Legacy pretty [op] pretty None)
            end
          else op ← createDefaultOperation; mret (mkEditorState Json Operations [] [op] pretty None)
      end
  end.

(** ** The text of a list of operations *)

(** The fields the mode of the operation uses. *)
Definition operation_fields (operation : ParamOverrideOperation) : list (jstr * jsval) :=
  let mode := str_or (o_mode operation) (u "set") in
  let meta := mode_meta mode in
  let descriptionValue := trim (o_description operation) in
  let pathValue := trim (o_path operation) in
  let fromValue := trim (o_from operation) in
  let toValue := trim (o_to operation) in
  let payload := [(u "mode", JStr mode)] in
  let payload := put (str_truthy descriptionValue) (u "description") (JStr descriptionValue) payload in
  let payload := put (path meta) (u "path") (JStr pathValue) payload in
  let payload := put (pathOptional meta && str_truthy pathValue) (u "path") (JStr pathValue) payload in
  let payload := put (value meta) (u "value") (parseLooseValue (o_value_text operation)) payload in
  let payload := put (keepOrigin meta && o_keep_origin operation) (u "keep_origin") (JBool true) payload in
  let payload := put (from meta) (u "from") (JStr fromValue) payload in
  let payload := put (negb (to meta) && str_truthy toValue) (u "to") (JStr toValue) payload in
  put (to meta) (u "to") (JStr toValue) payload.

(** A mode with aliases takes the path for a source or a target that is missing. *)
Definition alias_fields (operation : ParamOverrideOperation) (payload : list (jstr * jsval))
    : list (jstr * jsval) :=
  let meta := mode_meta (str_or (o_mode operation) (u "set")) in
  let pathValue := trim (o_path operation) in
  let missing k payload := pathAlias meta && negb (truthy (get (JObj payload) k)) && str_truthy pathValue in
  let payload := put (missing (u "from") payload) (u "from") (JStr pathValue) payload in
  put (missing (u "to") payload) (u "to") (JStr pathValue) payload.

Definition build_operation (operation : ParamOverrideOperation) : jsval :=
  let payload := alias_fields operation (operation_fields operation) in
  match omap buildConditionPayload (o_conditions operation) with
  | [] => JObj payload
  | conditions =>
      let payload := map_set payload (u "conditions") (JArr conditions) in
      JObj (map_set payload (u "logic")
              (JStr (if seqb (o_logic operation) (u "AND") then u "AND" else u "OR")))
  end.

(** The operations that are not blank, as a text; [inl] is a thrown error. *)
Definition buildOperationsJson (sourceOperations : list ParamOverrideOperation) (validate : bool)
    : EditorError + jstr :=
  match List.filter (fun o => negb (isOperationBlank o)) sourceOperations with
  | [] => inr []
  | filteredOps =>
      match (if validate then validateOperations filteredOps else None) with
      | Some e => inl e
      | None => inr (stringify_indent (JObj [(u "operations", JArr (map build_operation filteredOps))]))
      end
  end.

End WithClock.
