(* ===== verification/ParamOverrideEditor.v ===== *)
(** * The parameter override dialog
    (src/web/src/features/channels/components/dialogs/param-override-editor-dialog.tsx)

    The state of the dialog and its handlers. An [Event] is what the user or the parent
    does; [dispatch] runs its handler on the rendered state and then [commit]s: React
    renders, runs the effect that keeps the selection valid, and renders again. The
    text of the operations is what counts as saved; [saved] and [toasts] collect the
    calls of [onSave] and of [toast.error].

    Rendering takes ids too: the default operation is the argument of a [useState] and
    is built at every render, and the rules of the draft of a prune_objects value are
    parsed, with new ids, whenever the memo of the draft is computed. *)

From Stdlib Require Import ZArith SpecFloat.
From stdpp Require Import base numbers option list sorting.
From S2P Require Import Prelude Collections JsNumber JsValue Json Regex JsCoerce ParamOverride.

#[export] Instance ParamOverrideCondition_eq_dec : EqDecision ParamOverrideCondition.
Proof. solve_decision. Defined.
#[export] Instance ParamOverrideOperation_eq_dec : EqDecision ParamOverrideOperation.
Proof. solve_decision. Defined.

(** ** State *)

(** [localIdSeed] is the counter of the module. [shown] is the selected operation of
    the last render with the draft its memo holds. *)
Record Editor := mkEditor {
  editMode : EditMode;
  visualMode : VisualMode;
  legacyValue : jstr;
  operations : list ParamOverrideOperation;
  jsonText : jstr;
  jsonError : option EditorError;
  operationSearch : jstr;
  selectedOperationId : jstr;
  expandedConditions : list (jstr * bool);
  draggedOperationId : jstr;
  dragOverOperationId : jstr;
  dragOverPosition : DropPosition;
  templatePresetKey : jstr;
  localIdSeed : Z;
  shown : option (ParamOverrideOperation * option PruneObjectsDraft);
  isOpen : bool;
  crashed : bool;
  saved : list jstr;
  toasts : list EditorError
}.

Definition setEditMode (x : EditMode) (e : Editor) : Editor :=
  mkEditor x (visualMode e) (legacyValue e) (operations e) (jsonText e) (jsonError e) (operationSearch e)
    (selectedOperationId e) (expandedConditions e) (draggedOperationId e) (dragOverOperationId e)
    (dragOverPosition e) (templatePresetKey e) (localIdSeed e) (shown e) (isOpen e) (crashed e) (saved e)
    (toasts e).
Definition setVisualMode (x : VisualMode) (e : Editor) : Editor :=
  mkEditor (editMode e) x (legacyValue e) (operations e) (jsonText e) (jsonError e) (operationSearch e)
    (selectedOperationId e) (expandedConditions e) (draggedOperationId e) (dragOverOperationId e)
    (dragOverPosition e) (templatePresetKey e) (localIdSeed e) (shown e) (isOpen e) (crashed e) (saved e)
    (toasts e).
Definition setLegacyValue (x : jstr) (e : Editor) : Editor :=
  mkEditor (editMode e) (visualMode e) x (operations e) (jsonText e) (jsonError e) (operationSearch e)
    (selectedOperationId e) (expandedConditions e) (draggedOperationId e) (dragOverOperationId e)
    (dragOverPosition e) (templatePresetKey e) (localIdSeed e) (shown e) (isOpen e) (crashed e) (saved e)
    (toasts e).
Definition setOperations (x : list ParamOverrideOperation) (e : Editor) : Editor :=
  mkEditor (editMode e) (visualMode e) (legacyValue e) x (jsonText e) (jsonError e) (operationSearch e)
    (selectedOperationId e) (expandedConditions e) (draggedOperationId e) (dragOverOperationId e)
    (dragOverPosition e) (templatePresetKey e) (localIdSeed e) (shown e) (isOpen e) (crashed e) (saved e)
    (toasts e).
Definition setJsonText (x : jstr) (e : Editor) : Editor :=
  mkEditor (editMode e) (visualMode e) (legacyValue e) (operations e) x (jsonError e) (operationSearch e)
    (selectedOperationId e) (expandedConditions e) (draggedOperationId e) (dragOverOperationId e)
    (dragOverPosition e) (templatePresetKey e) (localIdSeed e) (shown e) (isOpen e) (crashed e) (saved e)
    (toasts e).
Definition setJsonError (x : option EditorError) (e : Editor) : Editor :=
  mkEditor (editMode e) (visualMode e) (legacyValue e) (operations e) (jsonText e) x (operationSearch e)
    (selectedOperationId e) (expandedConditions e) (draggedOperationId e) (dragOverOperationId e)
    (dragOverPosition e) (templatePresetKey e) (localIdSeed e) (shown e) (isOpen e) (crashed e) (saved e)
    (toasts e).
Definition setOperationSearch (x : jstr) (e : Editor) : Editor :=
  mkEditor (editMode e) (visualMode e) (legacyValue e) (operations e) (jsonText e) (jsonError e) x
    (selectedOperationId e) (expandedConditions e) (draggedOperationId e) (dragOverOperationId e)
    (dragOverPosition e) (templatePresetKey e) (localIdSeed e) (shown e) (isOpen e) (crashed e) (saved e)
    (toasts e).
Definition setSelectedOperationId (x : jstr) (e : Editor) : Editor :=
  mkEditor (editMode e) (visualMode e) (legacyValue e) (operations e) (jsonText e) (jsonError e)
    (operationSearch e) x (expandedConditions e) (draggedOperationId e) (dragOverOperationId e)
    (dragOverPosition e) (templatePresetKey e) (localIdSeed e) (shown e) (isOpen e) (crashed e) (saved e)
    (toasts e).
Definition setExpandedConditions (x : list (jstr * bool)) (e : Editor) : Editor :=
  mkEditor (editMode e) (visualMode e) (legacyValue e) (operations e) (jsonText e) (jsonError e)
    (operationSearch e) (selectedOperationId e) x (draggedOperationId e) (dragOverOperationId e)
    (dragOverPosition e) (templatePresetKey e) (localIdSeed e) (shown e) (isOpen e) (crashed e) (saved e)
    (toasts e).
Definition setDraggedOperationId (x : jstr) (e : Editor) : Editor :=
  mkEditor (editMode e) (visualMode e) (legacyValue e) (operations e) (jsonText e) (jsonError e)
    (operationSearch e) (selectedOperationId e) (expandedConditions e) x (dragOverOperationId e)
    (dragOverPosition e) (templatePresetKey e) (localIdSeed e) (shown e) (isOpen e) (crashed e) (saved e)
    (toasts e).
Definition setDragOverOperationId (x : jstr) (e : Editor) : Editor :=
  mkEditor (editMode e) (visualMode e) (legacyValue e) (operations e) (jsonText e) (jsonError e)
    (operationSearch e) (selectedOperationId e) (expandedConditions e) (draggedOperationId e) x
    (dragOverPosition e) (templatePresetKey e) (localIdSeed e) (shown e) (isOpen e) (crashed e) (saved e)
    (toasts e).
Definition setDragOverPosition (x : DropPosition) (e : Editor) : Editor :=
  mkEditor (editMode e) (visualMode e) (legacyValue e) (operations e) (jsonText e) (jsonError e)
    (operationSearch e) (selectedOperationId e) (expandedConditions e) (draggedOperationId e)
    (dragOverOperationId e) x (templatePresetKey e) (localIdSeed e) (shown e) (isOpen e) (crashed e)
    (saved e) (toasts e).
Definition setTemplatePresetKey (x : jstr) (e : Editor) : Editor :=
  mkEditor (editMode e) (visualMode e) (legacyValue e) (operations e) (jsonText e) (jsonError e)
    (operationSearch e) (selectedOperationId e) (expandedConditions e) (draggedOperationId e)
    (dragOverOperationId e) (dragOverPosition e) x (localIdSeed e) (shown e) (isOpen e) (crashed e)
    (saved e) (toasts e).
Definition setLocalIdSeed (x : Z) (e : Editor) : Editor :=
  mkEditor (editMode e) (visualMode e) (legacyValue e) (operations e) (jsonText e) (jsonError e)
    (operationSearch e) (selectedOperationId e) (expandedConditions e) (draggedOperationId e)
    (dragOverOperationId e) (dragOverPosition e) (templatePresetKey e) x (shown e) (isOpen e) (crashed e)
    (saved e) (toasts e).
Definition setShown (x : option (ParamOverrideOperation * option PruneObjectsDraft)) (e : Editor) : Editor :=
  mkEditor (editMode e) (visualMode e) (legacyValue e) (operations e) (jsonText e) (jsonError e)
    (operationSearch e) (selectedOperationId e) (expandedConditions e) (draggedOperationId e)
    (dragOverOperationId e) (dragOverPosition e) (templatePresetKey e) (localIdSeed e) x (isOpen e)
    (crashed e) (saved e) (toasts e).
Definition setIsOpen (x : bool) (e : Editor) : Editor :=
  mkEditor (editMode e) (visualMode e) (legacyValue e) (operations e) (jsonText e) (jsonError e)
    (operationSearch e) (selectedOperationId e) (expandedConditions e) (draggedOperationId e)
    (dragOverOperationId e) (dragOverPosition e) (templatePresetKey e) (localIdSeed e) (shown e) x
    (crashed e) (saved e) (toasts e).
Definition setCrashed (x : bool) (e : Editor) : Editor :=
  mkEditor (editMode e) (visualMode e) (legacyValue e) (operations e) (jsonText e) (jsonError e)
    (operationSearch e) (selectedOperationId e) (expandedConditions e) (draggedOperationId e)
    (dragOverOperationId e) (dragOverPosition e) (templatePresetKey e) (localIdSeed e) (shown e) (isOpen e)
    x (saved e) (toasts e).
Definition setSaved (x : list jstr) (e : Editor) : Editor :=
  mkEditor (editMode e) (visualMode e) (legacyValue e) (operations e) (jsonText e) (jsonError e)
    (operationSearch e) (selectedOperationId e) (expandedConditions e) (draggedOperationId e)
    (dragOverOperationId e) (dragOverPosition e) (templatePresetKey e) (localIdSeed e) (shown e) (isOpen e)
    (crashed e) x (toasts e).
Definition setToasts (x : list EditorError) (e : Editor) : Editor :=
  mkEditor (editMode e) (visualMode e) (legacyValue e) (operations e) (jsonText e) (jsonError e)
    (operationSearch e) (selectedOperationId e) (expandedConditions e) (draggedOperationId e)
    (dragOverOperationId e) (dragOverPosition e) (templatePresetKey e) (localIdSeed e) (shown e) (isOpen e)
    (crashed e) (saved e) x.

(** [useState] of the mounted, closed dialog, before its first render. *)
Definition initial (op : ParamOverrideOperation) (seed : Z) : Editor :=
  mkEditor Visual Operations [] [op] [] None [] [] [] [] [] Before (u "operations_default") seed None
    false false [] [].

(** ** Patches: a [Partial] of a record; [None] is an absent field. *)

Record OperationPatch := mkOperationPatch {
  p_description : option jstr;
  p_path : option jstr;
  p_mode : option jstr;
  p_from : option jstr;
  p_to : option jstr;
  p_value_text : option jstr;
  p_keep_origin : option bool;
  p_logic : option jstr
}.

Definition patch_operation (p : OperationPatch) (o : ParamOverrideOperation) : ParamOverrideOperation :=
  mkOperation (o_id o) (default (o_description o) (p_description p)) (default (o_path o) (p_path p))
    (default (o_mode o) (p_mode p)) (default (o_from o) (p_from p)) (default (o_to o) (p_to p))
    (default (o_value_text o) (p_value_text p)) (default (o_keep_origin o) (p_keep_origin p))
    (default (o_logic o) (p_logic p)) (o_conditions o).

Record ConditionPatch := mkConditionPatch {
  cp_path : option jstr;
  cp_mode : option jstr;
  cp_value_text : option jstr;
  cp_invert : option bool;
  cp_pass_missing_key : option bool
}.

Definition patch_condition (p : ConditionPatch) (c : ParamOverrideCondition) : ParamOverrideCondition :=
  mkCondition (c_id c) (default (c_path c) (cp_path p)) (default (c_mode c) (cp_mode p))
    (default (c_value_text c) (cp_value_text p)) (default (c_invert c) (cp_invert p))
    (default (c_pass_missing_key c) (cp_pass_missing_key p)).

Record ReturnErrorPatch := mkReturnErrorPatch {
  rp_message : option jstr;
  rp_statusCode : option num;
  rp_code : option jstr;
  rp_type : option jstr;
  rp_skipRetry : option bool;
  rp_simpleMode : option bool
}.

Definition patch_return_error (p : ReturnErrorPatch) (d : ReturnErrorDraft) : ReturnErrorDraft :=
  mkReturnErrorDraft (default (re_message d) (rp_message p)) (default (re_statusCode d) (rp_statusCode p))
    (default (re_code d) (rp_code p)) (default (re_type d) (rp_type p))
    (default (re_skipRetry d) (rp_skipRetry p)) (default (re_simpleMode d) (rp_simpleMode p)).

(** The patch of the field of the status code. *)
Definition status_patch (text : jstr) : ReturnErrorPatch :=
  let n := parseInt text in
  mkReturnErrorPatch None (Some (if num_truthy n then n else num_of_Z 400)) None None None None.

Record PrunePatch := mkPrunePatch {
  pp_simpleMode : option bool;
  pp_typeText : option jstr;
  pp_logic : option jstr;
  pp_recursive : option bool
}.

Definition patch_prune (p : PrunePatch) (d : PruneObjectsDraft) : PruneObjectsDraft :=
  mkPruneDraft (default (pd_simpleMode d) (pp_simpleMode p)) (default (pd_typeText d) (pp_typeText p))
    (default (pd_logic d) (pp_logic p)) (default (pd_recursive d) (pp_recursive p)) (pd_rules d).

Definition set_conditions (f : list ParamOverrideCondition -> list ParamOverrideCondition)
    (o : ParamOverrideOperation) : ParamOverrideOperation :=
  mkOperation (o_id o) (o_description o) (o_path o) (o_mode o) (o_from o) (o_to o) (o_value_text o)
    (o_keep_origin o) (o_logic o) (f (o_conditions o)).

Definition set_value_text (s : jstr) (o : ParamOverrideOperation) : ParamOverrideOperation :=
  mkOperation (o_id o) (o_description o) (o_path o) (o_mode o) (o_from o) (o_to o) s
    (o_keep_origin o) (o_logic o) (o_conditions o).

Section WithClock.
Variable now : Z -> Z.

(** ** Derived values *)

Definition selectedOperation (e : Editor) : option ParamOverrideOperation :=
  List.find (fun o => seqb (o_id o) (selectedOperationId e)) (operations e).

Definition operationCount (e : Editor) : nat :=
  length (List.filter (fun o => negb (isOperationBlank o)) (operations e)).

(** [toLowerCase] is Unicode's case mapping. *)
Definition filteredOperations (toLowerCase : jstr -> jstr) (e : Editor) : list ParamOverrideOperation :=
  let keyword := toLowerCase (trim (operationSearch e)) in
  if negb (str_truthy keyword) then operations e
  else List.filter (fun op =>
    includes (toLowerCase (join (u " ") (List.filter str_truthy
      [o_description op; o_mode op; o_path op; o_from op; o_to op; o_value_text op]))) keyword)
    (operations e).

(** The four most frequent modes with their counts. *)
Definition topOperationModes (e : Editor) : list (jstr * Z) :=
  let counts := group (fun op => str_or (o_mode op) (u "set")) (fun _ n => default 0 n + 1) [] (operations e) in
  take 4 (array_sort (fun a b => b.2 - a.2) counts).

(** The draft shown for an operation. *)
Definition prune_draft (o : ParamOverrideOperation) : M (option PruneObjectsDraft) :=
  if seqb (o_mode o) (u "prune_objects") then d ← parsePruneObjectsDraft now (o_value_text o); mret (Some d)
  else mret None.

Definition return_error_draft (o : ParamOverrideOperation) : option ReturnErrorDraft :=
  if seqb (o_mode o) (u "return_error") then Some (parseReturnErrorDraft (o_value_text o)) else None.

(** ** Running computations that take ids *)

Definition with_ids {A} (m : M A) (k : A -> Editor -> Editor) (fail : Editor -> Editor) (e : Editor) : Editor :=
  match m (localIdSeed e) with
  | (Some x, s) => k x (setLocalIdSeed s e)
  | (None, s) => fail (setLocalIdSeed s e)
  end.

(** ** Operations *)

Definition on_operation (operationId : jstr) (f : ParamOverrideOperation -> ParamOverrideOperation)
    (ops : list ParamOverrideOperation) : list ParamOverrideOperation :=
  map (fun o => if seqb (o_id o) operationId then f o else o) ops.

Definition updateOperation (operationId : jstr) (patch : OperationPatch) (e : Editor) : Editor :=
  setOperations (on_operation operationId (patch_operation patch) (operations e)) e.

Definition addOperation (e : Editor) : Editor :=
  with_ids (createDefaultOperation now) (fun created e =>
    setSelectedOperationId (o_id created) (setOperations (operations e ++ [created]) e)) id e.

(** The values of a copy, before they are normalized. *)
Definition condition_value (c : ParamOverrideCondition) : jsval :=
  JObj [(u "path", JStr (c_path c)); (u "mode", JStr (c_mode c)); (u "value", parseLooseValue (c_value_text c));
        (u "invert", JBool (c_invert c)); (u "pass_missing_key", JBool (c_pass_missing_key c))].

Definition operation_value (source : ParamOverrideOperation) : jsval :=
  JObj [(u "description", JStr (o_description source)); (u "path", JStr (o_path source));
        (u "mode", JStr (o_mode source)); (u "value", parseLooseValue (o_value_text source));
        (u "keep_origin", JBool (o_keep_origin source)); (u "from", JStr (o_from source));
        (u "to", JStr (o_to source)); (u "logic", JStr (o_logic source));
        (u "conditions", JArr (map condition_value (o_conditions source)))].

(** [eager]: React runs the update of the operations at once, so that the id of the
    copy is known when the selection is set. *)
Definition duplicateOperation (eager : bool) (operationId : jstr) (e : Editor) : Editor :=
  match find_id operationId (operations e) with
  | None => e
  | Some idx =>
      match operations e !! idx with
      | None => e
      | Some source =>
          with_ids (normalizeOperation now (operation_value source)) (fun cloned e =>
            let e := setOperations (take (S idx) (operations e) ++ cloned :: drop (S idx) (operations e)) e in
            if eager && str_truthy (o_id cloned) then setSelectedOperationId (o_id cloned) e else e) id e
      end
  end.

Definition removeOperation (operationId : jstr) (e : Editor) : Editor :=
  if (length (operations e) <=? 1)%nat then
    with_ids (createDefaultOperation now) (fun op => setOperations [op]) id e
  else setOperations (List.filter (fun o => negb (seqb (o_id o) operationId)) (operations e)) e.

(** ** Conditions *)

Definition addCondition (operationId : jstr) (e : Editor) : Editor :=
  with_ids (createDefaultCondition now) (fun created e =>
    setExpandedConditions (map_set (expandedConditions e) (c_id created) true)
      (setOperations (on_operation operationId (set_conditions (fun cs => cs ++ [created])) (operations e)) e))
    id e.

Definition on_condition (conditionId : jstr) (f : ParamOverrideCondition -> ParamOverrideCondition)
    (cs : list ParamOverrideCondition) : list ParamOverrideCondition :=
  map (fun c => if seqb (c_id c) conditionId then f c else c) cs.

Definition updateCondition (operationId conditionId : jstr) (patch : ConditionPatch) (e : Editor) : Editor :=
  setOperations (on_operation operationId (set_conditions (on_condition conditionId (patch_condition patch)))
                   (operations e)) e.

Definition removeCondition (operationId conditionId : jstr) (e : Editor) : Editor :=
  setOperations (on_operation operationId
    (set_conditions (List.filter (fun c => negb (seqb (c_id c) conditionId)))) (operations e)) e.

(** ** Drafts of values *)

Definition updateReturnErrorDraft (operationId : jstr) (draftPatch : ReturnErrorPatch) (e : Editor) : Editor :=
  setOperations (on_operation operationId (fun op =>
    set_value_text (buildReturnErrorValueText
      (patch_return_error draftPatch (parseReturnErrorDraft (o_value_text op)))) op) (operations e)) e.

(** The update of one operation: its draft is read from the text of its value, with new
    ids, changed, and written back as text. *)
Definition prune_update (operationId : jstr) (updater : PruneObjectsDraft -> M PruneObjectsDraft)
    (op : ParamOverrideOperation) : M ParamOverrideOperation :=
  if seqb (o_id op) operationId then
    draft ← parsePruneObjectsDraft now (o_value_text op);
    nextDraft ← updater draft;
    mret (set_value_text (buildPruneObjectsValueText nextDraft) op)
  else mret op.

Definition updatePruneObjectsDraft (operationId : jstr) (updater : PruneObjectsDraft -> M PruneObjectsDraft)
    (e : Editor) : Editor :=
  with_ids (mapM (prune_update operationId updater) (operations e)) setOperations id e.

Definition set_rules (f : list PruneRule -> list PruneRule) (d : PruneObjectsDraft) : PruneObjectsDraft :=
  mkPruneDraft (pd_simpleMode d) (pd_typeText d) (pd_logic d) (pd_recursive d) (f (pd_rules d)).

Definition addPruneRule (operationId : jstr) : Editor -> Editor :=
  updatePruneObjectsDraft operationId (fun draft =>
    rule ← normalizePruneRule now (JObj []);
    mret (mkPruneDraft false (pd_typeText draft) (pd_logic draft) (pd_recursive draft)
            (pd_rules draft ++ [rule]))).

Definition updatePruneRule (operationId ruleId : jstr) (patch : ConditionPatch) : Editor -> Editor :=
  updatePruneObjectsDraft operationId (fun draft =>
    mret (set_rules (on_condition ruleId (patch_condition patch)) draft)).

Definition removePruneRule (operationId ruleId : jstr) : Editor -> Editor :=
  updatePruneObjectsDraft operationId (fun draft =>
    mret (set_rules (List.filter (fun r => negb (seqb (c_id r) ruleId))) draft)).

(** ** Drag and drop *)

Definition resetDragState (e : Editor) : Editor :=
  setDragOverPosition Before (setDragOverOperationId [] (setDraggedOperationId [] e)).

Definition handleDragStart (operationId : jstr) (e : Editor) : Editor :=
  setSelectedOperationId operationId (setDraggedOperationId operationId e).

(** [below]: the pointer is in the lower half of the element. *)
Definition handleDragOver (operationId : jstr) (below : bool) (e : Editor) : Editor :=
  if negb (str_truthy (draggedOperationId e)) || seqb (draggedOperationId e) operationId then e
  else setDragOverPosition (if below then After else Before) (setDragOverOperationId operationId e).

(** [data] is what the drag carries as plain text. *)
Definition handleDrop (operationId data : jstr) (e : Editor) : Editor :=
  let sourceId := str_or (draggedOperationId e) data in
  let position := if seqb (dragOverOperationId e) operationId then dragOverPosition e else Before in
  resetDragState
    (if str_truthy sourceId && str_truthy operationId && negb (seqb sourceId operationId) then
       setSelectedOperationId sourceId
         (setOperations (reorderOperations (operations e) sourceId operationId position) e)
     else e).

(** ** Modes and templates *)

Definition buildVisualJson (e : Editor) : EditorError + jstr :=
  match visualMode e with
  | Legacy =>
      let trimmed := trim (legacyValue e) in
      match trimmed with
      | [] => inr []
      | _ =>
          match JSON_parse trimmed with
          | None => inl (Told (u "Parameter override must be valid JSON format") None)
          | Some parsed =>
              if is_plain_object parsed then inr (stringify_indent parsed)
              else inl (Told (u "Legacy format must be a JSON object") None)
          end
      end
  | Operations => buildOperationsJson (operations e) true
  end.

Definition toast (err : EditorError) (e : Editor) : Editor := setToasts (toasts e ++ [err]) e.

(** The result of a call whose error would go on; without validation there is none. *)
Definition result_or_empty (r : EditorError + jstr) : jstr := match r with inr t => t | inl _ => [] end.

Definition switchToJsonMode (e : Editor) : Editor :=
  match editMode e with
  | Json => e
  | Visual =>
      setEditMode Json
        match buildVisualJson e with
        | inr text => setJsonError None (setJsonText text e)
        | inl err =>
            let text := match visualMode e with
                        | Legacy => legacyValue e
                        | Operations => result_or_empty (buildOperationsJson (operations e) false)
                        end in
            setJsonError (Some err) (setJsonText text (toast err e))
        end
  end.

Definition first_id (ops : list ParamOverrideOperation) : jstr :=
  match ops with [] => [] | o :: _ => o_id o end.

(** The state for a list of operations, with the first one selected. *)
Definition show_operations (ops : list ParamOverrideOperation) (e : Editor) : Editor :=
  setEditMode Visual (setJsonError None (setLegacyValue []
    (setSelectedOperationId (first_id ops) (setOperations ops (setVisualMode Operations e))))).

Definition switchToVisualMode (e : Editor) : Editor :=
  match editMode e with
  | Visual => e
  | Json =>
      let trimmed := trim (jsonText e) in
      match trimmed with
      | [] => with_ids (createDefaultOperation now) (fun fallback => show_operations [fallback]) id e
      | _ =>
          match JSON_parse trimmed with
          | None => toast (Told (u "Parameter override must be valid JSON format") None) e
          | Some parsed =>
              if is_plain_object parsed then
                match get parsed (u "operations") with
                | JArr l =>
                    with_ids (operations_or_default now l) (fun nextOps e =>
                      setTemplatePresetKey (u "operations_default") (show_operations nextOps e)) id e
                | _ =>
                    with_ids (createDefaultOperation now) (fun fallback e =>
                      setTemplatePresetKey (u "legacy_default")
                        (setEditMode Visual (setJsonError None (setSelectedOperationId (o_id fallback)
                          (setOperations [fallback] (setLegacyValue (stringify_indent parsed)
                            (setVisualMode Legacy e))))))) id e
                end
              else toast (Told (u "Parameter override must be a valid JSON object") None) e
          end
      end
  end.

Inductive TemplateMode := Fill | Append.

(** The members [{ ...v }] copies: of an object its own ones, of an array or a string
    its elements, of anything else none. *)
Definition spread (v : jsval) : list (jstr * jsval) :=
  match v with
  | JObj ps => own_entries ps
  | JArr l => imap (fun i x => (N_str (N.of_nat i), x)) l
  | JStr s => imap (fun i c => (N_str (N.of_nat i), JStr [c])) s
  | _ => []
  end.

Definition merge (a b : jsval) : jsval :=
  JObj (fold_left (fun m p => map_set m p.1 p.2) (spread a ++ spread b) []).

(** The legacy editor with a text. *)
Definition show_legacy (text : jstr) (e : Editor) : Editor :=
  with_ids (createDefaultOperation now) (fun op e =>
    setEditMode Visual (setJsonError None (setJsonText text (setOperations [op]
      (setLegacyValue text (setVisualMode Legacy e)))))) id e.

Definition preset (e : Editor) : TemplatePresetConfig :=
  match map_get TEMPLATE_PRESET_CONFIG (templatePresetKey e) with
  | Some p => p
  | None => mkPreset (u "New Format Template") KindOperations OPERATION_TEMPLATE
  end.

(** The list a template's [operations] holds. *)
Definition operations_payload (v : jsval) : list jsval :=
  match get v (u "operations") with JArr l => l | _ => [] end.

Definition fillTemplate (mode : TemplateMode) (e : Editor) : Editor :=
  let payload := ParamOverride.payload (preset e) in
  match kind (preset e) with
  | KindLegacy =>
      match mode, visualMode e with
      | Append, Legacy =>
          let trimmed := trim (legacyValue e) in
          match trimmed with
          | [] => show_legacy (stringify_indent (merge payload (JObj []))) e
          | _ =>
              match JSON_parse trimmed with
              | None => toast (Told (u "Current legacy JSON is invalid, cannot append") None) e
              | Some parsedCurrent => show_legacy (stringify_indent (merge payload parsedCurrent)) e
              end
          end
      | _, _ => show_legacy (stringify_indent payload) e
      end
  | KindOperations =>
      let operationsPayload := operations_payload payload in
      match mode with
      | Append =>
          with_ids (mapM (normalizeOperation now) operationsPayload) (fun appended e =>
            let existing := match visualMode e with
                            | Operations => List.filter (fun o => negb (isOperationBlank o)) (operations e)
                            | Legacy => []
                            end in
            let nextOps := existing ++ appended in
            setJsonText [] (setEditMode Visual (setJsonError None (setLegacyValue []
              (setSelectedOperationId (str_or (first_id nextOps) (first_id appended))
                (setOperations (match nextOps with [] => appended | _ => nextOps end)
                  (setVisualMode Operations e))))))) id e
      | Fill =>
          with_ids (operations_or_default now operationsPayload) (fun finalOps e =>
            setEditMode Visual (setJsonError None
              (setJsonText (stringify_indent (JObj [(u "operations", JArr operationsPayload)]))
                (setSelectedOperationId (first_id finalOps) (setOperations finalOps
                  (setVisualMode Operations e)))))) id e
      end
  end.

Definition resetEditorState (e : Editor) : Editor :=
  with_ids (createDefaultOperation now) (fun fallback e =>
    setEditMode Visual (setTemplatePresetKey (u "operations_default") (setJsonError None (setJsonText []
      (setSelectedOperationId (o_id fallback) (setOperations [fallback] (setLegacyValue []
        (setVisualMode Operations e)))))))) id e.

Definition handleJsonChange (nextValue : jstr) (e : Editor) : Editor :=
  let e := setJsonText nextValue e in
  let trimmed := trim nextValue in
  match trimmed with
  | [] => setJsonError None e
  | _ => setJsonError (if verifyJSON trimmed then None else Some (Told (u "JSON format error") None)) e
  end.

Definition visualValidationError (e : Editor) : option EditorError :=
  match editMode e with
  | Json => None
  | Visual => match buildVisualJson e with inl err => Some err | inr _ => None end
  end.

(** What a save gives: the text for [onSave], or an error. *)
Definition save_result (e : Editor) : EditorError + jstr :=
  match editMode e with
  | Json =>
      let trimmed := trim (jsonText e) in
      match trimmed with
      | [] => inr []
      | _ => match JSON_parse trimmed with
             | None => inl (Told (u "Parameter override must be valid JSON format") None)
             | Some v => inr (stringify_indent v)
             end
      end
  | Visual => buildVisualJson e
  end.

Definition handleSave (e : Editor) : Editor :=
  match save_result e with
  | inr result => setIsOpen false (setSaved (saved e ++ [result]) e)
  | inl err => toast err e
  end.

Definition set_expanded (b : bool) (e : Editor) : Editor :=
  match selectedOperation e with
  | None => e
  | Some op => setExpandedConditions
      (fold_left (fun m c => map_set m (c_id c) b) (o_conditions op) (expandedConditions e)) e
  end.

Definition expandAllConditions : Editor -> Editor := set_expanded true.
Definition collapseAllConditions : Editor -> Editor := set_expanded false.

(** ** Effects *)

(** The effect on opening; an exception in it takes the dialog down. *)
Definition initialize (value : jstr) (e : Editor) : Editor :=
  with_ids (parseInitialState now value) (fun state e =>
    mkEditor (s_editMode state) (s_visualMode state) (s_legacyValue state) (s_operations state)
      (s_jsonText state) (s_jsonError state) [] (first_id (s_operations state)) [] [] [] Before
      (match s_visualMode state with Legacy => u "legacy_default" | Operations => u "operations_default" end)
      (localIdSeed e) (shown e) (isOpen e) (crashed e) (saved e) (toasts e))
    (setCrashed true) (setIsOpen true e).

(** The effect that keeps the selection valid. *)
Definition keepSelected (e : Editor) : Editor :=
  match operations e with
  | [] => setSelectedOperationId [] e
  | o :: _ =>
      if existsb (fun o => seqb (o_id o) (selectedOperationId e)) (operations e) then e
      else setSelectedOperationId (o_id o) e
  end.

(** A render: the argument of [useState] is built, and the memo of the draft is
    computed if the selected operation is another one, or if [fresh] says that React
    computes it again. *)
Definition render (fresh : bool) (e : Editor) : Editor :=
  with_ids (createDefaultOperation now) (fun _ e =>
    match selectedOperation e with
    | None => setShown None e
    | Some op =>
        if fresh || negb (bool_decide (fst <$> shown e = Some op)) then
          with_ids (prune_draft op) (fun d => setShown (Some (op, d))) id e
        else e
    end) id e.

Definition commit (fresh : bool) (e : Editor) : Editor := render fresh (keepSelected (render fresh e)).

(** ** Events *)

Inductive Event :=
| Open (value : jstr)
| Cancel
| UpdateOperation (operationId : jstr) (patch : OperationPatch)
| AddOperation
| DuplicateOperation (operationId : jstr)
| RemoveOperation (operationId : jstr)
| AddCondition (operationId : jstr)
| UpdateCondition (operationId conditionId : jstr) (patch : ConditionPatch)
| RemoveCondition (operationId conditionId : jstr)
| UpdateReturnErrorDraft (operationId : jstr) (patch : ReturnErrorPatch)
| UpdatePruneObjectsDraft (operationId : jstr) (patch : PrunePatch)
| AddPruneRule (operationId : jstr)
| UpdatePruneRule (operationId ruleId : jstr) (patch : ConditionPatch)
| RemovePruneRule (operationId ruleId : jstr)
| DragStart (operationId : jstr)
| DragOver (operationId : jstr) (below : bool)
| Drop (operationId data : jstr)
| DragEnd
| SwitchToJsonMode
| SwitchToVisualMode
| SelectTemplate (key : jstr)
| FillTemplate (mode : TemplateMode)
| ResetEditorState
| JsonChange (text : jstr)
| LegacyChange (text : jstr)
| Search (text : jstr)
| SelectOperation (operationId : jstr)
| ExpandCondition (conditionId : jstr) (expanded : bool)
| ExpandAllConditions
| CollapseAllConditions
| Save
| Rerender.

(** What React decides: whether an update runs at once and whether a memo is computed
    again. *)
Record ReactChoice := mkChoice { eager : bool; fresh : bool }.

Definition handle (r : ReactChoice) (ev : Event) : Editor -> Editor :=
  match ev with
  | Open v => initialize v
  | Cancel => setIsOpen false
  | UpdateOperation o p => updateOperation o p
  | AddOperation => addOperation
  | DuplicateOperation o => duplicateOperation (eager r) o
  | RemoveOperation o => removeOperation o
  | AddCondition o => addCondition o
  | UpdateCondition o c p => updateCondition o c p
  | RemoveCondition o c => removeCondition o c
  | UpdateReturnErrorDraft o p => updateReturnErrorDraft o p
  | UpdatePruneObjectsDraft o p => updatePruneObjectsDraft o (fun d => mret (patch_prune p d))
  | AddPruneRule o => addPruneRule o
  | UpdatePruneRule o i p => updatePruneRule o i p
  | RemovePruneRule o i => removePruneRule o i
  | DragStart o => handleDragStart o
  | DragOver o b => handleDragOver o b
  | Drop o d => handleDrop o d
  | DragEnd => resetDragState
  | SwitchToJsonMode => switchToJsonMode
  | SwitchToVisualMode => switchToVisualMode
  | SelectTemplate k => setTemplatePresetKey (str_or k (u "operations_default"))
  | FillTemplate m => fillTemplate m
  | ResetEditorState => resetEditorState
  | JsonChange t => handleJsonChange t
  | LegacyChange t => setLegacyValue t
  | Search t => setOperationSearch t
  | SelectOperation o => setSelectedOperationId o
  | ExpandCondition c b => fun e => setExpandedConditions (map_set (expandedConditions e) c b) e
  | ExpandAllConditions => expandAllConditions
  | CollapseAllConditions => collapseAllConditions
  | Save => handleSave
  | Rerender => id
  end.

Definition dispatch (r : ReactChoice) (ev : Event) (e : Editor) : Editor :=
  if crashed e then e
  else let e' := handle r ev e in if crashed e' then e' else commit (fresh r) e'.

(** The dialog after mounting, with the counter at [seed]. *)
Definition mount (seed : Z) : Editor :=
  match createDefaultOperation now seed with
  | (Some op, s) => commit true (initial op s)
  | (None, s) => initial (mkOperation [] [] [] [] [] [] [] false [] []) s
  end.

(** The selects offer only the options of their lists. *)
Definition offered (options : list jstr) (choice : option jstr) : bool :=
  match choice with Some m => set_has options m | None => true end.

Definition event_ok (ev : Event) : bool :=
  match ev with
  | UpdateOperation _ p => offered OPERATION_MODE_VALUES (p_mode p) && offered [u "OR"; u "AND"] (p_logic p)
  | UpdateCondition _ _ p | UpdatePruneRule _ _ p => offered CONDITION_MODE_VALUES (cp_mode p)
  | UpdatePruneObjectsDraft _ p => offered [u "AND"; u "OR"] (pp_logic p)
  | _ => true
  end.

(** The states a run of the dialog can reach. *)
Inductive reachable (seed : Z) : Editor -> Prop :=
| reach_mount : reachable seed (mount seed)
| reach_step r ev e : reachable seed e -> event_ok ev = true -> reachable seed (dispatch r ev e).

End WithClock.
