(* ===== verification/ParamOverrideProps.v ===== *)
(** * Properties of parameter overrides

    The texts of ParamOverride.v: values as text, drafts, and the round trip of a list
    of operations through its JSON text. *)

From Stdlib Require Import ZArith SpecFloat.
From stdpp Require Import base numbers option list sorting.
From S2P Require Import Prelude Collections JsNumber JsValue Json JsonProps Regex JsCoerce ParamOverride.

(** ** Printed values have no spaces at their ends *)

Abbreviation no_space := (fun c => is_space c = false).

Lemma Z_str_no_space z : Forall no_space (Z_str z).
Proof.
  unfold Z_str. assert (forall n, Forall no_space (N_str n)) as H.
  { intros n. eapply Forall_impl; [apply N_str_digits|]. intros c. apply digit_not_space. }
  destruct (z <? 0); simpl; [|done]. by constructor.
Qed.

Lemma repeat_no_space c n : is_space c = false -> Forall no_space (repeat c n).
Proof. intros H. induction n; simpl; by constructor. Qed.

Lemma num_str_pos_no_space m e : Forall no_space (num_str_pos m e).
Proof.
  unfold num_str_pos. destruct (frac m e) as [n d]. destruct (shortest _ _ _ _ _) as [r p].
  pose proof (Z_str_no_space r) as Hr. revert Hr. generalize (Z_str r). clear r. intros ds Hr.
  assert (forall b : bool, Forall no_space ((if b then u "e+" else u "e-") ++ Z_str (Z.abs (p - 1)))) as Hx.
  { intros b. apply Forall_app. split; [|apply Z_str_no_space]. destruct b; by repeat constructor. }
  destruct (_ && _); [|destruct (_ && _); [|destruct (_ && _)]].
  - apply Forall_app. split; [done|]. by apply repeat_no_space.
  - apply Forall_app. split; [by apply Forall_take|]. apply (Forall_app _ (u ".")).
    split; [by repeat constructor|]. by apply Forall_drop.
  - apply (Forall_app _ (u "0.")). split; [by repeat constructor|].
    apply Forall_app. split; [by apply repeat_no_space|done].
  - specialize (Hx (0 <=? p - 1)). cbv zeta. revert Hx.
    generalize ((if 0 <=? p - 1 then u "e+" else u "e-") ++ Z_str (Z.abs (p - 1))). intros ex Hx.
    destruct Hr as [|c ds Hc Hr]; [done|]. destruct ds as [|c' ds]; [by constructor|].
    constructor; [done|]. apply (Forall_app _ (u ".")). split; [by repeat constructor|].
    by apply Forall_app.
Qed.

Lemma num_str_no_space n : Forall no_space (num_str n).
Proof.
  destruct n as [s|s| |s m e]; cbn [num_str]; try (by repeat constructor).
  - destruct s; by repeat constructor.
  - apply Forall_app. split; [destruct s; by repeat constructor|]. apply num_str_pos_no_space.
Qed.

Lemma trimmed_ends c d s : is_space c = false -> is_space d = false -> trimmed (c :: s ++ [d]).
Proof.
  intros Hc Hd. split.
  - by intros c' s' [= <- _].
  - intros c' s' H. change (c :: s ++ [d]) with ((c :: s) ++ [d]) in H.
    apply app_inj_2 in H as [_ [= <-]]; done.
Qed.

Lemma wrap_trimmed gap indent op cl items :
  is_space op = false -> is_space cl = false -> trimmed (wrap gap indent op cl items).
Proof.
  intros Ho Hc. unfold wrap. destruct items as [|x l]; [by apply (trimmed_ends op cl [])|].
  destruct gap as [|g gap]; [by apply trimmed_ends|]. cbv zeta.
  rewrite (app_comm_cons indent [cl] 10%N), (app_comm_cons _ _ 10%N), !app_assoc.
  by apply trimmed_ends.
Qed.

Lemma serialize_trimmed gap indent v t : serialize gap indent v = Some t -> trimmed t.
Proof.
  destruct v as [| |b|n|s|l|ps]; [done|..].
  - intros [= <-]. by apply (trimmed_ends 110 108 (u "ul")).
  - cbn [serialize]. intros [= <-].
    destruct b; [by apply (trimmed_ends 116 101 (u "ru"))|by apply (trimmed_ends 102 101 (u "als"))].
  - cbn [serialize]. intros H. apply (inj Some) in H as <-. apply trimmed_no_space.
    destruct (isFinite n); [apply num_str_no_space|by repeat constructor].
  - intros [= <-]. by apply trimmed_ends.
  - rewrite serialize_arr. intros [= <-]. by apply wrap_trimmed.
  - rewrite serialize_obj. intros [= <-]. by apply wrap_trimmed.
Qed.

(** ** Values as text *)

(** A text of a value that is read as the same value again once it has been normalized:
    plain text, or JSON other than a string, with numbers that read back. *)
Definition text_keeps (t : jstr) : Prop :=
  units t /\
  match JSON_parse (trim t) with
  | Some v => json_ok v /\ is_string v = false
  | None => True
  end.

Lemma stringify_text gap v : json_ok v -> spaces gap ->
  exists t, serialize gap [] v = Some t /\ JSON_parse t = Some v /\ trimmed t /\ t <> [].
Proof.
  intros Hv Hg. destruct (stringify_parse gap v Hv Hg) as (t & Et & Ep & c & t' & -> & _).
  exists (c :: t'). split_and!; try done. by eapply serialize_trimmed.
Qed.

Lemma JSON_parse_nil : JSON_parse [] = None.
Proof. reflexivity. Qed.

(** The text shown for the value of a text. *)
Definition shown_text (t : jstr) : jstr := toValueText (parseLooseValue t).

Lemma toValueText_stringify v : json_ok v -> is_string v = false -> toValueText v = stringify v.
Proof. by destruct v. Qed.

Lemma shown_text_keeps t : text_keeps t ->
  trim (shown_text t) = shown_text t /\ JSON_parse (shown_text t) = JSON_parse (trim t) /\
  (shown_text t = [] <-> trim t = []) /\ parseLooseValue (shown_text t) = parseLooseValue t.
Proof.
  intros [_ H]. unfold shown_text, parseLooseValue. destruct (trim t) as [|c r] eqn:E; [done|].
  destruct (JSON_parse (c :: r)) as [v|] eqn:Ev; simpl default.
  - destruct H as [Hok Hs]. rewrite toValueText_stringify by done. unfold stringify, JSON_stringify.
    destruct (stringify_text [] v Hok) as (x & -> & Ep & Ht & Hne); [constructor|]. simpl default.
    rewrite (trim_trimmed x) by done. destruct x as [|d x]; [done|]. by rewrite Ep.
  - cbn [toValueText]. rewrite <- E, trim_idemp, E. by rewrite Ev.
Qed.

(** ** Equality up to ids *)

Definition erase_condition (c : ParamOverrideCondition) : ParamOverrideCondition :=
  mkCondition [] (c_path c) (c_mode c) (c_value_text c) (c_invert c) (c_pass_missing_key c).

Definition erase_operation (o : ParamOverrideOperation) : ParamOverrideOperation :=
  mkOperation [] (o_description o) (o_path o) (o_mode o) (o_from o) (o_to o) (o_value_text o)
    (o_keep_origin o) (o_logic o) (map erase_condition (o_conditions o)).

(** Two operations that differ at most in their ids. *)
Definition same_operation (o o' : ParamOverrideOperation) : Prop := erase_operation o = erase_operation o'.

#[export] Instance same_operation_equiv : Equivalence same_operation.
Proof. unfold same_operation. split; [intros a; done|intros a b ->; done|intros a b c -> ->; done]. Qed.

Lemma omap_map {A B C} (f : B -> option C) (g : A -> B) l : omap f (map g l) = omap (fun x => f (g x)) l.
Proof. induction l as [|x l IH]; csimpl; [done|]. by destruct (f (g x)); rewrite IH. Qed.

Lemma existsb_map {A B} (f : B -> bool) (g : A -> B) l : existsb f (map g l) = existsb (fun x => f (g x)) l.
Proof. induction l as [|x l IH]; simpl; [done|]. by rewrite IH. Qed.

Lemma build_erase o : build_operation (erase_operation o) = build_operation o.
Proof.
  unfold build_operation. cbn [erase_operation o_conditions o_logic].
  rewrite (omap_map buildConditionPayload erase_condition). reflexivity.
Qed.

Lemma validate_erase line o : validateOperation line (erase_operation o) = validateOperation line o.
Proof. reflexivity. Qed.

Lemma blank_erase o : isOperationBlank (erase_operation o) = isOperationBlank o.
Proof.
  unfold isOperationBlank. cbn [erase_operation o_conditions o_mode o_path o_from o_to
    o_value_text o_keep_origin].
  by rewrite (existsb_map _ erase_condition).
Qed.

#[export] Instance build_operation_proper : Proper (same_operation ==> eq) build_operation.
Proof. intros o o' H. by rewrite <- build_erase, H, build_erase. Qed.

#[export] Instance validateOperation_proper line : Proper (same_operation ==> eq) (validateOperation line).
Proof. intros o o' H. by rewrite <- validate_erase, H, validate_erase. Qed.

#[export] Instance isOperationBlank_proper : Proper (same_operation ==> eq) isOperationBlank.
Proof. intros o o' H. by rewrite <- blank_erase, H, blank_erase. Qed.

Lemma validate_from_proper line ops ops' : Forall2 same_operation ops ops' ->
  validate_from line ops = validate_from line ops'.
Proof.
  intros H. revert line. induction H as [|o o' ops ops' Ho H IH]; intros line; simpl; [done|].
  by rewrite Ho, IH.
Qed.

(** ** Running the monad *)

Lemma bind_run {A B} (k : A -> M B) (m : M A) x s s' : m s = (Some x, s') -> mbind k m s = k x s'.
Proof. intros H. unfold mbind, M_bind. by rewrite H. Qed.

Section WithClock.
Variable now : Z -> Z.

Lemma normalizeCondition_run v s : v <> JNull ->
  normalizeCondition now v s =
  (Some (mkCondition (local_id now s) (string_or_empty (get v (u "path")))
           (mode_or CONDITION_MODE_VALUES (u "full") (get v (u "mode"))) (toValueText (get v (u "value")))
           (is_true (get v (u "invert"))) (is_true (get v (u "pass_missing_key")))), s + 1).
Proof. by destruct v. Qed.

Lemma mapM_cons_run {A B} (m : A -> M B) x l s y s1 ys s2 : m x s = (Some y, s1) ->
  mapM m l s1 = (Some ys, s2) -> mapM m (x :: l) s = (Some (y :: ys), s2).
Proof.
  intros E1 E2.
  change (mapM m (x :: l) s) with ((y0 ← m x; ys0 ← mapM m l; mret (y0 :: ys0)) s).
  rewrite (bind_run _ _ _ _ _ E1). by rewrite (bind_run _ _ _ _ _ E2).
Qed.

Lemma mapM_run {A B} (m : A -> M B) (R : A -> B -> Prop) l s :
  Forall (fun x => forall s, exists y s', m x s = (Some y, s') /\ R x y) l ->
  exists ys s', mapM m l s = (Some ys, s') /\ Forall2 R l ys.
Proof.
  intros H. revert s. induction H as [|x l Hx H IH]; intros s; [by exists [], s|].
  destruct (Hx s) as (y & s1 & Ey & Hy). destruct (IH s1) as (ys & s2 & Eys & Hys).
  exists (y :: ys), s2. split; [|by constructor]. by eapply mapM_cons_run.
Qed.

(** The conditions of a value. *)
Definition conditions_of (v : jsval) : M (list ParamOverrideCondition) :=
  match get v (u "conditions") with JArr l => mapM (normalizeCondition now) l | _ => mret [] end.

Lemma normalizeOperation_eq v s : v <> JNull ->
  normalizeOperation now v s =
  match logic_is (get v (u "logic")) (u "OR") (u "AND") with
  | None => (None, s + 1)
  | Some is_and =>
      match conditions_of v (s + 1) with
      | (None, s') => (None, s')
      | (Some cs, s') =>
          (Some (mkOperation (local_id now s) (string_or_empty (get v (u "description")))
             (string_or_empty (get v (u "path"))) (mode_or OPERATION_MODE_VALUES (u "set") (get v (u "mode")))
             (string_or_empty (get v (u "from"))) (string_or_empty (get v (u "to")))
             (toValueText (get v (u "value"))) (is_true (get v (u "keep_origin")))
             (if is_and : bool then u "AND" else u "OR") cs), s')
      end
  end.
Proof.
  intros Hv.
  assert (forall k s, field_of v k s = (Some (get v k), s)) as Hf by (by destruct v).
  unfold normalizeOperation. rewrite (bind_run _ _ (local_id now s) s (s + 1)) by done.
  rewrite !(bind_run _ _ _ _ _ (Hf _ _)).
  destruct (logic_is (get v (u "logic")) (u "OR") (u "AND")) as [a|] eqn:El.
  - rewrite (bind_run _ _ a (s + 1) (s + 1)) by (by unfold lift).
    rewrite (bind_run _ _ _ _ _ (Hf _ _)). fold (conditions_of v).
    destruct (conditions_of v (s + 1)) as [[cs|] s'] eqn:Ec; [by rewrite (bind_run _ _ _ _ _ Ec)|].
    unfold mbind, M_bind. by rewrite Ec.
  - reflexivity.
Qed.

Lemma normalizeOperation_run v s l cs s' : v <> JNull ->
  to_string (js_or (get v (u "logic")) (JStr (u "OR"))) = Some l ->
  conditions_of v (s + 1) = (Some cs, s') ->
  normalizeOperation now v s =
  (Some (mkOperation (local_id now s) (string_or_empty (get v (u "description")))
           (string_or_empty (get v (u "path"))) (mode_or OPERATION_MODE_VALUES (u "set") (get v (u "mode")))
           (string_or_empty (get v (u "from"))) (string_or_empty (get v (u "to")))
           (toValueText (get v (u "value"))) (is_true (get v (u "keep_origin")))
           (if upper_is l (u "AND") then u "AND" else u "OR") cs), s').
Proof.
  intros Hv Hl Hc. rewrite normalizeOperation_eq by done. unfold logic_is. rewrite Hl.
  cbn [fmap option_fmap option_map]. by rewrite Hc.
Qed.

End WithClock.

(** ** What is shown again for a saved operation *)

Definition canon_condition (c : ParamOverrideCondition) : option ParamOverrideCondition :=
  if str_truthy (trim (c_path c)) then
    Some (mkCondition [] (trim (c_path c)) (c_mode c) (shown_text (c_value_text c)) (c_invert c)
            (c_pass_missing_key c))
  else None.

Definition canon_operation (o : ParamOverrideOperation) : ParamOverrideOperation :=
  let meta := mode_meta (o_mode o) in
  let alias x := if pathAlias meta && negb (str_truthy x) then trim (o_path o) else x in
  let cs := omap canon_condition (o_conditions o) in
  mkOperation [] (trim (o_description o)) (if path meta || pathOptional meta then trim (o_path o) else [])
    (o_mode o) (alias (if from meta then trim (o_from o) else [])) (alias (trim (o_to o)))
    (if value meta then shown_text (o_value_text o) else []) (keepOrigin meta && o_keep_origin o)
    (match cs with [] => u "OR" | _ => if seqb (o_logic o) (u "AND") then u "AND" else u "OR" end) cs.

(** The modes are among the options. *)
Definition condition_shape (c : ParamOverrideCondition) : Prop := c_mode c ∈ CONDITION_MODE_VALUES.
Definition operation_shape (o : ParamOverrideOperation) : Prop :=
  o_mode o ∈ OPERATION_MODE_VALUES /\ Forall condition_shape (o_conditions o).

Lemma str_truthy_false s : str_truthy s = false <-> s = [].
Proof. by destruct s. Qed.

Lemma str_truthy_true s : str_truthy s = true <-> s <> [].
Proof. by destruct s. Qed.

Lemma mode_or_elem modes d m : m ∈ modes -> mode_or modes d (JStr m) = m.
Proof. intros H. unfold mode_or. by rewrite (proj2 (set_has_true modes m) H). Qed.

(** Evaluates comparisons of literals. *)
Ltac literals :=
  repeat match goal with
  | |- context [seqb (u ?a) (u ?b)] =>
      let r := eval vm_compute in (seqb (u a) (u b)) in change (seqb (u a) (u b)) with r
  end; rewrite ?andb_false_r, ?andb_true_r; cbv iota.

Lemma get_cons p k v k' : get (JObj ((k, v) :: p)) k' = if seqb k k' then v else get (JObj p) k'.
Proof.
  cbn [get map_get]. fold (seqb k k'). by destruct (seqb k k').
Qed.

Lemma get_app a b k : k ∉ a.*1 -> get (JObj (a ++ b)) k = get (JObj b) k.
Proof.
  induction a as [|[k' v] a IH]; [done|]. rewrite fmap_cons, not_elem_of_cons. intros [Hk Ha].
  cbn [app]. rewrite get_cons. simpl in Hk. rewrite (proj2 (seqb_neq k' k)) by congruence. by apply IH.
Qed.

Lemma get_put b k v p k' : get (JObj (put b k v p)) k' = if b && seqb k k' then v else get (JObj p) k'.
Proof. destruct b; [apply get_map_set|done]. Qed.

Lemma build_get o k : seqb (u "conditions") k = false -> seqb (u "logic") k = false ->
  get (build_operation o) k = get (JObj (alias_fields o (operation_fields o))) k.
Proof.
  intros Hc Hl. unfold build_operation. destruct (omap _ _); [done|].
  by rewrite !get_map_set, Hc, Hl.
Qed.

Lemma mode_nonempty m : m ∈ OPERATION_MODE_VALUES -> str_or m (u "set") = m.
Proof.
  intros H. unfold str_or. destruct m; [|done]. apply set_has_true in H. vm_compute in H. discriminate H.
Qed.

Lemma cond_mode_nonempty m : m ∈ CONDITION_MODE_VALUES -> str_or m (u "full") = m.
Proof.
  intros H. unfold str_or. destruct m; [|done]. apply set_has_true in H. vm_compute in H. discriminate H.
Qed.

Lemma alias_text b v p x : string_or_empty v = x -> truthy v = str_truthy x ->
  string_or_empty (if b && negb (truthy v) && str_truthy p then JStr p else v) =
  if b && negb (str_truthy x) then p else x.
Proof.
  intros Hv ->. destruct b, (str_truthy x) eqn:E; simpl; try done.
  destruct (str_truthy p) eqn:Ep; [done|]. apply str_truthy_false in E, Ep. by subst.
Qed.

Section FieldsOf.
Variable o : ParamOverrideOperation.
Hypothesis Hmode : o_mode o ∈ OPERATION_MODE_VALUES.

Lemma field_mode : get (build_operation o) (u "mode") = JStr (o_mode o).
Proof.
  rewrite build_get by done. unfold alias_fields, operation_fields. rewrite !get_put. literals.
  rewrite mode_nonempty by done. reflexivity.
Qed.

Lemma field_description :
  string_or_empty (get (build_operation o) (u "description")) = trim (o_description o).
Proof.
  rewrite build_get by done. unfold alias_fields, operation_fields. rewrite !get_put. literals.
  destruct (str_truthy (trim (o_description o))) eqn:E; [done|].
  apply str_truthy_false in E. by rewrite E.
Qed.

Lemma field_path :
  string_or_empty (get (build_operation o) (u "path")) =
  if path (mode_meta (o_mode o)) || pathOptional (mode_meta (o_mode o)) then trim (o_path o) else [].
Proof.
  rewrite build_get by done. unfold alias_fields, operation_fields. rewrite !get_put. literals.
  rewrite mode_nonempty by done. destruct (str_truthy (trim (o_path o))) eqn:E.
  - rewrite andb_true_r. by destruct (path _), (pathOptional _).
  - apply str_truthy_false in E. rewrite andb_false_r, E. by destruct (path _), (pathOptional _).
Qed.

Lemma field_value :
  get (build_operation o) (u "value") =
  if value (mode_meta (o_mode o)) then parseLooseValue (o_value_text o) else JUndef.
Proof.
  rewrite build_get by done. unfold alias_fields, operation_fields. rewrite !get_put. literals.
  by rewrite mode_nonempty.
Qed.

Lemma field_keep_origin :
  is_true (get (build_operation o) (u "keep_origin")) =
  keepOrigin (mode_meta (o_mode o)) && o_keep_origin o.
Proof.
  rewrite build_get by done. unfold alias_fields, operation_fields. rewrite !get_put. literals.
  rewrite mode_nonempty by done. by destruct (keepOrigin _ && _).
Qed.

Lemma field_from :
  string_or_empty (get (build_operation o) (u "from")) = o_from (canon_operation o).
Proof.
  rewrite build_get by done. unfold alias_fields. rewrite !get_put. literals.
  rewrite mode_nonempty by done. apply alias_text; unfold operation_fields; rewrite !get_put; literals;
    rewrite mode_nonempty by done; by destruct (from _).
Qed.

Lemma field_to :
  string_or_empty (get (build_operation o) (u "to")) = o_to (canon_operation o).
Proof.
  rewrite build_get by done. unfold alias_fields. rewrite !get_put. literals.
  rewrite mode_nonempty by done. apply alias_text; unfold operation_fields; rewrite !get_put; literals;
    rewrite mode_nonempty by done; destruct (to _), (trim (o_to o)); reflexivity.
Qed.

End FieldsOf.

Lemma field_conditions o :
  get (build_operation o) (u "conditions") =
  match omap buildConditionPayload (o_conditions o) with [] => JUndef | cs => JArr cs end.
Proof.
  unfold build_operation. destruct (omap _ _) as [|c cs].
  - unfold alias_fields, operation_fields. rewrite !get_put. by literals.
  - rewrite !get_map_set. by literals.
Qed.

Lemma field_logic o :
  get (build_operation o) (u "logic") =
  match omap buildConditionPayload (o_conditions o) with
  | [] => JUndef
  | _ => JStr (if seqb (o_logic o) (u "AND") then u "AND" else u "OR")
  end.
Proof.
  unfold build_operation. destruct (omap _ _) as [|c cs].
  - unfold alias_fields, operation_fields. rewrite !get_put. by literals.
  - rewrite !get_map_set. by literals.
Qed.

Lemma condition_fields c v : condition_shape c -> buildConditionPayload c = Some v ->
  v <> JNull /\ canon_condition c =
  Some (mkCondition [] (string_or_empty (get v (u "path")))
          (mode_or CONDITION_MODE_VALUES (u "full") (get v (u "mode"))) (toValueText (get v (u "value")))
          (is_true (get v (u "invert"))) (is_true (get v (u "pass_missing_key")))).
Proof.
  intros Hm. unfold buildConditionPayload, canon_condition.
  destruct (str_truthy (trim (c_path c))); [|done]. cbn [negb]. intros [= <-]. split; [done|].
  rewrite cond_mode_nonempty by done.
  rewrite !get_put, !get_cons. literals. rewrite mode_or_elem by done.
  by destruct (c_invert c), (c_pass_missing_key c).
Qed.

Lemma omap_canon_nil cs : omap buildConditionPayload cs = [] <-> omap canon_condition cs = [].
Proof.
  induction cs as [|c cs IH]; [done|]. csimpl.
  unfold buildConditionPayload at 1, canon_condition at 1.
  by destruct (str_truthy (trim (c_path c))).
Qed.

Lemma match_nil {A B} (l : list A) (x : B) (f : list A -> B) :
  match l with [] => x | _ => f l end = if bool_decide (l = []) then x else f l.
Proof. by destruct l. Qed.

Section Reading.
Variable now : Z -> Z.

Lemma conditions_read cs s : Forall condition_shape cs ->
  exists cs' s', mapM (normalizeCondition now) (omap buildConditionPayload cs) s = (Some cs', s') /\
    map erase_condition cs' = omap canon_condition cs.
Proof.
  intros H. revert s. induction H as [|c cs Hc H IH]; intros s; [by exists [], s|]. csimpl.
  destruct (buildConditionPayload c) as [v|] eqn:E.
  - destruct (condition_fields c v Hc E) as [Hv ->].
    destruct (IH (s + 1)) as (cs' & s' & Em & Ee). eexists (_ :: cs'), s'. split.
    + eapply mapM_cons_run; [by apply normalizeCondition_run|done].
    + cbn [map]. by rewrite Ee.
  - destruct (IH s) as (cs' & s' & Em & Ee). exists cs', s'. split; [done|]. rewrite Ee.
    unfold buildConditionPayload in E. unfold canon_condition at 2.
    by destruct (str_truthy (trim (c_path c))).
Qed.

(** A saved operation is read as its canonical form. *)
Lemma normalize_build o s : operation_shape o ->
  exists o' s', normalizeOperation now (build_operation o) s = (Some o', s') /\
    same_operation o' (canon_operation o).
Proof.
  intros [Hm Hcs]. destruct (conditions_read (o_conditions o) (s + 1) Hcs) as (cs' & s' & Em & Ee).
  assert (build_operation o <> JNull) as Hnn.
  { unfold build_operation. by destruct (omap _ _). }
  eexists _, s'. split.
  - apply (normalizeOperation_run now _ s
      (match omap buildConditionPayload (o_conditions o) with
       | [] => u "OR" | _ => if seqb (o_logic o) (u "AND") then u "AND" else u "OR" end) cs' s' Hnn).
    + rewrite field_logic. destruct (omap _ _); [done|]. by destruct (seqb _ _).
    + unfold conditions_of. rewrite field_conditions. by destruct (omap _ _).
  - rewrite field_mode, field_description, field_path, field_value, field_keep_origin, field_from, field_to
      by done.
    rewrite mode_or_elem by done. unfold same_operation, erase_operation, canon_operation.
    cbn [o_id o_description o_path o_mode o_from o_to o_value_text o_keep_origin o_logic o_conditions].
    f_equal.
    + by destruct (value _).
    + destruct (omap buildConditionPayload (o_conditions o)) eqn:E.
      * apply omap_canon_nil in E. by rewrite E.
      * destruct (omap canon_condition (o_conditions o)) eqn:E'; [|by destruct (seqb _ _)].
        apply omap_canon_nil in E'. by rewrite E' in E.
    + rewrite <- Ee, map_map. by apply map_ext.
Qed.

End Reading.

(** ** The canonical form is saved as the same text *)

Lemma map_set_app {V} (a b : list (jstr * V)) k v : k ∉ a.*1 -> map_set (a ++ b) k v = a ++ map_set b k v.
Proof.
  induction a as [|[k' v'] a IH]; [done|]. rewrite fmap_cons, not_elem_of_cons. intros [Hk Ha].
  cbn [app map_set]. rewrite bool_decide_false by (simpl in Hk; congruence). by rewrite IH.
Qed.

(** A mode without aliases, or the one row of flags with aliases. *)
Lemma mode_meta_alias m : m ∈ OPERATION_MODE_VALUES ->
  mode_meta m = meta_headers \/ pathAlias (mode_meta m) = false.
Proof.
  assert (Forall (fun m => mode_meta m = meta_headers \/ pathAlias (mode_meta m) = false)
            OPERATION_MODE_VALUES) as H.
  { let l := eval vm_compute in OPERATION_MODE_VALUES in change OPERATION_MODE_VALUES with l.
    repeat (apply List.Forall_cons; [first [right; vm_compute; reflexivity|left; vm_compute; reflexivity]|]).
    apply List.Forall_nil. }
  intros Hm. rewrite Forall_forall in H. by apply H.
Qed.

(** The fields of a mode with aliases, up to the source. *)
Definition header_base (o : ParamOverrideOperation) : list (jstr * jsval) :=
  put (o_keep_origin o) (u "keep_origin") (JBool true)
    (put (str_truthy (trim (o_description o))) (u "description") (JStr (trim (o_description o)))
       [(u "mode", JStr (o_mode o))]).

Definition alias_of (o : ParamOverrideOperation) (x : jstr) : jstr :=
  if str_truthy x then x else trim (o_path o).

Lemma elem_of_put b k v p x : x ∈ (put b k v p).*1 -> x = k \/ x ∈ p.*1.
Proof. destruct b; [|by right]. apply (map_keys_set_elem p k v x). Qed.

Lemma header_base_fresh o k : set_has [u "mode"; u "description"; u "keep_origin"] k = false ->
  k ∉ (header_base o).*1.
Proof.
  intros H Hk. apply set_has_false in H. apply H. unfold header_base in Hk.
  apply elem_of_put in Hk as [->|Hk]; [by apply (bool_decide_unpack _)|].
  apply elem_of_put in Hk as [->|Hk]; [by apply (bool_decide_unpack _)|].
  apply list_elem_of_In in Hk as [<-|[]]. by apply (bool_decide_unpack _).
Qed.

Lemma put_alias o k x base l p :
  p = base ++ l -> get (JObj p) k = JStr x -> k ∉ base.*1 ->
  put (negb (truthy (get (JObj p) k)) && str_truthy (trim (o_path o))) k (JStr (trim (o_path o))) p
  = base ++ (if str_truthy x then l
             else if str_truthy (trim (o_path o)) then map_set l k (JStr (trim (o_path o))) else l).
Proof.
  intros -> -> Hk. cbn [truthy]. destruct (str_truthy x); [done|]. cbn [negb andb].
  destruct (str_truthy (trim (o_path o))); [|done]. by apply map_set_app.
Qed.

Lemma header_fields o : o_mode o ∈ OPERATION_MODE_VALUES -> mode_meta (o_mode o) = meta_headers ->
  alias_fields o (operation_fields o) =
  header_base o ++ [(u "from", JStr (alias_of o (trim (o_from o))));
                    (u "to", JStr (alias_of o (trim (o_to o))))].
Proof.
  intros Hm Hmeta.
  assert (operation_fields o = header_base o ++ [(u "from", JStr (trim (o_from o))); (u "to", JStr (trim (o_to o)))])
    as E.
  { unfold operation_fields. rewrite mode_nonempty, Hmeta by done. cbv beta zeta.
    transitivity (map_set (map_set (header_base o) (u "from") (JStr (trim (o_from o)))) (u "to")
                    (JStr (trim (o_to o)))); [reflexivity|].
    rewrite (map_set_fresh (header_base o) (u "from")) by (by apply header_base_fresh).
    rewrite map_set_app by (by apply header_base_fresh). reflexivity. }
  unfold alias_fields. rewrite mode_nonempty, Hmeta by done. cbv zeta. cbn [meta_headers pathAlias andb].
  rewrite (put_alias o (u "from") (trim (o_from o)) _ _ _ E);
    [|by rewrite E, get_app by (by apply header_base_fresh)|by apply header_base_fresh].
  rewrite (put_alias o (u "to") (trim (o_to o)) _ _ _ eq_refl); [| |by apply header_base_fresh].
  - unfold alias_of. f_equal.
    destruct (str_truthy (trim (o_from o))) eqn:Ef, (str_truthy (trim (o_to o))) eqn:Et,
      (str_truthy (trim (o_path o))) eqn:Ep; try reflexivity;
      try apply str_truthy_false in Ef; try apply str_truthy_false in Et;
      apply str_truthy_false in Ep; by rewrite ?Ef, ?Et, Ep.
  - rewrite get_app by (by apply header_base_fresh).
    by destruct (str_truthy (trim (o_from o))), (str_truthy (trim (o_path o))).
Qed.

Lemma plain_fields o : pathAlias (mode_meta (str_or (o_mode o) (u "set"))) = false ->
  alias_fields o (operation_fields o) = operation_fields o.
Proof. intros H. unfold alias_fields. by rewrite H. Qed.

(** The values an operation saves are read back. *)
Definition operation_keeps (o : ParamOverrideOperation) : Prop :=
  text_keeps (o_value_text o) /\ Forall (fun c => text_keeps (c_value_text c)) (o_conditions o).

Lemma canon_conditions_build cs : Forall condition_shape cs ->
  Forall (fun c => text_keeps (c_value_text c)) cs ->
  omap buildConditionPayload (omap canon_condition cs) = omap buildConditionPayload cs.
Proof.
  intros Hs Hk. induction cs as [|c cs IH]; [done|]. inversion Hs; inversion Hk; subst. csimpl.
  unfold canon_condition at 1. unfold buildConditionPayload at 2.
  destruct (str_truthy (trim (c_path c))) eqn:E; [|cbn [negb]; by apply IH]. csimpl.
  unfold buildConditionPayload at 1. cbn [c_path c_mode c_value_text c_invert c_pass_missing_key].
  destruct (shown_text_keeps (c_value_text c)) as (_ & _ & _ & Hv); [done|].
  rewrite trim_idemp, E, Hv. cbn [negb]. by rewrite IH.
Qed.

Lemma alias_idem x p :
  (if str_truthy (trim (if negb (str_truthy (trim x)) then trim p else trim x))
   then trim (if negb (str_truthy (trim x)) then trim p else trim x) else trim []) =
  if str_truthy (trim x) then trim x else trim p.
Proof.
  destruct (str_truthy (trim x)) eqn:E; cbn [negb]; rewrite trim_idemp; [by rewrite E|].
  destruct (str_truthy (trim p)) eqn:Ep; [done|]. apply str_truthy_false in Ep. by rewrite Ep.
Qed.

Lemma canon_fields o : operation_shape o -> text_keeps (o_value_text o) ->
  alias_fields (canon_operation o) (operation_fields (canon_operation o)) =
  alias_fields o (operation_fields o).
Proof.
  intros [Hm _] Hv. assert (o_mode (canon_operation o) = o_mode o) as Em by done.
  destruct (mode_meta_alias _ Hm) as [Hh|Hp].
  - rewrite !header_fields by done. unfold header_base, canon_operation, alias_of. rewrite Hh.
    cbn [o_mode o_description o_path o_from o_to o_keep_origin meta_headers path pathOptional from to
      pathAlias keepOrigin andb orb]. rewrite trim_idemp.
    by rewrite !alias_idem.
  - rewrite !plain_fields by (rewrite mode_nonempty; done). unfold operation_fields.
    rewrite Em, mode_nonempty by done. unfold canon_operation.
    cbn [o_mode o_description o_path o_from o_to o_keep_origin o_value_text]. rewrite Hp. cbn [andb].
    destruct (shown_text_keeps (o_value_text o) Hv) as (_ & _ & _ & Hl).
    destruct (mode_meta (o_mode o)) as [p po vl fr tt ko pa]. cbn [path pathOptional value from to keepOrigin].
    rewrite !trim_idemp.
    by destruct p, po, vl, fr, ko; cbn [orb andb]; rewrite ?trim_idemp, ?Hl.
Qed.

Lemma canon_build o : operation_shape o -> operation_keeps o ->
  build_operation (canon_operation o) = build_operation o.
Proof.
  intros Hs [Hv Hc]. unfold build_operation. rewrite canon_fields by done. destruct Hs as [_ Hs].
  cbn [canon_operation o_conditions o_logic]. rewrite canon_conditions_build by done.
  destruct (omap buildConditionPayload (o_conditions o)) as [|v vs] eqn:E; [done|].
  destruct (omap canon_condition (o_conditions o)) eqn:E'; [apply omap_canon_nil in E'; by rewrite E' in E|].
  by destruct (seqb (o_logic o) (u "AND")).
Qed.

(** ** Validation *)

(** What an operation needs to be saved. *)
Definition complete (o : ParamOverrideOperation) : Prop :=
  let meta := mode_meta (o_mode o) in
  let aliased := pathAlias meta = true /\ trim (o_path o) <> [] in
  let raw := trim (o_value_text o) in
  (path meta = true -> trim (o_path o) <> []) /\
  (o_mode o ∈ FROM_REQUIRED_MODES -> trim (o_from o) <> [] \/ aliased) /\
  (o_mode o ∈ TO_REQUIRED_MODES -> trim (o_to o) <> [] \/ aliased) /\
  (o_mode o ∈ VALUE_REQUIRED_MODES -> raw <> []) /\
  (o_mode o = u "return_error" -> return_error_message_missing raw = false) /\
  (o_mode o = u "pass_headers" -> exists h hs, parsePassHeaderNames (parseLooseValue raw) = Some (h :: hs)).

Lemma required_check (modes : list jstr) m (x : bool) (a : Prop) (b : bool) : (b = true <-> a) ->
  set_has modes m && negb x && negb b = false <-> (m ∈ modes -> x = true \/ a).
Proof.
  intros Hb. rewrite <- set_has_true. destruct (set_has modes m), x, b; simpl; intuition congruence.
Qed.

Lemma if_none {A} (b : bool) (e : A) (r : option A) :
  (if b then Some e else r) = None <-> b = false /\ r = None.
Proof. destruct b; split; [done|by intros [? _]|done|by intros [_ ?]]. Qed.

Lemma value_required m : m ∈ [u "return_error"; u "prune_objects"; u "pass_headers"] ->
  m ∈ VALUE_REQUIRED_MODES.
Proof.
  intros Hm. apply list_elem_of_In in Hm as [<-|[<-|[<-|[]]]]; by apply (bool_decide_unpack _).
Qed.

Lemma validate_complete line o : o_mode o ∈ OPERATION_MODE_VALUES ->
  validateOperation line o = None <-> complete o.
Proof.
  intros Hm. unfold validateOperation, complete. rewrite mode_nonempty by done. cbv zeta.
  set (raw := trim (o_value_text o)). rewrite !if_none.
  assert (forall p, pathAlias (mode_meta (o_mode o)) && str_truthy p = true <->
                    pathAlias (mode_meta (o_mode o)) = true /\ p <> []) as Ha.
  { intros p. by rewrite andb_true_iff, str_truthy_true. }
  rewrite !(required_check _ _ _ _ _ (Ha _)), !str_truthy_true.
  assert (path (mode_meta (o_mode o)) && negb (str_truthy (trim (o_path o))) = false <->
          (path (mode_meta (o_mode o)) = true -> trim (o_path o) <> [])) as ->.
  { rewrite <- str_truthy_true. destruct (path _), (str_truthy _); simpl; intuition congruence. }
  assert (set_has VALUE_REQUIRED_MODES (o_mode o) && seqb raw [] = false <->
          (o_mode o ∈ VALUE_REQUIRED_MODES -> raw <> [])) as ->.
  { rewrite <- set_has_true, <- seqb_neq. destruct (set_has _ _), (seqb _ _); simpl; intuition congruence. }
  split.
  - intros (Hp & Hf & Ht & Hv & _ & Hr & _ & Hh). split_and!; try done.
    + intros E. rewrite E, seqb_refl in Hr. done.
    + intros E. rewrite E, seqb_refl in Hh. apply if_none in Hh as [_ Hh].
      destruct (parsePassHeaderNames _) as [[|h hs]|]; [done|by exists h, hs|done].
  - intros (Hp & Hf & Ht & Hv & Hr & Hh).
    assert (forall m, set_has [u "return_error"; u "prune_objects"; u "pass_headers"] m = true ->
              seqb (o_mode o) m && negb (str_truthy raw) = false) as Hreq.
    { intros m Hin. destruct (seqb (o_mode o) m) eqn:E; [|done]. apply seqb_eq in E as <-.
      apply set_has_true, value_required, Hv in Hin. apply str_truthy_true in Hin. by rewrite Hin. }
    split_and!; try done; try (by apply Hreq).
    + destruct (seqb _ _) eqn:E; [|done]. apply seqb_eq in E. by apply Hr.
    + pose proof (Hreq (u "pass_headers") eq_refl) as Hne.
      destruct (seqb (o_mode o) (u "pass_headers")) eqn:E; [|done]. apply seqb_eq in E.
      cbn [andb] in Hne. rewrite Hne. by destruct (Hh E) as (h & hs & ->).
Qed.

(** The flags of the modes that need a field say that it is used. *)
Lemma required_flags m :
  (m ∈ FROM_REQUIRED_MODES -> from (mode_meta m) = true) /\
  (m ∈ VALUE_REQUIRED_MODES -> value (mode_meta m) = true).
Proof.
  split; intros Hm; apply list_elem_of_In in Hm;
    repeat (destruct Hm as [<-|Hm]; [vm_compute; reflexivity|]); destruct Hm.
Qed.

Lemma alias_present (b : bool) p x : trim x <> [] \/ (b = true /\ trim p <> []) ->
  trim (if b && negb (str_truthy (trim x)) then trim p else trim x) <> [].
Proof.
  rewrite <- !str_truthy_true. intros H.
  destruct (str_truthy (trim x)) eqn:E; cbn [negb]; rewrite ?andb_false_r, ?andb_true_r.
  - by rewrite trim_idemp, E.
  - destruct H as [H|[-> H]]; [done|]. by rewrite trim_idemp.
Qed.

Lemma parseLooseValue_trim t : parseLooseValue (trim t) = parseLooseValue t.
Proof. unfold parseLooseValue. by rewrite trim_idemp. Qed.

Lemma canon_complete o : operation_keeps o -> complete o -> complete (canon_operation o).
Proof.
  intros [Hk _] (Hp & Hf & Ht & Hv & Hr & Hh). destruct (required_flags (o_mode o)) as [Ff Fv].
  destruct (shown_text_keeps (o_value_text o) Hk) as (Et & Ej & En & El).
  unfold complete, canon_operation.
  cbn [o_mode o_path o_from o_to o_value_text]. split_and!.
  - intros E. rewrite E; cbn [orb]; rewrite trim_idemp. by apply Hp.
  - intros E. rewrite (Ff E). left. by apply alias_present, Hf.
  - intros E. left. by apply alias_present, Ht.
  - intros E. rewrite (Fv E), Et, En. by apply Hv.
  - intros E. assert (o_mode o ∈ VALUE_REQUIRED_MODES) as Hin
      by (apply value_required; rewrite E; by apply (bool_decide_unpack _)).
    rewrite (Fv Hin), Et. unfold return_error_message_missing. rewrite Ej. by apply Hr.
  - intros E. assert (o_mode o ∈ VALUE_REQUIRED_MODES) as Hin
      by (apply value_required; rewrite E; by apply (bool_decide_unpack _)).
    rewrite (Fv Hin), Et, El, <- parseLooseValue_trim. by apply Hh.
Qed.

Lemma complete_not_blank o : complete o -> isOperationBlank o = false.
Proof.
  intros (Hp & _). unfold isOperationBlank. destruct (seqb (o_mode o) (u "set")) eqn:E; [|done].
  apply seqb_eq in E. rewrite E in Hp.
  assert (str_truthy (trim (o_path o)) = true) as ->; [|done].
  apply str_truthy_true, Hp. vm_compute. reflexivity.
Qed.

(** ** The payload is JSON *)

(** Every text of an operation is a JavaScript string. *)
Definition operation_units (o : ParamOverrideOperation) : Prop :=
  units (o_description o) /\ units (o_path o) /\ units (o_from o) /\ units (o_to o) /\
  Forall (fun c => units (c_path c)) (o_conditions o).

Lemma json_ok_put b k v p : key_ok k = true -> (b = true -> json_ok v) -> json_ok (JObj p) ->
  json_ok (JObj (put b k v p)).
Proof. intros Hk Hv Hp. destruct b; [apply json_ok_set; auto|done]. Qed.

#[export] Hint Resolve units_trim : js.

Lemma mode_units m : m ∈ OPERATION_MODE_VALUES \/ m ∈ CONDITION_MODE_VALUES -> units m.
Proof.
  intros H. apply units_check.
  assert (forallb (forallb (fun c => c <? 65536)%N) (OPERATION_MODE_VALUES ++ CONDITION_MODE_VALUES) = true)
    as Hall by (vm_compute; reflexivity).
  rewrite forallb_forall in Hall. apply Hall. rewrite <- list_elem_of_In, elem_of_app. exact H.
Qed.

Lemma loose_value_ok t : text_keeps t -> json_ok (parseLooseValue t).
Proof.
  intros [Hu H]. unfold parseLooseValue. destruct (trim t) as [|c r] eqn:E; [constructor|].
  destruct (JSON_parse (c :: r)); [by destruct H|]. cbn [default json_ok]. rewrite <- E. by apply units_trim.
Qed.

Lemma condition_json_ok c v : condition_shape c -> units (c_path c) -> text_keeps (c_value_text c) ->
  buildConditionPayload c = Some v -> json_ok v.
Proof.
  intros Hs Hu Hk. unfold buildConditionPayload.
  destruct (str_truthy (trim (c_path c))); [|done]. cbn [negb]. intros [= <-].
  rewrite cond_mode_nonempty by done.
  set (base := [(u "path", _); _; _]).
  assert (json_ok (JObj base)) as Hb.
  { change base with (map_set (map_set [(u "path", JStr (trim (c_path c)))] (u "mode") (JStr (c_mode c)))
      (u "value") (parseLooseValue (c_value_text c))).
    apply json_ok_set; [done|by apply loose_value_ok|]. apply json_ok_set; [done|apply mode_units; by right|].
    apply json_ok_one; [done|]. by apply units_trim. }
  assert (json_ok (JObj (put (c_invert c) (u "invert") (JBool true) base))) as Hi.
  { by apply json_ok_put. }
  by apply (json_ok_put (c_pass_missing_key c) (u "pass_missing_key") (JBool true)) in Hi.
Qed.

Lemma build_json_ok o : operation_shape o -> operation_keeps o -> operation_units o ->
  json_ok (build_operation o).
Proof.
  intros [Hm Hcs] [Hv Hvs] (Hd & Hp & Hf & Ht & Hps).
  assert (json_ok (JObj (alias_fields o (operation_fields o)))) as Hb.
  { unfold alias_fields, operation_fields. rewrite mode_nonempty by done.
    repeat (apply json_ok_put; [done|intros _; try done; try (by apply units_trim); by apply loose_value_ok|]).
    apply json_ok_one; [done|]. apply mode_units. by left. }
  unfold build_operation. destruct (omap buildConditionPayload (o_conditions o)) as [|v vs] eqn:E; [done|].
  apply json_ok_set; [done|by destruct (seqb _ _); repeat constructor|].
  apply json_ok_set; [done| |done]. apply json_ok_arr. rewrite <- E. rewrite Forall_forall.
  intros x Hx. apply list_elem_of_omap in Hx as (c & Hc & Ex).
  rewrite Forall_forall in Hcs, Hvs, Hps. eapply condition_json_ok; eauto.
Qed.

(** ** The round trip *)

Definition nonblank (ops : list ParamOverrideOperation) : list ParamOverrideOperation :=
  List.filter (fun o => negb (isOperationBlank o)) ops.

(** What the round trip asks of an operation. *)
Definition operation_plain (o : ParamOverrideOperation) : Prop :=
  operation_shape o /\ operation_keeps o /\ operation_units o.

Lemma validate_from_all line ops : Forall operation_shape ops ->
  validate_from line ops = None <-> Forall complete ops.
Proof.
  intros H. revert line. induction H as [|o ops [Ho _] H IH]; intros line; simpl; [done|].
  rewrite Forall_cons, <- (IH (S line)), <- (validate_complete line o Ho).
  destruct (validateOperation line o); [split; [done|by intros [? _]]|tauto].
Qed.

Lemma nonblank_proper ops ops' : Forall2 same_operation ops ops' ->
  Forall2 same_operation (nonblank ops) (nonblank ops').
Proof.
  unfold nonblank. induction 1 as [|o o' ops ops' Ho H IH]; simpl; [done|].
  rewrite Ho. destruct (isOperationBlank o'); simpl; [done|by constructor].
Qed.

Lemma build_json_proper ops ops' validate : Forall2 same_operation ops ops' ->
  buildOperationsJson ops validate = buildOperationsJson ops' validate.
Proof.
  intros H%nonblank_proper. unfold buildOperationsJson. fold (nonblank ops) (nonblank ops').
  assert (map build_operation (nonblank ops) = map build_operation (nonblank ops')) as Eb.
  { clear -H. induction H as [|o o' l l' Ho H IH]; simpl; [done|]. by rewrite Ho, IH. }
  pose proof (validate_from_proper 1 _ _ H) as Ev. revert Eb Ev.
  destruct H as [|o o' l l' Ho H]; [done|]. intros Eb Ev. unfold validateOperations. by rewrite Ev, Eb.
Qed.

Lemma nonblank_id ops : Forall complete ops -> nonblank ops = ops.
Proof.
  intros H. apply filter_all. eapply Forall_impl; [exact H|]. intros o Ho.
  simpl. by rewrite complete_not_blank.
Qed.

Lemma build_json_complete ops : ops <> [] -> Forall operation_shape ops -> Forall complete ops ->
  buildOperationsJson ops true =
  inr (stringify_indent (JObj [(u "operations", JArr (map build_operation ops))])).
Proof.
  intros Hne Hs Hc. unfold buildOperationsJson. fold (nonblank ops). rewrite nonblank_id by done.
  destruct ops as [|o ops]; [done|]. unfold validateOperations.
  by rewrite (proj2 (validate_from_all 1 _ Hs) Hc).
Qed.

Lemma build_json_inv ops text : Forall operation_shape (nonblank ops) -> buildOperationsJson ops true = inr text ->
  (nonblank ops = [] /\ text = []) \/
  (nonblank ops <> [] /\ Forall complete (nonblank ops) /\
   text = stringify_indent (JObj [(u "operations", JArr (map build_operation (nonblank ops)))])).
Proof.
  intros Hs. unfold buildOperationsJson. fold (nonblank ops). destruct (nonblank ops) as [|o l] eqn:E.
  - intros [= <-]. by left.
  - destruct (validateOperations (o :: l)) eqn:Ev; [done|]. intros [= <-]. right. split_and!; [done| |done].
    by apply (validate_from_all 1).
Qed.

Section RoundTrip.
Variable now : Z -> Z.

Lemma default_blank s : exists op s', createDefaultOperation now s = (Some op, s') /\ nonblank [op] = [] /\
  buildOperationsJson [op] true = inr [].
Proof. eexists _, _. split; [reflexivity|]. split; vm_compute; reflexivity. Qed.

Lemma operations_read ops s : Forall operation_shape ops ->
  exists ops' s', mapM (normalizeOperation now) (map build_operation ops) s = (Some ops', s') /\
    Forall2 same_operation ops' (map canon_operation ops).
Proof.
  intros H. revert s. induction H as [|o ops Ho H IH]; intros s; [by exists [], s|].
  destruct (normalize_build now o s Ho) as (o' & s1 & E1 & H1). destruct (IH s1) as (ops' & s2 & E2 & H2).
  exists (o' :: ops'), s2. split; [by eapply mapM_cons_run|]. by constructor.
Qed.

Lemma shape_canon o : operation_shape o -> operation_shape (canon_operation o).
Proof.
  intros [Hm Hc]. split; [done|]. cbn [canon_operation o_conditions]. rewrite Forall_forall in *.
  intros c' Hc'. apply list_elem_of_omap in Hc' as (c & Hin & E). unfold canon_condition in E.
  destruct (str_truthy _); [|done]. injection E as <-. by apply (Hc c).
Qed.

(** What a text that the editor built shows when it is opened again. *)
Lemma reopen_built ops text s : Forall operation_plain (nonblank ops) -> buildOperationsJson ops true = inr text ->
  exists st s', parseInitialState now text s = (Some st, s') /\
    s_editMode st = Visual /\ s_visualMode st = Operations /\
    Forall2 same_operation (nonblank (s_operations st)) (map canon_operation (nonblank ops)) /\
    buildOperationsJson (s_operations st) true = inr text.
Proof.
  intros Hpl Hb. set (l := nonblank ops) in *.
  assert (Forall operation_shape l /\ Forall operation_keeps l /\ Forall operation_units l) as (Hs & Hk & Hu).
  { split_and!; (eapply Forall_impl; [exact Hpl|]); by intros o (? & ? & ?). }
  apply build_json_inv in Hb as [[E ->]|(Hne & Hc & ->)]; [|fold l in Hne, Hc|done].
  - fold l in E. rewrite E. destruct (default_blank s) as (op & s' & Ed & Hn & Hbd).
    exists (mkEditorState Visual Operations [] [op] [] None), s'. split_and!; try done.
    + change (parseInitialState now [] s) with
        ((op ← createDefaultOperation now; mret (mkEditorState Visual Operations [] [op] [] None)) s).
      by rewrite (bind_run _ _ _ _ _ Ed).
    + cbn [s_operations]. by rewrite Hn.
  - fold l. set (v := JObj _).
    assert (json_ok v) as Hv.
    { apply json_ok_one; [done|]. apply json_ok_arr, Forall_fmap. rewrite Forall_forall in *.
      intros o Ho. destruct (Hpl o Ho) as (? & ? & ?). by apply build_json_ok. }
    destruct (stringify_text (u "  ") v Hv) as (t & Et & Ep & Htr & Htn); [by repeat constructor|].
    assert (stringify_indent v = t) as -> by (unfold stringify_indent, JSON_stringify_indent; by rewrite Et).
    destruct (operations_read l s Hs) as (ops' & s' & Em & H2).
    assert (Forall complete (map canon_operation l)) as Hcc.
    { apply Forall_fmap. rewrite Forall_forall in *. intros o Ho. apply canon_complete; auto. }
    exists (mkEditorState Visual Operations [] ops' t None), s'. split_and!; [|done|done| |].
    + unfold parseInitialState. rewrite trim_trimmed by done. destruct t as [|c t]; [done|].
      rewrite Ep. change (is_plain_object v) with true. cbv iota zeta.
      assert (get v (u "operations") = JArr (map build_operation l)) as -> by (by unfold v; rewrite get_cons).
      assert (stringify_indent v = c :: t) as ->
        by (unfold stringify_indent, JSON_stringify_indent; by rewrite Et).
      assert (operations_or_default now (map build_operation l) s = (Some ops', s')) as Eo
        by (by destruct l).
      by rewrite (bind_run _ _ _ _ _ Eo).
    + cbn [s_operations]. rewrite <- (nonblank_id (map canon_operation l)) by done.
      by apply nonblank_proper.
    + cbn [s_operations]. rewrite (build_json_proper _ _ true H2). rewrite build_json_complete;
        [|by destruct l|apply Forall_fmap; eapply Forall_impl; [exact Hs|]; apply shape_canon|done].
      assert (map build_operation (map canon_operation l) = map build_operation l) as ->.
      { rewrite map_map. apply map_ext_in. intros o Ho. apply list_elem_of_In in Ho.
        rewrite Forall_forall in *. apply canon_build; auto. }
      fold v. unfold stringify_indent, JSON_stringify_indent. by rewrite Et.
Qed.

End RoundTrip.

(** ** Sync targets *)

(** The text of a sync target is read back. *)
Theorem sync_target_roundtrip (type : SyncType) (key : jstr) : trim key <> [] ->
  parseSyncTargetSpec (buildSyncTargetSpec type key) = (type, trim key).
Proof.
  intros Hk. assert (exists k d, trim key = k ++ [d] /\ is_space d = false) as (k & d & E & Hd).
  { destruct (exists_last Hk) as (k & d & E). exists k, d. split; [done|].
    by apply (proj2 (trimmed_trim key) d k). }
  assert (forall p q, is_space p = false -> trimmed (p :: q ++ trim key)) as Htr.
  { intros p q Hp. rewrite E, app_assoc. by apply trimmed_ends. }
  pose proof (trim_idemp key) as Ht. unfold buildSyncTargetSpec.
  assert (forall x : jstr, match trim key with [] => [] | _ => x end = x) as Hm by (by destruct (trim key)).
  rewrite Hm. unfold parseSyncTargetSpec. destruct type.
  - rewrite (trim_trimmed (u "json" ++ u ":" ++ trim key)) by (by apply (Htr 106%N (u "son:"))).
    transitivity (SyncJson, trim (trim key)); [reflexivity|by rewrite Ht].
  - rewrite (trim_trimmed (u "header" ++ u ":" ++ trim key)) by (by apply (Htr 104%N (u "eader:"))).
    transitivity (SyncHeader, trim (trim key)); [reflexivity|by rewrite Ht].
Qed.
