(* ===== verification/ParamOverrideEditorProps.v ===== *)
(** * Properties of the parameter override dialog

    Ids are fresh, so the operations, their conditions and the selection stay
    consistent in every state the dialog can reach; what saving and reopening do; what
    a drop moves; and why edits of prune rules have no effect. *)

From Stdlib Require Import ZArith SpecFloat.
From stdpp Require Import base numbers option list sorting.
From S2P Require Import Prelude Collections JsNumber JsValue Json JsonProps Regex JsCoerce.
From S2P Require Import ParamOverride ParamOverrideEditor ParamOverrideProps.

Section WithClock.
Variable now : Z -> Z.

(** ** Fresh ids *)

Lemma Z_str_no_underscore z : ~ In 95%N (Z_str z).
Proof.
  assert (forall n, ~ In 95%N (N_str n)) as H.
  { intros n Hin. pose proof (N_str_digits n) as Hd. rewrite List.Forall_forall in Hd.
    by specialize (Hd _ Hin). }
  unfold Z_str. destruct (z <? 0); [|done]. intros [E|Hin]; [done|]. by eapply H.
Qed.

Lemma local_id_inj a b : 0 <= a -> 0 <= b -> local_id now a = local_id now b -> a = b.
Proof.
  intros Ha Hb E. assert (forall n, split 95 (local_id now n) = [u "po"; Z_str (now n); Z_str n]) as Hs.
  { intros n. change (local_id now n) with (u "po" ++ 95%N :: Z_str (now n) ++ 95%N :: Z_str n).
    rewrite !split_app_sep; [|apply Z_str_no_underscore|by intros [|[|[]]]].
    by rewrite split_single by apply Z_str_no_underscore. }
  apply (f_equal (split 95)) in E. rewrite !Hs in E. injection E as _ E.
  by rewrite <- (parse_digits_Z_str a Ha), E, parse_digits_Z_str.
Qed.

(** An id taken while the counter went from [a] to [b]. *)
Definition between (a b : Z) (i : jstr) : Prop := exists n, a <= n < b /\ i = local_id now n.

(** Distinct ids taken while the counter went from [a] to [b]. *)
Definition fresh_ids (a b : Z) (l : list jstr) : Prop := NoDup l /\ Forall (between a b) l.

Lemma between_weaken a b a' b' i : a' <= a -> b <= b' -> between a b i -> between a' b' i.
Proof. intros ? ? (n & ? & ->). exists n. split; [lia|done]. Qed.

Lemma fresh_ids_weaken a b a' b' l : a' <= a -> b <= b' -> fresh_ids a b l -> fresh_ids a' b' l.
Proof.
  intros ? ? [Hn Hb]. split; [done|]. eapply Forall_impl; [exact Hb|]. intros i. by apply between_weaken.
Qed.

Lemma between_disjoint a b c i : 0 <= a -> between a b i -> ~ between b c i.
Proof.
  intros Ha (n & Hn & ->) (m & Hm & E). apply local_id_inj in E; lia.
Qed.

Lemma fresh_ids_app a b c l k : 0 <= a -> a <= b -> b <= c -> fresh_ids a b l -> fresh_ids b c k ->
  fresh_ids a c (l ++ k).
Proof.
  intros Ha Hab Hbc [Nl Bl] [Nk Bk]. split.
  - apply NoDup_app. split_and!; [done| |done]. rewrite Forall_forall in Bl, Bk.
    intros i Hl Hk. by eapply between_disjoint; [|apply Bl|apply Bk].
  - apply Forall_app. split; (eapply Forall_impl; [eassumption|]); intros i; apply between_weaken; lia.
Qed.

Lemma fresh_ids_one a b n : a <= n < b -> fresh_ids a b [local_id now n].
Proof. intros H. split; [apply NoDup_singleton|]. apply Forall_singleton. by exists n. Qed.

Lemma fresh_ids_submseteq a b l k : l ⊆+ k -> fresh_ids a b k -> fresh_ids a b l.
Proof.
  intros [k' Hs]%submseteq_Permutation [Nk Bk]. rewrite Hs in Nk, Bk.
  apply NoDup_app in Nk as [Nl _]. by apply Forall_app in Bk as [Bl _].
Qed.

(** A computation whose result has ids [f x] of its own. *)
Definition takes_ids {A} (f : A -> list jstr) (m : M A) : Prop := forall s, 0 <= s ->
  s <= (m s).2 /\ forall x, (m s).1 = Some x -> fresh_ids s (m s).2 (f x).

Lemma takes_ret {A} (f : A -> list jstr) x : f x = [] -> takes_ids f (mret x).
Proof.
  intros Hf s Hs. split; [simpl; lia|]. intros y [= <-]. rewrite Hf. by split; constructor.
Qed.

Lemma takes_lift {A} (f : A -> list jstr) o : (forall x, o = Some x -> f x = []) -> takes_ids f (lift o).
Proof.
  intros Hf s Hs. split; [simpl; lia|]. intros y Hy. rewrite (Hf y Hy). by split; constructor.
Qed.

(** The ids of the parts of a computation are the ids of its result. *)
Lemma takes_bind {A B} (f : A -> list jstr) (g : A -> B -> list jstr) (h : B -> list jstr)
    (m : M A) (k : A -> M B) :
  takes_ids f m -> (forall x, takes_ids (g x) (k x)) ->
  (forall x y s, (k x s).1 = Some y -> h y ⊆+ f x ++ g x y) -> takes_ids h (mbind k m).
Proof.
  intros Hm Hk Hh s Hs. unfold mbind, M_bind. destruct (Hm s Hs) as [Hle Hf].
  destruct (m s) as [[x|] s1]; simpl in *; [|split; [lia|done]].
  destruct (Hk x s1) as [Hle2 Hg]; [lia|]. split; [lia|]. intros y Hy.
  eapply fresh_ids_submseteq; [by eapply Hh|]. eapply fresh_ids_app; [done|exact Hle|exact Hle2|by apply Hf|].
  by apply Hg.
Qed.

Lemma takes_mapM {A B} (f : B -> list jstr) (m : A -> M B) l :
  (forall x, takes_ids f (m x)) -> takes_ids (fun ys => concat (map f ys)) (mapM m l).
Proof.
  intros Hm. induction l as [|x l IH]; [by apply takes_ret|].
  change (mapM m (x :: l)) with (y ← m x; ys ← mapM m l; mret (y :: ys)).
  eapply (takes_bind f (fun y ys => concat (map f (tail ys)))); [done| |].
  - intros y. eapply (takes_bind _ (fun _ _ => [])); [exact IH|intros ys; by apply takes_ret|].
    intros ys ys' s [= <-]. by rewrite app_nil_r.
  - intros y ys' s. unfold mbind, M_bind. destruct (mapM m l s) as [[ys|] s']; [|done].
    by intros [= <-].
Qed.

Lemma takes_weaken {A} (f g : A -> list jstr) m : (forall x, g x ⊆+ f x) -> takes_ids f m -> takes_ids g m.
Proof.
  intros Hfg Hm s Hs. destruct (Hm s Hs) as [Hle H]. split; [done|]. intros x Hx.
  eapply fresh_ids_submseteq; [apply Hfg|by apply H].
Qed.

(** A property of every result. *)
Definition yields {A} (P : A -> Prop) (m : M A) : Prop := forall s x s', m s = (Some x, s') -> P x.

Lemma yields_mapM {A B} (P : B -> Prop) (m : A -> M B) l :
  (forall x, yields P (m x)) -> yields (Forall P) (mapM m l).
Proof.
  intros Hm. induction l as [|x l IH]; intros s ys s'.
  - intros [= <- _]. constructor.
  - change (mapM m (x :: l)) with (y ← m x; ys ← mapM m l; mret (y :: ys)).
    unfold mbind at 1, M_bind at 1. destruct (m x s) as [[y|] s1] eqn:E1; [|done].
    unfold mbind at 1, M_bind at 1. destruct (mapM m l s1) as [[ys'|] s2] eqn:E2; [|done].
    intros [= <- _]. constructor; [by eapply Hm|by eapply IH].
Qed.

(** ** Ids and shape of what is read *)

Definition op_ids (o : ParamOverrideOperation) : list jstr := o_id o :: map c_id (o_conditions o).
Definition all_ids (ops : list ParamOverrideOperation) : list jstr := concat (map op_ids ops).
Definition rule_ids (d : PruneObjectsDraft) : list jstr := map c_id (pd_rules d).

Definition operation_wf (o : ParamOverrideOperation) : Prop :=
  operation_shape o /\ (o_logic o = u "AND" \/ o_logic o = u "OR").

#[local] Instance jnull_dec (v : jsval) : Decision (v = JNull).
Proof. destruct v; try (by right); by left. Defined.

Lemma takes_condition v : takes_ids (fun c => [c_id c]) (normalizeCondition now v).
Proof.
  intros s Hs. destruct (decide (v = JNull)) as [->|Hv].
  - split; [simpl; lia|done].
  - rewrite normalizeCondition_run by done. split; [simpl; lia|]. intros c [= <-].
    apply fresh_ids_one. simpl. lia.
Qed.

Lemma concat_singletons {A B} (f : A -> B) l : concat (map (fun x => [f x]) l) = map f l.
Proof. induction l as [|x l IH]; simpl; [done|]. by rewrite IH. Qed.

Lemma takes_conditions l : takes_ids (map c_id) (mapM (normalizeCondition now) l).
Proof.
  eapply takes_weaken; [|apply (takes_mapM (fun c => [c_id c])), takes_condition].
  intros cs. cbv beta. by rewrite (concat_singletons c_id cs).
Qed.

Lemma takes_operation v : takes_ids op_ids (normalizeOperation now v).
Proof.
  intros s Hs. destruct (decide (v = JNull)) as [->|Hv]; [split; [simpl; lia|done]|].
  rewrite normalizeOperation_eq by done. destruct (logic_is _ _ _); [|split; [simpl; lia|done]].
  assert (takes_ids (map c_id) (conditions_of now v)) as Hc.
  { unfold conditions_of. destruct (get v (u "conditions")); try (by apply takes_ret). apply takes_conditions. }
  destruct (Hc (s + 1)) as [Hle H]; [lia|].
  destruct (conditions_of now v (s + 1)) as [[cs|] s']; simpl in *; [|split; [lia|done]].
  split; [lia|]. intros o [= <-].
  apply (fresh_ids_app s (s + 1) s' [_]); [done|lia|done| |by apply H].
  apply fresh_ids_one. lia.
Qed.

Lemma mode_or_shape modes d v : d ∈ modes -> mode_or modes d v ∈ modes.
Proof.
  intros Hd. unfold mode_or. destruct v; try done. destruct (set_has modes s) eqn:E; [|done].
  by apply set_has_true.
Qed.

Lemma condition_yields v : yields condition_shape (normalizeCondition now v).
Proof.
  intros s c s'. destruct (decide (v = JNull)) as [->|Hv]; [done|].
  rewrite normalizeCondition_run by done. intros [= <- _].
  apply (mode_or_shape CONDITION_MODE_VALUES), set_has_true. vm_compute. reflexivity.
Qed.

Lemma operation_yields v : yields operation_wf (normalizeOperation now v).
Proof.
  intros s o s'. destruct (decide (v = JNull)) as [->|Hv]; [done|].
  rewrite normalizeOperation_eq by done. destruct (logic_is _ _ _) as [b|]; [|done].
  destruct (conditions_of now v (s + 1)) as [[cs|] s1] eqn:E; [|done]. intros [= <- _].
  split; [|destruct b; [by left|by right]]. split; [apply (mode_or_shape OPERATION_MODE_VALUES), set_has_true; vm_compute; reflexivity|].
  cbn [o_conditions]. unfold conditions_of in E.
  destruct (get v (u "conditions")); try (injection E as <- _; constructor).
  eapply (yields_mapM _ _ _ condition_yields). exact E.
Qed.

Lemma takes_default : takes_ids op_ids (createDefaultOperation now).
Proof. apply takes_operation. Qed.

Lemma takes_entries ps : takes_ids (map c_id) (rules_of_entries now ps).
Proof.
  eapply takes_weaken; [|apply (takes_mapM (fun c => [c_id c])); intros p; apply takes_condition].
  intros cs. cbv beta. by rewrite (concat_singletons c_id cs).
Qed.

Lemma takes_where v : takes_ids (map c_id) (where_rules now v).
Proof. unfold where_rules. destruct v; try (by apply takes_ret). apply takes_entries. Qed.

Lemma takes_condition_rules v : takes_ids (map c_id) (condition_rules now v).
Proof.
  unfold condition_rules. destruct v; try (by apply takes_ret); [apply takes_conditions|apply takes_entries].
Qed.

Lemma bind_none {A B} (k : A -> M B) (m : M A) s s' : m s = (None, s') -> mbind k m s = (None, s').
Proof. intros H. unfold mbind, M_bind. by rewrite H. Qed.

Lemma takes_prune_object v : takes_ids rule_ids (prune_object now v).
Proof.
  intros s Hs. unfold prune_object.
  destruct (takes_where (get v (u "where")) s Hs) as [L1 F1].
  destruct (where_rules now (get v (u "where")) s) as [[rules|] s1] eqn:E1; simpl in L1, F1;
    [rewrite (bind_run _ _ _ _ _ E1)|rewrite (bind_none _ _ _ _ E1); split; [done|done]].
  destruct (takes_condition_rules (get v (u "conditions")) s1) as [L2 F2]; [lia|].
  destruct (condition_rules now (get v (u "conditions")) s1) as [[more|] s2] eqn:E2; simpl in L2, F2;
    [rewrite (bind_run _ _ _ _ _ E2)|rewrite (bind_none _ _ _ _ E2); split; [simpl; lia|done]].
  assert (exists o, match get v (u "type") with JUndef => mret [] | v => lift (trim <$> to_string v) end s2
                    = (o, s2)) as [[t|] E3] by (destruct (get v (u "type")); by eexists);
    [rewrite (bind_run _ _ _ _ _ E3)|rewrite (bind_none _ _ _ _ E3); split; [simpl; lia|done]].
  destruct (logic_is (get v (u "logic")) (u "AND") (u "OR")) as [b|].
  - rewrite (bind_run _ _ b s2 s2) by done. split; [simpl; lia|].
    intros d [= <-]. unfold rule_ids. cbn [pd_rules snd]. rewrite map_app.
    eapply fresh_ids_app; [done|exact L1|exact L2|by apply F1|by apply F2].
  - rewrite (bind_none _ _ s2 s2) by done. split; [simpl; lia|done].
Qed.

Lemma takes_try {A} (f : A -> list jstr) m d : f d = [] -> takes_ids f m -> takes_ids f (try_or m d).
Proof.
  intros Hd Hm s Hs. destruct (Hm s Hs) as [L F]. unfold try_or.
  destruct (m s) as [[x|] s']; [done|]. split; [done|]. intros x [= <-]. rewrite Hd. by split; constructor.
Qed.

(** Reading a draft gives every rule a new id and never throws. *)
Lemma takes_prune t : takes_ids rule_ids (parsePruneObjectsDraft now t).
Proof.
  unfold parsePruneObjectsDraft. destruct (trim t) as [|c r]; [by apply takes_ret|].
  destruct (JSON_parse _) as [v|]; [|by apply takes_ret]. apply takes_try; [done|].
  destruct v; try (by apply takes_ret); try apply takes_prune_object.
  all: apply takes_lift; intros d Hd; apply fmap_Some in Hd as (x & _ & ->); reflexivity.
Qed.

Lemma prune_total t s : exists d s', parsePruneObjectsDraft now t s = (Some d, s').
Proof.
  unfold parsePruneObjectsDraft. destruct (trim t) as [|c r]; [by eexists _, _|].
  destruct (JSON_parse _) as [v|]; [|by eexists _, _]. unfold try_or.
  destruct (_ s) as [[d|] s']; by eexists _, _.
Qed.

(** ** The invariant *)

(** The operations, the counter and the rendered draft of a state. *)
Definition operations_ok (seed : Z) (ops : list ParamOverrideOperation) : Prop :=
  ops <> [] /\ fresh_ids 0 seed (all_ids ops) /\ Forall operation_wf ops.

Definition shown_ok (seed : Z) (sh : option (ParamOverrideOperation * option PruneObjectsDraft)) : Prop :=
  forall op d, sh = Some (op, Some d) -> Forall (between 0 seed) (rule_ids d).

Definition editor_ok (e : Editor) : Prop :=
  0 <= localIdSeed e /\ operations_ok (localIdSeed e) (operations e) /\ shown_ok (localIdSeed e) (shown e).

Lemma editor_ok_seed s e : localIdSeed e <= s -> editor_ok e -> editor_ok (setLocalIdSeed s e).
Proof.
  intros Hs (H0 & (Hne & Hf & Hw) & Hsh). split_and!; simpl; [lia| |].
  - split_and!; [done| |done]. eapply fresh_ids_weaken; [| |exact Hf]; lia.
  - intros op d E. eapply Forall_impl; [by eapply Hsh|]. intros i. apply between_weaken; lia.
Qed.

Lemma editor_ok_operations ops e : editor_ok e -> operations_ok (localIdSeed e) ops ->
  editor_ok (setOperations ops e).
Proof. intros (H0 & _ & Hsh) H. by split_and!. Qed.

(** A computation that takes ids from the counter, whatever is done with its result. *)
Lemma editor_ok_with_ids {A} (f : A -> list jstr) (m : M A) k fail e :
  editor_ok e -> takes_ids f m ->
  (forall x s', m (localIdSeed e) = (Some x, s') -> localIdSeed e <= s' ->
     fresh_ids (localIdSeed e) s' (f x) -> editor_ok (k x (setLocalIdSeed s' e))) ->
  (forall e', editor_ok e' -> editor_ok (fail e')) ->
  editor_ok (with_ids m k fail e).
Proof.
  intros He Hm Hk Hf. unfold with_ids. destruct He as (H0 & Hops & Hsh).
  destruct (Hm (localIdSeed e) H0) as [L F].
  destruct (m (localIdSeed e)) as [[x|] s'] eqn:E; simpl in L, F.
  - apply Hk; [done|done|by apply F].
  - apply Hf, editor_ok_seed; done.
Qed.

Lemma all_ids_app a b : all_ids (a ++ b) = all_ids a ++ all_ids b.
Proof. unfold all_ids. by rewrite map_app, concat_app. Qed.

Lemma all_ids_perm a b : a ≡ₚ b -> all_ids a ≡ₚ all_ids b.
Proof.
  intros H. unfold all_ids. induction H as [|x a b H IH|x y a|a b c H1 IH1 H2 IH2]; cbn [map concat].
  - done.
  - by rewrite IH.
  - rewrite !app_assoc. apply Permutation_app_tail, Permutation_app_comm.
  - by rewrite IH1.
Qed.

Lemma all_ids_filter (f : ParamOverrideOperation -> bool) ops : all_ids (List.filter f ops) ⊆+ all_ids ops.
Proof.
  unfold all_ids. induction ops as [|o ops IH]; [done|]. cbn [List.filter].
  destruct (f o); cbn [map concat]; [by apply submseteq_skips_l|]. by apply submseteq_inserts_l.
Qed.

Lemma operations_ok_perm s a b : a ≡ₚ b -> operations_ok s a -> operations_ok s b.
Proof.
  intros Hp (Hne & Hf & Hw). split_and!.
  - intros ->. by apply Permutation_nil_r in Hp.
  - eapply fresh_ids_submseteq; [|exact Hf]. by rewrite (all_ids_perm _ _ Hp).
  - by rewrite <- Hp.
Qed.

(** New operations beside the old ones. *)
Lemma operations_ok_add s s' ops new : 0 <= s -> s <= s' -> fresh_ids 0 s (all_ids ops) ->
  Forall operation_wf ops -> fresh_ids s s' (all_ids new) -> Forall operation_wf new -> ops ++ new <> [] ->
  operations_ok s' (ops ++ new).
Proof.
  intros H0 Hs Hf Hw Hf' Hw' Hne. split_and!; [done| |by apply Forall_app].
  rewrite all_ids_app. by eapply fresh_ids_app.
Qed.

Lemma operations_ok_new s s' ops : 0 <= s -> s <= s' -> ops <> [] -> fresh_ids s s' (all_ids ops) ->
  Forall operation_wf ops -> operations_ok s' ops.
Proof.
  intros H0 Hs Hne Hf Hw. split_and!; [done| |done]. eapply fresh_ids_weaken; [exact H0|reflexivity|exact Hf].
Qed.

(** ** Handlers *)

Lemma on_operation_ids id f ops : (forall o, op_ids (f o) ⊆+ op_ids o) ->
  all_ids (on_operation id f ops) ⊆+ all_ids ops.
Proof.
  intros Hf. unfold all_ids, on_operation. induction ops as [|o ops IH]; [done|]. cbn [map concat].
  apply submseteq_app; [|done]. destruct (seqb (o_id o) id); [apply Hf|done].
Qed.

Lemma on_operation_wf id f ops : (forall o, operation_wf o -> operation_wf (f o)) ->
  Forall operation_wf ops -> Forall operation_wf (on_operation id f ops).
Proof.
  intros Hf H. unfold on_operation. induction H as [|o ops Ho H IH]; [constructor|]. cbn [map].
  constructor; [destruct (seqb (o_id o) id); auto|done].
Qed.

Lemma editor_ok_on id f e : editor_ok e -> (forall o, op_ids (f o) ⊆+ op_ids o) ->
  (forall o, operation_wf o -> operation_wf (f o)) ->
  editor_ok (setOperations (on_operation id f (operations e)) e).
Proof.
  intros He Hi Hw. apply editor_ok_operations; [done|]. destruct He as (_ & (Hne & Hf & Hws) & _). split_and!.
  - unfold on_operation. by destruct (operations e).
  - eapply fresh_ids_submseteq; [by apply on_operation_ids|done].
  - by apply on_operation_wf.
Qed.

(** The counter goes on and new operations replace or join the old ones. *)
Lemma editor_ok_replace {e s'} ops : editor_ok e -> localIdSeed e <= s' -> ops <> [] ->
  fresh_ids (localIdSeed e) s' (all_ids ops) -> Forall operation_wf ops ->
  editor_ok (setOperations ops (setLocalIdSeed s' e)).
Proof.
  intros He Hs Hne Hf Hw. apply editor_ok_operations; [by apply editor_ok_seed|].
  destruct He as (H0 & _). by eapply (operations_ok_new (localIdSeed e)).
Qed.

Lemma default_wf op s s' : createDefaultOperation now s = (Some op, s') -> operation_wf op.
Proof. apply operation_yields. Qed.

Lemma all_ids_one o : all_ids [o] = op_ids o.
Proof. unfold all_ids. cbn [map concat]. by rewrite app_nil_r. Qed.

(** One default operation and no other. *)
Lemma editor_ok_default k e : editor_ok e ->
  (forall op e', editor_ok (setOperations [op] e') -> editor_ok (k op e')) ->
  editor_ok (with_ids (createDefaultOperation now) k id e).
Proof.
  intros He Hk. eapply editor_ok_with_ids; [done|apply takes_default| |done].
  intros op s' E Hs Hf. apply Hk. apply editor_ok_replace; [done|done|done| |].
  - by rewrite all_ids_one.
  - constructor; [by eapply default_wf|constructor].
Qed.

Lemma takes_operations l : takes_ids all_ids (mapM (normalizeOperation now) l).
Proof. apply (takes_mapM op_ids), takes_operation. Qed.

Lemma operations_yield l : yields (Forall operation_wf) (mapM (normalizeOperation now) l).
Proof. apply yields_mapM, operation_yields. Qed.

Lemma mapM_length {A B} (m : A -> M B) l s ys s' : mapM m l s = (Some ys, s') -> length ys = length l.
Proof.
  revert s ys. induction l as [|x l IH]; intros s ys; [by intros [= <- _]|].
  change (mapM m (x :: l)) with (y ← m x; ys ← mapM m l; mret (y :: ys)).
  unfold mbind at 1, M_bind at 1. destruct (m x s) as [[y|] s1]; [|done].
  unfold mbind at 1, M_bind at 1. destruct (mapM m l s1) as [[ys'|] s2] eqn:E2; [|done].
  intros [= <- ->]. simpl. f_equal. by eapply IH.
Qed.

Lemma takes_or_default l : takes_ids all_ids (operations_or_default now l).
Proof.
  destruct l as [|v l]; [|apply takes_operations]. unfold operations_or_default.
  eapply (takes_bind op_ids (fun _ _ => [])); [apply takes_default|intros op|].
  - by apply takes_ret.
  - intros op ops s [= <-]. by rewrite all_ids_one, app_nil_r.
Qed.

Lemma or_default_yields l : yields (fun ops => ops <> [] /\ Forall operation_wf ops) (operations_or_default now l).
Proof.
  intros s ops s'. destruct l as [|v l].
  - unfold operations_or_default, mbind, M_bind.
    destruct (createDefaultOperation now s) as [[op|] s1] eqn:E; [|done]. intros [= <- _].
    split; [done|]. constructor; [by eapply default_wf|constructor].
  - intros E. split; [|by eapply operations_yield]. apply mapM_length in E. by destruct ops.
Qed.

(** The operations a list of values shows. *)
Lemma editor_ok_or_default l k e : editor_ok e ->
  (forall ops e', editor_ok (setOperations ops e') -> editor_ok (k ops e')) ->
  editor_ok (with_ids (operations_or_default now l) k id e).
Proof.
  intros He Hk. eapply editor_ok_with_ids; [done|apply takes_or_default| |done].
  intros ops s' E Hs Hf. apply Hk. destruct (or_default_yields l _ _ _ E) as [Hne Hw].
  by apply editor_ok_replace.
Qed.

Lemma updateOperation_ok id p e : editor_ok e -> event_ok (UpdateOperation id p) = true ->
  editor_ok (updateOperation id p e).
Proof.
  intros He Hev. apply editor_ok_on; [done|done|]. intros o [[Hm Hc] Hl].
  cbn [event_ok] in Hev. apply andb_true_iff in Hev as [Em El]. split; [split|]; [|done|].
  - cbn [patch_operation o_mode]. destruct (p_mode p); [|done]. by apply set_has_true.
  - cbn [patch_operation o_logic]. destruct (p_logic p); [|done]. apply set_has_true in El.
    apply list_elem_of_In in El as [<-|[<-|[]]]; [by right|by left].
Qed.

Lemma updateCondition_ok id cid p e : editor_ok e -> event_ok (UpdateCondition id cid p) = true ->
  editor_ok (updateCondition id cid p e).
Proof.
  intros He Hev. cbn [event_ok] in Hev. apply editor_ok_on; [done| |].
  - intros o. unfold op_ids. cbn [set_conditions o_id o_conditions]. unfold on_condition.
    rewrite map_map. erewrite map_ext; [done|]. intros c. by destruct (seqb (c_id c) cid).
  - intros o [[Hm Hc] Hl]. split; [split|]; [done| |done]. cbn [set_conditions o_conditions].
    unfold on_condition. clear Hl Hm. induction Hc as [|c cs Hc Hcs IH]; [constructor|]. constructor; [|done].
    destruct (seqb (c_id c) cid); [|done]. unfold condition_shape. cbn [patch_condition c_mode].
    destruct (cp_mode p); [|done]. by apply set_has_true.
Qed.

Lemma removeCondition_ok id cid e : editor_ok e -> editor_ok (removeCondition id cid e).
Proof.
  intros He. apply editor_ok_on; [done| |].
  - intros o. unfold op_ids. cbn [set_conditions o_id o_conditions]. apply submseteq_skip.
    induction (o_conditions o) as [|c cs IH]; [done|]. cbn [List.filter].
    destruct (negb _); cbn [map]; [by apply submseteq_skip|by apply submseteq_cons].
  - intros o [[Hm Hc] Hl]. split; [split|]; [done| |done]. cbn [set_conditions o_conditions].
    rewrite List.Forall_forall in *. intros c Hin. apply filter_In in Hin as [Hin _]. auto.
Qed.

Lemma updateReturnErrorDraft_ok id p e : editor_ok e -> editor_ok (updateReturnErrorDraft id p e).
Proof. intros He. by apply editor_ok_on. Qed.

Lemma addOperation_ok e : editor_ok e -> editor_ok (addOperation now e).
Proof.
  intros He. eapply editor_ok_with_ids; [done|apply takes_default| |done].
  intros op s' E Hs Hf. apply (editor_ok_operations _ (setLocalIdSeed s' e)); [by apply editor_ok_seed|].
  destruct He as (H0 & (Hne & Hfi & Hw) & _).
  eapply operations_ok_add; [exact H0|exact Hs|done|done|by rewrite all_ids_one| |by intros [_ ?]%app_eq_nil].
  constructor; [by eapply default_wf|constructor].
Qed.

Lemma duplicateOperation_ok b id e : editor_ok e -> editor_ok (duplicateOperation now b id e).
Proof.
  intros He. unfold duplicateOperation. destruct (find_id id (operations e)) as [idx|]; [|done].
  destruct (operations e !! idx) as [src|]; [|done].
  eapply editor_ok_with_ids; [done|apply takes_operation| |done]. intros op s' E Hs Hf.
  assert (editor_ok (setOperations (take (S idx) (operations e) ++ op :: drop (S idx) (operations e))
    (setLocalIdSeed s' e))) as Hok; [|by destruct (b && _)].
  apply editor_ok_operations; [by apply editor_ok_seed|]. destruct He as (H0 & (Hne & Hfi & Hw) & _).
  eapply (operations_ok_perm _ (operations e ++ [op])).
  - rewrite <- (take_drop (S idx) (operations e)) at 1. rewrite <- app_assoc.
    apply Permutation_app_head. symmetry. apply Permutation_cons_append.
  - eapply operations_ok_add; [exact H0|exact Hs|done|done|by rewrite all_ids_one| |by intros [_ ?]%app_eq_nil].
    constructor; [by eapply operation_yields|constructor].
Qed.

Lemma all_ids_o_id o ops : o ∈ ops -> o_id o ∈ all_ids ops.
Proof.
  intros Ho. unfold all_ids. apply list_elem_of_In, in_concat. exists (op_ids o).
  split; [by apply in_map, list_elem_of_In|by left].
Qed.

Lemma all_ids_cons o ops : all_ids (o :: ops) = op_ids o ++ all_ids ops.
Proof. done. Qed.

Lemma remove_keeps_one id ops : NoDup (all_ids ops) -> (1 < length ops)%nat ->
  List.filter (fun o => negb (seqb (o_id o) id)) ops <> [].
Proof.
  destruct ops as [|a [|b ops]]; simpl; [lia|lia|]. intros Hn _.
  destruct (seqb (o_id a) id) eqn:Ea; [|done]. destruct (seqb (o_id b) id) eqn:Eb; [|done].
  apply seqb_eq in Ea, Eb. exfalso. rewrite all_ids_cons in Hn. apply NoDup_app in Hn as (_ & Hd & _).
  apply (Hd (o_id a)); [left|]. rewrite Ea, <- Eb. apply all_ids_o_id. left.
Qed.

Lemma removeOperation_ok id e : editor_ok e -> editor_ok (removeOperation now id e).
Proof.
  intros He. unfold removeOperation. destruct (length (operations e) <=? 1)%nat eqn:El.
  - by apply editor_ok_default.
  - apply Nat.leb_gt in El. apply editor_ok_operations; [done|].
    destruct He as (_ & (Hne & Hf & Hw) & _). split_and!.
    + apply remove_keeps_one; [apply Hf|done].
    + eapply fresh_ids_submseteq; [apply all_ids_filter|done].
    + rewrite List.Forall_forall in *. intros o Ho. apply filter_In in Ho as [Ho _]. auto.
Qed.

Lemma add_condition_ids id c ops : NoDup (all_ids ops) ->
  all_ids (on_operation id (set_conditions (fun cs => cs ++ [c])) ops) ⊆+ c_id c :: all_ids ops.
Proof.
  induction ops as [|o ops IH]; intros Hn; [by apply submseteq_nil_l|].
  rewrite all_ids_cons in Hn. apply NoDup_app in Hn as (_ & Hd & Hn'). cbn [on_operation map].
  rewrite !all_ids_cons. destruct (seqb (o_id o) id) eqn:E.
  - apply seqb_eq in E.
    assert (map (fun o => if seqb (o_id o) id then set_conditions (fun cs => cs ++ [c]) o else o) ops = ops) as ->.
    { rewrite <- map_id. apply map_ext_in. intros o' Ho'. destruct (seqb (o_id o') id) eqn:E'; [|done].
      apply seqb_eq in E'. exfalso. apply (Hd (o_id o)); [left|]. rewrite E, <- E'.
      by apply all_ids_o_id, list_elem_of_In. }
    apply Permutation_submseteq. unfold op_ids. cbn [set_conditions o_id o_conditions].
    rewrite map_app. cbn [map]. rewrite app_comm_cons, <- app_assoc. symmetry. apply Permutation_middle.
  - change (c_id c :: op_ids o ++ all_ids ops) with ([c_id c] ++ op_ids o ++ all_ids ops).
    rewrite (Permutation_app_swap_app [c_id c]). apply submseteq_skips_l. by apply IH.
Qed.

Lemma addCondition_ok id e : editor_ok e -> editor_ok (addCondition now id e).
Proof.
  intros He. eapply editor_ok_with_ids; [done|apply takes_condition| |done].
  intros c s' E Hs Hf.
  assert (editor_ok (setOperations (on_operation id (set_conditions (fun cs => cs ++ [c])) (operations e))
    (setLocalIdSeed s' e))) as Hok; [|exact Hok].
  apply editor_ok_operations; [by apply editor_ok_seed|]. destruct He as (H0 & (Hne & Hfi & Hw) & _). split_and!.
  - unfold on_operation. by destruct (operations e).
  - eapply fresh_ids_submseteq; [apply add_condition_ids, Hfi|].
    eapply fresh_ids_submseteq; [|eapply (fresh_ids_app 0 (localIdSeed e) s'); [done|exact H0|exact Hs|exact Hfi|exact Hf]].
    by rewrite (Permutation_app_comm _ [c_id c]).
  - apply on_operation_wf; [|done]. intros o [[Hm Hc] Hl]. split; [split|]; [done| |done].
    cbn [set_conditions o_conditions]. apply Forall_app. split; [done|]. apply Forall_singleton.
    by eapply condition_yields.
Qed.

Lemma mapM_relates {A B} (R : A -> B -> Prop) (m : A -> M B) l :
  (forall x s y s', m x s = (Some y, s') -> R x y) ->
  forall s ys s', mapM m l s = (Some ys, s') -> Forall2 R l ys.
Proof.
  intros Hm. induction l as [|x l IH]; intros s ys s'.
  - intros [= <- _]. constructor.
  - change (mapM m (x :: l)) with (y ← m x; ys ← mapM m l; mret (y :: ys)).
    unfold mbind at 1, M_bind at 1. destruct (m x s) as [[y|] s1] eqn:E1; [|done].
    unfold mbind at 1, M_bind at 1. destruct (mapM m l s1) as [[ys'|] s2] eqn:E2; [|done].
    intros [= <- _]. constructor; [by eapply Hm|by eapply IH].
Qed.

(** An update of a draft changes only the text of the value. *)
Lemma prune_update_relates id updater op s y s' : prune_update now id updater op s = (Some y, s') ->
  exists t, y = set_value_text t op.
Proof.
  unfold prune_update. destruct (seqb (o_id op) id).
  - unfold mbind at 1, M_bind at 1. destruct (parsePruneObjectsDraft now _ s) as [[d|] s1]; [|done].
    unfold mbind at 1, M_bind at 1. destruct (updater d s1) as [[d'|] s2]; [|done].
    intros [= <- _]. by eexists.
  - intros [= <- _]. exists (o_value_text op). by destruct op.
Qed.

Lemma takes_prune_update id updater op : (forall d, takes_ids (fun _ => []) (updater d)) ->
  takes_ids (fun _ => []) (prune_update now id updater op).
Proof.
  intros Hu. unfold prune_update. destruct (seqb (o_id op) id); [|by apply takes_ret].
  eapply (takes_bind _ (fun _ _ => [])); [apply takes_prune|intros d|intros; apply submseteq_nil_l].
  eapply (takes_bind _ (fun _ _ => [])); [apply Hu|intros d'; by apply takes_ret|intros; apply submseteq_nil_l].
Qed.

Lemma updatePruneObjectsDraft_ok id updater e : editor_ok e ->
  (forall d, takes_ids (fun _ => []) (updater d)) -> editor_ok (updatePruneObjectsDraft now id updater e).
Proof.
  intros He Hu. unfold updatePruneObjectsDraft.
  eapply (editor_ok_with_ids (fun _ => [])); [done| | |done].
  { eapply takes_weaken; [|apply (takes_mapM (fun _ => [])); intros op; by apply takes_prune_update].
    intros; apply submseteq_nil_l. }
  intros ops s' E Hs _. apply editor_ok_operations; [by apply editor_ok_seed|].
  apply (mapM_relates _ _ _ (prune_update_relates id updater)) in E.
  destruct (editor_ok_seed s' e Hs He) as (_ & (Hne & Hf & Hw) & _).
  cbn [setLocalIdSeed operations localIdSeed] in *.
  assert (all_ids ops = all_ids (operations e)) as Ei.
  { clear -E. unfold all_ids. f_equal. induction E as [|o o' l l' [t ->] H IH]; cbn [map]; [done|]. by rewrite IH. }
  split_and!; [intros ->; by inversion E; destruct (operations e)|by rewrite Ei|].
  clear -E Hw. induction E as [|o o' l l' [t ->] H IH]; [constructor|]. inversion Hw; subst. constructor; auto.
Qed.

Lemma addPruneRule_ok id e : editor_ok e -> editor_ok (addPruneRule now id e).
Proof.
  intros He. apply updatePruneObjectsDraft_ok; [done|]. intros d.
  eapply (takes_bind _ (fun _ _ => [])); [apply takes_condition|intros r; by apply takes_ret|].
  intros; apply submseteq_nil_l.
Qed.

(** *** Reordering *)

Lemma find_id_Some id ops i : find_id id ops = Some i -> exists o, ops !! i = Some o /\ o_id o = id.
Proof.
  unfold find_id. destruct (list_find _ ops) as [[j o]|] eqn:E; [|done]. intros [= <-].
  apply list_find_Some in E as (Hl & Hid & _). by exists o.
Qed.

Lemma insert_perm {A} (l : list A) i x : take i l ++ x :: drop i l ≡ₚ x :: l.
Proof. rewrite <- Permutation_middle. by rewrite take_drop. Qed.

Lemma reorder_perm ops src tgt pos : reorderOperations ops src tgt pos ≡ₚ ops.
Proof.
  unfold reorderOperations. destruct (_ || _ || _); [done|].
  destruct (find_id src ops) as [i|] eqn:Ei; [|done]. destruct (ops !! i) as [moved|] eqn:Em; [|done].
  destruct (find_id tgt _) as [j|]; [|done]. rewrite insert_perm.
  rewrite <- (take_drop_middle ops i moved Em) at 3. apply Permutation_middle.
Qed.

Lemma handleDrop_ok id data e : editor_ok e -> editor_ok (handleDrop id data e).
Proof.
  intros He. unfold handleDrop.
  destruct (str_truthy _ && _ && _); [|exact He].
  apply (editor_ok_operations (reorderOperations _ _ _ _) e He). destruct He as (_ & Hops & _).
  eapply operations_ok_perm; [|exact Hops]. by rewrite reorder_perm.
Qed.

(** *** Switching modes and templates *)

Lemma switchToJsonMode_ok e : editor_ok e -> editor_ok (switchToJsonMode e).
Proof. intros He. unfold switchToJsonMode. destruct (editMode e); [|done]. by destruct (buildVisualJson e). Qed.

Lemma switchToVisualMode_ok e : editor_ok e -> editor_ok (switchToVisualMode now e).
Proof.
  intros He. unfold switchToVisualMode. destruct (editMode e); [done|].
  destruct (trim (jsonText e)) as [|c t]; [by apply editor_ok_default|].
  destruct (JSON_parse _) as [v|]; [|done]. destruct (is_plain_object v); [|done].
  destruct (get v (u "operations")); try (by apply editor_ok_default). by apply editor_ok_or_default.
Qed.

Lemma show_legacy_ok t e : editor_ok e -> editor_ok (show_legacy now t e).
Proof. intros He. by apply editor_ok_default. Qed.

(** Every template of operations has one. *)
Lemma preset_nonempty e : kind (preset e) = KindOperations -> operations_payload (payload (preset e)) <> [].
Proof.
  assert (Forall (fun p => kind p.2 = KindOperations -> operations_payload (payload p.2) <> []) TEMPLATE_PRESET_CONFIG)
    as H.
  { repeat (apply List.Forall_cons; [intros E1 E2; cbn in E1, E2; discriminate|]). apply List.Forall_nil. }
  unfold preset. destruct (map_get TEMPLATE_PRESET_CONFIG (templatePresetKey e)) as [p|] eqn:E; [|done].
  apply map_get_Some_elem in E. rewrite Forall_forall in H. exact (H _ E).
Qed.

Lemma fillTemplate_ok m e : editor_ok e -> editor_ok (fillTemplate now m e).
Proof.
  intros He. unfold fillTemplate. pose proof (preset_nonempty e) as Hp.
  destruct (kind (preset e)).
  - destruct m; [by apply editor_ok_or_default|].
    eapply editor_ok_with_ids; [done|apply takes_operations| |done]. intros new s' E Hs Hf.
    set (existing := match _ with Operations => _ | Legacy => _ end).
    assert (new <> []) as Hne.
    { apply mapM_length in E. specialize (Hp eq_refl). destruct new; [|done]. by destruct (operations_payload _). }
    assert (existing ++ new <> []) as Hne' by (by intros [_ ?]%app_eq_nil).
    assert (editor_ok (setOperations (existing ++ new) (setLocalIdSeed s' e))) as Hok;
      [|by destruct (existing ++ new)].
    apply editor_ok_operations; [by apply editor_ok_seed|]. destruct He as (H0 & (_ & Hfi & Hw) & _).
    eapply operations_ok_add; [exact H0|exact Hs| | |exact Hf|by eapply operations_yield|done].
    + subst existing. cbn [setLocalIdSeed visualMode operations]. destruct (visualMode e).
      * eapply fresh_ids_submseteq; [apply all_ids_filter|done].
      * by split; constructor.
    + subst existing. cbn [setLocalIdSeed visualMode operations]. destruct (visualMode e); [|constructor].
      rewrite List.Forall_forall in *. intros o Ho. apply filter_In in Ho as [Ho _]. auto.
  - destruct m, (visualMode e); try (by apply show_legacy_ok).
    destruct (trim (legacyValue e)); [by apply show_legacy_ok|].
    destruct (JSON_parse _); [by apply show_legacy_ok|done].
Qed.

Lemma resetEditorState_ok e : editor_ok e -> editor_ok (resetEditorState now e).
Proof. intros He. by apply editor_ok_default. Qed.

Lemma takes_initial text : takes_ids (fun st => all_ids (s_operations st)) (parseInitialState now text).
Proof.
  assert (forall k, (forall op, s_operations (k op) = [op]) ->
    takes_ids (fun st => all_ids (s_operations st)) (op ← createDefaultOperation now; mret (k op))) as Hd.
  { intros k Hk. eapply (takes_bind op_ids (fun _ _ => [])); [apply takes_default|intros; by apply takes_ret|].
    intros op st s [= <-]. by rewrite Hk, all_ids_one, app_nil_r. }
  unfold parseInitialState. destruct (trim text) as [|c t]; [by apply Hd|].
  destruct (JSON_parse _) as [v|]; [|by apply Hd]. destruct (is_plain_object v); [|by apply Hd].
  destruct (get v (u "operations")); try (by apply Hd).
  eapply (takes_bind all_ids (fun _ _ => [])); [apply takes_or_default|intros; by apply takes_ret|].
  intros ops st s [= <-]. by rewrite app_nil_r.
Qed.

Lemma initial_yields text :
  yields (fun st => s_operations st <> [] /\ Forall operation_wf (s_operations st)) (parseInitialState now text).
Proof.
  assert (forall k, (forall op, s_operations (k op) = [op]) ->
    yields (fun st => s_operations st <> [] /\ Forall operation_wf (s_operations st))
      (op ← createDefaultOperation now; mret (k op))) as Hd.
  { intros k Hk s st s'. unfold mbind, M_bind.
    destruct (createDefaultOperation now s) as [[op|] s1] eqn:E; [|done]. intros [= <- _]. rewrite Hk.
    split; [done|]. constructor; [by eapply default_wf|constructor]. }
  unfold parseInitialState. destruct (trim text) as [|c t]; [by apply Hd|].
  destruct (JSON_parse _) as [v|]; [|by apply Hd]. destruct (is_plain_object v); [|by apply Hd].
  destruct (get v (u "operations")); try (by apply Hd).
  intros s st s'. unfold mbind, M_bind. destruct (operations_or_default now l s) as [[ops|] s1] eqn:E; [|done].
  intros [= <- _]. by eapply or_default_yields.
Qed.

Lemma initialize_ok text e : editor_ok e -> editor_ok (initialize now text e).
Proof.
  intros He. unfold initialize. eapply editor_ok_with_ids; [exact He|apply takes_initial| |done].
  intros st s' E Hs Hf. destruct (initial_yields text _ _ _ E) as [Hne Hw].
  assert (editor_ok (setOperations (s_operations st) (setLocalIdSeed s' (setIsOpen true e)))) as Hok;
    [|exact Hok].
  by apply editor_ok_replace.
Qed.

(** *** Rendering *)

Lemma default_total s : exists op, createDefaultOperation now s = (Some op, s + 1).
Proof. by eexists. Qed.

Lemma prune_draft_total op s : exists d s', prune_draft now op s = (Some d, s').
Proof.
  unfold prune_draft. destruct (seqb _ _); [|by eexists _, _].
  destruct (prune_total (o_value_text op) s) as (d & s' & E). exists (Some d), s'.
  by rewrite (bind_run _ _ _ _ _ E).
Qed.

(** A render changes only the counter and what is shown. *)
Lemma render_shape b e : exists s' sh, render now b e = setShown sh (setLocalIdSeed s' e).
Proof.
  unfold render, with_ids at 1. destruct (default_total (localIdSeed e)) as [op0 ->].
  destruct (selectedOperation _) as [op|]; [|by eexists _, _].
  destruct (_ || _).
  - unfold with_ids. destruct (prune_draft_total op (localIdSeed (setLocalIdSeed (localIdSeed e + 1) e)))
      as (d & s' & ->). by eexists _, _.
  - exists (localIdSeed e + 1), (shown e). by destruct e.
Qed.

Lemma render_ok b e : editor_ok e -> editor_ok (render now b e).
Proof.
  intros He. unfold render. eapply editor_ok_with_ids; [done|apply takes_default| |done].
  intros op0 s1 _ Hs _. apply (editor_ok_seed s1 e Hs) in He.
  destruct (selectedOperation _) as [op|].
  - destruct (_ || _); [|done].
    eapply (editor_ok_with_ids (fun d => from_option rule_ids [] d)); [exact He| | |done].
    + unfold prune_draft. destruct (seqb _ _); [|by apply takes_ret].
      eapply (takes_bind _ (fun _ _ => [])); [apply takes_prune|intros; by apply takes_ret|].
      intros d d' s [= <-]. by rewrite app_nil_r.
    + intros d s' _ Hs' Hf. destruct (editor_ok_seed s' _ Hs' He) as (H0 & Hops & _). split_and!; [done|done|].
      intros op' d' [= _ ->]. destruct Hf as [_ Hf]. eapply Forall_impl; [exact Hf|].
      destruct He as (H0' & _). intros i. by apply between_weaken.
  - destruct He as (H0 & Hops & _). by split_and!.
Qed.

Definition selected_ok (e : Editor) : Prop := exists o, o ∈ operations e /\ o_id o = selectedOperationId e.

Lemma keepSelected_ok e : editor_ok e -> editor_ok (keepSelected e) /\ selected_ok (keepSelected e).
Proof.
  intros He. unfold keepSelected. destruct (operations e) as [|o ops] eqn:E.
  - by destruct He as (_ & [Hne _] & _).
  - destruct (existsb _ _) eqn:Ex.
    + split; [done|]. apply existsb_exists in Ex as (o' & Hin & Hid). apply seqb_eq in Hid.
      exists o'. rewrite E. split; [by apply list_elem_of_In|done].
    + split; [exact He|]. exists o. cbn. rewrite E. split; [left|done].
Qed.

Lemma commit_ok b e : editor_ok e -> editor_ok (commit now b e) /\ selected_ok (commit now b e).
Proof.
  intros He. unfold commit. apply (render_ok b) in He. apply keepSelected_ok in He as [He Hs].
  split; [by apply render_ok|]. destruct (render_shape b (keepSelected (render now b e))) as (s' & sh & ->).
  exact Hs.
Qed.

Lemma handle_ok r ev e : editor_ok e -> event_ok ev = true -> editor_ok (handle now r ev e).
Proof.
  intros He Hev. destruct ev; cbn [handle]; try exact He.
  - by apply initialize_ok.
  - by apply updateOperation_ok.
  - by apply addOperation_ok.
  - by apply duplicateOperation_ok.
  - by apply removeOperation_ok.
  - by apply addCondition_ok.
  - by apply updateCondition_ok.
  - by apply removeCondition_ok.
  - by apply updateReturnErrorDraft_ok.
  - apply updatePruneObjectsDraft_ok; [done|]. intros d. by apply takes_ret.
  - by apply addPruneRule_ok.
  - apply updatePruneObjectsDraft_ok; [done|]. intros d. by apply takes_ret.
  - apply updatePruneObjectsDraft_ok; [done|]. intros d. by apply takes_ret.
  - unfold handleDragOver. by destruct (_ || _).
  - by apply handleDrop_ok.
  - by apply switchToJsonMode_ok.
  - by apply switchToVisualMode_ok.
  - by apply fillTemplate_ok.
  - by apply resetEditorState_ok.
  - unfold handleJsonChange. by destruct (trim _).
  - unfold expandAllConditions, set_expanded. by destruct (selectedOperation e).
  - unfold collapseAllConditions, set_expanded. by destruct (selectedOperation e).
  - unfold handleSave. by destruct (save_result e).
Qed.

Lemma mount_ok seed : 0 <= seed -> editor_ok (mount now seed) /\ selected_ok (mount now seed).
Proof.
  intros Hs. unfold mount. destruct (takes_default seed Hs) as [_ F].
  destruct (default_total seed) as [op E]. rewrite E in *. simpl in F. specialize (F op eq_refl).
  apply commit_ok. split_and!; cbn; [lia| |done]. apply (operations_ok_new seed); [done|lia|done| |].
  - by rewrite all_ids_one.
  - constructor; [by eapply default_wf|constructor].
Qed.

Lemma dispatch_ok r ev e : editor_ok e -> selected_ok e -> event_ok ev = true ->
  editor_ok (dispatch now r ev e) /\ (crashed (dispatch now r ev e) = false -> selected_ok (dispatch now r ev e)).
Proof.
  intros He Hs Hev. unfold dispatch. destruct (crashed e) eqn:Ec; [by rewrite Ec|]. cbv zeta.
  destruct (crashed (handle now r ev e)) eqn:Eh; [split; [by apply handle_ok|by rewrite Eh]|].
  split; [|intros _]; by apply commit_ok, handle_ok.
Qed.

Lemma editor_reachable_ok seed e : 0 <= seed -> reachable now seed e ->
  editor_ok e /\ (crashed e = false -> selected_ok e).
Proof.
  intros Hs. induction 1 as [|r ev e He [IH IHs] Hev].
  - destruct (mount_ok seed Hs). done.
  - destruct (crashed e) eqn:Ec.
    + unfold dispatch. rewrite Ec. by rewrite Ec.
    + apply dispatch_ok; auto.
Qed.

End WithClock.

(** ** Claims on the state *)

(** C21: In every state the dialog can reach, by any sequence of events of the user and
    the parent and whatever React decides, there is at least one operation, the ids of
    the operations and of their conditions are all different, every mode and every
    logic is one of the options, and while the dialog is up the selected operation is
    one of the list. *)
Theorem editor_invariant (now : Z -> Z) (seed : Z) (e : Editor) :
  0 <= seed -> reachable now seed e ->
  operations e <> [] /\ NoDup (all_ids (operations e)) /\ Forall operation_wf (operations e) /\
  (crashed e = false -> exists o, o ∈ operations e /\ o_id o = selectedOperationId e).
Proof.
  intros Hs He. destruct (editor_reachable_ok now seed e Hs He) as [(_ & (Hne & [Hn _] & Hw) & _) Hsel].
  by split_and!.
Qed.

(** A run that opens a text with a prune_objects operation and edits it. *)
Definition prune_run (now : Z -> Z) : Editor :=
  dispatch now (mkChoice true false)
    (Open (uq "{'operations':[{'mode':'prune_objects','value':{'conditions':[{'path':'a','value':1}]}}]}"))
    (mount now 0).

Lemma prune_run_reachable now : reachable now 0 (prune_run now).
Proof. apply reach_step; [apply reach_mount|done]. Qed.

Lemma editor_invariant_witness :
  operations (prune_run (fun _ => 5)) <> [] /\ NoDup (all_ids (operations (prune_run (fun _ => 5)))).
Proof.
  destruct (editor_invariant (fun _ => 5) 0 (prune_run (fun _ => 5))) as (H1 & H2 & _);
    [lia|apply prune_run_reachable|]. exact (conj H1 H2).
Defined.

(** ** Prune rules *)

Section Prune.
Variable now : Z -> Z.

Lemma mapM_ext_from {A B} (m m' : A -> M B) l s0 :
  (forall x s, s0 <= s -> m x s = m' x s /\ s <= (m' x s).2) ->
  forall s, s0 <= s -> mapM m l s = mapM m' l s.
Proof.
  intros H. induction l as [|x l IH]; intros s Hs; [done|].
  change (mapM m (x :: l)) with (y ← m x; ys ← mapM m l; mret (y :: ys)).
  change (mapM m' (x :: l)) with (y ← m' x; ys ← mapM m' l; mret (y :: ys)).
  destruct (H x s Hs) as [E L]. destruct (m' x s) as [[y|] s1] eqn:E'; simpl in L.
  - rewrite (bind_run _ _ _ _ _ E), (bind_run _ _ _ _ _ E'). specialize (IH s1 ltac:(lia)).
    destruct (mapM m' l s1) as [[ys|] s2] eqn:E2.
    + by rewrite (bind_run _ _ _ _ _ IH), (bind_run _ _ _ _ _ E2).
    + by rewrite (bind_none _ _ _ _ IH), (bind_none _ _ _ _ E2).
  - by rewrite (bind_none _ _ _ _ E), (bind_none _ _ _ _ E').
Qed.

(** An update of a rule that is not among the rules that are read changes nothing. *)
Lemma stale_update id (upd : PruneObjectsDraft -> PruneObjectsDraft) (e : Editor) rid :
  editor_ok now e -> between now 0 (localIdSeed e) rid ->
  (forall d, rid ∉ rule_ids d -> upd d = d) ->
  updatePruneObjectsDraft now id (fun d => mret (upd d)) e = updatePruneObjectsDraft now id mret e.
Proof.
  intros (H0 & _) Hr Hu. unfold updatePruneObjectsDraft, with_ids.
  rewrite (mapM_ext_from (prune_update now id (fun d => mret (upd d))) (prune_update now id mret)
             (operations e) (localIdSeed e)); [done| |lia].
  intros op s Hs. unfold prune_update. destruct (seqb (o_id op) id); [|simpl; split; [done|lia]].
  destruct (takes_prune now (o_value_text op) s) as [L F]; [lia|].
  destruct (prune_total now (o_value_text op) s) as (d & s' & E). rewrite E in L, F. simpl in L, F.
  rewrite !(bind_run _ _ _ _ _ E). destruct (F d eq_refl) as [_ Hb]. rewrite Forall_forall in Hb.
  rewrite (Hu d); [split; [done|exact L]|]. intros Hin. apply Hb in Hin.
  eapply (between_disjoint now 0 s s'); [done| |exact Hin]. eapply between_weaken; [| |exact Hr]; lia.
Qed.

Lemma on_condition_stale rid f cs : rid ∉ map c_id cs -> on_condition rid f cs = cs.
Proof.
  intros H. unfold on_condition. rewrite <- (map_id cs) at 2. apply map_ext_in. intros c Hc.
  destruct (seqb (c_id c) rid) eqn:E; [|done]. apply seqb_eq in E as <-. exfalso. apply H.
  by apply list_elem_of_In, in_map.
Qed.

Lemma filter_stale rid (cs : list PruneRule) : rid ∉ map c_id cs ->
  List.filter (fun r => negb (seqb (c_id r) rid)) cs = cs.
Proof.
  intros H. apply filter_all, List.Forall_forall. intros c Hc.
  destruct (seqb (c_id c) rid) eqn:E; [|done]. apply seqb_eq in E as <-. exfalso. apply H.
  by apply list_elem_of_In, in_map.
Qed.

(** A rule without a path is not written. *)
Lemma add_rule_lost id op s :
  (prune_update now id (fun draft =>
     rule ← normalizePruneRule now (JObj []);
     mret (mkPruneDraft false (pd_typeText draft) (pd_logic draft) (pd_recursive draft)
             (pd_rules draft ++ [rule]))) op s).1 =
  (prune_update now id (fun draft =>
     mret (patch_prune (mkPrunePatch (Some false) None None None) draft)) op s).1.
Proof.
  unfold prune_update. destruct (seqb (o_id op) id); [|done].
  destruct (prune_total now (o_value_text op) s) as (d & s' & E). rewrite !(bind_run _ _ _ _ _ E).
  unfold normalizePruneRule. unfold mbind, M_bind. rewrite normalizeCondition_run by done.
  cbn [fst mret M_ret]. do 2 f_equal. unfold buildPruneObjectsValueText, patch_prune.
  cbn [pd_simpleMode pd_typeText pd_logic pd_recursive pd_rules pp_simpleMode pp_typeText pp_logic pp_recursive default].
  by rewrite List.filter_app, app_nil_r.
Qed.

End Prune.

(** In the editor of a prune_objects value, changing or removing a rule that is
    on the screen does nothing: the draft is parsed again, with new ids, when the
    update runs, so the id of the rule that was rendered is never found and the whole
    dialog is as after an update that changes no rule. A rule that is added has no path
    and is not written either: the operation is as after switching to the advanced
    mode. *)
Theorem prune_rule_edits_lost (now : Z -> Z) (seed : Z) (e : Editor) (op : ParamOverrideOperation)
    (d : PruneObjectsDraft) (r : PruneRule) (id : jstr) (patch : ConditionPatch) :
  0 <= seed -> reachable now seed e -> shown e = Some (op, Some d) -> r ∈ pd_rules d ->
  updatePruneRule now id (c_id r) patch e = updatePruneObjectsDraft now id mret e /\
  removePruneRule now id (c_id r) e = updatePruneObjectsDraft now id mret e /\
  (forall op' s, (prune_update now id (fun draft =>
       rule ← normalizePruneRule now (JObj []);
       mret (mkPruneDraft false (pd_typeText draft) (pd_logic draft) (pd_recursive draft)
               (pd_rules draft ++ [rule]))) op' s).1 =
     (prune_update now id (fun draft =>
       mret (patch_prune (mkPrunePatch (Some false) None None None) draft)) op' s).1).
Proof.
  intros Hs He Hsh Hr. destruct (editor_reachable_ok now seed e Hs He) as [Hok _].
  assert (between now 0 (localIdSeed e) (c_id r)) as Hb.
  { destruct Hok as (_ & _ & Hshown). specialize (Hshown _ _ Hsh). rewrite Forall_forall in Hshown.
    apply Hshown. apply list_elem_of_In, in_map. by apply list_elem_of_In. }
  split_and!.
  - eapply (stale_update now id (set_rules (on_condition (c_id r) (patch_condition patch)))); [done..|].
    intros d' Hd. unfold set_rules. rewrite on_condition_stale by done. by destruct d'.
  - eapply (stale_update now id (set_rules (List.filter (fun r' => negb (seqb (c_id r') (c_id r))))));
      [done..|].
    intros d' Hd. unfold set_rules. rewrite filter_stale by done. by destruct d'.
  - intros op' s. apply add_rule_lost.
Qed.

Lemma prune_rule_edits_lost_witness :
  let e := prune_run (fun _ => 5) in
  exists op d r, shown e = Some (op, Some d) /\ r ∈ pd_rules d /\
    forall patch, updatePruneRule (fun _ => 5) (o_id op) (c_id r) patch e
                  = updatePruneObjectsDraft (fun _ => 5) (o_id op) mret e.
Proof.
  intros e. assert (exists op d r rs, shown e = Some (op, Some d) /\ pd_rules d = r :: rs) as (op & d & r & rs & E & Er).
  { eexists _, _, _, _. split; [vm_compute; reflexivity|reflexivity]. }
  exists op, d, r. assert (r ∈ pd_rules d) as Hr by (rewrite Er; left). split_and!; [done|done|]. intros patch.
  apply (prune_rule_edits_lost (fun _ => 5) 0 e op d r (o_id op) patch); [lia|apply prune_run_reachable|done|done].
Defined.

(** ** Drag and drop *)

Section Drop.
Variable now : Z -> Z.

(** A commit changes only the counter, what is shown, and a selection that is not
    valid. *)
Lemma commit_shape b e : exists s' sh sel,
  commit now b e = setShown sh (setLocalIdSeed s' (setSelectedOperationId sel e)) /\
  (selected_ok e -> sel = selectedOperationId e).
Proof.
  unfold commit. destruct (render_shape now b e) as (s1 & sh1 & ->).
  set (e1 := setShown sh1 (setLocalIdSeed s1 e)).
  assert (exists sel, keepSelected e1 = setSelectedOperationId sel e1 /\
            (selected_ok e -> sel = selectedOperationId e)) as (sel & -> & Hsel).
  { unfold keepSelected. change (operations e1) with (operations e).
    change (selectedOperationId e1) with (selectedOperationId e).
    destruct (operations e) as [|o ops] eqn:E.
    - eexists. split; [done|]. intros (o & Ho & _). rewrite E in Ho. by apply not_elem_of_nil in Ho.
    - destruct (existsb _ _) eqn:Ex; [by exists (selectedOperationId e); destruct e|].
      exists (o_id o). split; [done|]. intros (o' & Ho & Hid). rewrite E in Ho. exfalso.
      rewrite <- not_true_iff_false in Ex. apply Ex, existsb_exists. exists o'.
      split; [by apply list_elem_of_In|by apply seqb_eq]. }
  destruct (render_shape now b (setSelectedOperationId sel e1)) as (s2 & sh2 & ->).
  exists s2, sh2, sel. split; [by destruct e|done].
Qed.

(** The list without the operation of an id. *)
Definition without (id : jstr) (ops : list ParamOverrideOperation) : list ParamOverrideOperation :=
  List.filter (fun o => negb (seqb (o_id o) id)) ops.

Lemma without_middle id a o b : NoDup (map o_id (a ++ o :: b)) -> o_id o = id -> without id (a ++ o :: b) = a ++ b.
Proof.
  intros Hn <-. unfold without. rewrite List.filter_app. cbn [List.filter]. rewrite seqb_refl. cbn [negb].
  rewrite map_app in Hn. cbn [map] in Hn. apply NoDup_app in Hn as (_ & Hd & Hn). apply NoDup_cons in Hn as [Hb _].
  f_equal; apply filter_all, List.Forall_forall; intros x Hx; apply negb_true_iff, seqb_neq; intros E.
  - apply (Hd (o_id x)); [by apply list_elem_of_In, in_map|]. rewrite E. left.
  - apply Hb. rewrite <- E. by apply list_elem_of_In, in_map.
Qed.

Lemma find_id_elem id ops : (exists o, o ∈ ops /\ o_id o = id) -> exists i, find_id id ops = Some i.
Proof.
  intros (o & Ho & Hid). unfold find_id.
  destruct (list_find_elem_of (fun o => o_id o = id) ops o Ho Hid) as [[i x] ->]. by exists i.
Qed.

(** A reordering puts the operation next to its target and leaves the others as they
    are. *)
Lemma reorder_places ops src tgt pos : NoDup (map o_id ops) -> src <> tgt -> src <> [] -> tgt <> [] ->
  (exists o, o ∈ ops /\ o_id o = src) -> (exists o, o ∈ ops /\ o_id o = tgt) ->
  exists a b s t, o_id s = src /\ o_id t = tgt /\ s ∈ ops /\ without src ops = a ++ t :: b /\
    reorderOperations ops src tgt pos = a ++ match pos with Before => [s; t] | After => [t; s] end ++ b.
Proof.
  intros Hn Hne Hs0 Ht0 Hs (t & Ht & Htid). unfold reorderOperations.
  apply str_truthy_true in Hs0 as ->. apply str_truthy_true in Ht0 as ->.
  rewrite (proj2 (seqb_neq src tgt) Hne). cbn [negb orb].
  destruct (find_id_elem src ops Hs) as [i Ei]. rewrite Ei. apply find_id_Some in Ei as (s & Es & Hsid). rewrite Es.
  pose proof (take_drop_middle ops i s Es) as Em.
  assert (without src ops = take i ops ++ drop (S i) ops) as Hw.
  { rewrite <- Em at 1. apply without_middle; [by rewrite Em|done]. }
  rewrite <- Hw. destruct (find_id_elem tgt (without src ops)) as [j Ej].
  { exists t. split; [|done]. apply list_elem_of_In, filter_In. split; [by apply list_elem_of_In|].
    rewrite Htid. apply negb_true_iff, seqb_neq. congruence. }
  rewrite Ej. apply find_id_Some in Ej as (t' & Et & Htid').
  pose proof (take_drop_middle (without src ops) j t' Et) as Em'.
  exists (take j (without src ops)), (drop (S j) (without src ops)), s, t'. split_and!; try done.
  - by eapply list_elem_of_lookup_2.
  - destruct pos.
    + by rewrite (drop_S _ _ _ Et).
    + rewrite (take_S_r _ _ _ Et). by rewrite <- app_assoc.
Qed.

Lemma o_ids_NoDup ops : NoDup (all_ids ops) -> NoDup (map o_id ops).
Proof.
  induction ops as [|o ops IH]; intros Hn; [constructor|]. rewrite all_ids_cons in Hn.
  apply NoDup_app in Hn as (_ & Hd & Hn). cbn [map]. constructor; [|by apply IH].
  intros Hin. apply list_elem_of_In, in_map_iff in Hin as (o' & E & Ho'). apply (Hd (o_id o)); [left|].
  rewrite <- E. by apply all_ids_o_id, list_elem_of_In.
Qed.

(** An event whose handler neither throws nor touches the selection's validity. *)
Lemma dispatch_shape r ev e : crashed e = false -> crashed (handle now r ev e) = false ->
  selected_ok (handle now r ev e) ->
  exists s' sh, dispatch now r ev e = setShown sh (setLocalIdSeed s' (handle now r ev e)).
Proof.
  intros Hc Hc' Hs. unfold dispatch. rewrite Hc. cbv zeta. rewrite Hc'.
  destruct (commit_shape (fresh r) (handle now r ev e)) as (s' & sh & sel & -> & Hsel).
  exists s', sh. rewrite (Hsel Hs). by destruct (handle now r ev e).
Qed.

End Drop.

(** C24: Dragging the operation [src] over the upper or the lower half of the
    operation [tgt] and dropping it there moves exactly that operation directly before
    or after the target: the others keep their order, the moved operation is selected
    and the drag state is reset, whatever text the drag carries. *)
Theorem drop_moves_operation (now : Z -> Z) (seed : Z) (e : Editor) (src tgt data : jstr) (below : bool)
    (r1 r2 r3 : ReactChoice) :
  0 <= seed -> reachable now seed e -> crashed e = false -> src <> tgt ->
  (exists o, o ∈ operations e /\ o_id o = src) -> (exists o, o ∈ operations e /\ o_id o = tgt) ->
  let e' := dispatch now r3 (Drop tgt data) (dispatch now r2 (DragOver tgt below)
              (dispatch now r1 (DragStart src) e)) in
  exists a b s t, o_id s = src /\ o_id t = tgt /\ s ∈ operations e /\
    without src (operations e) = a ++ t :: b /\
    operations e' = a ++ (if below then [t; s] else [s; t]) ++ b /\
    selectedOperationId e' = src /\ draggedOperationId e' = [] /\ dragOverOperationId e' = [].
Proof.
  intros Hseed He Hc Hne Hs Ht. destruct (editor_reachable_ok now seed e Hseed He) as [(H0 & (_ & [Hn Hb] & _) & _) _].
  assert (forall id, (exists o, o ∈ operations e /\ o_id o = id) -> id <> []) as Hid.
  { intros id (o & Ho & <-). rewrite Forall_forall in Hb.
    destruct (Hb _ (all_ids_o_id o _ Ho)) as (n & _ & ->). done. }
  pose proof (proj2 (str_truthy_true src) (Hid _ Hs)) as Ts.
  pose proof (proj2 (str_truthy_true tgt) (Hid _ Ht)) as Tt.
  destruct (reorder_places (operations e) src tgt (if below then After else Before)
    (o_ids_NoDup _ Hn) Hne (Hid _ Hs) (Hid _ Ht) Hs Ht) as (a & b & s & t & Es & Et & Hin & Hw & Hr).
  destruct (dispatch_shape now r1 (DragStart src) e Hc) as (s1 & sh1 & ->); [done|exact Hs|].
  set (e1 := setShown sh1 _).
  assert (handle now r2 (DragOver tgt below) e1 =
    setDragOverPosition (if below then After else Before) (setDragOverOperationId tgt e1)) as E2.
  { cbn [handle]. unfold handleDragOver. change (draggedOperationId e1) with src.
    by rewrite Ts, (proj2 (seqb_neq src tgt) Hne). }
  destruct (dispatch_shape now r2 (DragOver tgt below) e1) as (s2 & sh2 & ->); [done|by rewrite E2|rewrite E2; exact Hs|].
  rewrite E2. set (e2 := setShown sh2 _).
  assert (handle now r3 (Drop tgt data) e2 =
    resetDragState (setSelectedOperationId src
      (setOperations (reorderOperations (operations e) src tgt (if below then After else Before)) e2))) as E3.
  { cbn [handle]. unfold handleDrop. change (draggedOperationId e2) with src.
    change (dragOverOperationId e2) with tgt. change (operations e2) with (operations e).
    assert (str_or src data = src) as -> by (unfold str_or; by rewrite Ts).
    rewrite Ts, Tt, seqb_refl, (proj2 (seqb_neq src tgt) Hne). reflexivity. }
  destruct (dispatch_shape now r3 (Drop tgt data) e2) as (s3 & sh3 & ->); [done|by rewrite E3| |].
  { rewrite E3. exists s. split; [|done]. cbn. rewrite reorder_perm. done. }
  rewrite E3. exists a, b, s, t. split_and!; try done. cbn. rewrite Hr. by destruct below.
Qed.

(** A dialog on two operations. *)
Definition two_run (now : Z -> Z) : Editor :=
  dispatch now (mkChoice true false)
    (Open (uq "{'operations':[{'mode':'set','path':'a','value':1},{'mode':'delete','path':'b'}]}"))
    (mount now 0).

Lemma two_run_reachable now : reachable now 0 (two_run now).
Proof. apply reach_step; [apply reach_mount|done]. Qed.

Lemma drop_moves_operation_witness :
  let now := fun _ => 5 in
  let e := two_run now in
  let r := mkChoice true true in
  exists x y, operations e = [x; y] /\
    operations (dispatch now r (Drop (o_id x) []) (dispatch now r (DragOver (o_id x) false)
      (dispatch now r (DragStart (o_id y)) e))) = [y; x].
Proof.
  intros now e r.
  assert (exists x y, operations e = [x; y] /\ bool_decide (o_id y = o_id x) = false) as (x & y & E & Hne).
  { eexists _, _. split; [vm_compute; reflexivity|vm_compute; reflexivity]. }
  apply bool_decide_eq_false in Hne. assert (crashed e = false) as Hc by (vm_compute; reflexivity).
  pose proof (two_run_reachable now : reachable now 0 e) as Hr. clearbody e.
  exists x, y. split; [done|].
  destruct (drop_moves_operation now 0 e (o_id y) (o_id x) [] false r r r)
    as (a & b & s & t & Es & Et & Hs & Hw & Ho & _);
    [lia|done|done|congruence| | |].
  - exists y. rewrite E. split; [right; left|done].
  - exists x. rewrite E. split; [left|done].
  - rewrite E in Hs, Hw. unfold without in Hw. cbn [List.filter] in Hw.
    rewrite seqb_refl, (proj2 (seqb_neq (o_id x) (o_id y))) in Hw by congruence. cbn [negb] in Hw.
    destruct a as [|a0 a]; [|by destruct a]. injection Hw as <- <-. rewrite Ho.
    apply list_elem_of_In in Hs as [<-|[<-|[]]]; [by rewrite Es in Hne|done].
Defined.
