(* ===== verification/ParamOverrideSaving.v ===== *)
(** * Saving and reopening parameter overrides

    What the dialog saves, what opening the saved text shows, and where the round trip
    through the text of a value goes wrong. *)

From Stdlib Require Import ZArith SpecFloat.
From stdpp Require Import base numbers option list sorting.
From S2P Require Import Prelude Collections JsNumber JsValue Json JsonProps Regex JsCoerce.
From S2P Require Import ParamOverride ParamOverrideEditor ParamOverrideProps ParamOverrideEditorProps.

(** ** Saving *)

Definition operations_text (ops : list ParamOverrideOperation) : jstr :=
  match ops with
  | [] => []
  | _ => stringify_indent (JObj [(u "operations", JArr (map build_operation ops))])
  end.

Lemma validate_error_line line o err : validateOperation line o = Some err ->
  err = TypeError \/ exists key, err = Told key (Some line).
Proof.
  unfold validateOperation. intros H. repeat case_match; simplify_eq; eauto.
Qed.

Lemma validate_first_error line ops err : Forall operation_shape ops -> validate_from line ops = Some err ->
  exists l1 o l2, ops = l1 ++ o :: l2 /\ Forall complete l1 /\ ~ complete o /\
    (err = TypeError \/ exists key, err = Told key (Some (line + length l1)%nat)).
Proof.
  intros H. revert line. induction H as [|o ops Ho H IH]; intros line; [done|]. cbn [validate_from].
  destruct (validateOperation line o) as [e|] eqn:E.
  - intros [= <-]. exists [], o, ops. split_and!; [done|constructor| |].
    + intros Hc. apply (validate_complete line o (proj1 Ho)) in Hc. by rewrite Hc in E.
    + rewrite Nat.add_0_r. by eapply validate_error_line.
  - intros Hv. destruct (IH (S line) Hv) as (l1 & o' & l2 & -> & Hc & Hn & He).
    exists (o :: l1), o', l2. split_and!; [done| |done|].
    + constructor; [|done]. by apply (validate_complete line o (proj1 Ho)).
    + cbn [length]. by rewrite Nat.add_succ_r.
Qed.

Lemma wf_shapes ops : Forall operation_wf ops -> Forall operation_shape (nonblank ops).
Proof.
  intros H. rewrite List.Forall_forall in *. intros o Ho. apply filter_In in Ho as [Ho _].
  by destruct (H o Ho).
Qed.

(** C23: Saving in the visual editor either calls onSave once, with the text of the
    operations that are not blank in their order, and closes the dialog, exactly when
    each of them is complete (its mode's path, source, target and value are there, a
    return_error object has a message, pass_headers names a header), or it changes
    nothing and reports the first operation that is not, by its position among the
    operations that are not blank. *)
Theorem save_or_first_error (now : Z -> Z) (seed : Z) (e : Editor) :
  0 <= seed -> reachable now seed e -> editMode e = Visual -> visualMode e = Operations ->
  (Forall complete (nonblank (operations e)) /\
   handleSave e = setIsOpen false (setSaved (saved e ++ [operations_text (nonblank (operations e))]) e)) \/
  (exists l1 o l2 err, nonblank (operations e) = l1 ++ o :: l2 /\ Forall complete l1 /\ ~ complete o /\
   handleSave e = toast err e /\ (err = TypeError \/ exists key, err = Told key (Some (S (length l1))))).
Proof.
  intros Hs He Hm Hv. destruct (editor_reachable_ok now seed e Hs He) as [(_ & (_ & _ & Hw) & _) _].
  apply wf_shapes in Hw. unfold handleSave, save_result. rewrite Hm. unfold buildVisualJson. rewrite Hv.
  unfold buildOperationsJson. fold (nonblank (operations e)).
  destruct (nonblank (operations e)) as [|o l] eqn:E; [by left|]. unfold validateOperations.
  destruct (validate_from 1 (o :: l)) as [err|] eqn:Ev.
  - right. destruct (validate_first_error 1 _ _ Hw Ev) as (l1 & o' & l2 & El & Hc & Hn & Herr).
    by exists l1, o', l2, err.
  - left. split; [by apply (validate_from_all 1)|done].
Qed.

Lemma save_or_first_error_witness :
  let e := two_run (fun _ => 5) in
  Forall complete (nonblank (operations e)) /\
  handleSave e = setIsOpen false (setSaved (saved e ++ [operations_text (nonblank (operations e))]) e).
Proof.
  intros e. destruct (save_or_first_error (fun _ => 5) 0 e) as [H|(l1 & o & l2 & err & _ & _ & _ & Hh & _)];
    [lia|apply two_run_reachable|vm_compute; reflexivity|vm_compute; reflexivity|exact H|].
  exfalso. apply (f_equal isOpen) in Hh. vm_compute in Hh. discriminate Hh.
Defined.

(** ** Reopening *)

Section Reopen.
Variable now : Z -> Z.

(** Opening a text whose parse succeeds. *)
Lemma open_parsed r e text st s' : crashed e = false ->
  parseInitialState now text (localIdSeed e) = (Some st, s') ->
  let e' := dispatch now r (Open text) e in
  crashed e' = false /\ editMode e' = s_editMode st /\ visualMode e' = s_visualMode st /\
  operations e' = s_operations st /\ jsonText e' = s_jsonText st /\ legacyValue e' = s_legacyValue st.
Proof.
  intros Hc Hp.
  assert (exists x, dispatch now r (Open text) e = commit now (fresh r) x /\ crashed x = false /\
    editMode x = s_editMode st /\ visualMode x = s_visualMode st /\ operations x = s_operations st /\
    jsonText x = s_jsonText st /\ legacyValue x = s_legacyValue st) as (x & -> & Hx).
  { unfold dispatch. rewrite Hc. cbn [handle]. unfold initialize, with_ids.
    change (localIdSeed (setIsOpen true e)) with (localIdSeed e). rewrite Hp. cbv zeta.
    match goal with |- context [if crashed ?x then _ else _] =>
      exists x; change (crashed x) with (crashed e) end.
    rewrite Hc. by split_and!. }
  cbv zeta. destruct (commit_shape now (fresh r) x) as (s1 & sh & sel & -> & _). exact Hx.
Qed.

End Reopen.

(** C22: What the visual editor saves is stable: let the operations of any dialog be
    saved as a text, with values that are plain text or JSON other than a string. Opening
    any dialog on that text shows, up to ids, the canonical form of each operation that
    is not blank, in the same order, and saving there gives the same text. *)
Theorem reopen_saves_same (now : Z -> Z) (seed : Z) (e e0 : Editor) (r : ReactChoice) (text : jstr) :
  0 <= seed -> reachable now seed e -> editMode e = Visual -> visualMode e = Operations ->
  Forall operation_keeps (nonblank (operations e)) -> Forall operation_units (nonblank (operations e)) ->
  save_result e = inr text -> crashed e0 = false ->
  let e1 := dispatch now r (Open text) e0 in
  editMode e1 = Visual /\ visualMode e1 = Operations /\ crashed e1 = false /\
  Forall2 same_operation (nonblank (operations e1)) (map canon_operation (nonblank (operations e))) /\
  save_result e1 = inr text.
Proof.
  intros Hs He Hm Hv Hk Hu Hsave Hc. destruct (editor_reachable_ok now seed e Hs He) as [(_ & (_ & _ & Hw) & _) _].
  apply wf_shapes in Hw. unfold save_result in Hsave. rewrite Hm in Hsave. unfold buildVisualJson in Hsave.
  rewrite Hv in Hsave.
  assert (Forall operation_plain (nonblank (operations e))) as Hp.
  { rewrite Forall_forall in *. intros o Ho. split_and!; auto. }
  destruct (reopen_built now _ text (localIdSeed e0) Hp Hsave) as (st & s' & Est & E1 & E2 & E3 & E4).
  destruct (open_parsed now r e0 text st s' Hc Est) as (F1 & F2 & F3 & F4 & _). cbv zeta.
  unfold save_result, buildVisualJson. rewrite F2, F3, F4, E1, E2. by split_and!.
Qed.

Lemma reopen_saves_same_witness :
  let e := two_run (fun _ => 5) in
  exists text, save_result e = inr text /\
    save_result (dispatch (fun _ => 5) (mkChoice true true) (Open text) (mount (fun _ => 5) 0)) = inr text.
Proof.
  intros e. assert (exists text, save_result e = inr text) as [text Ht] by (eexists; vm_compute; reflexivity).
  assert (exists i j, nonblank (operations e) =
    [mkOperation i [] (u "a") (u "set") [] [] (u "1") false (u "OR") [];
     mkOperation j [] (u "b") (u "delete") [] [] [] false (u "OR") []]) as (i & j & El)
    by (eexists _, _; vm_compute; reflexivity).
  assert (editMode e = Visual /\ visualMode e = Operations) as [Em Ev] by (split; vm_compute; reflexivity).
  pose proof (two_run_reachable (fun _ => 5) : reachable _ 0 e) as Hr. clearbody e.
  exists text. split; [exact Ht|].
  apply (reopen_saves_same (fun _ => 5) 0 e (mount (fun _ => 5) 0) (mkChoice true true) text);
    [lia|exact Hr|exact Em|exact Ev| | |exact Ht|vm_compute; reflexivity]; rewrite El.
  - apply List.Forall_cons; [|apply List.Forall_cons; [|apply List.Forall_nil]]; (split; [|apply List.Forall_nil]).
    + split; [by apply units_check|]. split; [split; vm_compute; reflexivity|reflexivity].
    + split; [by apply units_check|exact I].
  - apply List.Forall_cons; [|apply List.Forall_cons; [|apply List.Forall_nil]];
      (split_and!; [by apply units_check..|apply List.Forall_nil]).
Defined.

(** ** Values that are quoted *)

(** A value set at a path, as the dialog writes it. *)
Definition set_value (path : jstr) (v : jsval) : jsval :=
  JObj [(u "mode", JStr (u "set")); (u "path", JStr path); (u "value", v)].

Definition set_text (path : jstr) (v : jsval) : jstr :=
  stringify_indent (JObj [(u "operations", JArr [set_value path v])]).

Definition set_operation (id path value_text : jstr) : ParamOverrideOperation :=
  mkOperation id [] path (u "set") [] [] value_text false (u "OR") [].

Lemma set_operation_build id path t :
  build_operation (set_operation id path t) = set_value (trim path) (parseLooseValue t).
Proof. reflexivity. Qed.

Lemma set_operation_saved id path t : trim path <> [] ->
  buildOperationsJson [set_operation id path t] true = inr (set_text (trim path) (parseLooseValue t)).
Proof.
  intros Hp. assert (operation_shape (set_operation id path t)) as Hs.
  { split; [apply set_has_true; vm_compute; reflexivity|constructor]. }
  rewrite build_json_complete; [|done|by constructor|].
  - cbn [map]. by rewrite set_operation_build.
  - constructor; [|constructor]. apply (validate_complete 1 _ (proj1 Hs)).
    unfold validateOperation. cbn [set_operation o_mode o_path].
    change (mode_meta (str_or (u "set") (u "set"))) with meta_set. cbn [meta_set ParamOverride.path andb].
    apply str_truthy_true in Hp. rewrite Hp. reflexivity.
Qed.

Section Quoted.
Variable now : Z -> Z.

Lemma set_text_shown path v s : units path -> json_ok v ->
  exists st, parseInitialState now (set_text path v) s = (Some st, s + 1) /\
    s_editMode st = Visual /\ s_visualMode st = Operations /\
    s_operations st = [set_operation (local_id now s) path (toValueText v)].
Proof.
  intros Hu Hv. unfold set_text. set (w := JObj _).
  assert (json_ok w) as Hw.
  { apply json_ok_one; [done|]. apply json_ok_arr. constructor; [|constructor]. unfold set_value.
    change (json_ok (JObj (map_set (map_set [(u "mode", JStr (u "set"))] (u "path") (JStr path)) (u "value") v))).
    apply json_ok_set; [done|done|]. apply json_ok_set; [done|done|]. apply json_ok_one; [done|].
    by apply units_check. }
  destruct (stringify_text (u "  ") w Hw) as (t & Et & Ep & Htr & Htn); [by repeat constructor|].
  assert (stringify_indent w = t) as Es by (unfold stringify_indent, JSON_stringify_indent; by rewrite Et).
  rewrite Es.
  exists (mkEditorState Visual Operations [] [set_operation (local_id now s) path (toValueText v)] t None).
  split; [|split_and!; reflexivity].
  unfold parseInitialState. rewrite trim_trimmed by done. destruct t as [|c t]; [done|].
  rewrite Ep, Es. reflexivity.
Qed.

End Quoted.

(** A text value loses its type on the way through the editor: a value that the
    user quotes, so that it is the text [s], is saved as that text; but opening the
    saved overrides shows [s] without quotes, and where [s] is itself JSON (a number, a
    boolean, null, an object), saving again without any change writes that JSON value
    instead of the text. *)
Theorem quoted_value_changes_type (now : Z -> Z) (e : Editor) (r : ReactChoice) (id path s : jstr) (w : jsval) :
  crashed e = false -> units path -> trim path = path -> path <> [] -> units s ->
  JSON_parse (trim s) = Some w ->
  buildOperationsJson [set_operation id path (quote s)] true = inr (set_text path (JStr s)) /\
  save_result (dispatch now r (Open (set_text path (JStr s))) e) = inr (set_text path w).
Proof.
  intros Hc Hu Ht Hne Hs Hw. split.
  - rewrite set_operation_saved, Ht by (by rewrite Ht). do 2 f_equal. unfold parseLooseValue.
    destruct (stringify_text [] (JStr s)) as (t & Et & Ep & Htr & _); [done|constructor|].
    change (serialize [] [] (JStr s)) with (Some (quote s)) in Et. injection Et as <-.
    rewrite (trim_trimmed (quote s)) by done. rewrite Ep. by destruct (quote s).
  - destruct (set_text_shown now path (JStr s) (localIdSeed e) Hu Hs) as (st & Est & E1 & E2 & E3).
    destruct (open_parsed now r e _ st _ Hc Est) as (_ & F2 & F3 & F4 & _).
    unfold save_result, buildVisualJson. rewrite F2, F3, F4, E1, E2, E3.
    rewrite set_operation_saved, Ht by (by rewrite Ht). do 2 f_equal. cbn [toValueText].
    unfold parseLooseValue. rewrite Hw. by destruct (trim s).
Qed.

Lemma quoted_value_changes_type_witness :
  save_result (dispatch (fun _ => 5) (mkChoice true true)
    (Open (set_text (u "user") (JStr (u "123")))) (mount (fun _ => 5) 0))
  = inr (set_text (u "user") (JNum (num_of_Z 123))).
Proof.
  apply (quoted_value_changes_type (fun _ => 5) (mount (fun _ => 5) 0) (mkChoice true true) [] (u "user")
    (u "123") (JNum (num_of_Z 123))); try done; try (by apply units_check).
Defined.

(** ** Lists with null *)

Lemma mapM_throws {A B} (m : A -> M B) l x s : x ∈ l -> (forall s, (m x s).1 = None) -> (mapM m l s).1 = None.
Proof.
  intros Hx Hm. revert s. induction l as [|y l IH]; intros s; [by apply not_elem_of_nil in Hx|].
  change (mapM m (y :: l)) with (z ← m y; zs ← mapM m l; mret (z :: zs)).
  destruct (m y s) as [[z|] s1] eqn:E; [|by rewrite (bind_none _ _ _ _ E)].
  rewrite (bind_run _ _ _ _ _ E). apply elem_of_cons in Hx as [->|Hx]; [by specialize (Hm s); rewrite E in Hm|].
  destruct (mapM m l s1) as [o s2] eqn:E2. specialize (IH Hx s1). rewrite E2 in IH. simpl in IH. subst o.
  by rewrite (bind_none _ _ _ _ E2).
Qed.

(** A stored list of operations with a null in it takes the dialog down: opening
    the dialog on it throws in the effect, and from then on no event has any effect. *)
Theorem null_operation_crashes (now : Z -> Z) (r : ReactChoice) (e : Editor) (text : jstr)
    (v : jsval) (l : list jsval) (rs : list (ReactChoice * Event)) :
  JSON_parse (trim text) = Some v -> is_plain_object v = true -> get v (u "operations") = JArr l -> JNull ∈ l ->
  crashed e = false ->
  let e' := dispatch now r (Open text) e in
  crashed e' = true /\ operations e' = operations e /\
  fold_left (fun e p => dispatch now p.1 p.2 e) rs e' = e'.
Proof.
  intros Hp Ho Hl Hn Hc.
  assert (exists s', parseInitialState now text (localIdSeed e) = (None, s')) as [s' E].
  { unfold parseInitialState. destruct (trim text) as [|c t]; [done|]. rewrite Hp, Ho, Hl.
    destruct l as [|x l]; [by apply not_elem_of_nil in Hn|].
    pose proof (mapM_throws (normalizeOperation now) (x :: l) JNull (localIdSeed e) Hn) as Ht.
    destruct (mapM (normalizeOperation now) (x :: l) (localIdSeed e)) as [o s'] eqn:Em. exists s'.
    simpl in Ht. rewrite Ht in Em by done.
    by rewrite (bind_none _ (operations_or_default now (x :: l)) _ s'). }
  assert (dispatch now r (Open text) e = setCrashed true (setLocalIdSeed s' (setIsOpen true e))) as ->.
  { unfold dispatch. rewrite Hc. cbn [handle]. unfold initialize, with_ids.
    change (localIdSeed (setIsOpen true e)) with (localIdSeed e). by rewrite E. }
  split_and!; [done|done|]. generalize (setLocalIdSeed s' (setIsOpen true e)). intros e1.
  induction rs as [|[r' ev] rs IH]; [done|]. exact IH.
Qed.

Lemma null_operation_crashes_witness :
  crashed (dispatch (fun _ => 5) (mkChoice true true) (Open (uq "{'operations':[null]}")) (mount (fun _ => 5) 0))
  = true.
Proof.
  eapply (null_operation_crashes (fun _ => 5) (mkChoice true true) (mount (fun _ => 5) 0)
    (uq "{'operations':[null]}") (JObj [(u "operations", JArr [JNull])]) [JNull] []);
    [vm_compute; reflexivity|reflexivity|reflexivity|left|vm_compute; reflexivity].
Defined.

(** ** The editor of return_error values *)

#[local] Instance spec_float_eq_dec : EqDecision spec_float.
Proof. solve_decision. Defined.

(** A status code survives printing and parsing. *)
Definition status_check (z : Z) : bool :=
  let n := num_of_Z z in
  isInteger n && num_leb (num_of_Z 100) n && num_leb n (num_of_Z 599) && isFinite n &&
  match num_str n with
  | c :: s => negb (c =? 45)%N &&
      match parse_number false (c :: s) with
      | Some (JNum m, []) => bool_decide (m = n)
      | _ => false
      end
  | [] => false
  end.

Lemma status_checked z : 100 <= z <= 599 -> status_check z = true.
Proof.
  intros Hz. assert (forallb status_check (map Z.of_nat (seq 100 500)) = true) as H by (vm_compute; reflexivity).
  rewrite forallb_forall in H. apply H. apply in_map_iff. exists (Z.to_nat z). split; [lia|].
  apply in_seq. lia.
Qed.

Lemma status_ok z : 100 <= z <= 599 -> valid_status (num_of_Z z) = num_of_Z z /\ num_reads (num_of_Z z).
Proof.
  intros Hz. pose proof (status_checked z Hz) as H. unfold status_check in H.
  rewrite !andb_true_iff in H. destruct H as ((((Hi & Hl) & Hh) & Hf) & Hp). unfold valid_status.
  rewrite Hi, Hl, Hh. split; [done|]. split; [done|].
  destruct (num_str (num_of_Z z)) as [|c s]; [done|]. apply andb_true_iff in Hp as [Hc Hp].
  apply negb_true_iff in Hc. rewrite Hc.
  destruct (parse_number false (c :: s)) as [[[] [|]]|]; try done. by apply bool_decide_eq_true in Hp as ->.
Qed.

Lemma text_or_str (s : jstr) (b : bool) : (b = false -> s = []) -> trim s = s ->
  text_or (if b then JStr s else JUndef) (JStr []) = Some s.
Proof.
  intros Hb Ht. unfold text_or, js_or. destruct b; cbn [truthy].
  - destruct (str_truthy s) eqn:E; cbn; [by rewrite Ht|]. apply str_truthy_false in E. by subst.
  - by rewrite Hb.
Qed.

Lemma text_or_message (s : jstr) : trim s = s -> text_or (JStr s) JUndef = Some s.
Proof.
  intros Ht. unfold text_or, js_or. cbn [truthy].
  destruct (str_truthy s) eqn:E; cbn; [by rewrite Ht|]. apply str_truthy_false in E. by subst.
Qed.

(** The editor of a return_error value, which keeps its state only as the text
    of the value, shows what was entered: with a status code from 100 to 599 the draft
    read from the text of an advanced draft is that draft with its texts trimmed, and
    the text of a simple draft whose message is not a JSON object is read as a simple
    draft with that message, the other fields being lost. *)
Theorem return_error_draft_roundtrip (d : ReturnErrorDraft) (z : Z) :
  100 <= z <= 599 -> re_statusCode d = num_of_Z z ->
  units (re_message d) -> units (re_code d) -> units (re_type d) ->
  (re_simpleMode d = false ->
     parseReturnErrorDraft (buildReturnErrorValueText d) =
     mkReturnErrorDraft (trim (re_message d)) (num_of_Z z) (trim (re_code d)) (trim (re_type d))
       (re_skipRetry d) false) /\
  (re_simpleMode d = true ->
     match JSON_parse (trim (re_message d)) with Some v => is_plain_object v = false | None => True end ->
     parseReturnErrorDraft (buildReturnErrorValueText d) =
     mkReturnErrorDraft (trim (re_message d)) (num_of_Z 400) [] [] true true).
Proof.
  intros Hz Hst Hm Hc Hty. destruct (status_ok z Hz) as [Hvs Hnr]. split; intros Hs.
  - unfold buildReturnErrorValueText. rewrite Hs, Hst, Hvs. set (p := put (negb _) _ _ _).
    assert (json_ok (JObj p)) as Hp.
    { unfold p. repeat (apply json_ok_put; [done|intros _; try done; by apply units_trim|]).
      change (json_ok (JObj (map_set [(u "message", JStr (trim (re_message d)))] (u "status_code")
        (JNum (num_of_Z z))))).
      apply json_ok_set; [done|done|]. apply json_ok_one; [done|]. by apply units_trim. }
    destruct (stringify_text [] (JObj p) Hp) as (t & Et & Ep & Htr & Htn); [constructor|].
    unfold stringify, JSON_stringify. rewrite Et. change (default [] (Some t)) with t. unfold parseReturnErrorDraft.
    rewrite (trim_trimmed t) by done. destruct t as [|c t]; [done|]. rewrite Ep.
    change (is_plain_object (JObj p)) with true. cbv iota zeta.
    assert (return_error_fields (JObj p) = Some (mkReturnErrorDraft (trim (re_message d)) (num_of_Z z)
      (trim (re_code d)) (trim (re_type d)) (re_skipRetry d) false)) as ->; [|done].
    unfold return_error_fields, p. rewrite !get_put, !get_cons. literals. cbn [get map_get default].
    cbn [to_number]. cbn [mbind option_bind]. rewrite text_or_message by apply trim_idemp.
    cbn [mbind option_bind]. rewrite text_or_str by (apply trim_idemp || apply str_truthy_false).
    cbn [mbind option_bind]. rewrite text_or_str by (apply trim_idemp || apply str_truthy_false).
    cbn [mbind option_bind]. rewrite Hvs. by destruct (re_skipRetry d).
  - intros Hj. unfold buildReturnErrorValueText. rewrite Hs. unfold parseReturnErrorDraft. rewrite trim_idemp.
    destruct (trim (re_message d)) as [|c t]; [done|].
    destruct (JSON_parse (c :: t)) as [v|]; [by rewrite Hj|done].
Qed.

Lemma return_error_draft_roundtrip_witness :
  parseReturnErrorDraft (buildReturnErrorValueText
    (mkReturnErrorDraft (u " No access ") (num_of_Z 403) (u "denied") [] false false)) =
  mkReturnErrorDraft (u "No access") (num_of_Z 403) (u "denied") [] false false.
Proof.
  destruct (return_error_draft_roundtrip
    (mkReturnErrorDraft (u " No access ") (num_of_Z 403) (u "denied") [] false false) 403) as [H _];
    [lia|done|by apply units_check|by apply units_check|by apply units_check|]. exact (H eq_refl).
Defined.
