(* ===== verification/ModelMapping.v ===== *)
(** * Model lists and model mappings
      (src/web/src/features/channels/lib/model-mapping-validation.ts and
      upstream-update-utils.ts)

    A channel's models are a text with commas; its mapping is the text of a JSON object
    from the models it is asked for to the models it asks the provider for. The
    functions here read both, find the models of a mapping the list lacks, and read
    the model updates detected upstream from a channel's settings. *)

From Stdlib Require Import ZArith SpecFloat.
From stdpp Require Import base numbers option list sorting.
From S2P Require Import Prelude Collections JsNumber JsValue Json JsonProps Regex JsCoerce.

(** ** Model lists *)

Definition parseModelsString (modelsStr : jstr) : list jstr :=
  if str_truthy modelsStr
  then List.filter str_truthy (map trim (split 44%N modelsStr))
  else [].

Definition formatModelsArray (models : list jstr) : jstr := join (u ",") (new_set models).

Definition normalizeModelName (model : jstr) : jstr := trim model.

(** ** Mappings *)

(** The entries of [JSON.parse(text)] where it is a plain object, in the order of
    [Object.entries]; [None] where it is anything else or the text does not parse. *)
Definition mapping_object (text : jstr) : option (list (jstr * jsval)) :=
  match JSON_parse text with
  | Some (JObj ps) => Some (own_entries ps)
  | _ => None
  end.

Definition extractMappingSourceModels (modelMapping : jstr) : list jstr :=
  let trimmed := trim modelMapping in
  if negb (str_truthy trimmed) then []
  else match mapping_object trimmed with
       | Some entries => new_set (List.filter str_truthy (map trim (map_keys entries)))
       | None => []
       end.

Definition extractRedirectModels (modelMapping : jstr) : list jstr :=
  let trimmed := trim modelMapping in
  if negb (str_truthy trimmed) then []
  else match mapping_object trimmed with
       | Some entries =>
           new_set (List.filter str_truthy
             (omap (fun value => match value with JStr s => Some (trim s) | _ => None end)
                (map_values entries)))
       | None => []
       end.

(** The element-wise comparison of the loop, for lists of the same length. *)
Fixpoint same_models (a b : list jstr) : bool :=
  match a, b with
  | x :: a, y :: b => seqb x y && same_models a b
  | _, _ => true
  end.

Definition hasModelConfigChanged (currentModels : list jstr) (currentModelMapping : jstr)
    (initialModels : list jstr) (initialModelMapping : jstr) : bool :=
  if (length initialModels =? 0)%nat && negb (str_truthy initialModelMapping) then true
  else if negb (length currentModels =? length initialModels)%nat then true
  else if negb (same_models currentModels initialModels) then true
  else negb (seqb (trim currentModelMapping) (trim initialModelMapping)).

Definition findMissingModelsInMapping (modelMapping : jstr) (currentModels : list jstr) : list jstr :=
  if negb (str_truthy modelMapping) || seqb (trim modelMapping) [] then []
  else match mapping_object modelMapping with
       | Some entries =>
           let modelSet := new_set (map normalizeModelName currentModels) in
           new_set (List.filter (fun key => str_truthy key && negb (set_has modelSet key))
                      (map normalizeModelName (map_keys entries)))
       | None => []
       end.

(** [{ valid: true }], or the error. *)
Definition validateModelMappingJson (modelMapping : jstr) : option jstr :=
  if negb (str_truthy modelMapping) || seqb (trim modelMapping) [] then None
  else match JSON_parse modelMapping with
       | Some (JObj ps) =>
           if existsb (fun value => negb (is_string value)) (map_values (own_entries ps))
           then Some (u "Model mapping values must be strings")
           else None
       | Some _ => Some (u "Model mapping must be a valid JSON object")
       | None => Some (u "Model mapping must be valid JSON format")
       end.

Definition findExposedTargetModels (modelMapping : jstr) (currentModels : list jstr) : list jstr :=
  let redirectModels := extractRedirectModels modelMapping in
  if (length redirectModels =? 0)%nat then []
  else
    let modelSet := new_set (map normalizeModelName currentModels) in
    List.filter (fun model => set_has modelSet (normalizeModelName model)) redirectModels.

Record ModelCategories := mkCategories {
  normalizedCurrentModels : list jstr;
  normalizedRedirectModels : list jstr;
  classificationSet : list jstr;
  redirectOnlySet : list jstr
}.

Definition categorizeModelsWithRedirect (currentModels redirectModels : list jstr) : ModelCategories :=
  let current := new_set (List.filter str_truthy (map normalizeModelName currentModels)) in
  let redirect := new_set (List.filter str_truthy (map normalizeModelName redirectModels)) in
  mkCategories current redirect (new_set (current ++ redirect))
    (new_set (List.filter (fun m => negb (set_has current m)) redirect)).

(** ** Upstream updates *)

(** [(models || []).map((model) => String(model || '').trim()).filter(Boolean)]: a value
    other than an array has no [map], and an object may not convert. *)
Definition normalizeModelList (models : jsval) : option (list jstr) :=
  match js_or models (JArr []) with
  | JArr l =>
      texts ← mapM (fun model => trim <$> to_string (js_or model (JStr []))) l;
      Some (new_set (List.filter str_truthy texts))
  | _ => None
  end.

Record UpstreamUpdateMeta := mkMeta {
  enabled : bool;
  pendingAddModels : list jstr;
  pendingRemoveModels : list jstr
}.

(** [None] is the exception of a detected list that is no array. *)
Definition parseUpstreamUpdateMeta (settings : jsval) : option UpstreamUpdateMeta :=
  let parsed :=
    match settings with
    | JObj _ => settings
    | JStr s => default JNull (JSON_parse s)
    | _ => JNull
    end in
  if negb (truthy parsed) || negb (is_object parsed) then Some (mkMeta false [] [])
  else
    add ← normalizeModelList (js_or (get parsed (u "upstream_model_update_last_detected_models")) (JArr []));
    remove ← normalizeModelList (js_or (get parsed (u "upstream_model_update_last_removed_models")) (JArr []));
    Some (mkMeta (is_true (get parsed (u "upstream_model_update_check_enabled"))) add remove).

Example mapping_ex :
  let m := uq "{'a ':'x','b':' y','2':'x',' ':'z'}" in
  extractMappingSourceModels m = [u "2"; u "a"; u "b"]
  /\ extractRedirectModels m = [u "x"; u "y"; u "z"]
  /\ findMissingModelsInMapping m [u "b"; u " 2"] = [u "a"]
  /\ findExposedTargetModels m [u "y "; u "b"] = [u "y"]
  /\ validateModelMappingJson (uq "{'a':1}") = Some (u "Model mapping values must be strings").
Proof. vm_compute. done. Qed.

(** ** Reading and writing lists *)

(** A name that stands alone in a list: trimmed, not empty, without a comma. *)
Definition model_name (m : jstr) : Prop := m <> [] /\ trim m = m /\ ~ In 44%N m.

Lemma parseModelsString_names s : Forall model_name (parseModelsString s).
Proof.
  unfold parseModelsString. destruct (str_truthy s); [|constructor].
  apply Forall_forall. intros m Hm.
  apply list_elem_of_In, filter_In in Hm as [Hm Ht]. apply in_map_iff in Hm as (p & <- & Hp).
  pose proof (split_no_sep 44%N s) as Hs. rewrite List.Forall_forall in Hs. split_and!.
  - by intros E; rewrite E in Ht.
  - apply trim_idemp.
  - intros H%trim_subset. by apply (Hs p).
Qed.

Lemma names_kept ms : Forall model_name ms -> List.filter str_truthy (map trim ms) = ms.
Proof.
  induction 1 as [|m ms (Hne & Ht & _) _ IH]; simpl; [done|].
  rewrite Ht, IH. by destruct m.
Qed.

Lemma join_nonempty sep ms : Forall model_name ms -> ms <> [] -> join sep ms <> [].
Proof.
  intros H Hn. destruct H as [|m ms (Hne & _) _]; [done|]. destruct ms; simpl; [done|].
  destruct m; [done|by destruct sep].
Qed.

(** Writing a list of names and reading it back gives the list without repetitions. *)
Lemma parse_format ms : Forall model_name ms -> parseModelsString (formatModelsArray ms) = new_set ms.
Proof.
  intros H. assert (Hn : Forall model_name (new_set ms)).
  { apply Forall_forall. intros m Hm. rewrite elem_of_new_set in Hm.
    rewrite Forall_forall in H. exact (H m Hm). }
  unfold formatModelsArray, parseModelsString. destruct (new_set ms) as [|m l] eqn:E; [done|].
  rewrite <- E in *. assert (str_truthy (join (u ",") (new_set ms)) = true) as ->.
  { pose proof (join_nonempty (u ",") _ Hn) as Hj. rewrite E in Hj at 1. specialize (Hj ltac:(done)).
    by destruct (join _ _). }
  change (u ",") with [44%N]. rewrite split_join; [by apply names_kept|by rewrite E|].
  eapply Forall_impl; [exact Hn|]. by intros x (_ & _ & ?).
Qed.

Lemma missing_spec m ms k :
  k ∈ findMissingModelsInMapping m ms <->
  exists entries raw, seqb (trim m) [] = false /\ mapping_object m = Some entries /\
    raw ∈ map_keys entries /\ k = trim raw /\ k <> [] /\ k ∉ map trim ms.
Proof.
  unfold findMissingModelsInMapping, normalizeModelName. destruct (str_truthy m) eqn:Em; simpl.
  2: { destruct m; [|done]. split; [by intros ?%elem_of_nil|]. intros (? & ? & Hs & _). done. }
  destruct (seqb (trim m) []) eqn:Et; simpl.
  { split; [by intros ?%elem_of_nil|]. by intros (? & ? & ? & _). }
  destruct (mapping_object m) as [es|] eqn:Eo.
  2: { split; [by intros ?%elem_of_nil|]. by intros (? & ? & _ & ? & _). }
  rewrite elem_of_new_set, list_elem_of_In, filter_In, andb_true_iff, negb_true_iff, set_has_false.
  rewrite elem_of_new_set, in_map_iff. split.
  - intros [(raw & <- & Hr) [Ht Hn]]. exists es, raw. split_and!; try done.
    + by apply list_elem_of_In.
    + by intros E; rewrite E in Ht.
  - intros (es' & raw & _ & [= <-] & Hr & -> & Hne & Hn). split_and!; try done.
    + exists raw. split; [done|]. by apply list_elem_of_In.
    + by destruct (trim raw).
Qed.
