(* ===== verification/Permissions.v ===== *)
(** * Roles and permissions (src/web/src/lib/roles.ts and admin-permissions.ts)

    Who may do what in the administration pages: the check the pages make on the
    signed-in user, and the complete permission matrix the user editor sends. The
    catalog of resources, actions and roles comes from the server. *)

From Stdlib Require Import ZArith SpecFloat.
From stdpp Require Import base numbers option list sorting.
From S2P Require Import Prelude Collections JsNumber JsValue Json JsonProps Regex JsCoerce AuthStore.

(** ** Roles *)

Definition ROLE_GUEST : Z := 0.
Definition ROLE_USER : Z := 1.
Definition ROLE_ADMIN : Z := 10.
Definition ROLE_SUPER_ADMIN : Z := 100.

Definition ROLE_LABEL_KEYS : list (Z * jstr) :=
  [(ROLE_SUPER_ADMIN, u "Super Admin"); (ROLE_ADMIN, u "Admin"); (ROLE_USER, u "User");
   (ROLE_GUEST, u "Guest")].

Definition getRoleLabelKey (role : option Z) : jstr :=
  default (default [] (map_get ROLE_LABEL_KEYS ROLE_GUEST)) (role ≫= map_get ROLE_LABEL_KEYS).

(** ** Permissions *)

Definition AdminPermissionMatrix : Type := list (jstr * list (jstr * bool)).

Definition ADMIN_ROLE_KEY : jstr := u "admin".

Record PermissionActionDef := mkAction {
  action : jstr;
  action_label_key : jstr;
  description_key : jstr
}.

Record PermissionResourceDef := mkResource {
  resource : jstr;
  label_key : jstr;
  actions : list PermissionActionDef
}.

Record PermissionRoleDef := mkRole {
  role_key : jstr;
  role_name : jstr;
  built_in : bool;
  superuser : bool;
  grants : AdminPermissionMatrix
}.

Record PermissionCatalog := mkCatalog {
  resources : list PermissionResourceDef;
  roles : list PermissionRoleDef
}.

(** [user.permissions?.admin_permissions?.[resource]?.[action] === true]; the user is
    the object the server sent. *)
Definition hasPermission (user : option AuthUser) (resource_name action_name : jstr) : bool :=
  match user with
  | None => false
  | Some user =>
      if negb (truthy user) then false
      else if match get user (u "role") with JNum n => num_eqb n (num_of_Z ROLE_SUPER_ADMIN) | _ => false end
      then true
      else is_true (get (get (get (get user (u "permissions")) (u "admin_permissions")) resource_name) action_name)
  end.

Definition roleGrants (catalog : PermissionCatalog) (roleKey : jstr) : AdminPermissionMatrix :=
  match List.find (fun role => seqb (role_key role) roleKey) (roles catalog) with
  | Some role => grants role
  | None => []
  end.

(** [matrix?.[resource]?.[action]]. *)
Definition permission (matrix : AdminPermissionMatrix) (r a : jstr) : option bool :=
  map_get matrix r ≫= fun acts => map_get acts a.

Definition normalize_actions (value baseline : AdminPermissionMatrix) (r : PermissionResourceDef)
    : list (jstr * bool) :=
  fold_left (fun acts x =>
    map_set acts (action x)
      match permission value (resource r) (action x) with
      | Some b => b
      | None => default false (permission baseline (resource r) (action x))
      end) (actions r) [].

Definition normalizeAdminPermissions (value : option AdminPermissionMatrix) (catalog : PermissionCatalog)
    : AdminPermissionMatrix :=
  let baseline := roleGrants catalog ADMIN_ROLE_KEY in
  fold_left (fun normalized r =>
    map_set normalized (resource r) (normalize_actions (default [] value) baseline r))
    (resources catalog) [].

(** ** What normalization gives *)

Lemma fold_set_get {A V} (key : A -> jstr) (val : A -> V) l m k :
  map_get (fold_left (fun m x => map_set m (key x) (val x)) l m) k =
  match List.find (fun x => seqb (key x) k) (rev l) with
  | Some x => Some (val x)
  | None => map_get m k
  end.
Proof.
  revert m. induction l as [|x l IH] using rev_ind; intros m; simpl; [done|].
  rewrite fold_left_app, rev_app_distr. simpl. rewrite map_get_set.
  destruct (seqb (key x) k) eqn:E.
  - apply seqb_eq in E. by case_bool_decide.
  - apply seqb_neq in E. case_bool_decide; [done|apply IH].
Qed.

(** The action is in the catalog. *)
Definition in_catalog (catalog : PermissionCatalog) (r a : jstr) : Prop :=
  exists def, def ∈ resources catalog /\ resource def = r /\ a ∈ map action (actions def).

Lemma normalized_actions value baseline r a :
  map_get (normalize_actions value baseline r) a =
  if set_has (map action (actions r)) a
  then Some (match permission value (resource r) a with
             | Some b => b
             | None => default false (permission baseline (resource r) a)
             end)
  else None.
Proof.
  unfold normalize_actions.
  rewrite (fold_set_get action (fun x => match permission value (resource r) (action x) with
    | Some b => b | None => default false (permission baseline (resource r) (action x)) end)).
  destruct (List.find _ _) as [x|] eqn:E.
  - apply find_some in E as [Hx Hk%seqb_eq]. subst a.
    assert (set_has (map action (actions r)) (action x) = true) as ->; [|done].
    apply set_has_true, list_elem_of_In, in_map. by apply in_rev.
  - assert (set_has (map action (actions r)) a = false) as ->; [|done].
    apply set_has_false. intros Ha%list_elem_of_In%in_map_iff. destruct Ha as (x & Hx & Hi%in_rev).
    apply (find_none _ _ E) in Hi. subst a. by rewrite seqb_refl in Hi.
Qed.

Lemma normalized_get value catalog r a : NoDup (map resource (resources catalog)) ->
  permission (normalizeAdminPermissions value catalog) r a =
  match List.find (fun d => seqb (resource d) r) (resources catalog) with
  | Some d =>
      if set_has (map action (actions d)) a
      then Some (match permission (default [] value) r a with
                 | Some b => b
                 | None => default false (permission (roleGrants catalog ADMIN_ROLE_KEY) r a)
                 end)
      else None
  | None => None
  end.
Proof.
  intros Hnd. unfold normalizeAdminPermissions, permission at 1.
  rewrite (fold_set_get resource (normalize_actions (default [] value) (roleGrants catalog ADMIN_ROLE_KEY))).
  assert (Hf : List.find (fun d => seqb (resource d) r) (rev (resources catalog)) =
    List.find (fun d => seqb (resource d) r) (resources catalog)).
  { destruct (List.find _ (rev _)) as [x|] eqn:E1; destruct (List.find _ (resources catalog)) as [y|] eqn:E2.
    - apply find_some in E1 as [H1 K1%seqb_eq], E2 as [H2 K2%seqb_eq]. apply in_rev in H1. f_equal.
      apply list_elem_of_In, list_elem_of_lookup in H1 as [i Hi].
      apply list_elem_of_In, list_elem_of_lookup in H2 as [j Hj].
      assert (i = j) as ->; [|by rewrite Hi in Hj; injection Hj].
      rewrite <- K2 in K1. apply (proj1 (NoDup_alt _) Hnd i j (resource x)); rewrite list_lookup_fmap.
      + by rewrite Hi.
      + by rewrite Hj, K1.
    - apply find_some in E1 as [H1%in_rev K1]. apply (find_none _ _ E2) in H1. by rewrite K1 in H1.
    - apply find_some in E2 as [H2 K2]. rewrite in_rev in H2. apply (find_none _ _ E1) in H2. by rewrite K2 in H2.
    - done. }
  rewrite Hf. destruct (List.find _ (resources catalog)) as [d|] eqn:E; simpl; [|done].
  rewrite normalized_actions. apply find_some in E as [_ K%seqb_eq]. by rewrite K.
Qed.

(** The matrix that is sent decides every action of the catalog and nothing else: the
    value chosen in the editor, else the grant of the admin role, else no; and
    normalizing it again changes nothing. *)
Theorem normalized_permissions (value : option AdminPermissionMatrix) (catalog : PermissionCatalog) (r a : jstr) :
  NoDup (map resource (resources catalog)) ->
  let sent := normalizeAdminPermissions value catalog in
  (in_catalog catalog r a ->
   permission sent r a = Some (match permission (default [] value) r a with
     | Some b => b
     | None => default false (permission (roleGrants catalog ADMIN_ROLE_KEY) r a)
     end)) /\
  (~ in_catalog catalog r a -> permission sent r a = None) /\
  permission (normalizeAdminPermissions (Some sent) catalog) r a = permission sent r a.
Proof.
  intros Hnd sent. unfold sent. rewrite !(normalized_get _ _ _ _ Hnd). cbn [default]. unfold id.
  rewrite (normalized_get value _ _ _ Hnd).
  destruct (List.find (fun d => seqb (resource d) r) (resources catalog)) as [d|] eqn:E.
  - apply find_some in E as [Hd K%seqb_eq]. destruct (set_has (map action (actions d)) a) eqn:Ea; split_and!; try done.
    + intros Hn. exfalso. apply Hn. exists d. apply set_has_true in Ea. by rewrite list_elem_of_In.
    + intros (d' & Hd' & K' & Ha). exfalso. apply set_has_false in Ea. apply Ea.
      apply list_elem_of_In, list_elem_of_lookup in Hd as [i Hi]. apply list_elem_of_lookup in Hd' as [j Hj].
      assert (i = j) as ->; [|rewrite Hi in Hj; by injection Hj as ->].
      apply (proj1 (NoDup_alt _) Hnd i j r); rewrite list_lookup_fmap; [rewrite Hi|rewrite Hj]; cbn; congruence.
  - split_and!; try done. intros (d & Hd & K & _). exfalso.
    apply list_elem_of_In in Hd. apply (find_none _ _ E) in Hd. by rewrite K, seqb_refl in Hd.
Qed.
