(* ===== verification/NavModules.v ===== *)
(** * Navigation modules
      (src/web/src/lib/nav-modules.ts and the route guards that use it)

    The server's status says which modules of the site are shown and which of them need
    a signed-in user. [Site] is the reader the pages use, with the stored copy of the
    status and the guards of the pricing and rankings pages. It reads values of unknown
    shape; [None] is a thrown TypeError. A key called [__proto__] is not a property of
    the objects built here, and members inherited from a prototype are left aside. *)

From Stdlib Require Import ZArith SpecFloat.
From stdpp Require Import base numbers option list sorting.
From S2P Require Import Prelude Collections JsNumber JsValue Json JsonProps Regex JsCoerce AuthStore.

(** ** Objects built entry by entry *)

Definition index_entries {A} (f : A -> jsval) (l : list A) : list (jstr * jsval) :=
  imap (fun i x => (Z_str (Z.of_nat i), f x)) l.

(** [Object.entries(v)]; a text has its characters. *)
Definition object_entries (v : jsval) : option (list (jstr * jsval)) :=
  match v with
  | JUndef | JNull => None
  | JObj ps => Some (own_entries ps)
  | JArr l => Some (index_entries id l)
  | JStr s => Some (index_entries (fun c => JStr [c]) s)
  | JBool _ | JNum _ => Some []
  end.

(** A loop over entries that assigns to the entry's own key of the result or does
    nothing; assigning to [__proto__] creates no property. *)
Definition assign_entries {V} (g : jstr -> jsval -> option V -> option V)
    (entries : list (jstr * jsval)) (m : list (jstr * V)) : list (jstr * V) :=
  fold_left (fun m e =>
    if seqb (fst e) (u "__proto__") then m
    else match g (fst e) (snd e) (map_get m (fst e)) with
         | Some w => map_set m (fst e) w
         | None => m
         end) entries m.

Record ModuleAccess := mkAccess { enabled : bool; requireAuth : bool }.

(** [boolean | ModuleAccess]. *)
Inductive NavValue := NavBool (b : bool) | NavAccess (a : ModuleAccess).

Definition HeaderNavModules : Type := list (jstr * NavValue).

(** [typeof v === 'boolean'], 'number' or 'string'. *)
Definition is_scalar (v : jsval) : bool := is_boolean v || is_number v || is_string v.

Module Site.

Inductive HeaderNavModule := rankings | pricing.

Definition module_key (m : HeaderNavModule) : jstr :=
  match m with rankings => u "rankings" | pricing => u "pricing" end.

Definition DEFAULT_ACCESS : ModuleAccess := mkAccess true false.

Definition DEFAULT_HEADER_NAV_MODULES : HeaderNavModules :=
  [(u "home", NavBool true); (u "console", NavBool true); (u "pricing", NavAccess DEFAULT_ACCESS);
   (u "rankings", NavAccess DEFAULT_ACCESS); (u "docs", NavBool true); (u "about", NavBool true)].

Definition parseHeaderNavBoolean (raw : jsval) (fallback : bool) : bool :=
  match raw with
  | JBool b => b
  | JNum n =>
      if num_eqb n (num_of_Z 1) then true
      else if num_eqb n (num_of_Z 0) then false
      else fallback
  | JStr s =>
      let t := trim s in
      if lower_is t (u "true") || lower_is t (u "1") then true
      else if lower_is t (u "false") || lower_is t (u "0") then false
      else fallback
  | _ => fallback
  end.

Definition parseAccess (raw : jsval) (fallback : ModuleAccess) : ModuleAccess :=
  if is_scalar raw then
    mkAccess (parseHeaderNavBoolean raw (enabled fallback)) (requireAuth fallback)
  else if truthy raw && is_object raw then
    mkAccess (parseHeaderNavBoolean (get raw (u "enabled")) (enabled fallback))
      (parseHeaderNavBoolean (get raw (u "requireAuth")) (requireAuth fallback))
  else fallback.

(** [None] is the exception of [String(raw)]; [Some None] is null. *)
Definition parseHeaderNavRecord (raw : jsval) : option (option jsval) :=
  if negb (truthy raw) then Some None
  else
    text ← to_string raw;
    if seqb (trim text) [] then Some None
    else if is_object raw then Some (Some raw)
    else Some (JSON_parse text).

(** The assignment of one entry. The access modules of the result are accesses when
    they are read; a boolean there is left aside. *)
Definition nav_entry (key : jstr) (value : jsval) (current : option NavValue) : option NavValue :=
  if seqb key (u "pricing") || seqb key (u "rankings") then
    match current with
    | Some (NavAccess a) => Some (NavAccess (parseAccess value a))
    | _ => None
    end
  else
    match current with
    | Some (NavBool fallback) => Some (NavBool (parseHeaderNavBoolean value fallback))
    | _ => if is_scalar value then Some (NavBool (parseHeaderNavBoolean value true)) else None
    end.

Definition parseHeaderNavModules (raw : jsval) : option HeaderNavModules :=
  parsed ← parseHeaderNavRecord raw;
  match parsed with
  | None => Some DEFAULT_HEADER_NAV_MODULES
  | Some parsed =>
      if negb (truthy parsed) then Some DEFAULT_HEADER_NAV_MODULES
      else
        entries ← object_entries parsed;
        Some (assign_entries nav_entry entries DEFAULT_HEADER_NAV_MODULES)
  end.

(** [status?.HeaderNavModules]; null is the status that is not there. *)
Definition parseHeaderNavModulesFromStatus (status : jsval) : option HeaderNavModules :=
  parseHeaderNavModules (get status (u "HeaderNavModules")).

(** The browser: whether there is a window, the items of its storage, whether they can be
    read, and the texts it can store. *)
Record Browser := mkBrowser {
  has_window : bool;
  readable : bool;
  stores : jstr -> bool;
  items : list (jstr * jstr)
}.

Definition getCachedStatus (b : Browser) : jsval :=
  if negb (has_window b) || negb (readable b) then JNull
  else match map_get (items b) (u "status") with
       | Some raw => if str_truthy raw then default JNull (JSON_parse raw) else JNull
       | None => JNull
       end.

Definition cacheStatus (status : jsval) (b : Browser) : Browser :=
  if has_window b && truthy status then
    match JSON_stringify status with
    | Some text =>
        if stores b text
        then mkBrowser (has_window b) (readable b) (stores b) (map_set (items b) (u "status") text)
        else b
    | None => b
    end
  else b.

Definition getModuleAccessFromStatus (status : jsval) (module : HeaderNavModule) : option ModuleAccess :=
  modules ← parseHeaderNavModulesFromStatus status;
  Some match map_get modules (module_key module) with
       | Some (NavAccess a) => a
       | _ => DEFAULT_ACCESS
       end.

Definition getModuleAccess (b : Browser) (module : HeaderNavModule) : option ModuleAccess :=
  getModuleAccessFromStatus (getCachedStatus b) module.

Definition closed : ModuleAccess := mkAccess false true.

(** The status the server sent, or [None] where the request failed. *)
Definition getFreshModuleAccess (response : option jsval) (module : HeaderNavModule) (b : Browser)
    : ModuleAccess * Browser :=
  match response with
  | None => (closed, b)
  | Some status =>
      let b := cacheStatus status b in
      (default closed (getModuleAccessFromStatus status module), b)
  end.

Definition isSidebarModuleEnabled (b : Browser) (section module : jstr) : option bool :=
  let status := getCachedStatus b in
  if negb (truthy status) then Some true
  else
    let raw := get status (u "SidebarModulesAdmin") in
    if negb (truthy raw) then Some true
    else
      text ← to_string raw;
      if seqb (trim text) [] then Some true
      else match JSON_parse text with
           | Some JNull | Some JUndef | None => Some true
           | Some parsed =>
               let sectionConfig := get parsed section in
               let is_false v := match v with JBool false => true | _ => false end in
               if negb (truthy sectionConfig) then Some true
               else if is_false (get sectionConfig (u "enabled")) then Some false
               else if is_false (get sectionConfig module) then Some false
               else Some true
           end.

(** The [beforeLoad] of the pages of a module. *)
Inductive Navigation := Load | RedirectHome | RedirectSignIn.

Definition beforeLoad (module : HeaderNavModule) (response : option jsval) (auth : AuthState)
    (b : Browser) : Navigation * Browser :=
  let '(access, b) := getFreshModuleAccess response module b in
  if negb (enabled access) then (RedirectHome, b)
  else if requireAuth access && negb (truthy (default JNull (user auth))) then (RedirectSignIn, b)
  else (Load, b).
End Site.
