(* ===== verification/NavSettings.v ===== *)
(** * The settings of the navigation modules
      (src/web/src/features/system-settings/maintenance/config.ts)

    The reader and writer of the administrator's settings page for the modules of the
    header and of the sidebar. *)

From Stdlib Require Import ZArith SpecFloat.
From stdpp Require Import base numbers option list sorting.
From S2P Require Import Prelude Collections JsNumber JsValue Json JsonProps Regex JsCoerce NavModules.

Module Settings.

Definition HEADER_NAV_DEFAULT : HeaderNavModules :=
  [(u "home", NavBool true); (u "console", NavBool true); (u "pricing", NavAccess (mkAccess true false));
   (u "rankings", NavAccess (mkAccess true false)); (u "docs", NavBool true); (u "about", NavBool true)].

Definition SidebarSectionConfig : Type := list (jstr * bool).
Definition SidebarModulesAdminConfig : Type := list (jstr * SidebarSectionConfig).

Definition SIDEBAR_MODULES_DEFAULT : SidebarModulesAdminConfig := [
  (u "chat", [(u "enabled", true); (u "playground", true); (u "chat", true)]);
  (u "console", [(u "enabled", true); (u "detail", true); (u "token", true); (u "log", true);
                 (u "midjourney", true); (u "task", true)]);
  (u "personal", [(u "enabled", true); (u "topup", true); (u "personal", true)]);
  (u "admin", [(u "enabled", true); (u "channel", true); (u "models", true); (u "redemption", true);
               (u "user", true); (u "setting", true); (u "subscription", true)])].

Definition toBoolean (value : jsval) (fallback : bool) : bool :=
  match value with
  | JBool b => b
  | JNum n => num_eqb n (num_of_Z 1)
  | JStr s =>
      let t := trim s in
      if lower_is t (u "true") || lower_is t (u "1") then true
      else if lower_is t (u "false") || lower_is t (u "0") then false
      else fallback
  | _ => fallback
  end.

Definition parseAccessModule (raw : jsval) (fallback : ModuleAccess) : ModuleAccess :=
  if is_scalar raw then mkAccess (toBoolean raw (enabled fallback)) (requireAuth fallback)
  else if truthy raw && is_object raw then
    mkAccess (toBoolean (get raw (u "enabled")) (enabled fallback))
      (toBoolean (get raw (u "requireAuth")) (requireAuth fallback))
  else fallback.

(** One entry; [base[key]] is the default, whatever the result holds. *)
Definition header_entry (key : jstr) (raw : jsval) (_ : option NavValue) : option NavValue :=
  if seqb key (u "pricing") || seqb key (u "rankings") then
    Some (NavAccess (parseAccessModule raw (mkAccess true false)))
  else match raw with
       | JBool b => Some (NavBool b)
       | JStr _ | JNum _ =>
           Some (NavBool (toBoolean raw
             match map_get HEADER_NAV_DEFAULT key with
             | Some (NavBool b) => b
             | Some (NavAccess _) => true
             | None => false
             end))
       | _ => None
       end.

Definition parseHeaderNavModules (value : option jstr) : HeaderNavModules :=
  match value with
  | None => HEADER_NAV_DEFAULT
  | Some value =>
      if negb (str_truthy value) then HEADER_NAV_DEFAULT
      else match JSON_parse value ≫= object_entries with
           | Some entries => assign_entries header_entry entries HEADER_NAV_DEFAULT
           | None => HEADER_NAV_DEFAULT
           end
  end.

Definition nav_val (v : NavValue) : jsval :=
  match v with
  | NavBool b => JBool b
  | NavAccess a => JObj [(u "enabled", JBool (enabled a)); (u "requireAuth", JBool (requireAuth a))]
  end.

Definition serializeHeaderNavModules (config : HeaderNavModules) : jstr :=
  default [] (JSON_stringify (JObj (map (fun e => (fst e, nav_val (snd e))) config))).

(** The modules of a section: [enabled] first, then the others in order. *)
Definition module_entry (defaultSection : SidebarSectionConfig) (moduleKey : jstr) (moduleValue : jsval)
    (_ : option bool) : option bool :=
  if seqb moduleKey (u "enabled") then None
  else Some (toBoolean moduleValue (default true (map_get defaultSection moduleKey))).

(** [entries] are the entries of the section's own value. *)
Definition section_config (defaultSection : SidebarSectionConfig) (raw : jsval)
    (entries : list (jstr * jsval)) : SidebarSectionConfig :=
  assign_entries (module_entry defaultSection) entries
    [(u "enabled", toBoolean (get raw (u "enabled")) (default true (map_get defaultSection (u "enabled"))))].

Definition section_entry (sectionKey : jstr) (raw : jsval) (_ : option SidebarSectionConfig)
    : option SidebarSectionConfig :=
  if negb (truthy raw) || negb (is_object raw) then None
  else
    let defaultSection := default [(u "enabled", true)] (map_get SIDEBAR_MODULES_DEFAULT sectionKey) in
    Some (section_config defaultSection raw (default [] (object_entries raw))).

(** The defaults a section lacks are added at its end. *)
Definition merge_section (config section : SidebarSectionConfig) : SidebarSectionConfig :=
  fold_left (fun s e => if map_has s (fst e) then s else map_set s (fst e) (snd e)) config section.

Definition merge_defaults (result : SidebarModulesAdminConfig) : SidebarModulesAdminConfig :=
  fold_left (fun r e =>
    match map_get r (fst e) with
    | None => map_set r (fst e) (snd e)
    | Some section => map_set r (fst e) (merge_section (snd e) section)
    end) SIDEBAR_MODULES_DEFAULT result.

Definition parseSidebarModulesAdmin (value : option jstr) : SidebarModulesAdminConfig :=
  match value with
  | None => SIDEBAR_MODULES_DEFAULT
  | Some value =>
      if negb (str_truthy value) || seqb (trim value) [] then SIDEBAR_MODULES_DEFAULT
      else match JSON_parse value ≫= object_entries with
           | Some entries => merge_defaults (assign_entries section_entry entries [])
           | None => SIDEBAR_MODULES_DEFAULT
           end
  end.

Definition section_val (s : SidebarSectionConfig) : jsval :=
  JObj (map (fun e => (fst e, JBool (snd e))) s).

Definition serializeSidebarModulesAdmin (config : SidebarModulesAdminConfig) : jstr :=
  default [] (JSON_stringify (JObj (map (fun e => (fst e, section_val (snd e))) config))).
End Settings.

Example nav_ex :
  let text := uq "{'pricing':{'enabled':'0','requireAuth':1},'home':2,'blog':'maybe','docs':false,'rankings':0}" in
  Site.parseHeaderNavModules (JStr text) =
    Some [(u "home", NavBool true); (u "console", NavBool true); (u "pricing", NavAccess (mkAccess false true));
          (u "rankings", NavAccess (mkAccess false false)); (u "docs", NavBool false);
          (u "about", NavBool true); (u "blog", NavBool true)]
  /\ Settings.parseHeaderNavModules (Some text) =
      [(u "home", NavBool false); (u "console", NavBool true); (u "pricing", NavAccess (mkAccess false true));
       (u "rankings", NavAccess (mkAccess false false)); (u "docs", NavBool false);
       (u "about", NavBool true); (u "blog", NavBool false)].
Proof. vm_compute. done. Qed.
