(* ===== verification/NavModulesProps.v ===== *)
(** * What an administrator saves about the modules is what the site does

    The settings page writes the modules as JSON text, the server sends it with its
    status, and the pages read it back. *)

From Stdlib Require Import ZArith SpecFloat.
From stdpp Require Import base numbers option list sorting.
From S2P Require Import Prelude Collections JsNumber JsValue Json JsonProps Regex JsCoerce AuthStore.
From S2P Require Import NavModules NavSettings.

(** ** Loops over entries *)

Section Assign.
Context {V : Type} (g : jstr -> jsval -> option V -> option V).

Lemma assign_cons e es m :
  assign_entries g (e :: es) m =
  assign_entries g es (if seqb (fst e) (u "__proto__") then m
                       else match g (fst e) (snd e) (map_get m (fst e)) with
                            | Some w => map_set m (fst e) w
                            | None => m
                            end).
Proof. done. Qed.

Lemma assign_get es k : NoDup es.*1 -> k <> u "__proto__" -> forall m,
  map_get (assign_entries g es m) k =
  match map_get es k with
  | Some v => match g k v (map_get m k) with Some w => Some w | None => map_get m k end
  | None => map_get m k
  end.
Proof.
  intros Hnd Hk. induction es as [|[k' v] es IH]; intros m; [done|].
  rewrite assign_cons. cbn [fst snd fmap list_fmap] in *. apply NoDup_cons in Hnd as [Hn Hnd].
  rewrite (IH Hnd). cbn [map_get]. destruct (decide (k' = k)) as [->|Hne].
  - rewrite (proj2 (map_get_None es k) Hn), bool_decide_true by done.
    rewrite (proj2 (seqb_neq k _) Hk). destruct (g k v (map_get m k)); [apply map_get_set_eq|done].
  - rewrite bool_decide_false by done.
    assert (map_get (if seqb k' (u "__proto__") then m
      else match g k' v (map_get m k') with Some w => map_set m k' w | None => m end) k = map_get m k) as ->;
      [|done].
    destruct (seqb _ _); [done|]. destruct (g _ _ _); [by apply map_get_set_ne|done].
Qed.

(** What every assignment keeps, the result keeps. *)
Lemma assign_inv (P : list (jstr * V) -> Prop) es m : P m ->
  (forall m k v w, P m -> k <> u "__proto__" -> g k v (map_get m k) = Some w -> P (map_set m k w)) ->
  P (assign_entries g es m).
Proof.
  intros H Hs. revert m H. induction es as [|[k v] es IH]; intros m H; [done|].
  rewrite assign_cons. apply IH. cbn [fst snd]. destruct (seqb _ _) eqn:E; [done|]. apply seqb_neq in E.
  destruct (g k v (map_get m k)) eqn:Eg; [by eapply Hs|done].
Qed.
End Assign.

(** ** Configurations *)

Definition plain_key (k : jstr) : Prop := key_ok k = true.

Lemma plain_key_parts k : plain_key k <-> units k /\ array_index k = None.
Proof.
  unfold plain_key, key_ok. rewrite andb_true_iff, bool_decide_eq_true. split.
  - intros [H ?]. split; [by apply units_check|done].
  - intros [H ?]. split; [|done]. apply forallb_forall. intros c Hc. apply N.ltb_lt.
    unfold units in H. rewrite List.Forall_forall in H. by apply H.
Qed.

Lemma json_text ps : NoDup ps.*1 -> Forall (fun e => plain_key (fst e) /\ json_ok (snd e)) ps ->
  exists t, JSON_stringify (JObj ps) = Some t /\ JSON_parse t = Some (JObj ps) /\
    str_truthy t = true /\ seqb (trim t) [] = false /\ own_entries ps = ps.
Proof.
  intros Hn Hp. assert (Hok : json_ok (JObj ps)).
  { apply json_ok_obj. split; [done|].
    split; (eapply Forall_impl; [exact Hp|]); by intros [k v] [[? ?]%plain_key_parts ?]. }
  destruct (stringify_parse [] (JObj ps) Hok) as (t & E & Ep & _); [constructor|].
  destruct (serialize_obj_open [] ps t E) as [t' ->].
  exists (123%N :: t'). split_and!; try done.
  - apply seqb_neq. by apply trim_nonempty.
  - apply own_entries_id. eapply Forall_impl; [exact Hp|]. by intros [k v] [[? ?]%plain_key_parts ?].
Qed.

Definition is_access (v : NavValue) : bool := match v with NavAccess _ => true | NavBool _ => false end.
Definition access_key (k : jstr) : bool := seqb k (u "pricing") || seqb k (u "rankings").

(** Every module that has an access, and no other, is configured by one. *)
Definition nav_ok (c : HeaderNavModules) : Prop :=
  map_ok c /\ ~ (u "__proto__" ∈ c.*1) /\
  (forall k v, map_get c k = Some v -> is_access v = access_key k) /\
  (forall k v, map_get Settings.HEADER_NAV_DEFAULT k = Some v -> is_Some (map_get c k)).

Lemma nav_ok_default : nav_ok Settings.HEADER_NAV_DEFAULT.
Proof.
  split_and!.
  - apply (bool_decide_unpack _). vm_compute. exact I.
  - apply (bool_decide_unpack _). vm_compute. exact I.
  - intros k v H%map_get_Some_elem. unfold Settings.HEADER_NAV_DEFAULT in H.
    repeat (apply elem_of_cons in H as [[= -> ->]|H]; [by vm_compute|]). by apply elem_of_nil in H.
  - by intros k v ->.
Qed.

Lemma header_entry_access k v o w : Settings.header_entry k v o = Some w -> is_access w = access_key k.
Proof.
  unfold Settings.header_entry, access_key. destruct (_ || _); [by intros [= <-]|].
  destruct v; try done; by intros [= <-].
Qed.

Lemma map_set_nav_ok c k w : nav_ok c -> k <> u "__proto__" -> is_access w = access_key k ->
  nav_ok (map_set c k w).
Proof.
  intros (Hm & Hp & Ha & Hd) Hk Hw. split_and!.
  - auto with js.
  - change (~ (u "__proto__" ∈ map_keys (map_set c k w))). rewrite map_keys_set_elem. by intros [?|?].
  - intros k' v. rewrite map_get_set. case_bool_decide; [by intros [= <-]; subst|apply Ha].
  - intros k' v H. rewrite map_get_set. case_bool_decide; [done|by eapply Hd].
Qed.

Lemma settings_nav_ok value : nav_ok (Settings.parseHeaderNavModules value).
Proof.
  unfold Settings.parseHeaderNavModules. destruct value as [s|]; [|apply nav_ok_default].
  destruct (negb _); [apply nav_ok_default|]. destruct (_ ≫= _); [|apply nav_ok_default].
  apply assign_inv; [apply nav_ok_default|]. intros m k v w Hm Hk Hg.
  apply map_set_nav_ok; [done..|]. by eapply header_entry_access.
Qed.

(** ** The site reads what was saved *)

Lemma map_get_vals {V} (f : V -> jsval) (c : list (jstr * V)) k :
  map_get (map (fun e => (fst e, f (snd e))) c) k = f <$> map_get c k.
Proof. rewrite <- (map_get_map f). f_equal. apply map_ext. by intros [? ?]. Qed.

Lemma keys_vals {V} (f : V -> jsval) (c : list (jstr * V)) : (map (fun e => (fst e, f (snd e))) c).*1 = c.*1.
Proof. induction c as [|e c IH]; [done|]. cbn [map fst fmap list_fmap]. f_equal. exact IH. Qed.

Lemma vals_plain {V} (f : V -> jsval) (c : list (jstr * V)) : Forall plain_key c.*1 -> (forall v, json_ok (f v)) ->
  Forall (fun e => plain_key (fst e) /\ json_ok (snd e)) (map (fun e => (fst e, f (snd e))) c).
Proof.
  intros H Hf. induction c as [|e c IH]; [constructor|]. apply Forall_cons in H as [H1 H2].
  apply List.Forall_cons; [by split; [|apply Hf]|]. by apply IH.
Qed.

Lemma nav_val_ok v : json_ok (Settings.nav_val v).
Proof.
  destruct v as [b|[e r]]; [exact I|]. apply json_ok_obj. split_and!.
  - apply (bool_decide_unpack _). vm_compute. exact I.
  - repeat constructor.
  - repeat (apply List.Forall_cons; [split; [by apply units_check; vm_compute|exact I]|]). constructor.
Qed.

Lemma nav_entry_saved k v cur : k <> u "__proto__" -> is_access v = access_key k ->
  (access_key k = true -> exists a, cur = Some (NavAccess a)) ->
  Site.nav_entry k (Settings.nav_val v) cur = Some v.
Proof.
  intros Hk Hv Hc. unfold Site.nav_entry. fold (access_key k). rewrite <- Hv in *.
  destruct v as [b|[e r]]; simpl in *.
  - destruct cur as [[b'|?]|]; done.
  - destruct (Hc eq_refl) as [a ->]. unfold Site.parseAccess. cbn [is_scalar is_boolean is_number is_string orb].
    by vm_compute.
Qed.

Lemma default_access k : access_key k = true ->
  exists a, map_get Site.DEFAULT_HEADER_NAV_MODULES k = Some (NavAccess a).
Proof.
  unfold access_key. intros [E%seqb_eq|E%seqb_eq]%orb_true_iff; rewrite E; exists Site.DEFAULT_ACCESS; by vm_compute.
Qed.

(** Every module is read as it was configured. *)
Lemma saved_header_read c : nav_ok c -> Forall plain_key c.*1 ->
  exists modules, Site.parseHeaderNavModules (JStr (Settings.serializeHeaderNavModules c)) = Some modules /\
    forall k, k <> u "__proto__" -> map_get modules k = map_get c k.
Proof.
  intros (Hm & Hp & Ha & Hd) Hk.
  set (ps := map (fun e => (fst e, Settings.nav_val (snd e))) c).
  assert (Hkeys : ps.*1 = c.*1) by apply keys_vals.
  destruct (json_text ps) as (t & Et & Ep & Ht & Hb & Ho).
  { by rewrite Hkeys. }
  { by apply vals_plain; [|apply nav_val_ok]. }
  assert (Hs : Settings.serializeHeaderNavModules c = t).
  { unfold Settings.serializeHeaderNavModules. fold ps. by rewrite Et. }
  rewrite Hs. exists (assign_entries Site.nav_entry ps Site.DEFAULT_HEADER_NAV_MODULES). split.
  - unfold Site.parseHeaderNavModules, Site.parseHeaderNavRecord. cbn [truthy to_string].
    rewrite Ht. cbn [negb mbind option_bind is_object]. rewrite Hb, Ep. cbn [mbind option_bind truthy negb object_entries].
    by rewrite Ho.
  - intros k Hne. rewrite assign_get; [|by rewrite Hkeys|done].
    unfold ps. rewrite map_get_vals. destruct (map_get c k) as [v|] eqn:E; cbn [fmap option_fmap option_map].
    + rewrite nav_entry_saved; [done|done|by apply Ha|apply default_access].
    + destruct (map_get Site.DEFAULT_HEADER_NAV_MODULES k) eqn:Ed; [|done].
      destruct (Hd k _ Ed) as [x Hx]. by rewrite Hx in E.
Qed.

(** The access a configuration gives a module. *)
Definition configured (c : HeaderNavModules) (m : Site.HeaderNavModule) : ModuleAccess :=
  match map_get c (Site.module_key m) with Some (NavAccess a) => a | _ => Site.DEFAULT_ACCESS end.

Lemma fresh_access_saved c status m b : nav_ok c -> Forall plain_key c.*1 ->
  get status (u "HeaderNavModules") = JStr (Settings.serializeHeaderNavModules c) ->
  (Site.getFreshModuleAccess (Some status) m b).1 = configured c m.
Proof.
  intros Hc Hk Hs. destruct (saved_header_read c Hc Hk) as (modules & Em & Hg).
  unfold Site.getFreshModuleAccess. cbn [fst].
  unfold Site.getModuleAccessFromStatus, Site.parseHeaderNavModulesFromStatus. rewrite Hs, Em.
  cbn [mbind option_bind default]. unfold configured. rewrite Hg; [done|].
  destruct m; by apply (bool_decide_unpack _).
Qed.

(** C20: The configuration of the header modules that an administrator saves decides
    who gets to the pages of a module. Whatever text the settings page reads gives a
    configuration in which exactly the access modules have an access; when the
    server's status holds the saved text of such a configuration, the guard of a
    module's pages lets a visitor in exactly when the module is enabled and the visitor
    is signed in where that is required, and sends everyone else home or to the sign-in
    page; when the request for the status fails, nobody gets in. *)
Theorem saved_modules_guard_pages (value : option jstr) (c : HeaderNavModules) (status : jsval)
    (m : Site.HeaderNavModule) (auth : AuthState) (b : Site.Browser) :
  nav_ok (Settings.parseHeaderNavModules value) /\
  (nav_ok c -> Forall plain_key c.*1 ->
   get status (u "HeaderNavModules") = JStr (Settings.serializeHeaderNavModules c) ->
   (Site.beforeLoad m (Some status) auth b).1 =
     if negb (enabled (configured c m)) then Site.RedirectHome
     else if requireAuth (configured c m) && negb (truthy (default JNull (user auth)))
     then Site.RedirectSignIn
     else Site.Load) /\
  Site.beforeLoad m None auth b = (Site.RedirectHome, b).
Proof.
  split; [apply settings_nav_ok|]. split; [|done]. intros Hc Hk Hs.
  pose proof (fresh_access_saved c status m b Hc Hk Hs) as H. unfold Site.beforeLoad.
  destruct (Site.getFreshModuleAccess _ _ _) as [a b']. simpl in H. subst a.
  destruct (negb _); [done|]. by destruct (_ && _).
Qed.

Definition demo_text : jstr := uq "{'pricing':{'enabled':true,'requireAuth':true},'rankings':false,'blog':'1'}".
Definition demo_config : HeaderNavModules := Settings.parseHeaderNavModules (Some demo_text).
Definition demo_status : jsval :=
  JObj [(u "HeaderNavModules", JStr (Settings.serializeHeaderNavModules demo_config))].
Definition demo_browser : Site.Browser := Site.mkBrowser true true (fun _ => true) [].

Lemma plain_keys_checked (l : list jstr) : forallb key_ok l = true -> Forall plain_key l.
Proof.
  intros H. apply Forall_forall. intros k Hk%list_elem_of_In. rewrite forallb_forall in H. by apply H.
Qed.

Lemma saved_modules_guard_pages_witness :
  (Site.beforeLoad Site.pricing (Some demo_status) useAuthStore demo_browser).1 = Site.RedirectSignIn /\
  (Site.beforeLoad Site.rankings (Some demo_status) useAuthStore demo_browser).1 = Site.RedirectHome.
Proof.
  split.
  - destruct (saved_modules_guard_pages (Some demo_text) demo_config demo_status Site.pricing
      useAuthStore demo_browser) as (Hc & H & _).
    rewrite (H Hc); [by vm_compute|by apply plain_keys_checked; vm_compute|by vm_compute].
  - destruct (saved_modules_guard_pages (Some demo_text) demo_config demo_status Site.rankings
      useAuthStore demo_browser) as (Hc & H & _).
    rewrite (H Hc); [by vm_compute|by apply plain_keys_checked; vm_compute|by vm_compute].
Defined.

(** ** The sidebar *)

(** A sidebar configuration whose names survive JSON. *)
Definition sidebar_ok (c : Settings.SidebarModulesAdminConfig) : Prop :=
  map_ok c /\ Forall plain_key c.*1 /\
  Forall (fun e => map_ok (snd e) /\ Forall plain_key (snd e).*1) c.

Definition switched_off (s : Settings.SidebarSectionConfig) (k : jstr) : bool :=
  match map_get s k with Some false => true | _ => false end.

Lemma json_ok_section s : map_ok s -> Forall plain_key s.*1 -> json_ok (Settings.section_val s).
Proof.
  intros Hm Hk. apply json_ok_obj. rewrite (keys_vals JBool). split; [done|].
  split; (eapply Forall_impl; [apply (vals_plain JBool); [exact Hk|done]|]); by intros [k v] [[? ?]%plain_key_parts ?].
Qed.

Lemma sidebar_text c : sidebar_ok c ->
  exists t, Settings.serializeSidebarModulesAdmin c = t /\ str_truthy t = true /\ seqb (trim t) [] = false /\
    JSON_parse t = Some (JObj (map (fun e => (fst e, Settings.section_val (snd e))) c)).
Proof.
  intros (Hm & Hk & Hs). destruct (json_text (map (fun e => (fst e, Settings.section_val (snd e))) c))
    as (t & Et & Ep & Ht & Hb & _).
  - by rewrite keys_vals.
  - clear Hm. induction Hs as [|[k s] c [Hs1 Hs2] Hs IH]; [constructor|].
    apply Forall_cons in Hk as [Hk1 Hk2]. apply List.Forall_cons; [|by apply IH].
    split; [done|]. by apply json_ok_section.
  - exists t. split_and!; try done. unfold Settings.serializeSidebarModulesAdmin. by rewrite Et.
Qed.

Lemma get_false (s : Settings.SidebarSectionConfig) k :
  match get (Settings.section_val s) k with JBool false => true | _ => false end = switched_off s k.
Proof.
  unfold Settings.section_val, get, switched_off. rewrite (map_get_vals JBool).
  by destruct (map_get s k) as [[]|].
Qed.

Lemma cached_back status b : json_ok status -> truthy status = true -> Site.has_window b = true ->
  Site.readable b = true -> (forall t, Site.stores b t = true) ->
  Site.getCachedStatus (Site.cacheStatus status b) = status.
Proof.
  intros Hok Ht Hw Hr Hst. unfold Site.cacheStatus. rewrite Hw, Ht. cbn [andb].
  destruct (stringify_parse [] status Hok) as (t & E & Ep & c & t' & -> & _); [constructor|].
  unfold JSON_stringify. rewrite E, Hst. unfold Site.getCachedStatus. cbn [Site.has_window Site.readable Site.items].
  rewrite Hr. cbn [negb orb]. rewrite map_get_set_eq. cbn [str_truthy]. by rewrite Ep.
Qed.

(** The configuration of the sidebar that an administrator saves is the one the
    pages obey: once the status that holds its text was fetched and stored, a module
    is enabled exactly when its section is absent from the configuration or switches
    off neither itself nor the module. *)
Theorem saved_sidebar_decides (c : Settings.SidebarModulesAdminConfig) (status : jsval)
    (m : Site.HeaderNavModule) (b : Site.Browser) (section module : jstr) :
  sidebar_ok c -> json_ok status ->
  get status (u "SidebarModulesAdmin") = JStr (Settings.serializeSidebarModulesAdmin c) ->
  Site.has_window b = true -> Site.readable b = true -> (forall t, Site.stores b t = true) ->
  Site.isSidebarModuleEnabled (Site.getFreshModuleAccess (Some status) m b).2 section module =
  Some match map_get c section with
       | Some s => negb (switched_off s (u "enabled")) && negb (switched_off s module)
       | None => true
       end.
Proof.
  intros Hc Hok Hs Hw Hr Hst. destruct (sidebar_text c Hc) as (t & Et & Ht & Hb & Ep).
  rewrite Et in Hs. unfold Site.isSidebarModuleEnabled, Site.getFreshModuleAccess. cbn [snd].
  assert (Htr : truthy status = true) by (destruct status; done).
  rewrite cached_back by done. rewrite Htr. cbn [negb]. rewrite Hs. cbn [truthy]. rewrite Ht. cbn [negb].
  cbn [to_string mbind option_bind]. rewrite Hb, Ep.
  assert (Hg : get (JObj (map (fun e => (fst e, Settings.section_val (snd e))) c)) section =
    match map_get c section with Some s => Settings.section_val s | None => JUndef end).
  { cbn [get]. rewrite (map_get_vals Settings.section_val). by destruct (map_get c section). }
  rewrite Hg. destruct (map_get c section) as [s|]; [|done].
  change (truthy (Settings.section_val s)) with true. cbn [negb]. rewrite !get_false.
  by destruct (switched_off s (u "enabled")), (switched_off s module).
Qed.

Definition demo_sidebar : Settings.SidebarModulesAdminConfig :=
  Settings.parseSidebarModulesAdmin (Some (uq "{'chat':{'enabled':1,'playground':'false'},'console':{'enabled':false}}")).
Definition demo_sidebar_status : jsval :=
  JObj [(u "SidebarModulesAdmin", JStr (Settings.serializeSidebarModulesAdmin demo_sidebar))].

Lemma sidebar_checked c :
  bool_decide (NoDup c.*1) && forallb key_ok c.*1
  && forallb (fun e => bool_decide (NoDup (snd e).*1) && forallb key_ok (snd e).*1) c = true ->
  sidebar_ok c.
Proof.
  intros [[H1%bool_decide_eq_true_1 H2]%andb_prop H3]%andb_prop. split; [done|].
  split; [by apply plain_keys_checked|]. apply Forall_forall. intros e He%list_elem_of_In.
  rewrite forallb_forall in H3. apply H3, andb_prop in He as [He1 He2].
  split; [by apply bool_decide_eq_true_1 in He1|by apply plain_keys_checked].
Qed.

Lemma saved_sidebar_decides_witness :
  let b := (Site.getFreshModuleAccess (Some demo_sidebar_status) Site.pricing demo_browser).2 in
  Site.isSidebarModuleEnabled b (u "chat") (u "playground") = Some false /\
  Site.isSidebarModuleEnabled b (u "chat") (u "chat") = Some true /\
  Site.isSidebarModuleEnabled b (u "console") (u "log") = Some false.
Proof.
  assert (Hc : sidebar_ok demo_sidebar).
  { apply sidebar_checked. by vm_compute. }
  assert (Hj : json_ok demo_sidebar_status).
  { apply json_ok_obj. split; [by apply (bool_decide_unpack _); vm_compute|].
    assert (Hk : plain_key (u "SidebarModulesAdmin")) by (apply Forall_singleton, plain_keys_checked; by vm_compute).
    assert (Ht : Forall (fun c => c < 65536)%N (Settings.serializeSidebarModulesAdmin demo_sidebar)).
    { by apply units_check; vm_compute. }
    apply plain_key_parts in Hk as [? ?]. split; (apply List.Forall_cons; [|constructor]); done. }
  intros b. split_and!;
    (etransitivity; [apply (saved_sidebar_decides demo_sidebar); try done; by vm_compute|by vm_compute]).
Defined.
