(* ===== verification/ChannelForm.v ===== *)
(** * The channel form (src/web/src/features/channels/lib/channel-form.ts)

    The values of the form that creates and edits a channel, the checks of its schema,
    how a channel becomes form values, and how the form values become the two JSON texts
    and the payloads that are sent.

    The members of a channel's two JSON texts have no checked type, and the form takes
    nine of them as they are: these fields are [jsval]s. The types [z.string()],
    [z.boolean()] and so on of the other fields are the types of the record; the schema
    library itself is left aside, the checks it calls are here. [None] is an exception.
    The platform's [URL] parser is a parameter. *)

From Stdlib Require Import ZArith SpecFloat.
From stdpp Require Import base numbers option list sorting.
From S2P Require Import Prelude Collections JsNumber JsValue Json JsonProps Regex JsCoerce AdvancedCustom.

(** ** Data *)

Inductive MultiKeyMode := single | batch | multi_to_single.
Inductive MultiKeyType := random | polling.
Inductive KeyMode := append | replace.

#[export] Instance MultiKeyMode_dec : EqDecision MultiKeyMode.
Proof. solve_decision. Defined.

Record ChannelFormValues := mkForm {
  f_name : jstr;
  f_type : Z;
  f_base_url : option jstr;
  f_key : jstr;
  f_openai_organization : option jstr;
  f_models : jstr;
  f_group : list jstr;
  f_model_mapping : option jstr;
  f_priority : option num;
  f_weight : option num;
  f_test_model : option jstr;
  f_auto_ban : option num;
  f_status : Z;
  f_status_code_mapping : option jstr;
  f_tag : option jstr;
  f_remark : option jstr;
  f_setting : option jstr;
  f_param_override : option jstr;
  f_header_override : option jstr;
  f_settings : option jstr;
  f_advanced_custom : option jstr;
  f_other : option jstr;
  f_multi_key_mode : option MultiKeyMode;
  f_multi_key_type : option MultiKeyType;
  f_batch_add_set_key_prefix_2_name : option bool;
  f_key_mode : option KeyMode;
  (* members of the setting text *)
  f_force_format : jsval;
  f_thinking_to_content : jsval;
  f_proxy : jsval;
  f_pass_through_body_enabled : jsval;
  f_system_prompt : jsval;
  f_system_prompt_override : jsval;
  (* members of the settings text *)
  f_is_enterprise_account : option bool;
  f_vertex_key_type : jsval;
  f_aws_key_type : jsval;
  f_azure_responses_version : jsval;
  f_allow_service_tier : option bool;
  f_disable_store : option bool;
  f_allow_safety_identifier : option bool;
  f_allow_include_obfuscation : option bool;
  f_allow_inference_geo : option bool;
  f_allow_speed : option bool;
  f_claude_beta_query : option bool;
  f_disable_task_polling_sleep : option bool;
  f_upstream_model_update_check_enabled : option bool;
  f_upstream_model_update_auto_sync_enabled : option bool;
  f_upstream_model_update_ignored_models : option jstr
}.

(** The members of a channel the form reads. Null and absent are both [None]. *)
Record Channel := mkChannel {
  ch_id : Z;
  ch_name : jstr;
  ch_type : Z;
  ch_base_url : option jstr;
  ch_openai_organization : option jstr;
  ch_models : jstr;
  ch_group : jstr;
  ch_model_mapping : option jstr;
  ch_priority : option num;
  ch_weight : option num;
  ch_test_model : option jstr;
  ch_auto_ban : option num;
  ch_status : Z;
  ch_status_code_mapping : option jstr;
  ch_tag : option jstr;
  ch_remark : jstr;
  ch_setting : option jstr;
  ch_param_override : option jstr;
  ch_header_override : option jstr;
  ch_settings : jstr;
  ch_other : jstr;
  ch_is_multi_key : bool;
  ch_multi_key_mode : option MultiKeyType
}.

Definition CHANNEL_STATUS_ENABLED : Z := 1.
Definition CHANNEL_TYPE_ADVANCED_CUSTOM : Z := 58.

Definition MODEL_FETCHABLE_TYPES : list Z :=
  [1; 4; 14; 17; 20; 23; 24; 25; 26; 27; 31; 34; 35; 40; 42; 43; 47; 48; 57; 58].

(** ** The checks of the fields *)

(** [value?.trim() || '']. *)
Definition trim_or (value : option jstr) : jstr := trim (default [] value).

(** [new URL(text)], where it parses. *)
Record Url := mkUrl {
  url_protocol : jstr;
  url_host : jstr;
  url_hostname : jstr;
  url_port : jstr
}.

Definition SUPPORTED_PROXY_PROTOCOLS : list jstr := [u "http:"; u "https:"; u "socks5:"; u "socks5h:"].

(** The rest of a text from the first of its characters that is in the class. *)
Fixpoint search_class (cls : jstr) (s : jstr) : option jstr :=
  match s with
  | [] => None
  | c :: s' => if one_of cls c then Some s else search_class cls s'
  end.

Definition isOptionalProxyURL (parse_url : jstr -> option Url) (value : option jstr) : bool :=
  let trimmedValue := trim_or value in
  if negb (str_truthy trimmedValue) then true
  else match indexOf trimmedValue (u "://") with
  | None | Some 0%nat => false
  | Some schemeSeparatorIndex =>
      let authorityAndSuffix := drop (schemeSeparatorIndex + 3) trimmedValue in
      let suffix_ok := match search_class (u "/?#") authorityAndSuffix with
                       | Some suffix => seqb suffix (u "/")
                       | None => true
                       end in
      if negb suffix_ok then false
      else match parse_url trimmedValue with
           | Some url =>
               set_has SUPPORTED_PROXY_PROTOCOLS (url_protocol url)
               && str_truthy (url_hostname url) && negb (seqb (url_port url) (u "0"))
           | None => false
           end
  end.

(** [Some None] is undefined, for a blank text; [None] is a text that does not parse. *)
Definition parseOptionalJson (value : option jstr) : option (option jsval) :=
  match value with
  | Some s => if str_truthy (trim s) then Some <$> JSON_parse s else Some None
  | None => Some None
  end.

Definition isJsonObjectValue (value : jsval) : bool := match value with JObj _ => true | _ => false end.

Definition isOptionalJsonObject (value : option jstr) : bool :=
  match parseOptionalJson value with
  | Some None => true
  | Some (Some parsed) => isJsonObjectValue parsed
  | None => false
  end.

Definition isOptionalModelMapping (value : option jstr) : bool :=
  match parseOptionalJson value with
  | Some None => true
  | Some (Some (JObj ps)) => forallb is_string (map_values (own_entries ps))
  | _ => false
  end.

Definition status_code_num (n : num) : bool :=
  isInteger n && num_leb (num_of_Z 100) n && num_leb n (num_of_Z 599).

Definition isOptionalStatusCodeMapping (value : option jstr) : bool :=
  match parseOptionalJson value with
  | Some None => true
  | Some (Some (JObj ps)) =>
      forallb (fun e => match to_number (snd e) with
                        | Some toCode => status_code_num (string_to_number (fst e)) && status_code_num toCode
                        | None => false
                        end) (own_entries ps)
  | _ => false
  end.

Definition nonblank_text (v : jsval) : bool := match v with JStr s => str_truthy (trim s) | _ => false end.

Definition isCodexCredential (value : option jstr) : bool :=
  match parseOptionalJson value with
  | Some None => true
  | Some (Some parsed) =>
      isJsonObjectValue parsed && nonblank_text (get parsed (u "access_token"))
      && nonblank_text (get parsed (u "account_id"))
  | None => false
  end.

Definition isVertexJsonKey (value : option jstr) : bool :=
  match parseOptionalJson value with
  | Some None => true
  | Some (Some (JArr l)) => forallb isJsonObjectValue l
  | Some (Some parsed) => isJsonObjectValue parsed
  | None => false
  end.

(** ** The checks across fields

    The issues in order, each with the field it is reported at; an exception of the
    configuration's validator ends the check. *)

Definition mem_Z (l : list Z) (x : Z) : bool := existsb (Z.eqb x) l.

Definition issue_if (c : bool) (path message : jstr) : list (jstr * jstr) :=
  if c then [(path, message)] else [].

(** [v !== undefined && v !== 'single']. *)
Definition not_single (m : option MultiKeyMode) : bool :=
  match m with None | Some single => false | _ => true end.

Definition blank (value : option jstr) : bool := negb (str_truthy (trim_or value)).

Section SuperRefine.
Context (parse_url : jstr -> option Url).

(** The checks the schema attaches to single fields, in its order. *)
Definition field_issues (data : ChannelFormValues) : list (jstr * jstr) :=
  let INVALID_JSON := u "Invalid JSON format" in
  let json path value := issue_if (negb (isOptionalJsonObject value)) path INVALID_JSON in
  issue_if (negb (isOptionalModelMapping (f_model_mapping data))) (u "model_mapping")
    (u "Model mapping must be a JSON object with string values")
  ++ issue_if (negb (isOptionalStatusCodeMapping (f_status_code_mapping data))) (u "status_code_mapping")
       (u "Status code mapping must use valid HTTP status codes")
  ++ json (u "setting") (f_setting data)
  ++ json (u "param_override") (f_param_override data)
  ++ json (u "header_override") (f_header_override data)
  ++ json (u "settings") (f_settings data)
  ++ issue_if (match f_proxy data with
               | JStr s => negb (isOptionalProxyURL parse_url (Some s))
               | _ => false
               end) (u "proxy")
       (u "Proxy address must use HTTP, HTTPS, SOCKS5, or SOCKS5H and include a valid host").

(** What the configuration's validator reads of a URL. *)
Definition url_parts (s : jstr) : option (jstr * jstr) :=
  (fun x => (url_host x, url_protocol x)) <$> parse_url s.

Definition advanced_issues (data : ChannelFormValues) : option (list (jstr * jstr)) :=
  let advancedCustomConfig := default JNull (parseAdvancedCustomConfig (f_advanced_custom data)) in
  advancedCustomError ← validateAdvancedCustomConfig url_parts advancedCustomConfig;
  relative ← advancedCustomConfigUsesRelativeUpstreamPath advancedCustomConfig;
  modelRoute ← (match f_upstream_model_update_check_enabled data with
                | Some true => negb <$> hasValidAdvancedCustomModelListRoute url_parts advancedCustomConfig
                | _ => Some false
                end);
  Some (match advancedCustomError with
        | Some (_, message) => [(u "advanced_custom", message)]
        | None => []
        end
        ++ issue_if (relative && blank (f_base_url data)) (u "base_url")
             (u "Base URL is required when an advanced route uses an upstream path")
        ++ issue_if modelRoute (u "upstream_model_update_check_enabled")
             (u "OpenAI Models route is required to enable upstream model checks")).

Definition superRefine (data : ChannelFormValues) : option (list (jstr * jstr)) :=
  let type := f_type data in
  let has_key := str_truthy (trim (f_key data)) in
  advanced ← (if type =? CHANNEL_TYPE_ADVANCED_CUSTOM then advanced_issues data else Some []);
  Some (issue_if (mem_Z [3; 8; 36; 45] type && blank (f_base_url data)) (u "base_url")
          (u "Base URL is required for this channel type")
        ++ advanced
        ++ issue_if (mem_Z [3; 18; 21; 39; 41; 49] type && blank (f_other data)) (u "other")
             (u "This channel type requires additional configuration")
        ++ (if type =? 57 then
              issue_if (not_single (f_multi_key_mode data)) (u "multi_key_mode")
                (u "Codex channels do not support batch creation")
              ++ issue_if (has_key && negb (isCodexCredential (Some (f_key data)))) (u "key")
                   (u "Codex credential must be a JSON object with access_token and account_id")
            else [])
        ++ issue_if ((type =? 41) && is_str (f_vertex_key_type data) (u "json") && has_key
                     && negb (isVertexJsonKey (Some (f_key data)))) (u "key")
             (u "Vertex AI service account key must be valid JSON")
        ++ issue_if ((type =? 41) && is_str (f_vertex_key_type data) (u "api_key")
                     && not_single (f_multi_key_mode data)) (u "multi_key_mode")
             (u "Vertex AI API Key mode does not support batch creation")).
End SuperRefine.

(** ** Default values *)

Definition CHANNEL_FORM_DEFAULT_VALUES : ChannelFormValues := {|
  f_name := []; f_type := 1; f_base_url := Some []; f_key := []; f_openai_organization := Some [];
  f_models := []; f_group := [u "default"]; f_model_mapping := Some [];
  f_priority := Some (num_of_Z 0); f_weight := Some (num_of_Z 0); f_test_model := Some [];
  f_auto_ban := Some (num_of_Z 1); f_status := CHANNEL_STATUS_ENABLED; f_status_code_mapping := Some [];
  f_tag := Some []; f_remark := Some []; f_setting := Some []; f_param_override := Some [];
  f_header_override := Some []; f_settings := Some (u "{}"); f_advanced_custom := Some [];
  f_other := Some []; f_multi_key_mode := Some single; f_multi_key_type := Some random;
  f_batch_add_set_key_prefix_2_name := Some false; f_key_mode := Some append;
  f_force_format := JBool false; f_thinking_to_content := JBool false; f_proxy := JStr [];
  f_pass_through_body_enabled := JBool false; f_system_prompt := JStr [];
  f_system_prompt_override := JBool false; f_is_enterprise_account := Some false;
  f_vertex_key_type := JStr (u "json"); f_aws_key_type := JStr (u "ak_sk");
  f_azure_responses_version := JStr []; f_allow_service_tier := Some false;
  f_disable_store := Some false; f_allow_safety_identifier := Some false;
  f_allow_include_obfuscation := Some false; f_allow_inference_geo := Some false;
  f_allow_speed := Some false; f_claude_beta_query := Some false;
  f_disable_task_polling_sleep := Some false; f_upstream_model_update_check_enabled := Some false;
  f_upstream_model_update_auto_sync_enabled := Some false;
  f_upstream_model_update_ignored_models := Some []
|}.

(** ** From a channel to the form *)

Definition parseGroups (groups : jstr) : list jstr :=
  if str_truthy groups then List.filter (fun g => (0 <? length g)%nat) (map trim (split 44%N groups)) else [].

Definition parseModels (models : jstr) : list jstr :=
  if str_truthy models then List.filter (fun m => (0 <? length m)%nat) (map trim (split 44%N models)) else [].

Definition formatModels (models : list jstr) : jstr := join (u ",") models.
Definition formatGroups (groups : list jstr) : jstr := join (u ",") groups.

(** The members of the setting text, in the order of the form. *)
Record ExtraSettings := mkExtra {
  force_format : jsval;
  thinking_to_content : jsval;
  proxy : jsval;
  pass_through_body_enabled : jsval;
  system_prompt : jsval;
  system_prompt_override : jsval
}.

Definition extra_defaults : ExtraSettings :=
  mkExtra (JBool false) (JBool false) (JStr []) (JBool false) (JStr []) (JBool false).

(** [None] is a text that does not parse or a null; the [catch] keeps the defaults. *)
Definition read_extra (setting : jstr) : option ExtraSettings :=
  parsed ← JSON_parse setting;
  let flag k := val_or (get parsed k) (JBool false) in
  let text k := val_or (get parsed k) (JStr []) in
  match parsed with
  | JNull | JUndef => None
  | _ => Some (mkExtra (flag (u "force_format")) (flag (u "thinking_to_content")) (text (u "proxy"))
                 (flag (u "pass_through_body_enabled")) (text (u "system_prompt"))
                 (flag (u "system_prompt_override")))
  end.

Definition channel_extra (setting : option jstr) : ExtraSettings :=
  match setting with
  | Some s => if str_truthy s then default extra_defaults (read_extra s) else extra_defaults
  | None => extra_defaults
  end.

(** The members of the settings text. *)
Record TypeSettings := mkTypeSettings {
  vertexKeyType : jsval;
  azureResponsesVersion : jsval;
  isEnterpriseAccount : bool;
  awsKeyType : jsval;
  allowServiceTier : bool;
  disableStore : bool;
  allowSafetyIdentifier : bool;
  allowIncludeObfuscation : bool;
  allowInferenceGeo : bool;
  allowSpeed : bool;
  claudeBetaQuery : bool;
  disableTaskPollingSleep : bool;
  upstreamModelUpdateCheckEnabled : bool;
  upstreamModelUpdateAutoSyncEnabled : bool;
  upstreamModelUpdateIgnoredModels : jstr;
  advancedCustom : jstr
}.

Definition type_defaults : TypeSettings :=
  mkTypeSettings (JStr (u "json")) (JStr []) false (JStr (u "ak_sk")) false false false false false false
    false false false false [] [].

(** The assignments in order. Each part that throws leaves what was assigned before it:
    a null value everything, the ignored models or the configuration what precedes
    them. *)
Definition read_settings (settings : jstr) : TypeSettings :=
  match JSON_parse settings with
  | None | Some JNull | Some JUndef => type_defaults
  | Some parsed =>
      let flag k := is_true (get parsed k) in
      let st := mkTypeSettings
        (val_or (get parsed (u "vertex_key_type")) (JStr (u "json")))
        (val_or (get parsed (u "azure_responses_version")) (JStr []))
        (flag (u "openrouter_enterprise"))
        (val_or (get parsed (u "aws_key_type")) (JStr (u "ak_sk")))
        (flag (u "allow_service_tier")) (flag (u "disable_store")) (flag (u "allow_safety_identifier"))
        (flag (u "allow_include_obfuscation")) (flag (u "allow_inference_geo")) (flag (u "allow_speed"))
        (flag (u "claude_beta_query")) (flag (u "disable_task_polling_sleep"))
        (flag (u "upstream_model_update_check_enabled"))
        (flag (u "upstream_model_update_auto_sync_enabled")) in
      let ignored := get parsed (u "upstream_model_update_ignored_models") in
      match (if is_array ignored then to_string ignored else Some []) with
      | None => st [] []
      | Some ignoredModels =>
          let config := get parsed (u "advanced_custom") in
          st ignoredModels
            (if truthy config then default [] (stringifyAdvancedCustomConfig config) else [])
      end
  end.

Definition channel_settings (settings : jstr) : TypeSettings :=
  if str_truthy settings then read_settings settings else type_defaults.

(** [value || ''] on a nullable text. *)
Definition text_or_empty (value : option jstr) : option jstr := Some (default [] value).

(** [value || 0] on a nullable number. *)
Definition num_or_zero (value : option num) : option num :=
  Some (match value with Some n => if num_truthy n then n else num_of_Z 0 | None => num_of_Z 0 end).

Definition transformChannelToFormDefaults (channel : Channel) : ChannelFormValues :=
  let extraSettings := channel_extra (ch_setting channel) in
  let st := channel_settings (ch_settings channel) in {|
  f_name := ch_name channel;
  f_type := ch_type channel;
  f_base_url := text_or_empty (ch_base_url channel);
  f_key := [];
  f_openai_organization := text_or_empty (ch_openai_organization channel);
  f_models := ch_models channel;
  f_group := parseGroups (str_or (ch_group channel) (u "default"));
  f_model_mapping := text_or_empty (ch_model_mapping channel);
  f_priority := num_or_zero (ch_priority channel);
  f_weight := num_or_zero (ch_weight channel);
  f_test_model := text_or_empty (ch_test_model channel);
  f_auto_ban := Some (default (num_of_Z 1) (ch_auto_ban channel));
  f_status := ch_status channel;
  f_status_code_mapping := text_or_empty (ch_status_code_mapping channel);
  f_tag := text_or_empty (ch_tag channel);
  f_remark := Some (ch_remark channel);
  f_setting := text_or_empty (ch_setting channel);
  f_param_override := text_or_empty (ch_param_override channel);
  f_header_override := text_or_empty (ch_header_override channel);
  f_settings := Some (str_or (ch_settings channel) (u "{}"));
  f_advanced_custom := Some (advancedCustom st);
  f_other := Some (ch_other channel);
  f_multi_key_mode := Some single;
  f_multi_key_type := Some (default random (ch_multi_key_mode channel));
  f_batch_add_set_key_prefix_2_name := Some false;
  f_key_mode := Some append;
  f_force_format := force_format extraSettings;
  f_thinking_to_content := thinking_to_content extraSettings;
  f_proxy := proxy extraSettings;
  f_pass_through_body_enabled := pass_through_body_enabled extraSettings;
  f_system_prompt := system_prompt extraSettings;
  f_system_prompt_override := system_prompt_override extraSettings;
  f_is_enterprise_account := Some (isEnterpriseAccount st);
  f_vertex_key_type := vertexKeyType st;
  f_aws_key_type := awsKeyType st;
  f_azure_responses_version := azureResponsesVersion st;
  f_allow_service_tier := Some (allowServiceTier st);
  f_disable_store := Some (disableStore st);
  f_allow_safety_identifier := Some (allowSafetyIdentifier st);
  f_allow_include_obfuscation := Some (allowIncludeObfuscation st);
  f_allow_inference_geo := Some (allowInferenceGeo st);
  f_allow_speed := Some (allowSpeed st);
  f_claude_beta_query := Some (claudeBetaQuery st);
  f_disable_task_polling_sleep := Some (disableTaskPollingSleep st);
  f_upstream_model_update_check_enabled := Some (upstreamModelUpdateCheckEnabled st);
  f_upstream_model_update_auto_sync_enabled := Some (upstreamModelUpdateAutoSyncEnabled st);
  f_upstream_model_update_ignored_models := Some (upstreamModelUpdateIgnoredModels st)
|}.

(** ** From the form to the texts *)

(** [JSON.stringify] of an object always gives a text. *)
Definition object_text (ps : list (jstr * jsval)) : jstr := default [] (JSON_stringify (JObj ps)).

(** [None] is the exception of a proxy that is no text. *)
Definition buildSettingJSON (formData : ChannelFormValues) : option jstr :=
  proxy ← opt_trim (f_proxy formData);
  let flag v := val_or v (JBool false) in
  Some (object_text [
    (u "force_format", flag (f_force_format formData));
    (u "thinking_to_content", flag (f_thinking_to_content formData));
    (u "proxy", JStr proxy);
    (u "pass_through_body_enabled", flag (f_pass_through_body_enabled formData));
    (u "system_prompt", val_or (f_system_prompt formData) (JStr []));
    (u "system_prompt_override", flag (f_system_prompt_override formData))]).

Abbreviation settings_obj := (list (jstr * jsval)).

(** [else if (k in obj) delete obj.k]. *)
Definition delete_member (k : jstr) (obj : settings_obj) : settings_obj :=
  if map_has obj k then map_delete obj k else obj.

(** [if (c) obj.k = v else if (k in obj) delete obj.k]. *)
Definition put_or_delete (c : bool) (k : jstr) (v : jsval) (obj : settings_obj) : settings_obj :=
  if c then map_set obj k v else delete_member k obj.

(** [value === true]. *)
Definition flag_val (value : option bool) : jsval := JBool (match value with Some true => true | _ => false end).

(** The types whose settings have the members of OpenAI. *)
Definition openai_type (type : Z) : bool := (type =? 1) || (type =? 57).

Definition put_openai (f : ChannelFormValues) (obj : settings_obj) : settings_obj :=
  if openai_type (f_type f) then
    map_set (map_set (map_set (map_set obj
      (u "disable_store") (flag_val (f_disable_store f)))
      (u "allow_safety_identifier") (flag_val (f_allow_safety_identifier f)))
      (u "allow_include_obfuscation") (flag_val (f_allow_include_obfuscation f)))
      (u "allow_inference_geo") (flag_val (f_allow_inference_geo f))
  else
    let obj := delete_member (u "allow_include_obfuscation")
                 (delete_member (u "allow_safety_identifier") (delete_member (u "disable_store") obj)) in
    if negb (f_type f =? 14) then delete_member (u "allow_inference_geo") obj else obj.

Definition put_anthropic (f : ChannelFormValues) (obj : settings_obj) : settings_obj :=
  if f_type f =? 14 then
    map_set (map_set (map_set obj
      (u "allow_inference_geo") (flag_val (f_allow_inference_geo f)))
      (u "allow_speed") (flag_val (f_allow_speed f)))
      (u "claude_beta_query") (flag_val (f_claude_beta_query f))
  else delete_member (u "claude_beta_query") (delete_member (u "allow_speed") obj).

(** The distinct nonempty names of a text with commas. *)
Definition ignored_models (value : option jstr) : list jstr :=
  new_set (List.filter str_truthy (map trim (split 44%N (default [] value)))).

Definition put_upstream (f : ChannelFormValues) (obj : settings_obj) : settings_obj :=
  if mem_Z MODEL_FETCHABLE_TYPES (f_type f) then
    let check := flag_val (f_upstream_model_update_check_enabled f) in
    let obj := map_set obj (u "upstream_model_update_check_enabled") check in
    let obj := map_set obj (u "upstream_model_update_auto_sync_enabled")
                 (if is_true check then flag_val (f_upstream_model_update_auto_sync_enabled f)
                  else JBool false) in
    let obj := map_set obj (u "upstream_model_update_ignored_models")
                 (JArr (map JStr (ignored_models (f_upstream_model_update_ignored_models f)))) in
    let obj := if negb (is_array (get (JObj obj) (u "upstream_model_update_last_detected_models")))
                  || negb (is_true check)
               then map_set obj (u "upstream_model_update_last_detected_models") (JArr [])
               else obj in
    if negb (is_number (get (JObj obj) (u "upstream_model_update_last_check_time")))
    then map_set obj (u "upstream_model_update_last_check_time") (JNum (num_of_Z 0))
    else obj
  else obj.

Definition put_advanced (f : ChannelFormValues) (obj : settings_obj) : settings_obj :=
  if f_type f =? CHANNEL_TYPE_ADVANCED_CUSTOM then
    match parseAdvancedCustomConfig (f_advanced_custom f) with
    | Some config => map_set obj (u "advanced_custom") config
    | None => obj
    end
  else delete_member (u "advanced_custom") obj.

(** The statements of [buildSettingsJSON] on the parsed object. *)
Definition settings_object (f : ChannelFormValues) (obj : settings_obj) : settings_obj :=
  let type := f_type f in
  let obj := put_or_delete (type =? 41) (u "vertex_key_type")
               (val_or (f_vertex_key_type f) (JStr (u "json"))) obj in
  let obj := put_or_delete ((type =? 3) && truthy (f_azure_responses_version f))
               (u "azure_responses_version") (f_azure_responses_version f) obj in
  let obj := put_or_delete (type =? 20) (u "openrouter_enterprise") (flag_val (f_is_enterprise_account f)) obj in
  let obj := put_or_delete (type =? 33) (u "aws_key_type")
               (val_or (f_aws_key_type f) (JStr (u "ak_sk"))) obj in
  let obj := put_or_delete ((type =? 1) || (type =? 14) || (type =? 57)) (u "allow_service_tier")
               (flag_val (f_allow_service_tier f)) obj in
  let obj := put_openai f obj in
  let obj := put_anthropic f obj in
  let obj := map_set obj (u "disable_task_polling_sleep") (flag_val (f_disable_task_polling_sleep f)) in
  put_advanced f (put_upstream f obj).

(** What the settings text of the form holds. *)
Definition existing_settings (formData : ChannelFormValues) : jsval :=
  let settings := default [] (f_settings formData) in
  if str_truthy settings && negb (seqb settings (u "{}"))
  then default (JObj []) (JSON_parse settings)
  else JObj [].

(** Assigning to a member of a primitive value and asking whether it has a member both
    throw, so any value but an object or an array is an exception; the members set on
    an array are not written. *)
Definition buildSettingsJSON (formData : ChannelFormValues) : option jstr :=
  match existing_settings formData with
  | JObj ps => Some (object_text (settings_object formData ps))
  | JArr l => JSON_stringify (JArr l)
  | _ => None
  end.

(** ** Payloads *)

Definition strip_slashes (s : jstr) : jstr :=
  reverse ((fix go s := match s with 47%N :: s' => go s' | _ => s end) (reverse s)).

Definition normalizeBaseUrl (value : option jstr) : jstr := strip_slashes (trim (default [] value)).

(** [text || null]. *)
Definition text_or_null (value : option jstr) : jsval :=
  let s := default [] value in if str_truthy s then JStr s else JNull.

(** [number || null]. *)
Definition num_or_null (value : option num) : jsval :=
  match value with Some n => if num_truthy n then JNum n else JNull | None => JNull end.

(** Empty texts become null. *)
Definition null_if_empty (v : jsval) : jsval := match v with JStr [] => JNull | v => v end.
Definition clean_payload (payload : settings_obj) : settings_obj :=
  map (fun e => (fst e, null_if_empty (snd e))) payload.

Definition mode_text (m : MultiKeyMode) : jstr :=
  match m with single => u "single" | batch => u "batch" | multi_to_single => u "multi_to_single" end.
Definition type_text (m : MultiKeyType) : jstr := match m with random => u "random" | polling => u "polling" end.
Definition key_mode_text (m : KeyMode) : jstr := match m with append => u "append" | replace => u "replace" end.

Record CreatePayload := mkCreate {
  mode : MultiKeyMode;
  multi_key_mode : option MultiKeyType;
  batch_add_set_key_prefix_2_name : option bool;
  channel : settings_obj
}.

Definition transformFormDataToCreatePayload (formData : ChannelFormValues) : option CreatePayload :=
  let mode := default single (f_multi_key_mode formData) in
  setting ← buildSettingJSON formData;
  settings ← buildSettingsJSON formData;
  let base_url := normalizeBaseUrl (f_base_url formData) in
  let channel : settings_obj := [
    (u "name", JStr (f_name formData));
    (u "type", JNum (num_of_Z (f_type formData)));
    (u "base_url", text_or_null (Some base_url));
    (u "key", JStr (f_key formData));
    (u "openai_organization", text_or_null (f_openai_organization formData));
    (u "models", JStr (f_models formData));
    (u "group", JStr (formatGroups (f_group formData)));
    (u "model_mapping", text_or_null (f_model_mapping formData));
    (u "priority", num_or_null (f_priority formData));
    (u "weight", num_or_null (f_weight formData));
    (u "test_model", text_or_null (f_test_model formData));
    (u "auto_ban", JNum (default (num_of_Z 1) (f_auto_ban formData)));
    (u "status", JNum (num_of_Z (f_status formData)));
    (u "status_code_mapping", text_or_null (f_status_code_mapping formData));
    (u "tag", text_or_null (f_tag formData));
    (u "remark", JStr (default [] (f_remark formData)));
    (u "setting", JStr setting);
    (u "param_override", text_or_null (f_param_override formData));
    (u "header_override", text_or_null (f_header_override formData));
    (u "settings", JStr settings);
    (u "other", JStr (default [] (f_other formData)))] in
  Some (mkCreate mode
    (match mode with multi_to_single => f_multi_key_type formData | _ => None end)
    (match mode with batch => f_batch_add_set_key_prefix_2_name formData | _ => None end)
    (clean_payload channel)).

(** The nullable texts that an update sends as empty texts. *)
Definition explicit_texts (f : ChannelFormValues) : list (jstr * jstr) := [
  (u "base_url", normalizeBaseUrl (f_base_url f));
  (u "openai_organization", default [] (f_openai_organization f));
  (u "test_model", default [] (f_test_model f));
  (u "tag", default [] (f_tag f));
  (u "remark", default [] (f_remark f));
  (u "model_mapping", default [] (f_model_mapping f));
  (u "status_code_mapping", default [] (f_status_code_mapping f));
  (u "param_override", default [] (f_param_override f));
  (u "header_override", default [] (f_header_override f))].

Definition put_texts (texts : list (jstr * jstr)) (payload : settings_obj) : settings_obj :=
  fold_left (fun p e => map_set p (fst e) (JStr (snd e))) texts payload.

(** The object literal of an update. *)
Definition update_fields (formData : ChannelFormValues) (channelId : Z) (setting settings : jstr)
    : settings_obj :=
  [
   (u "id", JNum (num_of_Z channelId));
   (u "name", JStr (f_name formData));
   (u "type", JNum (num_of_Z (f_type formData)));
   (u "base_url", text_or_null (Some (normalizeBaseUrl (f_base_url formData))));
   (u "openai_organization", text_or_null (f_openai_organization formData));
   (u "models", JStr (f_models formData));
   (u "group", JStr (formatGroups (f_group formData)));
   (u "model_mapping", text_or_null (f_model_mapping formData));
   (u "priority", JNum (default (num_of_Z 0) (f_priority formData)));
   (u "weight", JNum (default (num_of_Z 0) (f_weight formData)));
   (u "test_model", text_or_null (f_test_model formData));
   (u "auto_ban", JNum (default (num_of_Z 1) (f_auto_ban formData)));
   (u "status_code_mapping", text_or_null (f_status_code_mapping formData));
   (u "tag", text_or_null (f_tag formData));
   (u "remark", JStr (default [] (f_remark formData)));
   (u "setting", JStr setting);
   (u "param_override", text_or_null (f_param_override formData));
   (u "header_override", text_or_null (f_header_override formData));
   (u "settings", JStr settings);
   (u "other", JStr (default [] (f_other formData)))].

Definition transformFormDataToUpdatePayload (formData : ChannelFormValues) (channelId : Z)
    : option settings_obj :=
  setting ← buildSettingJSON formData;
  settings ← buildSettingsJSON formData;
  let payload := update_fields formData channelId setting settings in
  let payload :=
    if str_truthy (f_key formData) && str_truthy (trim (f_key formData))
    then map_set payload (u "key") (JStr (f_key formData)) else payload in
  Some (put_texts (explicit_texts formData) (clean_payload payload)).

(** ** Validation helpers *)

Definition validateJSON (value : jstr) : bool :=
  if negb (str_truthy value) || seqb (trim value) [] then true
  else match JSON_parse value with Some _ => true | None => false end.

Definition validateModelMapping (value : jstr) : bool :=
  if negb (str_truthy value) || seqb (trim value) [] then true else validateJSON value.
