(* ===== verification/ChannelFormProps.v ===== *)
(** * What the channel form saves is what it shows again

    The settings text of a channel is rewritten member by member; the lemmas follow what
    each member holds afterwards through the whole sequence of assignments and
    deletions, and the theorems compare a saved channel with the form that saved it. *)

From Stdlib Require Import ZArith SpecFloat.
From stdpp Require Import base numbers option list sorting.
From S2P Require Import Prelude Collections JsNumber JsValue Json JsonProps Regex JsCoerce.
From S2P Require Import AdvancedCustom AdvancedCustomProps ChannelForm.

(** ** Objects as their members *)

(** [m] has the members [g]. *)
Definition has_members (m : settings_obj) (g : jstr -> option jsval) : Prop :=
  map_ok m /\ forall k, map_get m k = g k.

Definition m_set (k : jstr) (v : jsval) (g : jstr -> option jsval) : jstr -> option jsval :=
  fun k' => if seqb k' k then Some v else g k'.
Definition m_del (k : jstr) (g : jstr -> option jsval) : jstr -> option jsval :=
  fun k' => if seqb k' k then None else g k'.

Lemma seqb_sym a b : seqb a b = seqb b a.
Proof. unfold seqb. by apply bool_decide_ext. Qed.

Lemma members_set m g k v : has_members m g -> has_members (map_set m k v) (m_set k v g).
Proof.
  intros [Hm Hg]. split; [auto with js|]. intros k'. unfold m_set. rewrite map_get_set, seqb_sym.
  unfold seqb. by case_bool_decide.
Qed.

Lemma members_del m g k : has_members m g -> has_members (delete_member k m) (m_del k g).
Proof.
  intros [Hm Hg]. unfold delete_member, m_del. destruct (map_has m k) eqn:E.
  - split; [by apply map_delete_ok|]. intros k'. rewrite map_get_delete by done. rewrite seqb_sym.
    unfold seqb. by case_bool_decide.
  - split; [done|]. intros k'. destruct (seqb k' k) eqn:Ek; [|done]. apply seqb_eq in Ek as ->.
    apply map_get_None. intros H%map_has_keys. congruence.
Qed.

Lemma members_if (c : bool) m m' g g' : has_members m g -> has_members m' g' ->
  has_members (if c then m else m') (if c then g else g').
Proof. by destruct c. Qed.

Create HintDb members.
#[export] Hint Resolve members_set members_del members_if : members.

(** The assignments of the settings, on members. *)
Definition m_put (c : bool) (k : jstr) (v : jsval) (g : jstr -> option jsval) : jstr -> option jsval :=
  if c then m_set k v g else m_del k g.

Lemma members_put c k v m g : has_members m g -> has_members (put_or_delete c k v m) (m_put c k v g).
Proof. intros H. unfold put_or_delete, m_put. auto with members. Qed.

#[export] Hint Resolve members_put : members.

Definition m_openai (f : ChannelFormValues) (g : jstr -> option jsval) : jstr -> option jsval :=
  if openai_type (f_type f) then
    m_set (u "allow_inference_geo") (flag_val (f_allow_inference_geo f))
      (m_set (u "allow_include_obfuscation") (flag_val (f_allow_include_obfuscation f))
        (m_set (u "allow_safety_identifier") (flag_val (f_allow_safety_identifier f))
          (m_set (u "disable_store") (flag_val (f_disable_store f)) g)))
  else
    let g := m_del (u "allow_include_obfuscation")
               (m_del (u "allow_safety_identifier") (m_del (u "disable_store") g)) in
    if negb (f_type f =? 14) then m_del (u "allow_inference_geo") g else g.

Definition m_anthropic (f : ChannelFormValues) (g : jstr -> option jsval) : jstr -> option jsval :=
  if f_type f =? 14 then
    m_set (u "claude_beta_query") (flag_val (f_claude_beta_query f))
      (m_set (u "allow_speed") (flag_val (f_allow_speed f))
        (m_set (u "allow_inference_geo") (flag_val (f_allow_inference_geo f)) g))
  else m_del (u "claude_beta_query") (m_del (u "allow_speed") g).

(** The models last detected, and the time they were looked for. *)
Definition detected (f : ChannelFormValues) (g : jstr -> option jsval) : jsval :=
  let v := default JUndef (g (u "upstream_model_update_last_detected_models")) in
  if is_array v && is_true (flag_val (f_upstream_model_update_check_enabled f)) then v else JArr [].
Definition checked_at (g : jstr -> option jsval) : jsval :=
  let v := default JUndef (g (u "upstream_model_update_last_check_time")) in
  if is_number v then v else JNum (num_of_Z 0).

Definition auto_sync (f : ChannelFormValues) : jsval :=
  if is_true (flag_val (f_upstream_model_update_check_enabled f))
  then flag_val (f_upstream_model_update_auto_sync_enabled f) else JBool false.

Definition m_upstream (f : ChannelFormValues) (g : jstr -> option jsval) : jstr -> option jsval :=
  if mem_Z MODEL_FETCHABLE_TYPES (f_type f) then
    m_set (u "upstream_model_update_last_check_time") (checked_at g)
      (m_set (u "upstream_model_update_last_detected_models") (detected f g)
        (m_set (u "upstream_model_update_ignored_models")
               (JArr (map JStr (ignored_models (f_upstream_model_update_ignored_models f))))
          (m_set (u "upstream_model_update_auto_sync_enabled") (auto_sync f)
            (m_set (u "upstream_model_update_check_enabled")
               (flag_val (f_upstream_model_update_check_enabled f)) g))))
  else g.

Definition m_advanced (f : ChannelFormValues) (g : jstr -> option jsval) : jstr -> option jsval :=
  if f_type f =? CHANNEL_TYPE_ADVANCED_CUSTOM then
    match parseAdvancedCustomConfig (f_advanced_custom f) with
    | Some config => m_set (u "advanced_custom") config g
    | None => g
    end
  else m_del (u "advanced_custom") g.

(** Every member of the settings after the rewriting. *)
Definition members (f : ChannelFormValues) (g : jstr -> option jsval) : jstr -> option jsval :=
  let t := f_type f in
  m_advanced f (m_upstream f
    (m_set (u "disable_task_polling_sleep") (flag_val (f_disable_task_polling_sleep f))
      (m_anthropic f (m_openai f
        (m_put ((t =? 1) || (t =? 14) || (t =? 57)) (u "allow_service_tier") (flag_val (f_allow_service_tier f))
          (m_put (t =? 33) (u "aws_key_type") (val_or (f_aws_key_type f) (JStr (u "ak_sk")))
            (m_put (t =? 20) (u "openrouter_enterprise") (flag_val (f_is_enterprise_account f))
              (m_put ((t =? 3) && truthy (f_azure_responses_version f)) (u "azure_responses_version")
                 (f_azure_responses_version f)
                (m_put (t =? 41) (u "vertex_key_type") (val_or (f_vertex_key_type f) (JStr (u "json"))) g))))))))).

Lemma members_ext m g g' : (forall k, g k = g' k) -> has_members m g -> has_members m g'.
Proof. intros E [? H]. split; [done|]. intros k. by rewrite H. Qed.

Lemma members_same m g k v : has_members m g -> g k = Some v -> has_members m (m_set k v g).
Proof.
  intros H E. apply (members_ext m g); [|done]. intros k'. unfold m_set.
  destruct (seqb k' k) eqn:Ek; [by apply seqb_eq in Ek as ->|done].
Qed.

Lemma members_openai f m g : has_members m g -> has_members (put_openai f m) (m_openai f g).
Proof. intros H. unfold put_openai, m_openai. cbv zeta. auto 12 with members. Qed.

Lemma members_anthropic f m g : has_members m g -> has_members (put_anthropic f m) (m_anthropic f g).
Proof. intros H. unfold put_anthropic, m_anthropic. auto 12 with members. Qed.

Lemma members_get m g k : has_members m g -> get (JObj m) k = default JUndef (g k).
Proof. intros [_ H]. simpl. by rewrite H. Qed.

Lemma is_typed_some (p : jsval -> bool) o : p JUndef = false -> p (default JUndef o) = true ->
  o = Some (default JUndef o).
Proof. destruct o; [done|]. simpl. congruence. Qed.

Lemma members_upstream f m g : has_members m g -> has_members (put_upstream f m) (m_upstream f g).
Proof.
  intros H. unfold put_upstream, m_upstream. destruct (mem_Z _ _); [|done]. cbv zeta. fold (auto_sync f).
  set (check := flag_val (f_upstream_model_update_check_enabled f)).
  set (g3 := m_set (u "upstream_model_update_ignored_models") _ _).
  set (m3 := map_set (map_set (map_set m _ _) _ _) _ _).
  assert (H3 : has_members m3 g3) by (unfold m3, g3; auto with members).
  assert (G1 : g3 (u "upstream_model_update_last_detected_models") =
    g (u "upstream_model_update_last_detected_models")) by reflexivity.
  assert (G2 : forall v, m_set (u "upstream_model_update_last_detected_models") v g3
    (u "upstream_model_update_last_check_time") = g (u "upstream_model_update_last_check_time")) by reflexivity.
  rewrite (members_get m3 g3) by done. rewrite G1.
  set (m4 := if _ || _ then _ else m3).
  assert (H4 : has_members m4 (m_set (u "upstream_model_update_last_detected_models") (detected f g) g3)).
  { unfold m4, detected. fold check. rewrite <- negb_andb.
    destruct (is_array _ && is_true check) eqn:E; cbn [negb].
    - apply members_same; [done|]. rewrite G1. apply (is_typed_some is_array); [done|].
      by apply andb_prop in E as [? _].
    - by apply members_set. }
  clearbody m4. rewrite (members_get m4 _ _ H4), G2. unfold checked_at.
  destruct (is_number _) eqn:E; cbn [negb].
  - apply members_same; [done|]. rewrite G2. by apply (is_typed_some is_number).
  - by apply members_set.
Qed.

Lemma members_advanced f m g : has_members m g -> has_members (put_advanced f m) (m_advanced f g).
Proof.
  intros H. unfold put_advanced, m_advanced.
  destruct (_ =? _); [|auto with members]. destruct (parseAdvancedCustomConfig _); auto with members.
Qed.

(** The rewritten object has exactly the members of the table. *)
Lemma members_settings f m g : has_members m g -> has_members (settings_object f m) (members f g).
Proof.
  intros H. unfold settings_object, members. cbv zeta. apply members_advanced, members_upstream, members_set,
    members_anthropic, members_openai. auto 8 with members.
Qed.

(** ** Texts *)

(** What the form writes into the settings can be written: typed values, and texts of
    code units. *)
Definition texts_ok (f : ChannelFormValues) : Prop :=
  json_ok (f_vertex_key_type f) /\ json_ok (f_aws_key_type f) /\ json_ok (f_azure_responses_version f) /\
  units (default [] (f_upstream_model_update_ignored_models f)) /\
  match parseAdvancedCustomConfig (f_advanced_custom f) with Some config => json_ok config | None => True end.

Lemma json_ok_del p k : json_ok (JObj p) -> json_ok (JObj (delete_member k p)).
Proof. unfold delete_member. destruct (map_has p k); [apply json_ok_delete|done]. Qed.

Lemma json_ok_put_or_delete c k v p : key_ok k = true -> json_ok v -> json_ok (JObj p) ->
  json_ok (JObj (put_or_delete c k v p)).
Proof. intros. destruct c; [by apply json_ok_set|by apply json_ok_del]. Qed.

Lemma json_ok_val_or v d : json_ok v -> json_ok d -> json_ok (val_or v d).
Proof. unfold val_or. by destruct (truthy v). Qed.

Lemma json_ok_text s : forallb (fun c => c <? 65536)%N s = true -> json_ok (JStr s).
Proof. apply units_check. Qed.

Lemma ignored_json_ok o : units (default [] o) -> json_ok (JArr (map JStr (ignored_models o))).
Proof.
  intros H. apply json_ok_arr. apply Forall_forall. intros v Hv.
  apply list_elem_of_In, in_map_iff in Hv as (s & <- & Hs). unfold ignored_models in Hs.
  apply list_elem_of_In in Hs. rewrite elem_of_new_set in Hs.
  apply list_elem_of_In, filter_In in Hs as [Hs _]. apply in_map_iff in Hs as (p & <- & Hp).
  pose proof (units_split 44%N _ H) as Hu. rewrite List.Forall_forall in Hu.
  apply List.Forall_forall. intros c Hc%trim_subset. specialize (Hu p Hp). unfold units in Hu.
  rewrite List.Forall_forall in Hu. by apply Hu.
Qed.

Create HintDb json.
#[export] Hint Extern 0 (json_ok (JBool _)) => exact I : json.
#[export] Hint Resolve json_ok_set json_ok_del json_ok_put_or_delete json_ok_val_or : json.
#[export] Hint Extern 0 (key_ok _ = true) => vm_compute; reflexivity : json.
#[export] Hint Extern 0 (json_ok (flag_val _)) => exact I : json.
#[export] Hint Extern 0 (json_ok (JStr _)) => (apply json_ok_text; vm_compute; reflexivity) : json.

Lemma json_ok_num0 : json_ok (JNum (num_of_Z 0)).
Proof. split; vm_compute; reflexivity. Qed.

Lemma json_ok_upstream f p : units (default [] (f_upstream_model_update_ignored_models f)) ->
  json_ok (JObj p) -> json_ok (JObj (put_upstream f p)).
Proof.
  intros Hu Hp. unfold put_upstream. destruct (mem_Z _ _); [|done]. cbv zeta.
  pose proof (ignored_json_ok _ Hu) as Hi.
  set (m3 := map_set (map_set (map_set p _ _) _ _) _ _).
  assert (json_ok (JObj m3)) as H3.
  { unfold m3. destruct (is_true _); auto 10 with json. }
  clearbody m3. set (m4 := if _ || _ then _ else m3).
  assert (json_ok (JObj m4)) as H4.
  { unfold m4. destruct (_ || _); [|done]. apply json_ok_set; [by vm_compute|by apply json_ok_arr|done]. }
  clearbody m4. destruct (negb _); [|done]. apply json_ok_set; [by vm_compute|apply json_ok_num0|done].
Qed.

Lemma json_ok_settings f p : texts_ok f -> json_ok (JObj p) -> json_ok (JObj (settings_object f p)).
Proof.
  intros (Hv & Ha & Hz & Hu & Hc) Hp. unfold settings_object. cbv zeta.
  set (p1 := put_or_delete _ (u "allow_service_tier") _ _).
  assert (json_ok (JObj p1)) as H1 by (unfold p1; auto 20 with json).
  clearbody p1. assert (json_ok (JObj (put_openai f p1))) as H2.
  { unfold put_openai. cbv zeta. destruct (openai_type _); [auto 20 with json|].
    destruct (negb _); auto 20 with json. }
  set (p2 := put_openai f p1) in *. clearbody p2.
  assert (json_ok (JObj (put_anthropic f p2))) as H3.
  { unfold put_anthropic. destruct (_ =? _); auto 20 with json. }
  set (p3 := put_anthropic f p2) in *. clearbody p3. set (p4 := put_upstream f _).
  assert (json_ok (JObj p4)) as H4 by (apply json_ok_upstream; auto with json).
  clearbody p4. unfold put_advanced. destruct (_ =? _); [|auto with json].
  destruct (parseAdvancedCustomConfig _); auto with json.
Qed.

Lemma object_text_reads p : json_ok (JObj p) ->
  JSON_parse (object_text p) = Some (JObj p) /\ exists t, object_text p = 123%N :: t.
Proof.
  intros H. destruct (stringify_parse [] (JObj p) H) as (t & E & Ep & _); [constructor|].
  unfold object_text, JSON_stringify. rewrite E. split; [done|].
  destruct (serialize_obj_open [] p t E) as [t' ->]. by exists t'.
Qed.

(** ** The table of members *)

Ltac lits := repeat match goal with
  | |- context [seqb (u ?a) (u ?b)] =>
      let r := eval vm_compute in (seqb (u a) (u b)) in
      replace (seqb (u a) (u b)) with r by (vm_compute; reflexivity); cbn iota
  end.

Lemma m_put_get c k v g k' : m_put c k v g k' = if seqb k' k then (if c then Some v else None) else g k'.
Proof. by destruct c. Qed.

Lemma m_set_get k v g k' : m_set k v g k' = if seqb k' k then Some v else g k'.
Proof. done. Qed.

Lemma m_advanced_get f g k : m_advanced f g k =
  if seqb k (u "advanced_custom") then
    (if f_type f =? CHANNEL_TYPE_ADVANCED_CUSTOM then
       match parseAdvancedCustomConfig (f_advanced_custom f) with Some c => Some c | None => g k end
     else None)
  else g k.
Proof.
  unfold m_advanced, m_set, m_del. destruct (_ =? _); [|done].
  destruct (parseAdvancedCustomConfig _); [done|]. by destruct (seqb _ _).
Qed.

Lemma m_anthropic_get f g k : m_anthropic f g k =
  if seqb k (u "claude_beta_query") then
    (if f_type f =? 14 then Some (flag_val (f_claude_beta_query f)) else None)
  else if seqb k (u "allow_speed") then
    (if f_type f =? 14 then Some (flag_val (f_allow_speed f)) else None)
  else if seqb k (u "allow_inference_geo") && (f_type f =? 14) then Some (flag_val (f_allow_inference_geo f))
  else g k.
Proof.
  unfold m_anthropic, m_set, m_del. destruct (_ =? 14); [by rewrite andb_true_r|by rewrite andb_false_r].
Qed.

Lemma m_openai_get f g k : m_openai f g k =
  if seqb k (u "allow_inference_geo") then
    (if openai_type (f_type f) then Some (flag_val (f_allow_inference_geo f))
     else if f_type f =? 14 then g k else None)
  else if seqb k (u "allow_include_obfuscation") then
    (if openai_type (f_type f) then Some (flag_val (f_allow_include_obfuscation f)) else None)
  else if seqb k (u "allow_safety_identifier") then
    (if openai_type (f_type f) then Some (flag_val (f_allow_safety_identifier f)) else None)
  else if seqb k (u "disable_store") then
    (if openai_type (f_type f) then Some (flag_val (f_disable_store f)) else None)
  else g k.
Proof.
  unfold m_openai, m_set, m_del. destruct (openai_type _); [done|]. cbv zeta.
  destruct (_ =? 14); cbn [negb]; [|done].
  destruct (seqb k (u "allow_inference_geo")) eqn:E; [|done]. apply seqb_eq in E as ->. by lits.
Qed.

Lemma m_upstream_get f g k : m_upstream f g k =
  if mem_Z MODEL_FETCHABLE_TYPES (f_type f) then
    if seqb k (u "upstream_model_update_last_check_time") then Some (checked_at g)
    else if seqb k (u "upstream_model_update_last_detected_models") then Some (detected f g)
    else if seqb k (u "upstream_model_update_ignored_models") then
      Some (JArr (map JStr (ignored_models (f_upstream_model_update_ignored_models f))))
    else if seqb k (u "upstream_model_update_auto_sync_enabled") then Some (auto_sync f)
    else if seqb k (u "upstream_model_update_check_enabled") then
      Some (flag_val (f_upstream_model_update_check_enabled f))
    else g k
  else g k.
Proof. unfold m_upstream. by destruct (mem_Z _ _). Qed.

(** The value of one member of the rewritten settings. *)
Ltac member_at :=
  unfold members; rewrite ?m_advanced_get; lits; rewrite ?m_upstream_get; lits;
  rewrite ?m_set_get; lits; rewrite ?m_anthropic_get; lits; rewrite ?m_openai_get; lits;
  rewrite ?m_put_get; lits.

Section Members.
Context (f : ChannelFormValues) (g : jstr -> option jsval).
Abbreviation t := (f_type f).
Abbreviation fetchable := (mem_Z MODEL_FETCHABLE_TYPES t).

Lemma at_vertex : members f g (u "vertex_key_type") =
  if t =? 41 then Some (val_or (f_vertex_key_type f) (JStr (u "json"))) else None.
Proof. member_at. by destruct fetchable. Qed.

Lemma at_azure : members f g (u "azure_responses_version") =
  if (t =? 3) && truthy (f_azure_responses_version f) then Some (f_azure_responses_version f) else None.
Proof. member_at. by destruct fetchable. Qed.

Lemma at_enterprise : members f g (u "openrouter_enterprise") =
  if t =? 20 then Some (flag_val (f_is_enterprise_account f)) else None.
Proof. member_at. by destruct fetchable. Qed.

Lemma at_aws : members f g (u "aws_key_type") =
  if t =? 33 then Some (val_or (f_aws_key_type f) (JStr (u "ak_sk"))) else None.
Proof. member_at. by destruct fetchable. Qed.

Lemma at_service_tier : members f g (u "allow_service_tier") =
  if (t =? 1) || (t =? 14) || (t =? 57) then Some (flag_val (f_allow_service_tier f)) else None.
Proof. member_at. by destruct fetchable. Qed.

Lemma at_store : members f g (u "disable_store") =
  if openai_type t then Some (flag_val (f_disable_store f)) else None.
Proof. member_at. by destruct fetchable. Qed.

Lemma at_safety : members f g (u "allow_safety_identifier") =
  if openai_type t then Some (flag_val (f_allow_safety_identifier f)) else None.
Proof. member_at. by destruct fetchable. Qed.

Lemma at_obfuscation : members f g (u "allow_include_obfuscation") =
  if openai_type t then Some (flag_val (f_allow_include_obfuscation f)) else None.
Proof. member_at. by destruct fetchable. Qed.

Lemma at_geo : members f g (u "allow_inference_geo") =
  if openai_type t || (t =? 14) then Some (flag_val (f_allow_inference_geo f)) else None.
Proof. member_at. by destruct fetchable, (openai_type t), (t =? 14). Qed.

Lemma at_speed : members f g (u "allow_speed") =
  if t =? 14 then Some (flag_val (f_allow_speed f)) else None.
Proof. member_at. by destruct fetchable. Qed.

Lemma at_beta : members f g (u "claude_beta_query") =
  if t =? 14 then Some (flag_val (f_claude_beta_query f)) else None.
Proof. member_at. by destruct fetchable. Qed.

Lemma at_polling : members f g (u "disable_task_polling_sleep") =
  Some (flag_val (f_disable_task_polling_sleep f)).
Proof. member_at. by destruct fetchable. Qed.

Lemma at_check : members f g (u "upstream_model_update_check_enabled") =
  if fetchable then Some (flag_val (f_upstream_model_update_check_enabled f))
  else g (u "upstream_model_update_check_enabled").
Proof. member_at. by destruct fetchable. Qed.

Lemma at_auto : members f g (u "upstream_model_update_auto_sync_enabled") =
  if fetchable then Some (auto_sync f) else g (u "upstream_model_update_auto_sync_enabled").
Proof. member_at. by destruct fetchable. Qed.

Lemma at_ignored : members f g (u "upstream_model_update_ignored_models") =
  if fetchable then Some (JArr (map JStr (ignored_models (f_upstream_model_update_ignored_models f))))
  else g (u "upstream_model_update_ignored_models").
Proof. member_at. by destruct fetchable. Qed.

Lemma at_detected : members f g (u "upstream_model_update_last_detected_models") =
  if fetchable then Some (detected f g) else g (u "upstream_model_update_last_detected_models").
Proof. member_at. unfold detected. rewrite m_set_get. lits. rewrite m_anthropic_get. lits.
  rewrite m_openai_get. lits. rewrite !m_put_get. lits. by destruct fetchable. Qed.

Lemma at_time : members f g (u "upstream_model_update_last_check_time") =
  if fetchable then Some (checked_at g) else g (u "upstream_model_update_last_check_time").
Proof. member_at. unfold checked_at. rewrite m_set_get. lits. rewrite m_anthropic_get. lits.
  rewrite m_openai_get. lits. rewrite !m_put_get. lits. by destruct fetchable. Qed.

Lemma at_advanced : members f g (u "advanced_custom") =
  if t =? CHANNEL_TYPE_ADVANCED_CUSTOM then
    match parseAdvancedCustomConfig (f_advanced_custom f) with Some c => Some c | None => g (u "advanced_custom") end
  else None.
Proof. member_at. by destruct fetchable. Qed.
End Members.

(** ** Reading the settings again *)

Lemma put_same (c : bool) k v (m : settings_obj) : map_get m k = (if c then Some v else None) -> put_or_delete c k v m = m.
Proof.
  unfold put_or_delete, delete_member. destruct c; [apply map_set_same|]. intros H.
  destruct (map_has m k) eqn:E; [|done]. apply map_get_None in H. by apply map_has_keys in E.
Qed.

Lemma delete_same k (m : settings_obj) : map_get m k = None -> delete_member k m = m.
Proof. apply (put_same false k JUndef). Qed.

(** The types the schema demands of the members that come from JSON. *)
Definition form_typed (f : ChannelFormValues) : Prop :=
  is_boolean (f_force_format f) = true /\ is_boolean (f_thinking_to_content f) = true /\
  is_string (f_proxy f) = true /\ is_boolean (f_pass_through_body_enabled f) = true /\
  is_string (f_system_prompt f) = true /\ is_boolean (f_system_prompt_override f) = true /\
  (f_vertex_key_type f = JStr (u "json") \/ f_vertex_key_type f = JStr (u "api_key")) /\
  (f_aws_key_type f = JStr (u "ak_sk") \/ f_aws_key_type f = JStr (u "api_key")) /\
  is_string (f_azure_responses_version f) = true.

Definition extra_of (f : ChannelFormValues) : ExtraSettings :=
  mkExtra (f_force_format f) (f_thinking_to_content f) (f_proxy f) (f_pass_through_body_enabled f)
    (f_system_prompt f) (f_system_prompt_override f).

(** The members of the setting text as the form shows them after saving. *)
Definition shown_extra (f : ChannelFormValues) : ExtraSettings :=
  mkExtra (f_force_format f) (f_thinking_to_content f)
    (match f_proxy f with JStr s => JStr (trim s) | v => v end) (f_pass_through_body_enabled f)
    (f_system_prompt f) (f_system_prompt_override f).

Lemma val_or_typed_bool v : is_boolean v = true -> val_or v (JBool false) = v.
Proof. destruct v as [| |[]| | | |]; done. Qed.

Lemma val_or_typed_text v : is_string v = true -> val_or v (JStr []) = v.
Proof. destruct v as [| | | |[]| |]; done. Qed.

Lemma json_ok_bool v : is_boolean v = true -> json_ok v.
Proof. by destruct v. Qed.

(** The setting text is rebuilt from the form alone. *)
Lemma setting_reads f : form_typed f -> json_ok (f_proxy f) -> json_ok (f_system_prompt f) ->
  exists s, buildSettingJSON f = Some s /\ str_truthy s = true /\ read_extra s = Some (shown_extra f).
Proof.
  intros (H1 & H2 & H3 & H4 & H5 & H6 & _) Hp Hs. unfold buildSettingJSON.
  destruct (f_proxy f) as [| | | |p| |] eqn:Ep; try done. cbn [opt_trim call_trim mbind option_bind].
  rewrite !val_or_typed_bool by done. rewrite val_or_typed_text by done.
  eexists. split; [done|].
  match goal with |- context [object_text ?m] => assert (Hok : json_ok (JObj m)) end.
  { apply json_ok_obj. split; [by apply (bool_decide_unpack _); vm_compute|].
    split; [by repeat constructor|].
    repeat (apply List.Forall_cons; [split; [by apply units_check; vm_compute|]|]); try by apply List.Forall_nil.
    all: cbn [snd]; try (by apply json_ok_bool); try done. by apply units_trim. }
  destruct (object_text_reads _ Hok) as [Er [t Et]]. split; [by rewrite Et|].
  unfold read_extra. rewrite Er. cbn [mbind option_bind].
  unfold shown_extra. rewrite Ep.
  assert (Hg : forall k d, get (JObj d) k = default JUndef (map_get d k)) by done.
  rewrite !Hg. cbn [map_get].
  repeat match goal with
  | |- context [bool_decide (u ?a = u ?b)] =>
      let r := eval vm_compute in (bool_decide (u a = u b)) in
      replace (bool_decide (u a = u b)) with r by (vm_compute; reflexivity); cbn iota
  end.
  cbn [default]. rewrite !val_or_typed_bool by done. rewrite !val_or_typed_text by done. done.
Qed.

(** [value === true]. *)
Definition on (value : option bool) : bool := match value with Some true => true | _ => false end.

Definition types_of (f : ChannelFormValues) : TypeSettings :=
  mkTypeSettings (f_vertex_key_type f) (f_azure_responses_version f) (on (f_is_enterprise_account f))
    (f_aws_key_type f) (on (f_allow_service_tier f)) (on (f_disable_store f))
    (on (f_allow_safety_identifier f)) (on (f_allow_include_obfuscation f)) (on (f_allow_inference_geo f))
    (on (f_allow_speed f)) (on (f_claude_beta_query f)) (on (f_disable_task_polling_sleep f))
    (on (f_upstream_model_update_check_enabled f)) (on (f_upstream_model_update_auto_sync_enabled f))
    (default [] (f_upstream_model_update_ignored_models f)) (default [] (f_advanced_custom f)).

(** The type-specific members as the form shows them after saving: those of the channel's
    type as they were entered, the others at their defaults, and the update settings of
    a type whose models cannot be fetched as they were stored before ([g]). *)
Definition shown_types (f : ChannelFormValues) (g : jstr -> option jsval) : TypeSettings :=
  let t := f_type f in
  let fetchable := mem_Z MODEL_FETCHABLE_TYPES t in
  let stored k := default JUndef (g k) in
  let ignored := stored (u "upstream_model_update_ignored_models") in
  let ignoredText := if is_array ignored then to_string ignored else Some [] in
  let config :=
    if t =? CHANNEL_TYPE_ADVANCED_CUSTOM
    then default (stored (u "advanced_custom")) (parseAdvancedCustomConfig (f_advanced_custom f))
    else JUndef in
  mkTypeSettings
    (if t =? 41 then f_vertex_key_type f else JStr (u "json"))
    (if t =? 3 then f_azure_responses_version f else JStr [])
    ((t =? 20) && on (f_is_enterprise_account f))
    (if t =? 33 then f_aws_key_type f else JStr (u "ak_sk"))
    (((t =? 1) || (t =? 14) || (t =? 57)) && on (f_allow_service_tier f))
    (openai_type t && on (f_disable_store f))
    (openai_type t && on (f_allow_safety_identifier f))
    (openai_type t && on (f_allow_include_obfuscation f))
    ((openai_type t || (t =? 14)) && on (f_allow_inference_geo f))
    ((t =? 14) && on (f_allow_speed f))
    ((t =? 14) && on (f_claude_beta_query f))
    (on (f_disable_task_polling_sleep f))
    (if fetchable then on (f_upstream_model_update_check_enabled f)
     else is_true (stored (u "upstream_model_update_check_enabled")))
    (if fetchable then on (f_upstream_model_update_check_enabled f) && on (f_upstream_model_update_auto_sync_enabled f)
     else is_true (stored (u "upstream_model_update_auto_sync_enabled")))
    (if fetchable then join (u ",") (ignored_models (f_upstream_model_update_ignored_models f))
     else default [] ignoredText)
    (if truthy config then default [] (stringifyAdvancedCustomConfig config) else []).

Lemma is_true_if (c : bool) o : is_true (default JUndef (if c then Some (flag_val o) else None)) = c && on o.
Proof. destruct c; [|done]. by destruct o as [[]|]. Qed.

Lemma to_string_texts l : to_string (JArr (map JStr l)) = Some (join (u ",") l).
Proof.
  cbn [to_string]. assert (foldr (fun x acc => match acc, match x with
     | JUndef | JNull => Some [] | _ => to_string x end with
     | Some ss, Some s => Some (s :: ss) | _, _ => None end) (Some []) (map JStr l) = Some l) as ->; [|done].
  induction l as [|s l IH]; [done|]. cbn [map foldr]. by rewrite IH.
Qed.

Lemma type_custom_fetchable t : (t =? CHANNEL_TYPE_ADVANCED_CUSTOM) = true -> mem_Z MODEL_FETCHABLE_TYPES t = true.
Proof. by intros ->%Z.eqb_eq. Qed.

Definition ignored_text (v : jsval) : option jstr := if is_array v then to_string v else Some [].

(** The sixteen members a reader of the settings takes, of an object with the members
    [G]. *)
Definition read_members (G : jstr -> option jsval) : TypeSettings :=
  let v k := default JUndef (G k) in
  let text := ignored_text (v (u "upstream_model_update_ignored_models")) in
  mkTypeSettings
    (val_or (v (u "vertex_key_type")) (JStr (u "json")))
    (val_or (v (u "azure_responses_version")) (JStr []))
    (is_true (v (u "openrouter_enterprise")))
    (val_or (v (u "aws_key_type")) (JStr (u "ak_sk")))
    (is_true (v (u "allow_service_tier"))) (is_true (v (u "disable_store")))
    (is_true (v (u "allow_safety_identifier"))) (is_true (v (u "allow_include_obfuscation")))
    (is_true (v (u "allow_inference_geo"))) (is_true (v (u "allow_speed")))
    (is_true (v (u "claude_beta_query"))) (is_true (v (u "disable_task_polling_sleep")))
    (is_true (v (u "upstream_model_update_check_enabled")))
    (is_true (v (u "upstream_model_update_auto_sync_enabled")))
    (default [] text)
    (match text with
     | Some _ => if truthy (v (u "advanced_custom"))
                 then default [] (stringifyAdvancedCustomConfig (v (u "advanced_custom"))) else []
     | None => []
     end).

Lemma read_object m G : has_members m G -> json_ok (JObj m) -> read_settings (object_text m) = read_members G.
Proof.
  intros Hm Hok. destruct (object_text_reads m Hok) as [Er _]. unfold read_settings, read_members. rewrite Er.
  cbv zeta. rewrite !(members_get m G) by done. fold (ignored_text (default JUndef (G (u "upstream_model_update_ignored_models")))).
  by destruct (ignored_text _).
Qed.

Lemma settings_reads f g m : form_typed f -> has_members m (members f g) -> json_ok (JObj m) ->
  read_settings (object_text m) = shown_types f g.
Proof.
  intros (_ & _ & _ & _ & _ & _ & Hv & Ha & Hz) Hm Hok. rewrite (read_object m (members f g)) by done.
  unfold read_members, shown_types. cbv zeta.
  assert (Eflag : forall o, is_true (flag_val o) = on o) by (by intros [[]|]).
  f_equal.
  - rewrite at_vertex. destruct (_ =? 41); [|done]. destruct Hv as [-> | ->]; by vm_compute.
  - rewrite at_azure. destruct (_ =? 3); [|done]. by destruct (f_azure_responses_version f) as [| | | |[]| |].
  - rewrite at_enterprise. apply is_true_if.
  - rewrite at_aws. destruct (_ =? 33); [|done]. destruct Ha as [-> | ->]; by vm_compute.
  - rewrite at_service_tier. apply is_true_if.
  - rewrite at_store. apply is_true_if.
  - rewrite at_safety. apply is_true_if.
  - rewrite at_obfuscation. apply is_true_if.
  - rewrite at_geo. apply is_true_if.
  - rewrite at_speed. apply is_true_if.
  - rewrite at_beta. apply is_true_if.
  - rewrite at_polling. apply Eflag.
  - rewrite at_check. destruct (mem_Z _ _); [apply Eflag|done].
  - rewrite at_auto. destruct (mem_Z _ _); [|done]. cbn [default]. unfold auto_sync.
    rewrite Eflag. destruct (on _); [apply Eflag|done].
  - rewrite at_ignored. destruct (mem_Z _ _); [|done]. cbn [default]. unfold ignored_text, id. cbn [is_array].
    by rewrite to_string_texts.
  - rewrite at_advanced. destruct (_ =? CHANNEL_TYPE_ADVANCED_CUSTOM) eqn:Ec.
    + rewrite at_ignored, type_custom_fetchable by done. cbn [default]. unfold ignored_text, id. cbn [is_array].
      rewrite to_string_texts. by destruct (parseAdvancedCustomConfig _).
    + by destruct (ignored_text _).
Qed.

(** ** Update payloads *)

Definition UPDATE_FIELDS : list jstr := [
  u "id"; u "name"; u "type"; u "base_url"; u "openai_organization"; u "models"; u "group";
  u "model_mapping"; u "priority";
  u "weight"; u "test_model"; u "auto_ban"; u "status_code_mapping"; u "tag"; u "remark";
  u "setting"; u "param_override";
  u "header_override"; u "settings"; u "other"].

Lemma update_fields_keys f id s1 s2 : map_keys (update_fields f id s1 s2) = UPDATE_FIELDS.
Proof. reflexivity. Qed.

Lemma clean_keys p : map_keys (clean_payload p) = map_keys p.
Proof. unfold map_keys, clean_payload. induction p as [|e p IH]; [done|]. cbn. by rewrite <- IH. Qed.

Lemma fold_set_keys (l : list (jstr * jstr)) p k : Forall (fun e => fst e ∈ map_keys p) l ->
  map_ok p -> map_ok (put_texts l p) /\
  (k ∈ map_keys (put_texts l p) <-> k ∈ map_keys p).
Proof.
  intros Hl. revert p Hl. induction l as [|e l IH]; intros p Hl Hp; [done|].
  apply Forall_cons in Hl as [He Hl]. simpl. destruct (IH (map_set p (fst e) (JStr (snd e)))) as [H1 H2].
  - eapply Forall_impl; [exact Hl|]. intros e' H. apply map_keys_set_elem. by right.
  - auto with js.
  - split; [done|]. rewrite H2, map_keys_set_elem. split; [by intros [->|?]|by right].
Qed.

(** An update sends its twenty fields, and the key where one was entered. *)
Lemma update_payload_keys f id payload : transformFormDataToUpdatePayload f id = Some payload ->
  map_ok payload /\ forall k, k ∈ map_keys payload <->
    k ∈ UPDATE_FIELDS \/ (k = u "key" /\ str_truthy (trim (f_key f)) = true).
Proof.
  unfold transformFormDataToUpdatePayload. destruct (buildSettingJSON f) as [s1|]; [|done].
  destruct (buildSettingsJSON f) as [s2|]; [|done]. cbn [mbind option_bind]. cbv zeta.
  set (p1 := if _ && _ then _ else _). intros Hp%(inj Some). subst payload.
  assert (Hk : str_truthy (f_key f) && str_truthy (trim (f_key f)) = str_truthy (trim (f_key f))).
  { by destruct (f_key f). }
  assert (H1 : map_ok p1 /\ forall k, k ∈ map_keys p1 <->
    k ∈ UPDATE_FIELDS \/ (k = u "key" /\ str_truthy (trim (f_key f)) = true)).
  { unfold p1. rewrite Hk. assert (map_ok (update_fields f id s1 s2)) as Hok.
    { unfold map_ok. rewrite update_fields_keys. apply (bool_decide_unpack _). by vm_compute. }
    clear p1 Hk. destruct (str_truthy (trim (f_key f))).
    - split; [auto with js|]. intros k. rewrite map_keys_set_elem, update_fields_keys. tauto.
    - split; [done|]. intros k. rewrite update_fields_keys. split; [by left|by intros [?|[_ ?]]]. }
  clearbody p1. destruct H1 as [Hok Hkeys].
  assert (Hc : map_ok (clean_payload p1)) by (unfold map_ok; by rewrite clean_keys).
  assert (He : Forall (fun e => fst e ∈ map_keys (clean_payload p1)) (explicit_texts f)).
  { rewrite clean_keys. unfold explicit_texts.
    repeat (apply List.Forall_cons; [apply Hkeys; left; apply set_has_true; vm_compute; reflexivity|]).
    apply List.Forall_nil. }
  split; [exact (proj1 (fold_set_keys _ _ [] He Hc))|]. intros k. destruct (fold_set_keys _ _ k He Hc) as [_ ->]. by rewrite clean_keys.
Qed.

Lemma fold_set_other (l : list (jstr * jstr)) p k : k ∉ map fst l ->
  map_get (put_texts l p) k = map_get p k.
Proof.
  revert p. induction l as [|e l IH]; intros p H; [done|]. cbn [map] in H.
  apply not_elem_of_cons in H as [? ?]. simpl. rewrite IH by done. by apply map_get_set_ne.
Qed.

Lemma clean_get p k : map_get (clean_payload p) k = null_if_empty <$> map_get p k.
Proof.
  induction p as [|[k' v] p IH]; [done|]. change (clean_payload ((k', v) :: p)) with ((k', null_if_empty v) :: clean_payload p). cbn [map_get].
  destruct (bool_decide (k' = k)); [done|]. exact IH.
Qed.

Lemma not_in_checked (k : jstr) l : set_has l k = false -> k ∉ l.
Proof. apply set_has_false. Qed.

(** The two texts are sent as they were built. *)
Lemma update_payload_texts f id payload : transformFormDataToUpdatePayload f id = Some payload ->
  exists s1 s2, buildSettingJSON f = Some s1 /\ buildSettingsJSON f = Some s2 /\
    (str_truthy s1 = true -> get (JObj payload) (u "setting") = JStr s1) /\
    (str_truthy s2 = true -> get (JObj payload) (u "settings") = JStr s2).
Proof.
  unfold transformFormDataToUpdatePayload. destruct (buildSettingJSON f) as [s1|]; [|done].
  destruct (buildSettingsJSON f) as [s2|]; [|done]. cbn [mbind option_bind]. cbv zeta.
  intros Hp%(inj Some). subst payload. exists s1, s2. split; [done|]. split; [done|].
  assert (Hb : forall k, k <> u "key" -> map_get (if str_truthy (f_key f) && str_truthy (trim (f_key f))
    then map_set (update_fields f id s1 s2) (u "key") (JStr (f_key f)) else update_fields f id s1 s2) k =
    map_get (update_fields f id s1 s2) k).
  { intros k Hk. destruct (_ && _); [by apply map_get_set_ne|done]. }
  assert (G1 : map_get (update_fields f id s1 s2) (u "setting") = Some (JStr s1)) by reflexivity.
  assert (G2 : map_get (update_fields f id s1 s2) (u "settings") = Some (JStr s2)) by reflexivity.
  unfold get. split; intros Hs.
  - rewrite fold_set_other by (apply not_in_checked; vm_compute; reflexivity).
    rewrite clean_get, Hb by done. rewrite G1. simpl. by destruct s1.
  - rewrite fold_set_other by (apply not_in_checked; vm_compute; reflexivity).
    rewrite clean_get, Hb by done. rewrite G2. simpl. by destruct s2.
Qed.

(** ** Saving again *)

Lemma ignored_again o : ignored_models (Some (join (u ",") (ignored_models o))) = ignored_models o.
Proof.
  assert (Hn : Forall (fun m => m <> [] /\ trim m = m /\ ~ In 44%N m) (ignored_models o)).
  { apply Forall_forall. intros m Hm. unfold ignored_models in Hm. rewrite elem_of_new_set in Hm.
    apply list_elem_of_In, filter_In in Hm as [Hm Ht]. apply in_map_iff in Hm as (p & <- & Hp).
    pose proof (split_no_sep 44%N (default [] o)) as Hs. rewrite List.Forall_forall in Hs.
    split_and!; [by intros E; rewrite E in Ht|apply trim_idemp|]. intros H%trim_subset. by apply (Hs p). }
  assert (Hk : List.filter str_truthy (map trim (ignored_models o)) = ignored_models o).
  { induction Hn as [|m l (Hne & Ht & _) _ IH]; [done|]. cbn [map List.filter]. rewrite Ht, IH. by destruct m. }
  unfold ignored_models at 1. cbn [default]. unfold id. destruct (ignored_models o) as [|m l] eqn:E; [done|].
  rewrite <- E in *. change (u ",") with [44%N]. rewrite split_join.
  - rewrite Hk. apply new_set_idemp.
  - by rewrite E.
  - eapply Forall_impl; [exact Hn|]. by intros x (_ & _ & ?).
Qed.

Lemma config_again value c : parseAdvancedCustomConfig value = Some c -> json_ok c ->
  exists t, stringifyAdvancedCustomConfig c = Some t /\ truthy c = true /\
    parseAdvancedCustomConfig (Some t) = Some c.
Proof.
  intros Hp Hok. unfold parseAdvancedCustomConfig in Hp. destruct value as [s|]; [|done].
  destruct (negb _); [done|]. destruct (JSON_parse s) as [[| | | | | |ps]|]; try done.
  pose proof (normalize_config_idemp _ _ Hp) as Hn.
  assert (exists ps', c = JObj ps') as [ps' ->].
  { unfold normalizeAdvancedCustomConfig in Hp. destruct (prop _ _) as [[]|]; simpl in Hp; try done;
      try (injection Hp as <-; by eexists).
    destruct (mapM _ _); simpl in Hp; [|done]. injection Hp as <-. by eexists. }
  destruct (stringify_parse (u "  ") (JObj ps') Hok) as (t & Et & Er & _); [by repeat constructor|].
  exists t. split; [unfold stringifyAdvancedCustomConfig; rewrite Hn; exact Et|]. split; [done|].
  destruct (serialize_obj_open _ _ _ Et) as [t' ->]. unfold parseAdvancedCustomConfig.
  rewrite Er. assert (str_truthy (trim (123%N :: t')) = true) as ->; [|exact Hn].
  pose proof (trim_nonempty 123%N t' eq_refl) as H. by destruct (trim _).
Qed.

Section Again.
(** [m] was written by the form [f], and [d] is the form opened on it. *)
Context (f d : ChannelFormValues) (g : jstr -> option jsval) (m : settings_obj).
Context (Ht : f_type d = f_type f) (Hm : has_members m (members f g)).
Context (Hd : types_of d = shown_types f g) (Hf : form_typed f).
Context (Ha : (f_type f =? CHANNEL_TYPE_ADVANCED_CUSTOM) = true ->
  exists c, parseAdvancedCustomConfig (f_advanced_custom f) = Some c /\ json_ok c).

Lemma flag_on o : flag_val o = JBool (on o).
Proof. by destruct o as [[]|]. Qed.

Lemma member k v : members f g k = v -> map_get m k = v.
Proof. intros <-. apply Hm. Qed.

Lemma put_flag_again (c : bool) k o o' : on o' = c && on o -> members f g k = (if c then Some (flag_val o) else None) ->
  put_or_delete c k (flag_val o') m = m.
Proof.
  intros E Hk. apply put_same. rewrite (member _ _ Hk). destruct c; [|done]. by rewrite !flag_on, E.
Qed.

Lemma set_flag_again (c : bool) k o o' : c = true -> on o' = c && on o ->
  members f g k = (if c then Some (flag_val o) else None) -> map_set m k (flag_val o') = m.
Proof. intros -> E Hk. by apply (put_flag_again true k o o'). Qed.

Lemma delete_again (c : bool) k v : c = false -> members f g k = (if c then Some v else None) -> delete_member k m = m.
Proof. intros -> Hk. apply delete_same. by apply member. Qed.

Lemma openai_again : put_openai d m = m.
Proof.
  unfold put_openai. rewrite Ht. cbv zeta.
  pose proof (f_equal disableStore Hd) as E1. pose proof (f_equal allowSafetyIdentifier Hd) as E2.
  pose proof (f_equal allowIncludeObfuscation Hd) as E3. pose proof (f_equal allowInferenceGeo Hd) as E4.
  destruct (openai_type (f_type f)) eqn:Eo.
  - rewrite (set_flag_again _ _ _ _ Eo E1 (at_store f g)), (set_flag_again _ _ _ _ Eo E2 (at_safety f g)),
      (set_flag_again _ _ _ _ Eo E3 (at_obfuscation f g)).
    apply (set_flag_again _ _ _ _ (proj2 (orb_true_iff _ _) (or_introl Eo)) E4 (at_geo f g)).
  - rewrite (delete_again _ _ _ Eo (at_store f g)), (delete_again _ _ _ Eo (at_safety f g)),
      (delete_again _ _ _ Eo (at_obfuscation f g)).
    destruct (f_type f =? 14) eqn:E14; [done|]. cbn [negb].
    eapply delete_again; [|apply (at_geo f g)]. by rewrite Eo, E14.
Qed.

Lemma anthropic_again : put_anthropic d m = m.
Proof.
  unfold put_anthropic. rewrite Ht.
  pose proof (f_equal allowInferenceGeo Hd) as E1. pose proof (f_equal allowSpeed Hd) as E2.
  pose proof (f_equal claudeBetaQuery Hd) as E3. destruct (f_type f =? 14) eqn:E14.
  - rewrite (set_flag_again _ _ _ _ (proj2 (orb_true_iff _ _) (or_intror E14)) E1 (at_geo f g)),
      (set_flag_again _ _ _ _ E14 E2 (at_speed f g)).
    apply (set_flag_again _ _ _ _ E14 E3 (at_beta f g)).
  - rewrite (delete_again _ _ _ E14 (at_speed f g)). apply (delete_again _ _ _ E14 (at_beta f g)).
Qed.

Lemma upstream_again : put_upstream d m = m.
Proof.
  unfold put_upstream. rewrite Ht. destruct (mem_Z _ _) eqn:Ef; [|done]. cbv zeta.
  pose proof (f_equal upstreamModelUpdateCheckEnabled Hd) as E1.
  pose proof (f_equal upstreamModelUpdateAutoSyncEnabled Hd) as E2.
  pose proof (f_equal upstreamModelUpdateIgnoredModels Hd) as E3. unfold shown_types in E1, E2, E3. cbv zeta in *.
  rewrite Ef in E1, E2, E3. cbn in E1, E2, E3.
  pose proof (at_check f g) as K1. pose proof (at_auto f g) as K2. pose proof (at_ignored f g) as K3.
  pose proof (at_detected f g) as K4. pose proof (at_time f g) as K5. rewrite Ef in K1, K2, K3, K4, K5.
  assert (C1 : flag_val (f_upstream_model_update_check_enabled d) = flag_val (f_upstream_model_update_check_enabled f))
    by (by rewrite !flag_on, E1).
  rewrite C1, (map_set_same m _ _ (member _ _ K1)).
  assert ((if is_true (flag_val (f_upstream_model_update_check_enabled f))
    then flag_val (f_upstream_model_update_auto_sync_enabled d) else JBool false) = auto_sync f) as ->.
  { unfold auto_sync. rewrite !flag_on. cbn [is_true]. rewrite E2. by destruct (on (f_upstream_model_update_check_enabled f)). }
  rewrite (map_set_same m _ _ (member _ _ K2)).
  assert (ignored_models (f_upstream_model_update_ignored_models d) =
    ignored_models (f_upstream_model_update_ignored_models f)) as ->.
  { rewrite <- (ignored_again (f_upstream_model_update_ignored_models f)), <- E3.
    by destruct (f_upstream_model_update_ignored_models d). }
  rewrite (map_set_same m _ _ (member _ _ K3)).
  assert (get (JObj m) (u "upstream_model_update_last_detected_models") = detected f g) as ->.
  { cbn [get]. by rewrite (member _ _ K4). }
  assert (get (JObj m) (u "upstream_model_update_last_check_time") = checked_at g) as Et.
  { cbn [get]. by rewrite (member _ _ K5). }
  assert ((if negb (is_array (detected f g)) || negb (is_true (flag_val (f_upstream_model_update_check_enabled f)))
    then map_set m (u "upstream_model_update_last_detected_models") (JArr []) else m) = m) as ->.
  { unfold detected in *. destruct (is_array _ && is_true _) eqn:E.
    - apply andb_prop in E as [-> ->]. done.
    - rewrite (map_set_same m _ (JArr []) (member _ _ K4)). by destruct (_ || _). }
  rewrite Et. unfold checked_at. destruct (is_number (default JUndef _)) eqn:E; [by rewrite E|done].
Qed.

Lemma advanced_again : put_advanced d m = m.
Proof.
  unfold put_advanced. rewrite Ht. pose proof (at_advanced f g) as K.
  destruct (f_type f =? CHANNEL_TYPE_ADVANCED_CUSTOM) eqn:E; [|apply delete_same; by apply member].
  destruct (Ha eq_refl) as (c & Ec & Hc). destruct (config_again _ _ Ec Hc) as (t & Es & Htr & Er).
  pose proof (f_equal advancedCustom Hd) as E1. unfold shown_types in E1. cbv zeta in E1. cbn in E1.
  rewrite E, Ec in E1. cbn in E1. rewrite Htr, Es in E1. cbn in E1.
  rewrite Ec in K. destruct (f_advanced_custom d) as [t'|] eqn:Ed.
  - unfold id in E1. cbn in E1. subst t'. rewrite Er. apply map_set_same. by apply member.
  - done.
Qed.

Lemma settings_again : settings_object d m = m.
Proof.
  unfold settings_object. cbv zeta. rewrite Ht. destruct Hf as (_ & _ & _ & _ & _ & _ & _ & _ & Hz).
  pose proof (f_equal vertexKeyType Hd) as E1. pose proof (f_equal azureResponsesVersion Hd) as E2.
  pose proof (f_equal isEnterpriseAccount Hd) as E3. pose proof (f_equal awsKeyType Hd) as E4.
  pose proof (f_equal allowServiceTier Hd) as E5. pose proof (f_equal disableTaskPollingSleep Hd) as E6.
  cbn in E1, E2, E3, E4, E5, E6.
  rewrite (put_same _ _ _ m); [|rewrite (member _ _ (at_vertex f g)), E1; by destruct (_ =? 41)].
  rewrite (put_same _ _ _ m);
    [|rewrite (member _ _ (at_azure f g)), E2; by destruct (_ =? 3)].
  rewrite (put_flag_again _ _ _ _ E3 (at_enterprise f g)).
  rewrite (put_same _ _ _ m); [|rewrite (member _ _ (at_aws f g)), E4; by destruct (_ =? 33)].
  rewrite (put_flag_again _ _ _ _ E5 (at_service_tier f g)).
  rewrite openai_again, anthropic_again.
  rewrite (map_set_same m); [|rewrite (member _ _ (at_polling f g)); by rewrite !flag_on, E6].
  by rewrite upstream_again, advanced_again.
Qed.
End Again.

(** ** What the schema's checks ensure *)

Lemma issue_none c path message : issue_if c path message = [] -> c = false.
Proof. by destruct c. Qed.

Lemma accepted_settings parse_url f : field_issues parse_url f = [] ->
  exists ps, existing_settings f = JObj ps.
Proof.
  unfold field_issues. cbv zeta. intros H.
  do 5 (apply app_eq_nil in H as [_ H]). apply app_eq_nil in H as [H _]. apply issue_none, negb_false_iff in H.
  unfold isOptionalJsonObject, parseOptionalJson in H. unfold existing_settings.
  destruct (f_settings f) as [s|]; [|by exists []]. cbn [default]. unfold id.
  destruct (str_truthy s && negb (seqb s (u "{}"))); [|by exists []].
  destruct (str_truthy (trim s)) eqn:Et.
  - destruct (JSON_parse s) as [v|] eqn:Ep; [|by exists []]. cbn in H |- *. destruct v; try done. by eexists.
  - rewrite JSON_parse_blank; [by exists []|]. by destruct (trim s).
Qed.

Lemma accepted_advanced parse_url f : superRefine parse_url f = Some [] ->
  (f_type f =? CHANNEL_TYPE_ADVANCED_CUSTOM) = true ->
  exists c, parseAdvancedCustomConfig (f_advanced_custom f) = Some c.
Proof.
  unfold superRefine. cbv zeta. intros H Ht. rewrite Ht in H.
  destruct (parseAdvancedCustomConfig (f_advanced_custom f)) as [c|] eqn:Ec; [by exists c|].
  exfalso. unfold advanced_issues in H. rewrite Ec in H. cbv zeta in H. cbn [default] in H.
  unfold validateAdvancedCustomConfig, advancedCustomConfigUsesRelativeUpstreamPath,
    hasValidAdvancedCustomModelListRoute in H. cbn [truthy negb mbind option_bind] in H.
  destruct (f_upstream_model_update_check_enabled f) as [[]|]; cbn in H;
    apply (inj Some) in H; apply app_eq_nil in H as [_ H]; done.
Qed.

(** ** The form and the channel it saves *)

(** A form the schema accepts, whose texts are texts of code units. *)
Definition submitted (parse_url : jstr -> option Url) (f : ChannelFormValues) : Prop :=
  form_typed f /\ field_issues parse_url f = [] /\ superRefine parse_url f = Some [] /\
  texts_ok f /\ json_ok (f_proxy f) /\ json_ok (f_system_prompt f) /\ json_ok (existing_settings f).

(** The channel has the type of the form and the two texts an update sent. *)
Definition stored (f : ChannelFormValues) (payload : settings_obj) (ch : Channel) : Prop :=
  ch_type ch = f_type f /\ get (JObj payload) (u "setting") = JStr (default [] (ch_setting ch)) /\
  get (JObj payload) (u "settings") = JStr (ch_settings ch).

Lemma extra_of_defaults ch : extra_of (transformChannelToFormDefaults ch) = channel_extra (ch_setting ch).
Proof. unfold extra_of. cbn. by destruct (channel_extra _). Qed.

Lemma types_of_defaults ch : types_of (transformChannelToFormDefaults ch) = channel_settings (ch_settings ch).
Proof.
  assert (on_some : forall b, on (Some b) = b) by (by intros []).
  unfold types_of, transformChannelToFormDefaults. cbv zeta.
  cbn [f_vertex_key_type f_azure_responses_version f_is_enterprise_account f_aws_key_type
    f_allow_service_tier f_disable_store f_allow_safety_identifier f_allow_include_obfuscation f_allow_inference_geo
    f_allow_speed f_claude_beta_query f_disable_task_polling_sleep f_upstream_model_update_check_enabled
    f_upstream_model_update_auto_sync_enabled f_upstream_model_update_ignored_models f_advanced_custom default].
  rewrite !on_some. unfold id. by destruct (channel_settings _).
Qed.

Lemma typed_again f d g : form_typed f -> extra_of d = shown_extra f -> types_of d = shown_types f g -> form_typed d.
Proof.
  intros (H1 & H2 & H3 & H4 & H5 & H6 & H7 & H8 & H9) He Hd. unfold extra_of, shown_extra in He.
  injection He as E1 E2 E3 E4 E5 E6. pose proof (f_equal vertexKeyType Hd) as E7.
  pose proof (f_equal awsKeyType Hd) as E8. pose proof (f_equal azureResponsesVersion Hd) as E9.
  cbn in E7, E8, E9. unfold form_typed. rewrite E1, E2, E3, E4, E5, E6, E7, E8, E9. split_and!; try done.
  - by destruct (f_proxy f).
  - destruct (_ =? 41); [done|by left].
  - destruct (_ =? 33); [done|by left].
  - by destruct (_ =? 3).
Qed.

Lemma shown_extra_again f d : extra_of d = shown_extra f -> form_typed f -> buildSettingJSON d = buildSettingJSON f.
Proof.
  intros He (_ & _ & H3 & _). unfold extra_of, shown_extra in He. injection He as E1 E2 E3 E4 E5 E6.
  unfold buildSettingJSON. rewrite E1, E2, E3, E4, E5, E6.
  destruct (f_proxy f) as [| | | |p| |]; try discriminate H3.
  cbn [opt_trim call_trim]. rewrite trim_idemp. reflexivity.
Qed.

(** C19: Saving the channel form and opening the saved channel shows the same settings. For a form the
    schema accepts, an update can be built; when a channel of that type holds the two
    texts the update sent, the form opened on it has the members of the setting text as
    they were entered (the proxy trimmed), the members of the settings text that belong
    to the channel's type as they were entered (ignored models in normal form, automatic
    updates off when the check for them is off) and the others at their defaults, except
    the update settings of a type whose models cannot be fetched, which stay as they were
    stored; values of the types the schema demands again, and saving it once more writes
    the same two texts. *)
Theorem saved_form_reopens (parse_url : jstr -> option Url) (f : ChannelFormValues) (channelId : Z) :
  submitted parse_url f ->
  exists payload ps, transformFormDataToUpdatePayload f channelId = Some payload /\
    existing_settings f = JObj ps /\
    forall ch, stored f payload ch ->
      let d := transformChannelToFormDefaults ch in
      extra_of d = shown_extra f /\ types_of d = shown_types f (map_get ps) /\ form_typed d /\
      buildSettingJSON d = buildSettingJSON f /\ buildSettingsJSON d = buildSettingsJSON f.
Proof.
  intros (Hty & Hfi & Hsr & Htx & Hpr & Hsp & Hex).
  destruct (accepted_settings parse_url f Hfi) as [ps Eps]. rewrite Eps in Hex.
  destruct (setting_reads f Hty Hpr Hsp) as (s1 & E1 & T1 & R1).
  assert (Hm : has_members (settings_object f ps) (members f (map_get ps))).
  { apply members_settings. split; [|done]. by apply json_ok_obj in Hex as [? _]. }
  pose proof (json_ok_settings f ps Htx Hex) as Hok.
  set (m := settings_object f ps) in *.
  assert (E2 : buildSettingsJSON f = Some (object_text m)) by (unfold buildSettingsJSON; by rewrite Eps).
  destruct (object_text_reads m Hok) as [Er [t Et]].
  assert (exists payload, transformFormDataToUpdatePayload f channelId = Some payload) as [payload Ep].
  { unfold transformFormDataToUpdatePayload. rewrite E1, E2. by eexists. }
  exists payload, ps. split; [done|]. split; [done|]. intros ch (Hct & Hs1 & Hs2) d.
  destruct (update_payload_texts f channelId payload Ep) as (s1' & s2' & E1' & E2' & G1 & G2).
  rewrite E1 in E1'. rewrite E2 in E2'. injection E1' as <-. apply (inj Some) in E2'. subst s2'.
  rewrite G1 in Hs1 by done. injection Hs1 as Hs1.
  rewrite G2 in Hs2 by (by rewrite Et). assert (Es2 : ch_settings ch = object_text m) by congruence. clear Hs2.
  assert (He : extra_of d = shown_extra f).
  { unfold d. rewrite extra_of_defaults. unfold channel_extra. destruct (ch_setting ch) as [s|].
    - cbn in Hs1. unfold id in Hs1. subst s1. by rewrite T1, R1.
    - cbn in Hs1. by subst s1. }
  assert (Hd : types_of d = shown_types f (map_get ps)).
  { unfold d. rewrite types_of_defaults, Es2. unfold channel_settings. rewrite Et at 1. cbn [str_truthy].
    by apply settings_reads. }
  split; [done|]. split; [done|]. split; [by eapply typed_again|]. split; [by apply shown_extra_again|].
  rewrite E2. assert (Eex : existing_settings d = JObj m).
  { unfold existing_settings, d. cbn [f_settings transformChannelToFormDefaults default]. unfold id.
    rewrite Es2, Et. rewrite Et in Er. unfold str_or. cbn [str_truthy andb].
    destruct (seqb (123%N :: t) (u "{}")) eqn:Eb; cbn [negb]; [|by rewrite Er].
    apply seqb_eq in Eb. rewrite Eb in Er.
    assert (Ej : JSON_parse (u "{}") = Some (JObj [])) by (vm_compute; reflexivity). congruence. }
  unfold buildSettingsJSON. rewrite Eex. f_equal. f_equal.
  apply (settings_again f d (map_get ps)); try done.
  intros Ha. destruct (accepted_advanced parse_url f Hsr Ha) as [c Ec]. exists c. split; [done|].
  destruct Htx as (_ & _ & _ & _ & Hc). by rewrite Ec in Hc.
Qed.

(** An OpenAI channel whose stored settings hold a member of another type and one the
    form does not know. *)
Definition demo_form : ChannelFormValues := {|
  f_name := u "main"; f_type := 1; f_base_url := Some (u "https://api.example.com/"); f_key := u "sk-1";
  f_openai_organization := Some []; f_models := u "gpt-4o,gpt-4o-mini"; f_group := [u "default"];
  f_model_mapping := Some (uq "{'gpt-4':'gpt-4o'}"); f_priority := Some (num_of_Z 0);
  f_weight := Some (num_of_Z 0); f_test_model := Some []; f_auto_ban := Some (num_of_Z 1); f_status := 1;
  f_status_code_mapping := Some (uq "{'504':'500'}"); f_tag := Some []; f_remark := Some [];
  f_setting := Some []; f_param_override := Some []; f_header_override := Some [];
  f_settings := Some (uq "{'note':[1,null],'vertex_key_type':'api_key'}");
  f_advanced_custom := Some []; f_other := Some []; f_multi_key_mode := Some single;
  f_multi_key_type := Some random; f_batch_add_set_key_prefix_2_name := Some false;
  f_key_mode := Some append; f_force_format := JBool true; f_thinking_to_content := JBool false;
  f_proxy := JStr []; f_pass_through_body_enabled := JBool false;
  f_system_prompt := JStr (u "Be brief."); f_system_prompt_override := JBool false;
  f_is_enterprise_account := Some true; f_vertex_key_type := JStr (u "json");
  f_aws_key_type := JStr (u "ak_sk"); f_azure_responses_version := JStr [];
  f_allow_service_tier := Some true; f_disable_store := Some false; f_allow_safety_identifier := Some true;
  f_allow_include_obfuscation := Some false; f_allow_inference_geo := Some false; f_allow_speed := Some true;
  f_claude_beta_query := Some false; f_disable_task_polling_sleep := Some false;
  f_upstream_model_update_check_enabled := Some true;
  f_upstream_model_update_auto_sync_enabled := Some false;
  f_upstream_model_update_ignored_models := Some (u "old, old ,older") |}.

Lemma demo_submitted : submitted (fun _ => None) demo_form.
Proof.
  assert (Hu : forall s, forallb (fun c => c <? 65536)%N s = true -> json_ok (JStr s)) by apply units_check.
  unfold submitted. split_and!.
  - unfold form_typed. cbn. split_and!; try reflexivity; by left.
  - vm_compute. reflexivity.
  - vm_compute. reflexivity.
  - unfold texts_ok. split_and!; try (apply Hu; vm_compute; reflexivity). vm_compute. exact I.
  - apply Hu. vm_compute. reflexivity.
  - apply Hu. vm_compute. reflexivity.
  - replace (existing_settings demo_form) with
      (JObj [(u "note", JArr [JNum (num_of_Z 1); JNull]); (u "vertex_key_type", JStr (u "api_key"))])
      by (vm_compute; reflexivity).
    change [(u "note", JArr [JNum (num_of_Z 1); JNull]); (u "vertex_key_type", JStr (u "api_key"))] with
      (map_set (map_set [] (u "note") (JArr [JNum (num_of_Z 1); JNull])) (u "vertex_key_type") (JStr (u "api_key"))).
    apply json_ok_set; [vm_compute; reflexivity|apply Hu; vm_compute; reflexivity|].
    apply json_ok_set; [vm_compute; reflexivity| |apply json_ok_obj; split_and!; constructor].
    apply json_ok_arr. apply List.Forall_cons; [split; vm_compute; reflexivity|by repeat constructor].
Qed.

Lemma saved_form_reopens_witness :
  exists payload ps, transformFormDataToUpdatePayload demo_form 7 = Some payload /\
    existing_settings demo_form = JObj ps /\
    forall ch, stored demo_form payload ch ->
      let d := transformChannelToFormDefaults ch in
      allowServiceTier (types_of d) = true /\ isEnterpriseAccount (types_of d) = false /\
      upstreamModelUpdateIgnoredModels (types_of d) = u "old,older" /\
      buildSettingsJSON d = buildSettingsJSON demo_form.
Proof.
  destruct (saved_form_reopens (fun _ => None) demo_form 7 demo_submitted) as (payload & ps & H1 & H2 & H3).
  exists payload, ps. split; [exact H1|]. split; [exact H2|]. intros ch Hch d.
  destruct (H3 ch Hch) as (_ & Ht & _ & _ & Hb). subst d. rewrite Ht.
  split; [reflexivity|]. split; [reflexivity|]. split; [vm_compute; reflexivity|exact Hb].
Defined.
