(* ===== verification/ChannelSave.v ===== *)
(** * Saving a channel
      (the submit handler of
      src/web/src/features/channels/components/drawers/channel-mutate-drawer.tsx and
      src/web/src/features/channels/hooks/use-channel-mutate-form.ts)

    The drawer checks a submitted form, asks the user to confirm what is risky or looks
    like a mistake, and hands the form to a mutation that builds the request. A
    submission waits for the user's answers, so it is a tree of questions; the drawer
    keeps the pending question of each kind and runs the submissions under its events. *)

From Stdlib Require Import ZArith SpecFloat.
From stdpp Require Import base numbers option list sorting.
From S2P Require Import Prelude Collections JsNumber JsValue Json JsonProps Regex JsCoerce AuthStore.
From S2P Require Import StatusCodes AdvancedCustom ModelMapping Permissions ChannelForm.

(** ** The request *)

Definition SENSITIVE_UPDATE_FIELDS : list jstr :=
  [u "type"; u "key"; u "base_url"; u "openai_organization"; u "param_override"; u "header_override";
   u "setting"; u "settings"; u "other"].

Inductive Request :=
| UpdateChannel (id : Z) (payload : settings_obj)
| CreateChannel (payload : CreatePayload).

Definition can_edit_sensitive (currentUser : option AuthUser) : bool :=
  hasPermission currentUser (u "channel") (u "sensitive_write").

(** The request of the mutation; [None] where building the payload throws. [currentRow] is
    the channel that is edited, and absent where one is created. *)
Definition mutation_request (currentRow : option Channel) (isMultiKeyChannel : bool)
    (currentUser : option AuthUser) (data : ChannelFormValues) : option Request :=
  match currentRow with
  | Some row =>
      let canEditSensitive := can_edit_sensitive currentUser in
      payload ← transformFormDataToUpdatePayload data (ch_id row);
      let has_key := str_truthy (trim (f_key data)) in
      let payload := if negb has_key then map_delete payload (u "key") else payload in
      let payload := if negb canEditSensitive then fold_left map_delete SENSITIVE_UPDATE_FIELDS payload
                     else payload in
      Some (UpdateChannel (ch_id row)
        match f_key_mode data with
        | Some key_mode =>
            if canEditSensitive && isMultiKeyChannel && has_key
            then map_set payload (u "key_mode") (JStr (key_mode_text key_mode)) else payload
        | None => payload
        end)
  | None => CreateChannel <$> transformFormDataToCreatePayload data
  end.

(** What the mutation makes of the response: the message of the toast it shows, and
    whether the drawer closes. [t] translates. *)
Definition mutation_settled (t : jstr -> jstr) (editing : bool) (response : jsval) : jsval * bool :=
  if truthy (get response (u "success")) then
    (JStr (t (if editing then u "Channel updated successfully" else u "Channel created successfully")), true)
  else
    (js_or (get response (u "message"))
       (JStr (t (if editing then u "Failed to update channel" else u "Failed to create channel"))), false).

(** ** Submitting *)

Inductive MissingModelsAction := cancel | submit | add.

Inductive StopReason :=
| KeyRequired
| NoSensitivePermission
| InvalidEntries (entries : list jstr)
| RiskDeclined
| InvalidMapping (message : jstr)
| MissingCancelled.

(** [setValue] is the list of models written to the form before the mutation. *)
Inductive SubmitStep :=
| Stopped (reason : StopReason)
| ConfirmStatusCodeRisk (items : list jstr) (resume : bool -> SubmitStep)
| ConfirmMissingModels (missing : list jstr) (resume : MissingModelsAction -> SubmitStep)
| Mutate (setValue : option jstr) (data : ChannelFormValues).

(** [data.models = models]. *)
Definition set_models (models : jstr) (d : ChannelFormValues) : ChannelFormValues :=
  mkForm (f_name d) (f_type d) (f_base_url d) (f_key d) (f_openai_organization d) models (f_group d)
    (f_model_mapping d) (f_priority d) (f_weight d) (f_test_model d) (f_auto_ban d) (f_status d)
    (f_status_code_mapping d) (f_tag d) (f_remark d) (f_setting d) (f_param_override d) (f_header_override d)
    (f_settings d) (f_advanced_custom d) (f_other d) (f_multi_key_mode d) (f_multi_key_type d)
    (f_batch_add_set_key_prefix_2_name d) (f_key_mode d) (f_force_format d) (f_thinking_to_content d)
    (f_proxy d) (f_pass_through_body_enabled d) (f_system_prompt d) (f_system_prompt_override d)
    (f_is_enterprise_account d) (f_vertex_key_type d) (f_aws_key_type d) (f_azure_responses_version d)
    (f_allow_service_tier d) (f_disable_store d) (f_allow_safety_identifier d)
    (f_allow_include_obfuscation d) (f_allow_inference_geo d) (f_allow_speed d) (f_claude_beta_query d)
    (f_disable_task_polling_sleep d) (f_upstream_model_update_check_enabled d)
    (f_upstream_model_update_auto_sync_enabled d) (f_upstream_model_update_ignored_models d).

(** The form fields a user without the permission must not have changed. *)
Definition SENSITIVE_FORM_FIELDS : list jstr :=
  [u "type"; u "base_url"; u "key"; u "openai_organization"; u "other"; u "key_mode"; u "param_override";
   u "header_override"; u "settings"; u "setting"; u "advanced_custom"; u "is_enterprise_account";
   u "vertex_key_type"; u "aws_key_type"; u "azure_responses_version"; u "force_format";
   u "thinking_to_content"; u "proxy"; u "pass_through_body_enabled"; u "system_prompt";
   u "system_prompt_override"; u "allow_service_tier"; u "disable_store"; u "allow_safety_identifier";
   u "allow_include_obfuscation"; u "allow_inference_geo"; u "allow_speed"; u "claude_beta_query";
   u "disable_task_polling_sleep"; u "upstream_model_update_check_enabled";
   u "upstream_model_update_auto_sync_enabled"; u "upstream_model_update_ignored_models"].

(** What the drawer knows besides the form: whether it edits a channel, whether the user
    may edit sensitive fields, and the values the channel had when it was loaded. *)
Record DrawerContext := mkContext {
  isEditing : bool;
  canEditSensitive : bool;
  initialModels : list jstr;
  initialModelMapping : jstr;
  initialStatusCodeMapping : jstr
}.

(** The references set when a channel is loaded; a new channel has none. *)
Definition load_context (currentRow : option Channel) (currentUser : option AuthUser) : DrawerContext :=
  match currentRow with
  | Some row =>
      mkContext true (can_edit_sensitive currentUser) (parseModelsString (ch_models row))
        (default [] (ch_model_mapping row)) (default [] (ch_status_code_mapping row))
  | None => mkContext false (can_edit_sensitive currentUser) [] [] []
  end.

Section Submit.
Context (ctx : DrawerContext).

(** The models of the mapping that are not in the list, and whether the user is asked
    about them. *)
Definition missing_models (data : ChannelFormValues) : list jstr :=
  findMissingModelsInMapping (default [] (f_model_mapping data)) (parseModelsString (f_models data)).

Definition shouldPromptMissing (data : ChannelFormValues) : bool :=
  (0 <? length (missing_models data))%nat
  && hasModelConfigChanged (parseModelsString (f_models data)) (default [] (f_model_mapping data))
       (initialModels ctx) (initialModelMapping ctx).

Definition hasModelMapping (data : ChannelFormValues) : bool :=
  negb (seqb (trim (default [] (f_model_mapping data))) []).

(** The list with the missing models at its end. *)
Definition add_missing (data : ChannelFormValues) : ChannelFormValues :=
  set_models (formatModelsArray (new_set (parseModelsString (f_models data) ++ missing_models data))) data.

(** From the check of the model mapping on. *)
Definition submit_models (data : ChannelFormValues) : SubmitStep :=
  match (if hasModelMapping data then validateModelMappingJson (default [] (f_model_mapping data)) else None) with
  | Some error => Stopped (InvalidMapping error)
  | None =>
      if hasModelMapping data && shouldPromptMissing data then
        ConfirmMissingModels (missing_models data) (fun action =>
          match action with
          | cancel => Stopped MissingCancelled
          | add => Mutate (Some (f_models (add_missing data))) (add_missing data)
          | submit => Mutate None data
          end)
      else Mutate None data
  end.

Definition risky_redirects (data : ChannelFormValues) : list jstr :=
  RiskGuard.collectNewDisallowedStatusCodeRedirects (initialStatusCodeMapping ctx)
    (default [] (f_status_code_mapping data)).

(** [dirty] tells which fields the user changed. *)
Definition onSubmit (dirty : jstr -> bool) (data : ChannelFormValues) : SubmitStep :=
  let sensitiveLocked := isEditing ctx && negb (canEditSensitive ctx) in
  if negb (isEditing ctx) && negb (str_truthy (trim (f_key data))) then Stopped KeyRequired
  else if sensitiveLocked && existsb dirty SENSITIVE_FORM_FIELDS then Stopped NoSensitivePermission
  else if blank (f_status_code_mapping data) then submit_models data
  else
    let invalidEntries :=
      RiskGuard.collectInvalidStatusCodeEntries (default [] (f_status_code_mapping data)) in
    if (0 <? length invalidEntries)%nat then Stopped (InvalidEntries invalidEntries)
    else if (0 <? length (risky_redirects data))%nat then
      ConfirmStatusCodeRisk (risky_redirects data) (fun confirmed =>
        if confirmed then submit_models data else Stopped RiskDeclined)
    else submit_models data.

(** ** The drawer *)

(** The two dialogs with the submission that waits for each, the forms handed to the
    mutation, the submissions that ended without it, and the lists of models written to
    the form, in order. *)
Record Drawer := mkDrawer {
  statusCodeRiskOpen : bool;
  statusCodeRiskDetailItems : list jstr;
  statusCodeRiskResolve : option (bool -> SubmitStep);
  missingModelsDialogOpen : bool;
  missingModelsList : list jstr;
  missingModelsResolve : option (MissingModelsAction -> SubmitStep);
  mutations : list ChannelFormValues;
  stops : list StopReason;
  form_models : list jstr
}.

Definition initial_drawer : Drawer := mkDrawer false [] None false [] None [] [] [].

Definition option_list {A} (o : option A) : list A := match o with Some x => [x] | None => [] end.

(** A submission runs until it asks or ends. Asking again replaces the one that waits. *)
Definition run_step (s : SubmitStep) (d : Drawer) : Drawer :=
  match s with
  | Stopped reason =>
      mkDrawer (statusCodeRiskOpen d) (statusCodeRiskDetailItems d) (statusCodeRiskResolve d)
        (missingModelsDialogOpen d) (missingModelsList d) (missingModelsResolve d)
        (mutations d) (stops d ++ [reason]) (form_models d)
  | ConfirmStatusCodeRisk items resume =>
      mkDrawer true items (Some resume) (missingModelsDialogOpen d) (missingModelsList d)
        (missingModelsResolve d) (mutations d) (stops d) (form_models d)
  | ConfirmMissingModels missing resume =>
      mkDrawer (statusCodeRiskOpen d) (statusCodeRiskDetailItems d) (statusCodeRiskResolve d)
        true missing (Some resume) (mutations d) (stops d) (form_models d)
  | Mutate setValue data =>
      mkDrawer (statusCodeRiskOpen d) (statusCodeRiskDetailItems d) (statusCodeRiskResolve d)
        (missingModelsDialogOpen d) (missingModelsList d) (missingModelsResolve d)
        (mutations d ++ [data]) (stops d) (form_models d ++ option_list setValue)
  end.

(** The waiting submission resumes after the handler. *)
Definition handleStatusCodeRiskAction (confirmed : bool) (d : Drawer) : Drawer :=
  let d' := mkDrawer false [] None (missingModelsDialogOpen d) (missingModelsList d)
              (missingModelsResolve d) (mutations d) (stops d) (form_models d) in
  match statusCodeRiskResolve d with Some resume => run_step (resume confirmed) d' | None => d' end.

Definition handleMissingModelsAction (action : MissingModelsAction) (d : Drawer) : Drawer :=
  let d' := mkDrawer (statusCodeRiskOpen d) (statusCodeRiskDetailItems d) (statusCodeRiskResolve d)
              false (missingModelsList d) None (mutations d) (stops d) (form_models d) in
  match missingModelsResolve d with Some resume => run_step (resume action) d' | None => d' end.

(** The flag of the dialog alone; a dialog that is closed answers [cancel] first. *)
Definition setMissingModelsDialogOpen (v : bool) (d : Drawer) : Drawer :=
  mkDrawer (statusCodeRiskOpen d) (statusCodeRiskDetailItems d) (statusCodeRiskResolve d)
    v (missingModelsList d) (missingModelsResolve d) (mutations d) (stops d) (form_models d).

(** The cleanup when the drawer goes away: only the risk dialog is answered. *)
Definition unmount (d : Drawer) : Drawer :=
  match statusCodeRiskResolve d with
  | Some resume =>
      run_step (resume false)
        (mkDrawer (statusCodeRiskOpen d) (statusCodeRiskDetailItems d) None (missingModelsDialogOpen d)
           (missingModelsList d) (missingModelsResolve d) (mutations d) (stops d) (form_models d))
  | None => d
  end.

Inductive DrawerEvent :=
| Submit (dirty : jstr -> bool) (data : ChannelFormValues)
| AnswerRisk (confirmed : bool)
| AnswerMissing (action : MissingModelsAction)
| MissingOpenChange (v : bool)
| Unmount.

Definition handle (e : DrawerEvent) (d : Drawer) : Drawer :=
  match e with
  | Submit dirty data => run_step (onSubmit dirty data) d
  | AnswerRisk confirmed => handleStatusCodeRiskAction confirmed d
  | AnswerMissing action => handleMissingModelsAction action d
  | MissingOpenChange v => setMissingModelsDialogOpen v d
  | Unmount => unmount d
  end.

Definition run_drawer (es : list DrawerEvent) : Drawer := fold_left (fun d e => handle e d) es initial_drawer.
End Submit.
