(* ===== verification/ChannelSaveProps.v ===== *)
(** * What reaches the server when a channel is saved

    Which fields an update sends for which user, what a submission passed before it
    reaches the mutation in any run of the drawer, and what adding the missing models
    does. *)

From Stdlib Require Import ZArith SpecFloat.
From stdpp Require Import base numbers option list sorting.
From S2P Require Import Prelude Collections JsNumber JsValue Json JsonProps Regex JsCoerce AuthStore.
From S2P Require Import StatusCodes AdvancedCustom AdvancedCustomProps ModelMapping Permissions.
From S2P Require Import ChannelForm ChannelFormProps ChannelSave.

(** ** Fields of an update *)

Lemma keys_delete (m : settings_obj) k k' : map_ok m -> k' ∈ map_keys (map_delete m k) <-> k' ∈ map_keys m /\ k' <> k.
Proof.
  intros Hm. assert (H : forall m : settings_obj, k' ∈ map_keys m <-> map_get m k' <> None).
  { intros m'. rewrite map_get_None. split; [by intros ? []|]. intros Hn.
    destruct (decide (k' ∈ map_keys m')); [done|by exfalso; apply Hn]. }
  rewrite !H, map_get_delete by done. case_bool_decide; [subst; tauto|]. split; [|tauto]. intros ?. split; congruence.
Qed.

Lemma keys_delete_all ks (m : settings_obj) : map_ok m ->
  map_ok (fold_left map_delete ks m) /\
  forall k, k ∈ map_keys (fold_left map_delete ks m) <-> k ∈ map_keys m /\ k ∉ ks.
Proof.
  revert m. induction ks as [|x ks IH]; intros m Hm; cbn [fold_left].
  { split; [done|]. intros k. split; [|tauto]. intros H. split; [done|]. apply not_elem_of_nil. }
  destruct (IH (map_delete m x)) as [H1 H2]; [by apply map_delete_ok|]. split; [done|].
  intros k. rewrite H2, keys_delete, not_elem_of_cons by done. tauto.
Qed.

Lemma key_not_sent : (u "key") ∉ UPDATE_FIELDS.
Proof. apply set_has_false. vm_compute. reflexivity. Qed.

Lemma key_sensitive : u "key" ∈ SENSITIVE_UPDATE_FIELDS.
Proof. apply set_has_true. vm_compute. reflexivity. Qed.

(** What a user needs the permission for: where a channel's requests go, with which
    credentials, and how they are changed on the way. *)
Definition protected_fields : list jstr :=
  [u "type"; u "base_url"; u "key"; u "openai_organization"; u "other"; u "param_override";
   u "header_override"; u "setting"; u "settings"].

Lemma protected_spec k : k ∈ SENSITIVE_UPDATE_FIELDS <-> k ∈ protected_fields.
Proof.
  assert (H : forall a b : list jstr, forallb (set_has b) a = true -> forall k, k ∈ a -> k ∈ b).
  { intros a b Ha x Hx%list_elem_of_In. rewrite forallb_forall in Ha. by apply set_has_true, Ha. }
  split; apply H; vm_compute; reflexivity.
Qed.

(** The fields of an update before the mode of its keys is added. *)
Lemma request_fields (payload : settings_obj) (can has_key : bool) :
  map_ok payload ->
  (forall k, k ∈ map_keys payload <-> k ∈ UPDATE_FIELDS \/ (k = u "key" /\ has_key = true)) ->
  let p1 := if negb has_key then map_delete payload (u "key") else payload in
  let p2 := if negb can then fold_left map_delete SENSITIVE_UPDATE_FIELDS p1 else p1 in
  map_ok p2 /\ forall k, k ∈ map_keys p2 <->
    (k ∈ UPDATE_FIELDS /\ (can = true \/ k ∉ SENSITIVE_UPDATE_FIELDS)) \/
    (k = u "key" /\ can = true /\ has_key = true).
Proof.
  intros Hm Hk p1 p2. pose proof key_not_sent as Hn. pose proof key_sensitive as Hs.
  assert (H1 : map_ok p1 /\ forall k, k ∈ map_keys p1 <-> k ∈ UPDATE_FIELDS \/ (k = u "key" /\ has_key = true)).
  { unfold p1. destruct has_key; cbn [negb]; [done|]. split; [by apply map_delete_ok|]. intros k.
    rewrite keys_delete, Hk by done. split; [tauto|]. intros [H|[_ ?]]; [|done]. split; [by left|]. by intros ->. }
  clearbody p1. destruct H1 as [Hm1 Hk1]. unfold p2. destruct can; cbn [negb].
  - split; [done|]. intros k. rewrite Hk1. tauto.
  - destruct (keys_delete_all SENSITIVE_UPDATE_FIELDS p1 Hm1) as [H1 H2]. split; [done|].
    intros k. rewrite H2, Hk1. split.
    + intros [[H|[-> _]] Hns]; [by left; split; [|right]|done].
    + intros [[H [?|Hns]]|(_ & ? & _)]; try done. split; [by left|done].
Qed.

(** C7: An update sends exactly the fields its user may change. Whatever the form holds, the request
    for an edited channel goes to that channel, carries no sensitive field (the type,
    the key, the base URL, the organization, the overrides, both settings texts) for a
    user without the permission, carries the key exactly when the user has the
    permission and entered one, and the key mode only with such a key and only for a
    channel with several keys. *)
Theorem update_respects_permission (row : Channel) (isMultiKeyChannel : bool) (user : option AuthUser)
    (data : ChannelFormValues) (id : Z) (payload : settings_obj) :
  mutation_request (Some row) isMultiKeyChannel user data = Some (UpdateChannel id payload) ->
  let can := can_edit_sensitive user in
  let has_key := str_truthy (trim (f_key data)) in
  id = ch_id row /\
  forall k, k ∈ map_keys payload <->
    (k ∈ UPDATE_FIELDS /\ (can = true \/ k ∉ protected_fields)) \/
    (k = u "key" /\ can = true /\ has_key = true) \/
    (k = u "key_mode" /\ can = true /\ has_key = true /\ isMultiKeyChannel = true /\ f_key_mode data <> None).
Proof.
  intros H can has_key. unfold mutation_request in H. fold can has_key in H.
  destruct (transformFormDataToUpdatePayload data (ch_id row)) as [p|] eqn:Ep; [|done].
  cbn [mbind option_bind] in H. cbv zeta in H.
  destruct (update_payload_keys data (ch_id row) p Ep) as [Hm Hk].
  destruct (request_fields p can has_key Hm Hk) as [Hm2 Hk2].
  set (p2 := if negb can then _ else _) in *. clearbody p2. apply (inj Some) in H. injection H as <- Hp.
  split; [done|]. intros k. rewrite <- Hp, <- protected_spec. destruct (f_key_mode data) as [km|].
  - destruct (can && isMultiKeyChannel && has_key) eqn:E.
    + apply andb_prop in E as [E E3]. apply andb_prop in E as [E1 E2].
      rewrite map_keys_set_elem, Hk2. rewrite E1, E2, E3. intuition congruence.
    + rewrite Hk2. split; [tauto|]. intros [?|[?|(_ & E1 & E3 & E2 & _)]]; [tauto..|].
      by rewrite E1, E2, E3 in E.
  - rewrite Hk2. intuition congruence.
Qed.

(** ** Submissions *)

Section Submissions.
Context (ctx : DrawerContext).

(** What a form passed that is saved: a new channel has a key, a user without the
    permission changed no sensitive field, and the mappings are valid. *)
Definition entry_ok (dirty : jstr -> bool) (data : ChannelFormValues) : Prop :=
  (isEditing ctx = false -> str_truthy (trim (f_key data)) = true) /\
  (isEditing ctx = true -> canEditSensitive ctx = false -> forall k, k ∈ SENSITIVE_FORM_FIELDS -> dirty k = false) /\
  (blank (f_status_code_mapping data) = false ->
   RiskGuard.collectInvalidStatusCodeEntries (default [] (f_status_code_mapping data)) = []).

Definition mapping_ok (data : ChannelFormValues) : Prop :=
  hasModelMapping data = true -> validateModelMappingJson (default [] (f_model_mapping data)) = None.

(** The redirects the user has to confirm, and the missing models the user is asked
    about. *)
Definition must_confirm (data : ChannelFormValues) : bool :=
  negb (blank (f_status_code_mapping data)) && (0 <? length (risky_redirects ctx data))%nat.
Definition asks_missing (data : ChannelFormValues) : bool := hasModelMapping data && shouldPromptMissing ctx data.

Lemma existsb_false_elem {A} (p : A -> bool) l x : existsb p l = false -> x ∈ l -> p x = false.
Proof.
  intros H Hx%list_elem_of_In. destruct (p x) eqn:E; [|done].
  assert (existsb p l = true) by (apply existsb_exists; by exists x). congruence.
Qed.

Lemma length_none {A} (l : list A) : (0 <? length l)%nat = false -> l = [].
Proof. by destruct l. Qed.

(** The checks before the models: the submission ended, or asks about the redirects, or
    goes on. *)
Lemma submit_start dirty data :
  (exists r, onSubmit ctx dirty data = Stopped r) \/
  (entry_ok dirty data /\
   onSubmit ctx dirty data =
     if must_confirm data
     then ConfirmStatusCodeRisk (risky_redirects ctx data)
            (fun confirmed => if confirmed then submit_models ctx data else Stopped RiskDeclined)
     else submit_models ctx data).
Proof.
  unfold onSubmit, must_confirm, entry_ok. cbv zeta.
  destruct (negb (isEditing ctx) && _) eqn:E1; [left; by eexists|].
  destruct (isEditing ctx && negb (canEditSensitive ctx) && existsb dirty SENSITIVE_FORM_FIELDS) eqn:E2;
    [left; by eexists|].
  assert (H1 : isEditing ctx = false -> str_truthy (trim (f_key data)) = true).
  { intros E. rewrite E in E1. by destruct (str_truthy _). }
  assert (H2 : isEditing ctx = true -> canEditSensitive ctx = false ->
    forall k, k ∈ SENSITIVE_FORM_FIELDS -> dirty k = false).
  { intros Ea Eb k. rewrite Ea, Eb in E2. by apply existsb_false_elem. }
  destruct (blank (f_status_code_mapping data)); [right; by split_and!|]. cbn [negb andb].
  destruct (0 <? length (RiskGuard.collectInvalidStatusCodeEntries _))%nat eqn:E3; [left; by eexists|].
  apply length_none in E3. right. split; [by split_and!|]. by destruct (0 <? length (risky_redirects _ _))%nat.
Qed.

Definition missing_step (data : ChannelFormValues) (action : MissingModelsAction) : SubmitStep :=
  match action with
  | cancel => Stopped MissingCancelled
  | add => Mutate (Some (f_models (add_missing data))) (add_missing data)
  | submit => Mutate None data
  end.

Lemma models_step data :
  (exists r, submit_models ctx data = Stopped r) \/
  (mapping_ok data /\
   submit_models ctx data =
     if asks_missing data then ConfirmMissingModels (missing_models data) (missing_step data) else Mutate None data).
Proof.
  unfold submit_models, mapping_ok, asks_missing. destruct (hasModelMapping data); cbn [andb].
  - destruct (validateModelMappingJson _) eqn:E; [left; by eexists|right; split; done].
  - right. by split.
Qed.

(** What a submission does once the user confirmed the redirects or declined. *)
Definition risk_step (data : ChannelFormValues) (confirmed : bool) : SubmitStep :=
  if confirmed then submit_models ctx data else Stopped RiskDeclined.

(** ** Runs of the drawer *)

(** What goes on at an event: a new submission, or the one that waits for this answer. *)
Definition resumed (d : Drawer) (e : DrawerEvent) : option SubmitStep :=
  match e with
  | Submit dirty data => Some (onSubmit ctx dirty data)
  | AnswerRisk confirmed => (fun k => k confirmed) <$> statusCodeRiskResolve d
  | AnswerMissing action => (fun k => k action) <$> missingModelsResolve d
  | Unmount => (fun k => k false) <$> statusCodeRiskResolve d
  | MissingOpenChange _ => None
  end.

(** Event [l] of a run opens a dialog. *)
Definition opens_risk (es : list DrawerEvent) (l : nat) : Prop :=
  exists e items k, es !! l = Some e /\ resumed (run_drawer ctx (take l es)) e = Some (ConfirmStatusCodeRisk items k).
Definition opens_missing (es : list DrawerEvent) (l : nat) : Prop :=
  exists e missing k, es !! l = Some e /\ resumed (run_drawer ctx (take l es)) e = Some (ConfirmMissingModels missing k).

(** Between two events the dialog is neither opened again nor answered. *)
Definition risk_waiting (es : list DrawerEvent) (i j : nat) : Prop :=
  forall l, (i < l < j)%nat -> ~ opens_risk es l /\ es !! l <> Some Unmount /\ forall b, es !! l <> Some (AnswerRisk b).
Definition missing_waiting (es : list DrawerEvent) (i j : nat) : Prop :=
  forall l, (i < l < j)%nat -> ~ opens_missing es l /\ forall a, es !! l <> Some (AnswerMissing a).

(** Event [p] confirms the redirects of the form submitted at event [i]: its own dialog was
    open with exactly these redirects, and this is the first answer to it. *)
Definition confirms_risk (es : list DrawerEvent) (i p : nat) (data : ChannelFormValues) : Prop :=
  (i < p)%nat /\ es !! p = Some (AnswerRisk true) /\ risk_waiting es i p
  /\ statusCodeRiskOpen (run_drawer ctx (take p es)) = true
  /\ statusCodeRiskDetailItems (run_drawer ctx (take p es)) = risky_redirects ctx data.

(** Event [q] answers the question about the models missing from the form, asked at event
    [p]: it is the first answer, and the dialog lists exactly these models. *)
Definition answers_missing (es : list DrawerEvent) (p q : nat) (data : ChannelFormValues) (a : MissingModelsAction) : Prop :=
  (p < q)%nat /\ es !! q = Some (AnswerMissing a) /\ missing_waiting es p q
  /\ missingModelsList (run_drawer ctx (take q es)) = missing_models data.

(** The form submitted at event [i] passed everything before the missing models at [p]. *)
Definition passed (es : list DrawerEvent) (i p : nat) (data : ChannelFormValues) : Prop :=
  exists dirty, es !! i = Some (Submit dirty data) /\ entry_ok dirty data /\ mapping_ok data /\
    (if must_confirm data then confirms_risk es i p data else p = i).

(** ... and this is what was saved of it. *)
Definition saved_by (es : list DrawerEvent) (saved : ChannelFormValues) : Prop :=
  exists i p data, passed es i p data /\
    (if asks_missing data
     then exists q, (answers_missing es p q data submit /\ saved = data) \/
                    (answers_missing es p q data add /\ saved = add_missing data)
     else saved = data).

(** The submissions that wait. *)
Definition risk_question (es : list DrawerEvent) (i : nat) (items : list jstr) (k : bool -> SubmitStep) : Prop :=
  exists dirty data, es !! i = Some (Submit dirty data) /\ entry_ok dirty data /\ must_confirm data = true /\
    items = risky_redirects ctx data /\ k = risk_step data.
Definition missing_question (es : list DrawerEvent) (p : nat) (missing : list jstr)
    (k : MissingModelsAction -> SubmitStep) : Prop :=
  exists i data, passed es i p data /\ asks_missing data = true /\ missing = missing_models data /\ k = missing_step data.

Record drawer_ok (es : list DrawerEvent) (d : Drawer) : Prop := {
  risk_waits k : statusCodeRiskResolve d = Some k -> statusCodeRiskOpen d = true /\
    exists i, (i < length es)%nat /\ risk_question es i (statusCodeRiskDetailItems d) k /\ risk_waiting es i (length es);
  missing_waits k : missingModelsResolve d = Some k ->
    exists p, (p < length es)%nat /\ missing_question es p (missingModelsList d) k /\ missing_waiting es p (length es);
  mutations_from saved : saved ∈ mutations d -> saved_by es saved
}.

(** *** Longer runs *)

Section Longer.
Context (es : list DrawerEvent) (e : DrawerEvent).

Lemma event_kept l x : es !! l = Some x -> (es ++ [e]) !! l = Some x.
Proof. apply lookup_app_l_Some. Qed.

Lemma event_of_longer l : (l < length es)%nat -> (es ++ [e]) !! l = es !! l.
Proof. apply lookup_app_l. Qed.

Lemma prefix_kept l : (l <= length es)%nat -> take l (es ++ [e]) = take l es.
Proof. apply take_app_le. Qed.

Lemma risk_waiting_kept i j : (j <= length es)%nat -> risk_waiting es i j -> risk_waiting (es ++ [e]) i j.
Proof.
  intros Hj H l Hl. unfold opens_risk. rewrite event_of_longer, prefix_kept by lia. by apply H.
Qed.

Lemma missing_waiting_kept i j : (j <= length es)%nat -> missing_waiting es i j -> missing_waiting (es ++ [e]) i j.
Proof.
  intros Hj H l Hl. unfold opens_missing. rewrite event_of_longer, prefix_kept by lia. by apply H.
Qed.

Lemma passed_kept i p data : passed es i p data -> passed (es ++ [e]) i p data.
Proof.
  intros (dirty & Hi & He & Hm & Hc). exists dirty. split; [by apply event_kept|]. split_and!; [done..|].
  destruct (must_confirm data); [|done]. destruct Hc as (Hip & Hp & Hw & Hs).
  assert ((p < length es)%nat) by by eapply lookup_lt_Some. unfold confirms_risk. rewrite prefix_kept by lia.
  split_and!; [done|by apply event_kept|apply risk_waiting_kept; [lia|done]|apply Hs..].
Qed.

Lemma answers_kept p q data a : answers_missing es p q data a -> answers_missing (es ++ [e]) p q data a.
Proof.
  intros (Hpq & Hq & Hw & Hs). assert ((q < length es)%nat) by by eapply lookup_lt_Some.
  unfold answers_missing. rewrite prefix_kept by lia.
  split_and!; [done|by apply event_kept|apply missing_waiting_kept; [lia|done]|done].
Qed.

Lemma saved_kept saved : saved_by es saved -> saved_by (es ++ [e]) saved.
Proof.
  intros (i & p & data & Hp & H). exists i, p, data. split; [by apply passed_kept|].
  destruct (asks_missing data); [|done]. destruct H as (q & H). exists q.
  destruct H as [[H ->]|[H ->]]; [left|right]; (split; [by apply answers_kept|done]).
Qed.

Lemma last_event : (es ++ [e]) !! length es = Some e.
Proof. by rewrite lookup_app_r, Nat.sub_diag by done. Qed.

Lemma last_prefix : take (length es) (es ++ [e]) = es.
Proof. by rewrite take_app_length. Qed.

(** One more event that leaves the dialog alone. *)
Lemma risk_waiting_more i : risk_waiting es i (length es) ->
  (forall items k, resumed (run_drawer ctx es) e <> Some (ConfirmStatusCodeRisk items k)) ->
  e <> Unmount -> (forall b, e <> AnswerRisk b) -> risk_waiting (es ++ [e]) i (length (es ++ [e])).
Proof.
  intros H Hn Hu Ha l [Hl1 Hl2]. rewrite length_app in Hl2. simpl in Hl2.
  destruct (decide (l = length es)) as [->|]; [|apply (risk_waiting_kept i (length es)); [done|done|lia]].
  rewrite last_event. split_and!; [|congruence|intros b; specialize (Ha b); congruence].
  intros (x & items & k & Hx & Hk). rewrite last_event in Hx. injection Hx as <-. rewrite last_prefix in Hk. by apply Hn in Hk.
Qed.

Lemma missing_waiting_more p : missing_waiting es p (length es) ->
  (forall missing k, resumed (run_drawer ctx es) e <> Some (ConfirmMissingModels missing k)) ->
  (forall a, e <> AnswerMissing a) -> missing_waiting (es ++ [e]) p (length (es ++ [e])).
Proof.
  intros H Hn Ha l [Hl1 Hl2]. rewrite length_app in Hl2. simpl in Hl2.
  destruct (decide (l = length es)) as [->|]; [|apply (missing_waiting_kept p (length es)); [done|done|lia]].
  rewrite last_event. split; [|intros a; specialize (Ha a); congruence].
  intros (x & items & k & Hx & Hk). rewrite last_event in Hx. injection Hx as <-. rewrite last_prefix in Hk. by apply Hn in Hk.
Qed.
End Longer.

(** *** One event *)

(** Where a submission stands after the last event. *)
Definition arrives (es : list DrawerEvent) (n : nat) (s : SubmitStep) : Prop :=
  match s with
  | Stopped _ => True
  | ConfirmStatusCodeRisk items k => risk_question es n items k
  | ConfirmMissingModels missing k => missing_question es n missing k
  | Mutate _ saved => saved_by es saved
  end.

Lemma models_arrive es i p dirty data : es !! i = Some (Submit dirty data) -> entry_ok dirty data ->
  (if must_confirm data then confirms_risk es i p data else p = i) -> arrives es p (submit_models ctx data).
Proof.
  intros Hi He Hc. destruct (models_step data) as [[x ->]|[Hm ->]]; [done|].
  assert (Hp : passed es i p data) by by exists dirty.
  destruct (asks_missing data) eqn:E; cbn [arrives]; [by exists i, data|]. exists i, p, data. by rewrite E.
Qed.

Lemma resumed_arrives es e s : drawer_ok es (run_drawer ctx es) -> resumed (run_drawer ctx es) e = Some s ->
  arrives (es ++ [e]) (length es) s.
Proof.
  intros Hok H. pose proof (last_event es e) as Hl. destruct e as [dirty data|b|a|v|]; cbn [resumed] in H.
  - injection H as <-. destruct (submit_start dirty data) as [[x ->]|[He ->]]; [done|].
    destruct (must_confirm data) eqn:E; [by exists dirty, data|]. apply (models_arrive _ (length es) _ dirty); [done|done|].
    by rewrite E.
  - destruct (statusCodeRiskResolve _) as [k|] eqn:Ek; [|done]. injection H as <-.
    destruct (risk_waits _ _ Hok k Ek) as (Ho & i & Hi & (dirty & data & Hs & He & Hc & Hit & ->) & Hw).
    destruct b; [|done]. apply (models_arrive _ i _ dirty); [by apply event_kept|done|]. rewrite Hc.
    split_and!; [done|done|by apply risk_waiting_kept|by rewrite last_prefix..].
  - destruct (missingModelsResolve _) as [k|] eqn:Ek; [|done]. injection H as <-.
    destruct (missing_waits _ _ Hok k Ek) as (p & Hp & (i & data & Hpass & Ha & Hml & ->) & Hw).
    assert (Hans : answers_missing (es ++ [AnswerMissing a]) p (length es) data a).
    { split_and!; [done|done|by apply missing_waiting_kept|by rewrite last_prefix]. }
    apply (passed_kept es (AnswerMissing a)) in Hpass.
    destruct a; cbn [missing_step arrives]; [done| |]; exists i, p, data; (split; [done|]); rewrite Ha;
      exists (length es); [by left|by right].
  - done.
  - destruct (statusCodeRiskResolve _) as [k|] eqn:Ek; [|done]. injection H as <-.
    by destruct (risk_waits _ _ Hok k Ek) as (_ & i & _ & (? & ? & _ & _ & _ & _ & ->) & _).
Qed.

(** The drawer without the question that is answered. *)
Definition answered (e : DrawerEvent) (d : Drawer) : Drawer :=
  match e with
  | Submit _ _ => d
  | AnswerRisk _ => mkDrawer false [] None (missingModelsDialogOpen d) (missingModelsList d)
                      (missingModelsResolve d) (mutations d) (stops d) (form_models d)
  | AnswerMissing _ => mkDrawer (statusCodeRiskOpen d) (statusCodeRiskDetailItems d) (statusCodeRiskResolve d)
                         false (missingModelsList d) None (mutations d) (stops d) (form_models d)
  | MissingOpenChange v => setMissingModelsDialogOpen v d
  | Unmount => mkDrawer (statusCodeRiskOpen d) (statusCodeRiskDetailItems d) None (missingModelsDialogOpen d)
                 (missingModelsList d) (missingModelsResolve d) (mutations d) (stops d) (form_models d)
  end.

Lemma handle_answered e d :
  handle ctx e d = match resumed d e with Some s => run_step s (answered e d) | None => answered e d end.
Proof.
  destruct e; cbn [handle resumed answered]; try done.
  - unfold handleStatusCodeRiskAction. by destruct (statusCodeRiskResolve d).
  - unfold handleMissingModelsAction. by destruct (missingModelsResolve d).
  - unfold unmount. destruct (statusCodeRiskResolve d) eqn:E; [done|]. cbn. rewrite <- E. by destruct d.
Qed.

Lemma risk_left es e k : drawer_ok es (run_drawer ctx es) ->
  (forall items k, resumed (run_drawer ctx es) e <> Some (ConfirmStatusCodeRisk items k)) ->
  statusCodeRiskResolve (answered e (run_drawer ctx es)) = Some k ->
  statusCodeRiskOpen (answered e (run_drawer ctx es)) = true /\
  exists i, (i < length (es ++ [e]))%nat /\
    risk_question (es ++ [e]) i (statusCodeRiskDetailItems (answered e (run_drawer ctx es))) k /\
    risk_waiting (es ++ [e]) i (length (es ++ [e])).
Proof.
  intros Hok Hn Hk.
  assert (e <> Unmount /\ (forall b, e <> AnswerRisk b) /\ statusCodeRiskResolve (run_drawer ctx es) = Some k
    /\ statusCodeRiskOpen (answered e (run_drawer ctx es)) = statusCodeRiskOpen (run_drawer ctx es)
    /\ statusCodeRiskDetailItems (answered e (run_drawer ctx es)) = statusCodeRiskDetailItems (run_drawer ctx es))
    as (Hu & Ha & Hk' & -> & ->) by by destruct e.
  destruct (risk_waits _ _ Hok k Hk') as (Ho & i & Hi & (dirty & data & Hs & Hrest) & Hw). split; [done|].
  exists i. split_and!; [rewrite length_app; lia| |by apply risk_waiting_more]. exists dirty, data.
  split; [by apply event_kept|done].
Qed.

Lemma missing_left es e k : drawer_ok es (run_drawer ctx es) ->
  (forall missing k, resumed (run_drawer ctx es) e <> Some (ConfirmMissingModels missing k)) ->
  missingModelsResolve (answered e (run_drawer ctx es)) = Some k ->
  exists p, (p < length (es ++ [e]))%nat /\
    missing_question (es ++ [e]) p (missingModelsList (answered e (run_drawer ctx es))) k /\
    missing_waiting (es ++ [e]) p (length (es ++ [e])).
Proof.
  intros Hok Hn Hk.
  assert ((forall a, e <> AnswerMissing a) /\ missingModelsResolve (run_drawer ctx es) = Some k
    /\ missingModelsList (answered e (run_drawer ctx es)) = missingModelsList (run_drawer ctx es))
    as (Ha & Hk' & ->) by by destruct e.
  destruct (missing_waits _ _ Hok k Hk') as (p & Hp & (i & data & Hs & Hrest) & Hw).
  exists p. split_and!; [rewrite length_app; lia| |by apply missing_waiting_more]. exists i, data.
  split; [by apply passed_kept|done].
Qed.

Lemma mutations_left es e saved : drawer_ok es (run_drawer ctx es) ->
  saved ∈ mutations (answered e (run_drawer ctx es)) -> saved_by (es ++ [e]) saved.
Proof. intros Hok Hs. apply saved_kept, (mutations_from _ _ Hok). by destruct e. Qed.

Lemma drawer_handle_ok es e : drawer_ok es (run_drawer ctx es) ->
  drawer_ok (es ++ [e]) (handle ctx e (run_drawer ctx es)).
Proof.
  intros Hok. rewrite handle_answered. pose proof (resumed_arrives es e) as Ha.
  assert (Hlast : forall n : nat, n = length es -> (n < length (es ++ [e]))%nat) by (intros; rewrite length_app; simpl; lia).
  assert (Hrw : risk_waiting (es ++ [e]) (length es) (length (es ++ [e]))).
  { intros l Hl. rewrite length_app in Hl. simpl in Hl. lia. }
  assert (Hmw : missing_waiting (es ++ [e]) (length es) (length (es ++ [e]))).
  { intros l Hl. rewrite length_app in Hl. simpl in Hl. lia. }
  destruct (resumed (run_drawer ctx es) e) as [s|] eqn:E.
  - specialize (Ha s Hok eq_refl). destruct s as [x|items k|missing k|v saved]; cbn [arrives] in Ha; split;
      cbn -[answered take app length]; intros y Hy;
      try (apply risk_left; [done|by intros; rewrite E|done]);
      try (apply missing_left; [done|by intros; rewrite E|done]);
      try (by apply mutations_left).
    + injection Hy as <-. split; [done|]. exists (length es). by split_and!; [apply Hlast| |].
    + injection Hy as <-. exists (length es). by split_and!; [apply Hlast| |].
    + apply elem_of_app in Hy as [Hy|Hy]; [by apply mutations_left|]. apply list_elem_of_singleton in Hy. by subst.
  - split; intros y Hy; [apply risk_left; [done|by intros; rewrite E|done]|apply missing_left; [done|by intros; rewrite E|done]|].
    by apply mutations_left.
Qed.

Lemma run_drawer_ok es : drawer_ok es (run_drawer ctx es).
Proof.
  induction es as [|e es IH] using rev_ind; [split; cbn; [done..|]; by intros ? ?%elem_of_nil|].
  unfold run_drawer. rewrite fold_left_app. cbn [fold_left]. by apply drawer_handle_ok.
Qed.

(** C8: A channel is saved only as it was submitted, checked and confirmed. In every run of
    the drawer, whatever dialogs are opened, answered, left open or replaced in between,
    each form handed to the mutation comes from one submission, which passed the checks of
    its key, of the user's permission and of its two mappings. If it redirects status codes
    that must not be redirected and were not redirected before, the user confirmed it in
    the first answer after this submission opened the dialog, no other submission having
    opened it in between, and the dialog showed exactly these redirects. If models of its
    mapping are missing from its list and its models or its mapping differ from the loaded
    channel's, the user chose, in the first answer to this submission's dialog and with
    exactly the missing models on it, to save the form as it is or with these models added
    (an edit that changes neither list nor mapping is saved without this question).
    Nothing else was changed. *)
Theorem saved_as_confirmed (es : list DrawerEvent) (saved : ChannelFormValues) :
  saved ∈ mutations (run_drawer ctx es) -> saved_by es saved.
Proof. apply (mutations_from _ _ (run_drawer_ok es)). Qed.
End Submissions.

(** ** Missing models *)

(** Adding the missing models completes the list: the saved list has the models it had and then the
    missing ones, each once, and no model of the mapping is missing from it any more,
    when no missing name contains the comma that separates the list. *)
Theorem added_models_complete (data : ChannelFormValues) :
  Forall (fun m => ~ In 44%N m) (missing_models data) ->
  parseModelsString (f_models (add_missing data)) =
    new_set (parseModelsString (f_models data) ++ missing_models data) /\
  missing_models (add_missing data) = [].
Proof.
  intros Hc. set (old := parseModelsString (f_models data)). set (new := missing_models data) in *.
  assert (Hnew : Forall model_name new).
  { rewrite Forall_forall in *. intros k Hk. split_and!; [| |by apply Hc];
      apply missing_spec in Hk as (es & raw & _ & _ & _ & -> & Hne & _); [done|apply trim_idemp]. }
  assert (Hall : Forall model_name (new_set (old ++ new))).
  { apply Forall_forall. intros k Hk. rewrite elem_of_new_set in Hk. apply elem_of_app in Hk as [Hk|Hk].
    - pose proof (parseModelsString_names (f_models data)) as Ho. rewrite Forall_forall in Ho. by apply Ho.
    - rewrite Forall_forall in Hnew. by apply Hnew. }
  assert (Hp : parseModelsString (f_models (add_missing data)) = new_set (old ++ new)).
  { cbn [add_missing set_models f_models]. rewrite parse_format by done. apply new_set_idemp. }
  split; [done|]. apply elem_of_nil_inv. intros k Hk. unfold missing_models in Hk. rewrite Hp in Hk.
  apply missing_spec in Hk as (es & raw & Hb & Ho & Hr & -> & Hne & Hn).
  assert (Hin : forall x, x ∈ new_set (old ++ new) -> x ∈ map trim (new_set (old ++ new))).
  { intros x Hx. apply list_elem_of_In, in_map_iff. exists x. rewrite Forall_forall in Hall.
    destruct (Hall x Hx) as (_ & ? & _). split; [done|]. by apply list_elem_of_In. }
  apply Hn, Hin. rewrite elem_of_new_set, elem_of_app.
  destruct (decide (trim raw ∈ old)) as [|Hno]; [by left|right]. apply missing_spec.
  exists es, raw. split_and!; try done. intros Hm. apply list_elem_of_In, in_map_iff in Hm as (x & Hx & Hi).
  apply Hno. pose proof (parseModelsString_names (f_models data)) as Hnames. rewrite Forall_forall in Hnames.
  apply list_elem_of_In in Hi. destruct (Hnames x Hi) as (_ & Et & _). by rewrite <- Hx, Et.
Qed.

(** ** An example *)

(** The channel the form of the example edits. *)
Definition demo_row : Channel := {|
  ch_id := 7; ch_name := u "main"; ch_type := 1; ch_base_url := None; ch_openai_organization := None;
  ch_models := u "gpt-4o"; ch_group := u "default"; ch_model_mapping := None; ch_priority := None;
  ch_weight := None; ch_test_model := None; ch_auto_ban := None; ch_status := 1;
  ch_status_code_mapping := None; ch_tag := None; ch_remark := []; ch_setting := None;
  ch_param_override := None; ch_header_override := None; ch_settings := []; ch_other := [];
  ch_is_multi_key := true; ch_multi_key_mode := Some random |}.

(** An administrator who may change channels but not their secrets, and the superuser. *)
Definition demo_admin : option AuthUser :=
  Some (JObj [(u "role", JNum (num_of_Z 10));
    (u "permissions", JObj [(u "admin_permissions",
       JObj [(u "channel", JObj [(u "write", JBool true); (u "sensitive_write", JBool false)])])])]).
Definition demo_root : option AuthUser := Some (JObj [(u "role", JNum (num_of_Z 100))]).

Lemma demo_request user :
  exists payload, mutation_request (Some demo_row) true user demo_form = Some (UpdateChannel 7 payload).
Proof.
  assert (exists p, transformFormDataToUpdatePayload demo_form 7 = Some p) as [p Ep].
  { destruct (transformFormDataToUpdatePayload demo_form 7) as [p|] eqn:E; [by exists p|].
    exfalso. assert (H : bool_decide (is_Some (transformFormDataToUpdatePayload demo_form 7)) = true)
      by (vm_compute; reflexivity). rewrite E in H. by destruct (bool_decide_eq_true_1 _ H). }
  unfold mutation_request. cbn [ch_id demo_row]. rewrite Ep. cbn [mbind option_bind]. by eexists.
Qed.

Lemma update_respects_permission_witness :
  (exists payload, mutation_request (Some demo_row) true demo_admin demo_form = Some (UpdateChannel 7 payload) /\
     u "models" ∈ map_keys payload /\ ~ (u "settings" ∈ map_keys payload) /\ ~ (u "key" ∈ map_keys payload)) /\
  (exists payload, mutation_request (Some demo_row) true demo_root demo_form = Some (UpdateChannel 7 payload) /\
     u "key" ∈ map_keys payload /\ u "key_mode" ∈ map_keys payload).
Proof.
  assert (Hin : forall (k : jstr) l, set_has l k = true -> k ∈ l) by (intros k l; apply set_has_true).
  split.
  - destruct (demo_request demo_admin) as [payload E]. exists payload. split; [exact E|].
    destruct (update_respects_permission demo_row true demo_admin demo_form 7 payload E) as [_ H]. split_and!.
    + apply H. left. split; [apply Hin; vm_compute; reflexivity|].
      right. apply set_has_false. vm_compute. reflexivity.
    + rewrite H. intros [[_ [Hc|Hc]]|[(Hk & _)|(Hk & _)]]; [vm_compute in Hc; discriminate| |discriminate|discriminate].
      apply Hc, Hin. vm_compute. reflexivity.
    + rewrite H. intros [[Hk _]|[(_ & Hc & _)|(Hk & _)]]; [|vm_compute in Hc; discriminate|discriminate].
      by apply key_not_sent.
  - destruct (demo_request demo_root) as [payload E]. exists payload. split; [exact E|].
    destruct (update_respects_permission demo_row true demo_root demo_form 7 payload E) as [_ H]. split.
    + apply H. right. left. split; [reflexivity|]. split; vm_compute; reflexivity.
    + apply H. right. right. split; [reflexivity|]. split; [vm_compute; reflexivity|].
      split; [vm_compute; reflexivity|]. split; [reflexivity|discriminate].
Defined.

Definition demo_context : DrawerContext := load_context (Some demo_row) demo_root.
Definition demo_events : list DrawerEvent :=
  [Submit (fun _ => false) demo_form; MissingOpenChange false; AnswerRisk true;
   AnswerMissing add; AnswerRisk true].

Lemma saved_as_confirmed_witness :
  mutations (run_drawer demo_context demo_events) = [add_missing demo_form]
  /\ saved_by demo_context demo_events (add_missing demo_form).
Proof.
  assert (mutations (run_drawer demo_context demo_events) = [add_missing demo_form]) as E
    by (vm_compute; reflexivity).
  split; [exact E|]. apply (saved_as_confirmed demo_context demo_events (add_missing demo_form)).
  rewrite E. apply list_elem_of_singleton. reflexivity.
Defined.

Lemma added_models_complete_witness :
  parseModelsString (f_models (add_missing demo_form)) = [u "gpt-4o"; u "gpt-4o-mini"; u "gpt-4"] /\
  missing_models (add_missing demo_form) = [].
Proof.
  destruct (added_models_complete demo_form) as [H1 H2].
  - replace (missing_models demo_form) with [u "gpt-4"] by (vm_compute; reflexivity).
    apply List.Forall_cons; [vm_compute; intuition discriminate|apply List.Forall_nil].
  - split; [|exact H2]. rewrite H1. vm_compute. reflexivity.
Defined.
