(* ===== verification/ChannelFieldUpdate.v ===== *)
(** * Delayed updates of a channel's fields
      (src/web/src/features/channels/lib/channel-field-update.ts)

    The priority and the weight of a channel are edited in the table; a scheduler sends
    the last value after a delay, or at once when the edit is committed or the cell goes
    away. The timers of the browser are the environment: a timer fires when its time has
    come, and time does not pass a timer that is due. Times are in milliseconds. *)

From Stdlib Require Import ZArith SpecFloat.
From stdpp Require Import base numbers option list sorting.
From S2P Require Import Prelude Collections JsNumber.

Definition CHANNEL_FIELD_UPDATE_DELAY_MS : Z := 800.

(** The scheduler's two variables, the timers that are set with the time they are due,
    the next timer id, the clock, and the calls of [onUpdate]. *)
Record Scheduler := mkScheduler {
  timeoutId : option Z;
  pendingValue : option num;
  timers : list (Z * Z);
  nextTimer : Z;
  clock : Z;
  updates : list num
}.

Definition createChannelFieldUpdateScheduler (now : Z) : Scheduler := mkScheduler None None [] 0 now [].

Definition clearTimeout (id : Z) (s : Scheduler) : Scheduler :=
  mkScheduler (timeoutId s) (pendingValue s) (map_delete (timers s) id) (nextTimer s) (clock s) (updates s).

Definition clearPendingTimer (s : Scheduler) : Scheduler :=
  match timeoutId s with
  | None => s
  | Some id =>
      let s := clearTimeout id s in
      mkScheduler None (pendingValue s) (timers s) (nextTimer s) (clock s) (updates s)
  end.

Definition commitPendingValue (s : Scheduler) : Scheduler :=
  let s := clearPendingTimer s in
  match pendingValue s with
  | None => s
  | Some value => mkScheduler (timeoutId s) None (timers s) (nextTimer s) (clock s) (updates s ++ [value])
  end.

Definition schedule (value : num) (s : Scheduler) : Scheduler :=
  let s := clearPendingTimer s in
  mkScheduler (Some (nextTimer s)) (Some value)
    (map_set (timers s) (nextTimer s) (clock s + CHANNEL_FIELD_UPDATE_DELAY_MS))
    (nextTimer s + 1) (clock s) (updates s).

Definition flush (s : Scheduler) : Scheduler := commitPendingValue s.

(** The timer's callback, once the browser has taken the timer off its list. *)
Definition fire (id : Z) (s : Scheduler) : Scheduler := commitPendingValue (clearTimeout id s).

Definition wait (d : Z) (s : Scheduler) : Scheduler :=
  mkScheduler (timeoutId s) (pendingValue s) (timers s) (nextTimer s) (clock s + d) (updates s).

(** What happens to a scheduler. A step carries the value it schedules, if any. *)
Inductive step : Scheduler -> option num -> Scheduler -> Prop :=
| step_schedule s v : step s (Some v) (schedule v s)
| step_flush s : step s None (flush s)
| step_fire s id due : map_get (timers s) id = Some due -> due <= clock s -> step s None (fire id s)
| step_wait s d : 0 <= d -> (forall id due, map_get (timers s) id = Some due -> clock s + d <= due) ->
    step s None (wait d s).

Inductive reachable (now : Z) : Scheduler -> Prop :=
| reach_create : reachable now (createChannelFieldUpdateScheduler now)
| reach_step s e s' : reachable now s -> step s e s' -> reachable now s'.

(** Any number of steps in which nothing is scheduled. *)
Inductive quiet : Scheduler -> Scheduler -> Prop :=
| quiet_refl s : quiet s s
| quiet_step s s' s'' : quiet s s' -> step s' None s'' -> quiet s s''.

Example coalesce_ex :
  updates (fire 2 (wait 800 (schedule (num_of_Z 3) (schedule (num_of_Z 2) (schedule (num_of_Z 1)
    (createChannelFieldUpdateScheduler 0)))))) = [num_of_Z 3].
Proof. reflexivity. Qed.

(** ** The invariant *)

(** A value waits exactly while one timer is set, the scheduler's own, and that timer is
    due within the delay. *)
Definition scheduler_ok (s : Scheduler) : Prop :=
  (forall id, timeoutId s = Some id -> id < nextTimer s) /\
  match timeoutId s, pendingValue s with
  | Some id, Some _ => exists due, timers s = [(id, due)] /\ clock s <= due <= clock s + CHANNEL_FIELD_UPDATE_DELAY_MS
  | None, None => timers s = []
  | _, _ => False
  end.

(** The two shapes of a state. *)
Lemma ok_cases s : scheduler_ok s ->
  (exists id v due, s = mkScheduler (Some id) (Some v) [(id, due)] (nextTimer s) (clock s) (updates s) /\
     id < nextTimer s /\ clock s <= due <= clock s + CHANNEL_FIELD_UPDATE_DELAY_MS) \/
  s = mkScheduler None None [] (nextTimer s) (clock s) (updates s).
Proof.
  destruct s as [t p ts n c us]. intros [Hn H]. cbn in *. destruct t as [id|], p as [v|]; try done.
  - left. destruct H as (due & -> & Hd). exists id, v, due. split; [done|]. auto.
  - right. by rewrite H.
Qed.

Lemma clear_waiting id v due n c us :
  clearPendingTimer (mkScheduler (Some id) (Some v) [(id, due)] n c us) = mkScheduler None (Some v) [] n c us.
Proof. unfold clearPendingTimer, clearTimeout. cbn. by rewrite bool_decide_true. Qed.

Lemma commit_waiting id v due n c us :
  commitPendingValue (mkScheduler (Some id) (Some v) [(id, due)] n c us) = mkScheduler None None [] n c (us ++ [v]).
Proof. unfold commitPendingValue. by rewrite clear_waiting. Qed.

(** What a step does to a value that waits. *)
Lemma step_waiting id v due n c us e s' :
  step (mkScheduler (Some id) (Some v) [(id, due)] n c us) e s' ->
  match e with
  | Some w => s' = mkScheduler (Some n) (Some w) [(n, c + CHANNEL_FIELD_UPDATE_DELAY_MS)] (n + 1) c us
  | None => s' = mkScheduler None None [] n c (us ++ [v]) \/
            exists d, 0 <= d /\ c + d <= due /\
              s' = mkScheduler (Some id) (Some v) [(id, due)] n (c + d) us
  end.
Proof.
  inversion 1; subst; cbn in *.
  - unfold schedule. by rewrite clear_waiting.
  - left. apply commit_waiting.
  - left. by case_bool_decide; [subst|].
  - right. exists d. split; [done|]. split; [|done].
    match goal with H : forall id due, _ -> _ |- _ => apply (H id due) end. by rewrite bool_decide_true.
Qed.

(** And where none waits. *)
Lemma step_idle n c us e s' :
  step (mkScheduler None None [] n c us) e s' ->
  match e with
  | Some w => s' = mkScheduler (Some n) (Some w) [(n, c + CHANNEL_FIELD_UPDATE_DELAY_MS)] (n + 1) c us
  | None => exists d, 0 <= d /\ s' = mkScheduler None None [] n (c + d) us
  end.
Proof.
  inversion 1; subst; cbn in *.
  - done.
  - exists 0. split; [done|]. unfold flush, commitPendingValue. cbn. f_equal. lia.
  - done.
  - by exists d.
Qed.

Lemma scheduler_step_ok s e s' : scheduler_ok s -> step s e s' -> scheduler_ok s'.
Proof.
  assert (Hdelay : 0 <= CHANNEL_FIELD_UPDATE_DELAY_MS) by done.
  intros [(id & v & due & E & Hn & Hd)|E]%ok_cases; rewrite E.
  - intros H%step_waiting. destruct e as [w|].
    + subst s'. split; cbn; [intros ? [= <-]; lia|]. eexists. split; [done|]. lia.
    + destruct H as [->|(d & Hd0 & Hd1 & ->)]; split; cbn; try done.
      * by intros ? [= <-].
      * exists due. split; [done|]. lia.
  - intros H%step_idle. destruct e as [w|].
    + subst s'. split; cbn; [intros ? [= <-]; lia|]. eexists. split; [done|]. lia.
    + destruct H as (d & _ & ->). by split.
Qed.

Lemma reachable_scheduler_ok now s : reachable now s -> scheduler_ok s.
Proof. induction 1; [by split|by eapply scheduler_step_ok]. Qed.

(** Where the waiting value is after steps that schedule nothing. *)
Lemma quiet_waiting id v due n c us s' :
  quiet (mkScheduler (Some id) (Some v) [(id, due)] n c us) s' ->
  (updates s' = us /\ pendingValue s' = Some v /\
   exists c', c <= c' /\ (c' = c \/ c' <= due) /\ s' = mkScheduler (Some id) (Some v) [(id, due)] n c' us) \/
  (exists c', c <= c' /\ s' = mkScheduler None None [] n c' (us ++ [v])).
Proof.
  remember (mkScheduler (Some id) (Some v) [(id, due)] n c us) as s eqn:Es.
  induction 1 as [s|s s' s'' _ IH Hstep]; subst.
  - left. split_and!; try done. exists c. split_and!; [lia|by left|done].
  - destruct (IH eq_refl) as [(_ & _ & c' & Hc & _ & ->)|(c' & Hc & ->)].
    + apply step_waiting in Hstep as [->|(d & Hd & Hd' & ->)].
      * right. by exists c'.
      * left. split_and!; try done. exists (c' + d). split_and!; [lia|by right|done].
    + right. apply step_idle in Hstep as (d & Hd & ->). exists (c' + d). split; [lia|done].
Qed.

(** C36: An edited value is sent in time and once. From any state the scheduler can reach,
    once a value is scheduled and nothing is scheduled after it, whatever timers fire and
    whatever is flushed: the value is the last thing sent, sent exactly once, or it still
    waits, a flush would send it, and without one time can pass up to the end of the delay
    since the edit, where the timer fires and sends it. Values scheduled before it that
    were still waiting are never sent. *)
Theorem edit_sent_in_time (now : Z) (s s' : Scheduler) (v : num) :
  reachable now s -> quiet (schedule v s) s' ->
  (updates s' = updates s ++ [v] /\ pendingValue s' = None /\ timers s' = []) \/
  (updates s' = updates s /\ pendingValue s' = Some v /\
   updates (flush s') = updates s ++ [v] /\
   exists d id, 0 <= d /\ clock s' + d = clock s + CHANNEL_FIELD_UPDATE_DELAY_MS /\
     step s' None (wait d s') /\ step (wait d s') None (fire id (wait d s')) /\
     updates (fire id (wait d s')) = updates s ++ [v]).
Proof.
  intros Hr%reachable_scheduler_ok Hq.
  assert (Es : schedule v s = mkScheduler (Some (nextTimer s)) (Some v)
    [(nextTimer s, clock s + CHANNEL_FIELD_UPDATE_DELAY_MS)] (nextTimer s + 1) (clock s) (updates s)).
  { apply ok_cases in Hr as [(id & w & due & E & _)|E].
    - exact (step_waiting _ _ _ _ _ _ _ _ (eq_ind s (fun x => step x (Some v) (schedule v s)) (step_schedule s v) _ E)).
    - exact (step_idle _ _ _ _ _ (eq_ind s (fun x => step x (Some v) (schedule v s)) (step_schedule s v) _ E)). }
  rewrite Es in Hq. apply quiet_waiting in Hq as [(H1 & H2 & c' & _ & Hc & ->)|(c' & _ & ->)].
  - right. split_and!; try done.
    assert (Hle : c' <= clock s + CHANNEL_FIELD_UPDATE_DELAY_MS)
      by (unfold CHANNEL_FIELD_UPDATE_DELAY_MS in *; lia).
    exists (clock s + CHANNEL_FIELD_UPDATE_DELAY_MS - c'), (nextTimer s).
    split_and!; [cbn; lia|cbn; lia| | |done].
    + apply step_wait; [lia|]. cbn. intros id due. case_bool_decide; intros [= <-]. lia.
    + eapply step_fire; cbn; [by rewrite bool_decide_true|lia].
  - by left.
Qed.

Lemma edit_sent_in_time_witness :
  let s := schedule (num_of_Z 1) (createChannelFieldUpdateScheduler 0) in
  let s' := fire 1 (wait 800 (schedule (num_of_Z 2) s)) in
  updates s' = [num_of_Z 2] /\ pendingValue s' = None /\ timers s' = [].
Proof.
  intros s s'. destruct (edit_sent_in_time 0 s s' (num_of_Z 2)) as [H|H].
  - eapply reach_step; [apply reach_create|apply step_schedule].
  - eapply quiet_step; [eapply quiet_step; [apply quiet_refl|]|].
    + apply (step_wait _ 800); [lia|]. intros id due.
      change (timers (schedule (num_of_Z 2) s)) with [(1, 800)]. cbn. by case_bool_decide; intros [= <-].
    + apply (step_fire _ 1 800); [reflexivity|cbn; lia].
  - exact H.
  - destruct H as [H _]. discriminate H.
Defined.
