(* ===== verification/AdvancedCustomEditor.v ===== *)
(** * The dialog of advanced custom routes
    (src/web/src/features/channels/components/dialogs/advanced-custom-editor-dialog.tsx)

    The state of the dialog, what a render derives from it, and its handlers. An
    [Event] is what the user does; [dispatch] runs the handler of a control that the
    render offers and then renders again. Configurations are untyped JSON, as in
    [AdvancedCustom]: a render that throws takes the dialog down ([crashed]), a handler
    that throws changes nothing and is counted in [exceptions]. Messages are kept as the
    keys that are translated. *)

From Stdlib Require Import ZArith SpecFloat.
From stdpp Require Import base numbers option list sorting.
From S2P Require Import Prelude Collections JsNumber JsValue Json JsonProps AdvancedCustom.

(** ** Rows and groups of routes *)

Record AdvancedCustomRouteRow := mkRow {
  row_route : jsval;
  row_key : jsval;
  row_index : nat
}.

(** [incomingPath] and [routeRows]. *)
Definition AdvancedCustomRouteGroup : Type := jstr * list AdvancedCustomRouteRow.

Definition getRouteIncomingPath (route : jsval) : option jstr :=
  call_trim (val_or (get route (u "incoming_path")) (JStr [])).

Definition isCatchAllRoute (route : jsval) : bool :=
  match get route (u "models") with JArr l => (length l =? 0)%nat | v => negb (truthy v) end.

(** The groups in the order of their first row: the order of the map's keys. *)
Fixpoint group_rows (rows : list AdvancedCustomRouteRow) (groups : list AdvancedCustomRouteGroup)
    : option (list AdvancedCustomRouteGroup) :=
  match rows with
  | [] => Some groups
  | row :: rows =>
      incomingPath ← getRouteIncomingPath (row_route row);
      group_rows rows (map_set groups incomingPath (default [] (map_get groups incomingPath) ++ [row]))
  end.

Definition buildRouteGroups (rows : list AdvancedCustomRouteRow) : option (list AdvancedCustomRouteGroup) :=
  group_rows rows [].

(** ** State *)

Inductive AdvancedCustomEditMode := VisualMode | JsonMode.

#[export] Instance AdvancedCustomEditMode_eq_dec : EqDecision AdvancedCustomEditMode.
Proof. solve_decision. Defined.

(** [routeKeyCounter] is the ref of the next key, [saved] and [toasts] the calls of
    [onSave] and [toast.error]. *)
Record Dialog := mkDialog {
  config : jsval;
  routeKeys : list jsval;
  editMode : AdvancedCustomEditMode;
  jsonText : jstr;
  jsonError : jstr;
  templateKey : jstr;
  routeKeyCounter : N;
  isOpen : bool;
  saved : list jstr;
  toasts : list jstr;
  crashed : bool;
  exceptions : nat
}.

Definition setRoutes (x : jsval) (keys : list jsval) (counter : N) (d : Dialog) : Dialog :=
  mkDialog x keys (editMode d) (jsonText d) (jsonError d) (templateKey d) counter (isOpen d) (saved d)
    (toasts d) (crashed d) (exceptions d).
Definition setConfig (x : jsval) (d : Dialog) : Dialog := setRoutes x (routeKeys d) (routeKeyCounter d) d.
Definition setEditMode (x : AdvancedCustomEditMode) (d : Dialog) : Dialog :=
  mkDialog (config d) (routeKeys d) x (jsonText d) (jsonError d) (templateKey d) (routeKeyCounter d) (isOpen d)
    (saved d) (toasts d) (crashed d) (exceptions d).
Definition setJson (text error : jstr) (d : Dialog) : Dialog :=
  mkDialog (config d) (routeKeys d) (editMode d) text error (templateKey d) (routeKeyCounter d) (isOpen d)
    (saved d) (toasts d) (crashed d) (exceptions d).
Definition setJsonError (error : jstr) (d : Dialog) : Dialog := setJson (jsonText d) error d.
Definition setTemplateKey (x : jstr) (d : Dialog) : Dialog :=
  mkDialog (config d) (routeKeys d) (editMode d) (jsonText d) (jsonError d) x (routeKeyCounter d) (isOpen d)
    (saved d) (toasts d) (crashed d) (exceptions d).
Definition toast_error (message : jstr) (d : Dialog) : Dialog :=
  mkDialog (config d) (routeKeys d) (editMode d) (jsonText d) (jsonError d) (templateKey d) (routeKeyCounter d)
    (isOpen d) (saved d) (toasts d ++ [message]) (crashed d) (exceptions d).
Definition close (d : Dialog) : Dialog :=
  mkDialog (config d) (routeKeys d) (editMode d) (jsonText d) (jsonError d) (templateKey d) (routeKeyCounter d)
    false (saved d) (toasts d) (crashed d) (exceptions d).
Definition onSave (text : jstr) (d : Dialog) : Dialog :=
  mkDialog (config d) (routeKeys d) (editMode d) (jsonText d) (jsonError d) (templateKey d) (routeKeyCounter d)
    (isOpen d) (saved d ++ [text]) (toasts d) (crashed d) (exceptions d).
Definition crash (d : Dialog) : Dialog :=
  mkDialog (config d) (routeKeys d) (editMode d) (jsonText d) (jsonError d) (templateKey d) (routeKeyCounter d)
    (isOpen d) (saved d) (toasts d) true (exceptions d).
Definition throw (d : Dialog) : Dialog :=
  mkDialog (config d) (routeKeys d) (editMode d) (jsonText d) (jsonError d) (templateKey d) (routeKeyCounter d)
    (isOpen d) (saved d) (toasts d) (crashed d) (S (exceptions d)).

Definition first_template : jstr := default [] (fst <$> head ADVANCED_CUSTOM_TEMPLATE_OPTIONS).

Definition initial_key (routeIndex : nat) : jsval :=
  JStr (u "advanced-custom-route-initial-" ++ N_str (N.of_nat routeIndex)).

(** The initial values of the states, where they can be computed. *)
Definition initial_dialog (value : jstr) : option Dialog :=
  let config := default createAdvancedCustomConfig (parseAdvancedCustomConfig (Some value)) in
  normalized ← normalizeAdvancedCustomConfig config;
  text ← stringifyAdvancedCustomConfig config;
  Some (mkDialog config (imap (fun i _ => initial_key i) (config_routes normalized)) VisualMode text []
          first_template 0 true [] [] false 0).

(** ** What a render derives *)

Section Dialog.
(** [new URL(value)]: the host and the protocol, where it parses. *)
Context (parse_url : jstr -> option (jstr * jstr)).

Record View := mkDialogView {
  normalizedConfig : jsval;
  routeRows : list AdvancedCustomRouteRow;
  routeGroups : list AdvancedCustomRouteGroup;
  validationError : option AdvancedCustomValidationError
}.

Definition routes (v : View) : list jsval := config_routes (normalizedConfig v).
Definition usedIncomingPaths (v : View) : list jstr := map_keys (routeGroups v).

Definition availableIncomingPathOptions (v : View) : list (jstr * jstr) :=
  List.filter (fun option => negb (set_has (usedIncomingPaths v) (fst option)))
    ADVANCED_CUSTOM_INCOMING_PATH_OPTIONS.

Definition row_at (keys : list jsval) (index : nat) (route : jsval) : AdvancedCustomRouteRow :=
  mkRow route
    (val_or (default JUndef (keys !! index))
      (val_or (get route (u "incoming_path"))
        (val_or (get route (u "upstream_path"))
          (val_or (get route (u "converter")) (JStr (u "advanced-custom-route"))))))
    index.

(** [None]: the render throws. *)
Definition render (d : Dialog) : option View :=
  normalized ← normalizeAdvancedCustomConfig (config d);
  let rows := imap (row_at (routeKeys d)) (config_routes normalized) in
  groups ← buildRouteGroups rows;
  error ← validateAdvancedCustomConfig parse_url normalized;
  Some (mkDialogView normalized rows groups error).

Definition catchAllOrderErrorMessage : jstr := u "Catch-all route must be last for the same incoming path".

Definition canFixCatchAllOrder (v : View) : bool :=
  match validationError v with Some (_, message) => seqb message catchAllOrderErrorMessage | None => false end.

(** ** Handlers: [None] is an exception *)

Definition createRouteKey (counter : N) : jsval * N :=
  (JStr (u "advanced-custom-route-" ++ N_str (counter + 1)), (counter + 1)%N).

Fixpoint createRouteKeys (count : nat) (counter : N) : list jsval * N :=
  match count with
  | O => ([], counter)
  | S count =>
      let '(key, counter) := createRouteKey counter in
      let '(keys, counter) := createRouteKeys count counter in (key :: keys, counter)
  end.

(** [{ ...route, ...patch }]. *)
Definition patch_route (route : jsval) (patch : list (jstr * jsval)) : jsval :=
  JObj (fold_left (fun ps p => map_set ps (fst p) (snd p)) patch (match route with JObj ps => ps | _ => [] end)).

(** The controls of a row have an index in range. *)
Definition updateRoute (index : nat) (patch : list (jstr * jsval)) (d : Dialog) : option Dialog :=
  next ← normalizeAdvancedCustomConfig (config d);
  Some (setConfig (config_val (alter (fun route => patch_route route patch) index (config_routes next))) d).

Definition replaceRoutes (nextRoutes : list jsval) (nextRouteKeys : list jsval) (d : Dialog) : option Dialog :=
  _ ← normalizeAdvancedCustomConfig (config d);
  Some (setRoutes (config_val nextRoutes) nextRouteKeys (routeKeyCounter d) d).

(** The updater both handlers of a new route run. *)
Definition append_route (incomingPath : jstr) (d : Dialog) : option Dialog :=
  next ← normalizeAdvancedCustomConfig (config d);
  let '(key, counter) := createRouteKey (routeKeyCounter d) in
  Some (setRoutes
          (config_val (config_routes next ++
             [patch_route createAdvancedCustomRoute
                [(u "incoming_path", JStr incomingPath); (u "upstream_path", JStr incomingPath)]]))
          (routeKeys d ++ [key]) counter d).

Definition addRoute (v : View) (incomingPath : jstr) (d : Dialog) : option Dialog :=
  if negb (str_truthy incomingPath) || set_has (usedIncomingPaths v) incomingPath then Some d
  else append_route incomingPath d.

Definition addRouteForIncomingPath (incomingPath : jstr) (d : Dialog) : option Dialog :=
  append_route (str_or incomingPath (u "/v1/chat/completions")) d.

(** [l.filter((_, i) => i !== index)]. *)
Definition without {A} (index : nat) (l : list A) : list A := take index l ++ drop (S index) l.

Definition removeRoute (index : nat) (d : Dialog) : option Dialog :=
  next ← normalizeAdvancedCustomConfig (config d);
  Some (setRoutes (config_val (without index (config_routes next))) (without index (routeKeys d))
          (routeKeyCounter d) d).

(** The converter of a route as a string; a value that is none is like an unknown name. *)
Definition converter_of (route : jsval) : jstr :=
  match val_or (get route (u "converter")) (JStr (u "none")) with JStr s => s | _ => [] end.

(** What a route of the group becomes. *)
Definition route_for_path (resolvedIncomingPath : jstr) (route : jsval) : jsval :=
  if seqb resolvedIncomingPath ADVANCED_CUSTOM_MODEL_LIST_PATH then
    patch_route route
      [(u "incoming_path", JStr resolvedIncomingPath); (u "upstream_path", JStr ADVANCED_CUSTOM_MODEL_LIST_PATH);
       (u "converter", JStr (u "none")); (u "models", JArr [])]
  else
    patch_route route
      [(u "incoming_path", JStr resolvedIncomingPath);
       (u "converter",
          if isAdvancedCustomIncomingPathAllowed resolvedIncomingPath (converter_of route)
          then val_or (get route (u "converter")) (JStr (u "none")) else JStr (u "none"))].

Definition row_keys (v : View) : list jsval := map row_key (routeRows v).

Definition updateGroupIncomingPath (v : View) (group : AdvancedCustomRouteGroup)
    (nextIncomingPath : option jstr) (d : Dialog) : option Dialog :=
  let resolvedIncomingPath := str_or (default [] nextIncomingPath) (u "/v1/chat/completions") in
  let groupRouteIndexes := new_set (map row_index (snd group)) in
  replaceRoutes
    (imap (fun index route =>
             if set_has groupRouteIndexes index then route_for_path resolvedIncomingPath route else route)
       (routes v))
    (row_keys v) d.

(** Both assignments of a swap. *)
Definition swap_at {A} (i j : nat) (l : list A) : list A :=
  match l !! i, l !! j with Some x, Some y => <[j := x]> (<[i := y]> l) | _, _ => l end.

Definition swapRoutes (v : View) (fromIndex toIndex : nat) (d : Dialog) : option Dialog :=
  if (fromIndex =? toIndex)%nat then Some d
  else replaceRoutes (swap_at fromIndex toIndex (routes v)) (swap_at fromIndex toIndex (row_keys v)) d.

(** The incoming paths of the routes, and the indexes of those with the path of [index]. *)
Definition samePathIndexes (v : View) (index : nat) : option (list nat) :=
  paths ← mapM getRouteIncomingPath (routes v);
  incomingPath ← paths !! index;
  Some (omap id (imap (fun i p => if seqb p incomingPath then Some i else None) paths)).

(** [l.indexOf(x)]. *)
Definition index_of (l : list nat) (x : nat) : Z :=
  match list_find (eq x) l with Some (i, _) => Z.of_nat i | None => -1 end.

(** [l.at(i)]: a negative index counts from the end. *)
Definition at_ {A} (l : list A) (i : Z) : option A :=
  if i <? 0 then if i + Z.of_nat (length l) <? 0 then None else l !! Z.to_nat (i + Z.of_nat (length l))
  else l !! Z.to_nat i.

Definition moveRouteWithinGroup (v : View) (index : nat) (direction : Z) (d : Dialog) : option Dialog :=
  indexes ← samePathIndexes v index;
  match at_ indexes (index_of indexes index + direction) with
  | None => Some d
  | Some nextIndex => swapRoutes v index nextIndex d
  end.

(** [splice] out of [index] and back in at [to]. *)
Definition move_to {A} (index to : nat) (l : list A) : list A :=
  match l !! index with
  | Some x => take to (without index l) ++ x :: drop to (without index l)
  | None => l
  end.

Definition moveRouteToGroupEnd (v : View) (index : nat) (d : Dialog) : option Dialog :=
  indexes ← samePathIndexes v index;
  match last indexes with
  | None => Some d
  | Some lastSamePathIndex =>
      if (index =? lastSamePathIndex)%nat then Some d
      else replaceRoutes (move_to index lastSamePathIndex (routes v))
             (move_to index lastSamePathIndex (row_keys v)) d
  end.

Definition orderedRows (rows : list AdvancedCustomRouteRow) : list AdvancedCustomRouteRow :=
  List.filter (fun row => negb (isCatchAllRoute (row_route row))) rows
  ++ List.filter (fun row => isCatchAllRoute (row_route row)) rows.

(** Every row takes the next one of its path; [shift] takes it off the map's array. *)
Fixpoint take_ordered (rows : list AdvancedCustomRouteRow) (orderedRowsByPath : list AdvancedCustomRouteGroup)
    : option (list AdvancedCustomRouteRow) :=
  match rows with
  | [] => Some []
  | row :: rows =>
      incomingPath ← getRouteIncomingPath (row_route row);
      match map_get orderedRowsByPath incomingPath with
      | Some (next :: others) => cons next <$> take_ordered rows (map_set orderedRowsByPath incomingPath others)
      | _ => cons row <$> take_ordered rows orderedRowsByPath
      end
  end.

Definition nextRows (rows : list AdvancedCustomRouteRow) : option (list AdvancedCustomRouteRow) :=
  routeRowsByPath ← group_rows rows [];
  take_ordered rows (prod_map id orderedRows <$> routeRowsByPath).

Definition fixCatchAllOrder (v : View) (d : Dialog) : option Dialog :=
  next ← nextRows (routeRows v);
  replaceRoutes (map row_route next) (map row_key next) d.

(** The configuration of the text, or its error in the state. *)
Definition parseJsonEditorConfig (d : Dialog) : option (Dialog * option jsval) :=
  match parseAdvancedCustomConfig (Some (jsonText d)) with
  | None => Some (setJsonError (u "Invalid JSON") d, None)
  | Some parsed =>
      error ← validateAdvancedCustomConfig parse_url parsed;
      match error with
      | Some (_, message) => Some (setJsonError message d, None)
      | None => Some (setJsonError [] d, Some parsed)
      end
  end.

(** [setConfig(normalized)] with as many new keys. *)
Definition load_config (normalized : jsval) (d : Dialog) : Dialog :=
  let '(keys, counter) := createRouteKeys (length (config_routes normalized)) (routeKeyCounter d) in
  setRoutes normalized keys counter d.

Definition switchToVisualMode (d : Dialog) : option Dialog :=
  r ← parseJsonEditorConfig d;
  match r with
  | (d, None) => Some d
  | (d, Some parsed) =>
      normalized ← normalizeAdvancedCustomConfig parsed;
      Some (setEditMode VisualMode (load_config normalized d))
  end.

Definition switchToJsonMode (v : View) (d : Dialog) : option Dialog :=
  text ← stringifyAdvancedCustomConfig (normalizedConfig v);
  Some (setEditMode JsonMode (setJson text [] d)).

Definition handleJsonChange (nextValue : jstr) (d : Dialog) : Dialog := setJson nextValue [] d.

(** The end of [applyTemplate]. *)
Definition apply_config (nextConfig : jsval) (d : Dialog) : option Dialog :=
  normalized ← normalizeAdvancedCustomConfig nextConfig;
  text ← stringifyAdvancedCustomConfig normalized;
  Some (setJson text [] (load_config normalized d)).

Definition applyTemplate (v : View) (append : bool) (d : Dialog) : option Dialog :=
  templateConfig ← getAdvancedCustomTemplateConfig (templateKey d);
  if append then
    r ← (if bool_decide (editMode d = JsonMode) then parseJsonEditorConfig d
         else Some (d, Some (normalizedConfig v)));
    match r with
    | (d, None) => Some d
    | (d, Some baseConfig) =>
        base ← normalizeAdvancedCustomConfig baseConfig;
        template ← normalizeAdvancedCustomConfig templateConfig;
        apply_config (config_val (config_routes base ++ config_routes template)) d
    end
  else apply_config templateConfig d.

Definition saveConfig (v : View) (d : Dialog) : option Dialog :=
  if bool_decide (editMode d = JsonMode) then
    r ← parseJsonEditorConfig d;
    match r with
    | (d, None) => Some (toast_error (u "Please fix JSON errors before saving") d)
    | (d, Some parsed) => text ← stringifyAdvancedCustomConfig parsed; Some (close (onSave text d))
    end
  else
    match validationError v with
    | Some (_, message) => Some (toast_error message d)
    | None => text ← stringifyAdvancedCustomConfig (normalizedConfig v); Some (close (onSave text d))
    end.

(** ** A route's controls *)

Definition incoming_of (route : jsval) : jstr :=
  match val_or (get route (u "incoming_path"))
          (JStr (getDefaultAdvancedCustomIncomingPath (converter_of route))) with
  | JStr s => s
  | _ => []
  end.

Definition isModelListRoute (route : jsval) : bool := seqb (incoming_of route) ADVANCED_CUSTOM_MODEL_LIST_PATH.

(** [route.models?.join(', ') || '']. *)
Definition modelsInputValue (route : jsval) : jstr :=
  match get route (u "models") with JArr l => join (u ", ") (map to_str l) | _ => [] end.

Definition setConverter (route : jsval) (nextConverter : jstr) : list (jstr * jsval) :=
  let incomingPath := incoming_of route in
  let nextIncomingPath :=
    if isAdvancedCustomIncomingPathAllowed incomingPath nextConverter then incomingPath
    else getDefaultAdvancedCustomIncomingPath nextConverter in
  let '(upstream_path, auth) := getAdvancedCustomConverterDefaults nextConverter nextIncomingPath in
  [(u "converter", JStr nextConverter); (u "incoming_path", JStr nextIncomingPath);
   (u "upstream_path", JStr upstream_path); (u "auth", auth)].

Definition setAuthMode (route : jsval) (mode : jstr) : list (jstr * jsval) :=
  [(u "auth", default JUndef (buildAdvancedCustomAuth mode (get route (u "auth"))))].

Definition setModelsInput (value : jstr) : list (jstr * jsval) :=
  [(u "models", JArr (map JStr (if seqb value [] then [] else split 44%N value)))].

Definition normalizeModelsInput (value : jstr) : list (jstr * jsval) :=
  [(u "models", JArr (map JStr (parseAdvancedCustomRouteModels value)))].

(** The fields are the name and the value; [None] where there is nothing to change. *)
Definition updateAuth (route : jsval) (field value : jstr) : option (list (jstr * jsval)) :=
  let currentAuth := get route (u "auth") in
  if negb (truthy currentAuth) || is_str (get currentAuth (u "type")) (u "none") then None
  else Some [(u "auth",
                patch_route (auth_val (get currentAuth (u "type")) (val_or (get currentAuth (u "name")) (JStr []))
                               (val_or (get currentAuth (u "value")) (JStr [])))
                  [(field, JStr value)])].

(** ** Events *)

Inductive Event :=
| SwitchToVisual
| SwitchToJson
| JsonChange (text : jstr)
| SelectTemplate (key : option jstr)
| ApplyTemplate (append : bool)
| AddRoute (incomingPath : jstr)
| AddSplit (groupPath : jstr)
| ChangeGroupPath (groupPath : jstr) (next : jstr)
| MoveUp (index : nat)
| MoveDown (index : nat)
| MoveToEnd (index : nat)
| Remove (index : nat)
| SetConverter (index : nat) (converter : jstr)
| SetAuthMode (index : nat) (mode : jstr)
| TypeModels (index : nat) (value : jstr)
| BlurModels (index : nat) (value : jstr)
| SetAuthName (index : nat) (value : jstr)
| SetAuthValue (index : nat) (value : jstr)
| SetUpstreamPath (index : nat) (value : jstr)
| FixOrder
| Save
| Cancel.

(** The row of a route with its position in its group and the size of the group. *)
Definition row_position (v : View) (index : nat) : option (AdvancedCustomRouteRow * nat * nat) :=
  row ← routeRows v !! index;
  path ← getRouteIncomingPath (row_route row);
  rows ← map_get (routeGroups v) path;
  '(position, _) ← list_find (fun r => row_index r = index) rows;
  Some (row, position, length rows).

(** The path a group shows. *)
Definition group_path (groupPath : jstr) : jstr := str_or groupPath (u "/v1/chat/completions").

(** The options of a group's path that are not disabled. *)
Definition path_enabled (v : View) (group : AdvancedCustomRouteGroup) (option_ : jstr) : bool :=
  negb ((negb (seqb option_ (group_path (fst group))) && set_has (usedIncomingPaths v) option_)
        || (seqb option_ ADVANCED_CUSTOM_MODEL_LIST_PATH && (1 <? length (snd group))%nat)).

Definition route_offered (v : View) (index : nat) (p : jsval -> nat -> nat -> bool) : bool :=
  match row_position v index with Some (row, position, size) => p (row_route row) position size | None => false end.

Definition AUTH_MODES : list jstr := [u "default"; u "none"; u "header"; u "query"].

(** The controls that are rendered and enabled. *)
Definition offered (v : View) (d : Dialog) (ev : Event) : bool :=
  let visual := bool_decide (editMode d = VisualMode) in
  let models_input route :=
    negb (isModelListRoute route && (length (parseAdvancedCustomRouteModels (modelsInputValue route)) =? 0)%nat) in
  let auth_fields route :=
    let mode := getAdvancedCustomAuthMode route in is_str mode (u "header") || is_str mode (u "query") in
  match ev with
  | SwitchToVisual | SwitchToJson | SelectTemplate _ | ApplyTemplate _ | Save | Cancel => true
  | JsonChange _ => negb visual
  | AddRoute path => visual && existsb (fun option => seqb (fst option) path) (availableIncomingPathOptions v)
  | AddSplit groupPath =>
      visual && map_has (routeGroups v) groupPath
      && negb (seqb (group_path groupPath) ADVANCED_CUSTOM_MODEL_LIST_PATH)
  | ChangeGroupPath groupPath next =>
      visual && existsb (fun option => seqb (fst option) next) ADVANCED_CUSTOM_INCOMING_PATH_OPTIONS
      && match map_get (routeGroups v) groupPath with
         | Some rows => path_enabled v (groupPath, rows) next
         | None => false
         end
  | MoveUp index => visual && route_offered v index (fun _ position _ => (0 <? position)%nat)
  | MoveDown index => visual && route_offered v index (fun _ position size => (position + 1 <? size)%nat)
  | MoveToEnd index =>
      visual && route_offered v index (fun route position size =>
                  isCatchAllRoute route && (position + 1 <? size)%nat)
  | Remove index | SetUpstreamPath index _ => visual && route_offered v index (fun _ _ _ => true)
  | SetConverter index converter =>
      visual && route_offered v index (fun route _ _ =>
                  negb (isModelListRoute route && seqb (converter_of route) (u "none"))
                  && existsb (seqb converter) (getAdvancedCustomConverterOptions (incoming_of route)))
  | SetAuthMode index mode => visual && route_offered v index (fun _ _ _ => existsb (seqb mode) AUTH_MODES)
  | TypeModels index _ | BlurModels index _ => visual && route_offered v index (fun route _ _ => models_input route)
  | SetAuthName index _ | SetAuthValue index _ =>
      visual && route_offered v index (fun route _ _ => auth_fields route)
  | FixOrder => visual && canFixCatchAllOrder v
  end.

(** A route's [onChange] with the patch of one of its controls. *)
Definition change_route (v : View) (index : nat) (patch : jsval -> option (list (jstr * jsval))) (d : Dialog)
    : option Dialog :=
  match (fun row => patch (row_route row)) <$> routeRows v !! index with
  | Some (Some patch) => updateRoute index patch d
  | _ => Some d
  end.

Definition handle (v : View) (ev : Event) (d : Dialog) : option Dialog :=
  match ev with
  | SwitchToVisual => switchToVisualMode d
  | SwitchToJson => switchToJsonMode v d
  | JsonChange text => Some (handleJsonChange text d)
  | SelectTemplate key => Some (setTemplateKey (str_or (default [] key) first_template) d)
  | ApplyTemplate append => applyTemplate v append d
  | AddRoute path => addRoute v path d
  | AddSplit groupPath => addRouteForIncomingPath groupPath d
  | ChangeGroupPath groupPath next =>
      updateGroupIncomingPath v (groupPath, default [] (map_get (routeGroups v) groupPath)) (Some next) d
  | MoveUp index => moveRouteWithinGroup v index (-1) d
  | MoveDown index => moveRouteWithinGroup v index 1 d
  | MoveToEnd index => moveRouteToGroupEnd v index d
  | Remove index => removeRoute index d
  | SetConverter index converter => change_route v index (fun route => Some (setConverter route converter)) d
  | SetAuthMode index mode => change_route v index (fun route => Some (setAuthMode route mode)) d
  | TypeModels index value => change_route v index (fun _ => Some (setModelsInput value)) d
  | BlurModels index value => change_route v index (fun _ => Some (normalizeModelsInput value)) d
  | SetAuthName index value => change_route v index (fun route => updateAuth route (u "name") value) d
  | SetAuthValue index value => change_route v index (fun route => updateAuth route (u "value") value) d
  | SetUpstreamPath index value => change_route v index (fun _ => Some [(u "upstream_path", JStr value)]) d
  | FixOrder => fixCatchAllOrder v d
  | Save => saveConfig v d
  | Cancel => Some (close d)
  end.

(** The render after a change; a closed dialog is gone. *)
Definition commit (d : Dialog) : Dialog :=
  if isOpen d then match render d with Some _ => d | None => crash d end else d.

Definition dispatch (d : Dialog) (ev : Event) : Dialog :=
  if negb (isOpen d) || crashed d then d
  else match render d with
       | None => crash d
       | Some v =>
           if offered v d ev then match handle v ev d with Some d => commit d | None => throw d end else d
       end.

(** [None]: the first render throws. *)
Definition open_dialog (value : jstr) : option Dialog :=
  d ← initial_dialog value; match render d with Some _ => Some d | None => None end.

Definition run_dialog (value : jstr) (es : list Event) : option Dialog :=
  fold_left dispatch es <$> open_dialog value.
End Dialog.
