(* ===== verification/AdvancedCustomEditorProps.v ===== *)
(** * Properties of the dialog of advanced custom routes

    The types the dialog keeps to ([typed_config]) and that they make it run without an
    exception, what the button that fixes the order of catch-all routes does, what is
    saved, and what pressing the button of the current mode loses. *)

From Stdlib Require Import ZArith SpecFloat.
From stdpp Require Import base numbers option list sorting.
From S2P Require Import Prelude Collections JsNumber JsValue Json JsonProps AdvancedCustom AdvancedCustomProps.
From S2P Require Import AdvancedCustomEditor.

(** ** Types *)

(** Optional strings of UTF-16 units, lists of them, and the authentication. *)
Definition typed_text (v : jsval) : Prop := v = JUndef \/ exists s, v = JStr s /\ units s.
Definition typed_models (v : jsval) : Prop := v = JUndef \/ exists l, v = JArr (map JStr l) /\ Forall units l.
Definition typed_auth (v : jsval) : Prop :=
  truthy v = false
  \/ (exists ps t, v = JObj ps /\ get v (u "type") = JStr t /\ units t)
     /\ typed_text (get v (u "name")) /\ typed_text (get v (u "value")).

(** What the type of a route says of its member [k]. *)
Record typed_member (k : jstr) (v : jsval) : Prop := mkTyped {
  tm_text : k ∈ [u "incoming_path"; u "upstream_path"; u "converter"] -> typed_text v;
  tm_models : k = u "models" -> typed_models v;
  tm_auth : k = u "auth" -> typed_auth v
}.

Definition typed_route (r : jsval) : Prop := (exists ps, r = JObj ps) /\ forall k, typed_member k (get r k).
Definition typed_config (c : jsval) : Prop := exists rs, c = config_val rs /\ Forall typed_route rs.

(** A text whose configuration, if it has one, is typed. *)
Definition typed_value (text : jstr) : Prop :=
  forall c, parseAdvancedCustomConfig (Some text) = Some c -> typed_config c.

Lemma units_app a b : units a -> units b -> units (a ++ b).
Proof. apply Forall_app_2. Qed.

Lemma units_join sep l : units sep -> Forall units l -> units (join sep l).
Proof.
  intros Hs H. induction H as [|x l Hx H IH]; [constructor|]. cbn [join]. destruct l; [done|].
  apply units_app; [done|]. by apply units_app.
Qed.

Lemma Forall_filter_b {A} (P : A -> Prop) (p : A -> bool) l : Forall P l -> Forall P (List.filter p l).
Proof. induction 1; cbn; [constructor|]. destruct (p x); [by constructor|done]. Qed.

Lemma units_parse_models s : units s -> Forall units (parseAdvancedCustomRouteModels s).
Proof.
  intros H. unfold parseAdvancedCustomRouteModels. apply Forall_forall. intros m Hm.
  rewrite elem_of_new_set in Hm. revert m Hm. apply Forall_forall, Forall_filter_b.
  apply List.Forall_map. eapply Forall_impl; [by apply units_split|]. apply units_trim.
Qed.

(** ** Typed routes *)

Lemma typed_patch r patch : typed_route r -> Forall (fun p => typed_member p.1 p.2) patch ->
  typed_route (patch_route r patch).
Proof.
  intros [[ps ->] H] Hp. split; [by eexists|]. unfold patch_route. revert ps H.
  induction Hp as [|[k v] patch Hkv _ IH]; intros ps H; [done|]. cbn [fold_left fst snd]. apply IH.
  intros k'. rewrite get_map_set. destruct (seqb _ _) eqn:E; [apply seqb_eq in E; by subst|done].
Qed.

Lemma typed_undef k : typed_member k JUndef.
Proof. split; intros _; by left. Qed.

(** A route of the normal form, of strings. *)
Definition normal_route (r : jsval) : Prop :=
  exists inc up conv ms auth, r = route_val (JStr inc) up (JStr conv) ms auth
    /\ units inc /\ units up /\ units conv /\ Forall units ms
    /\ trim up = up /\ conv <> [] /\ rules_normal ms
    /\ match auth with
       | Some a => exists t n w, a = auth_val (JStr t) (JStr n) (JStr w) /\ units t /\ units n /\ units w
       | None => True
       end.

Lemma get_route_val_models inc up conv ms auth :
  get (route_val inc up conv ms auth) (u "models") = if (0 <? length ms)%nat then JArr (map JStr ms) else JUndef.
Proof. destruct ms, auth; reflexivity. Qed.

Lemma get_route_val_auth inc up conv ms auth :
  get (route_val inc up conv ms auth) (u "auth") = default JUndef auth.
Proof. destruct ms, auth; reflexivity. Qed.

Lemma normal_typed r : normal_route r -> typed_route r.
Proof.
  intros (inc & up & conv & ms & auth & -> & Hi & Hu & Hc & Hm & _ & _ & _ & Ha). split; [by eexists|].
  intros k. split.
  - intros Hk. repeat (apply elem_of_cons in Hk as [->|Hk]); [..|by apply elem_of_nil in Hk];
      right; by eexists.
  - intros ->. rewrite get_route_val_models. destruct ms; [by left|]. right. by eexists.
  - intros ->. rewrite get_route_val_auth. destruct auth as [a|]; [|by left].
    destruct Ha as (t & n & w & -> & Ht & Hn & Hw). right. split; [by eexists _, _|].
    split; right; by eexists.
Qed.

Lemma typed_val_or v d : typed_text v -> units d ->
  exists s, val_or v (JStr d) = JStr s /\ units s /\ (d <> [] -> s <> []).
Proof.
  intros [->|(s & -> & Hs)] Hd; [by exists d|]. unfold val_or. cbn [truthy].
  destruct (str_truthy s) eqn:E; [|by exists d]. exists s. split_and!; try done. intros _ ->. done.
Qed.

Lemma typed_models_normal v : typed_models v ->
  exists ms, normalizeAdvancedCustomRouteModels v = Some ms /\ rules_normal ms /\ Forall units ms.
Proof.
  intros H. assert (exists ms, normalizeAdvancedCustomRouteModels v = Some ms /\ Forall units ms) as (ms & E & Hu).
  { destruct H as [->|(l & -> & Hl)]; [by exists []|]. cbn.
    assert (E : mapM call_trim (map JStr l) = Some (map trim l)).
    { clear Hl. apply mapM_Some. induction l; cbn; by constructor. }
    rewrite E. cbn. eexists. split; [done|]. apply Forall_filter_b, List.Forall_map.
    eapply Forall_impl; [exact Hl|]. apply units_trim. }
  exists ms. split_and!; [done|by eapply normal_models|done].
Qed.

Lemma typed_normalize r : typed_route r ->
  exists n, normalizeAdvancedCustomRoute r = Some n /\ normal_route n.
Proof.
  intros [[ps ->] H].
  destruct (typed_val_or (get (JObj ps) (u "incoming_path")) []) as (inc & Ei & Hi & _).
  { apply (tm_text _ _ (H (u "incoming_path"))). rewrite !elem_of_cons; auto. } { constructor. }
  destruct (typed_val_or (get (JObj ps) (u "upstream_path")) []) as (up & Eu & Hup & _).
  { apply (tm_text _ _ (H (u "upstream_path"))). rewrite !elem_of_cons; auto. } { constructor. }
  destruct (typed_val_or (get (JObj ps) (u "converter")) (u "none")) as (conv & Ec & Hc & Hcn).
  { apply (tm_text _ _ (H (u "converter"))). rewrite !elem_of_cons; auto. } { by apply units_check. }
  destruct (typed_models_normal _ (tm_models _ _ (H (u "models")) eq_refl)) as (ms & Em & Hm & Hmu).
  pose proof (tm_auth _ _ (H (u "auth")) eq_refl) as Ha.
  unfold normalizeAdvancedCustomRoute, getAdvancedCustomRouteUpstreamPath.
  change (prop (JObj ps) (u "incoming_path")) with (Some (get (JObj ps) (u "incoming_path"))).
  change (prop (JObj ps) (u "upstream_path")) with (Some (get (JObj ps) (u "upstream_path"))).
  change (prop (JObj ps) (u "converter")) with (Some (get (JObj ps) (u "converter"))).
  cbn [mbind option_bind]. rewrite Eu, Em, Ei, Ec. cbn [call_trim mbind option_bind].
  eexists. split; [done|]. eexists inc, (trim up), conv, ms, _. split; [done|].
  split_and!; try done; [by apply units_trim|apply trim_idemp|by apply Hcn|].
  destruct Ha as [->|((qs & t & -> & Et & Ht) & Hn & Hw)]; [done|]. cbn [truthy].
  rewrite Et. destruct (typed_val_or _ [] Hn ltac:(constructor)) as (n & -> & Hn' & _).
  destruct (typed_val_or _ [] Hw ltac:(constructor)) as (w & -> & Hw' & _).
  by eexists _, _, _.
Qed.

Lemma typed_config_normal c : typed_config c ->
  exists ns, normalizeAdvancedCustomConfig c = Some (config_val ns) /\ Forall normal_route ns
             /\ length ns = length (config_routes c).
Proof.
  intros (rs & -> & H).
  assert (exists ns, mapM normalizeAdvancedCustomRoute rs = Some ns /\ Forall normal_route ns
                     /\ length ns = length rs) as (ns & E & Hn & Hl).
  { clear -H. induction H as [|r rs Hr _ (ns & E & Hn & Hl)]; [by exists []|].
    destruct (typed_normalize r Hr) as (n & En & Hn'). exists (n :: ns). cbn. rewrite En. cbn. rewrite E.
    cbn. split_and!; [done|by constructor|lia]. }
  exists ns. unfold normalizeAdvancedCustomConfig.
  change (prop (config_val rs) (u "advanced_routes")) with (Some (JArr rs)). cbn. by rewrite E.
Qed.

Lemma config_routes_val rs : config_routes (config_val rs) = rs.
Proof. reflexivity. Qed.

Lemma normal_config_typed ns : Forall normal_route ns -> typed_config (config_val ns).
Proof. intros H. exists ns. split; [done|]. eapply Forall_impl; [exact H|]. apply normal_typed. Qed.

(** Normal configurations are their own normal form. *)
Lemma normal_route_stable r : normal_route r -> normalizeAdvancedCustomRoute r = Some r.
Proof.
  intros (inc & up & conv & ms & auth & -> & _ & _ & _ & _ & Hup & Hc & Hm & Ha).
  assert (Vi : JStr inc = val_or (JStr inc) (JStr [])) by (by destruct inc).
  assert (Vc : JStr conv = val_or (JStr conv) (JStr (u "none"))) by (by destruct conv).
  rewrite Vi, Vc. apply normalize_route_val; [done|done|]. destruct auth as [a|]; [|done].
  destruct Ha as (t & n & w & -> & _). exists (JStr t), (JStr n), (JStr w).
  by destruct n, w.
Qed.

Lemma normal_config_stable ns : Forall normal_route ns ->
  normalizeAdvancedCustomConfig (config_val ns) = Some (config_val ns).
Proof.
  intros H. unfold normalizeAdvancedCustomConfig.
  change (prop (config_val ns) (u "advanced_routes")) with (Some (JArr ns)). cbn.
  assert (E : mapM normalizeAdvancedCustomRoute ns = Some ns).
  { apply mapM_Some. induction H; constructor; [by apply normal_route_stable|done]. }
  by rewrite E.
Qed.

(** ** Normal configurations as texts *)

Lemma json_ok_members ps : forallb key_ok ps.*1 && bool_decide (NoDup ps.*1) = true ->
  Forall (fun p => json_ok p.2) ps -> json_ok (JObj ps).
Proof.
  rewrite andb_true_iff, bool_decide_eq_true, forallb_forall, json_ok_obj. intros [Hk Hnd] Hv.
  assert (Hks : forall p, p ∈ ps -> units p.1 /\ array_index p.1 = None).
  { intros p Hp. assert (Hin : In p.1 ps.*1) by (apply list_elem_of_In, list_elem_of_fmap; by exists p).
    apply Hk in Hin. unfold key_ok in Hin. rewrite andb_true_iff, bool_decide_eq_true in Hin.
    destruct Hin as [Hu Hi]. split; [by apply units_check|done]. }
  rewrite Forall_forall in Hv. split_and!; [done|..]; apply Forall_forall; intros p Hp; [by apply Hks|].
  split; [by apply Hks|by apply Hv].
Qed.

Lemma json_ok_normal_route r : normal_route r -> json_ok r.
Proof.
  intros (inc & up & conv & ms & auth & -> & Hi & Hu & Hc & Hm & _ & _ & _ & Ha).
  assert (Hms : json_ok (JArr (map JStr ms))).
  { apply json_ok_arr, List.Forall_map. eapply Forall_impl; [exact Hm|]. done. }
  assert (Hau : forall a, auth = Some a -> json_ok a).
  { intros a ->. destruct Ha as (t & n & w & -> & Ht & Hn & Hw).
    apply json_ok_members; [vm_compute; reflexivity|]. repeat (constructor; try done). }
  unfold route_val. apply json_ok_members; [destruct ms, auth; vm_compute; reflexivity|].
  apply Forall_app_2; [repeat (constructor; try done)|]. apply Forall_app_2.
  - destruct (0 <? length ms)%nat; repeat (constructor; try done).
  - destruct auth as [a|]; repeat (constructor; try done). by apply Hau.
Qed.

Lemma json_ok_normal ns : Forall normal_route ns -> json_ok (config_val ns).
Proof.
  intros H. apply json_ok_members; [vm_compute; reflexivity|]. constructor; [|constructor].
  apply json_ok_arr. eapply Forall_impl; [exact H|]. apply json_ok_normal_route.
Qed.

Lemma normal_text ns : Forall normal_route ns ->
  exists text, stringifyAdvancedCustomConfig (config_val ns) = Some text
               /\ parseAdvancedCustomConfig (Some text) = Some (config_val ns).
Proof. intros H. apply config_text_parses; [by apply normal_config_stable|by apply json_ok_normal]. Qed.

Lemma normal_text_typed ns text : Forall normal_route ns ->
  stringifyAdvancedCustomConfig (config_val ns) = Some text -> typed_value text.
Proof.
  intros H E c Hc. destruct (normal_text ns H) as (t & Et & Ep). rewrite E in Et. injection Et as <-.
  rewrite Ep in Hc. injection Hc as <-. by apply normal_config_typed.
Qed.

(** ** Renders *)

(** What a route of the normal form is to the validator and to the groups. *)
Definition path_of (r : jsval) : jstr := default [] (getRouteIncomingPath r).

Lemma normal_path r : normal_route r -> getRouteIncomingPath r = Some (path_of r).
Proof.
  intros (inc & up & conv & ms & auth & -> & _). unfold path_of, getRouteIncomingPath.
  change (get (route_val (JStr inc) up (JStr conv) ms auth) (u "incoming_path")) with (JStr inc).
  by destruct inc.
Qed.

Lemma normal_view r : normal_route r -> exists v, view_route r = Some v /\ rv_incoming v = path_of r
  /\ (rv_models v = [] <-> isCatchAllRoute r = true)
  /\ exists e, validateRouteAuth (rv_auth v) = Some e.
Proof.
  intros Hr. pose proof (normal_path r Hr) as Hp.
  destruct Hr as (inc & up & conv & ms & auth & -> & _ & _ & _ & _ & Hup & _ & Hm & Ha).
  set (r := route_val (JStr inc) up (JStr conv) ms auth) in *.
  assert (Em : normalizeAdvancedCustomRouteModels (get r (u "models")) = Some ms).
  { unfold r. rewrite get_route_val_models. destruct ms; [done|]. by apply models_normal. }
  unfold view_route, getAdvancedCustomRouteUpstreamPath.
  change (prop r (u "incoming_path")) with (Some (JStr inc)).
  change (prop r (u "upstream_path")) with (Some (JStr up)). cbn [mbind option_bind opt_trim].
  replace (call_trim (JStr inc)) with (Some (trim inc)) by done.
  replace (call_trim (val_or (JStr up) (JStr []))) with (Some up)
    by (unfold val_or; cbn; destruct (str_truthy up) eqn:E; cbn; [by rewrite Hup|by destruct up]).
  rewrite Em. cbn [mbind option_bind]. eexists. split; [done|]. cbn [rv_incoming rv_models rv_auth].
  split_and!.
  - unfold path_of, getRouteIncomingPath. change (get r (u "incoming_path")) with (JStr inc). by destruct inc.
  - unfold isCatchAllRoute, r. rewrite get_route_val_models. by destruct ms.
  - unfold r. rewrite get_route_val_auth. destruct auth as [a|]; [|by eexists].
    destruct Ha as (t & n & w & -> & _). cbn [default from_option]. unfold validateRouteAuth, id.
    change (truthy (auth_val (JStr t) (JStr n) (JStr w))) with true. cbn [negb].
    change (get (auth_val (JStr t) (JStr n) (JStr w)) (u "type")) with (JStr t).
    change (get (auth_val (JStr t) (JStr n) (JStr w)) (u "name")) with (JStr n).
    change (get (auth_val (JStr t) (JStr n) (JStr w)) (u "value")) with (JStr w).
    cbn [opt_trim call_trim mbind option_bind]. repeat break_goal; by eexists.
Qed.

Section Dialog.
Context (parse_url : jstr -> option (jstr * jstr)).

Lemma check_route_total i v st : (exists e, validateRouteAuth (rv_auth v) = Some e) ->
  exists r, check_route parse_url i v st = Some r.
Proof.
  intros [e He]. unfold check_route, check_upstream. rewrite He. cbn [mbind option_bind].
  repeat (break_goal; cbn [mbind option_bind]; try (by eexists)).
Qed.

Lemma validate_total ns : Forall normal_route ns ->
  exists e, validateAdvancedCustomConfig parse_url (config_val ns) = Some e.
Proof.
  intros H. unfold validateAdvancedCustomConfig.
  change (truthy (config_val ns)) with true. cbn [negb]. rewrite normal_config_stable by done.
  cbn [mbind option_bind]. rewrite config_routes_val. destruct (_ =? 0)%nat; [by eexists|].
  generalize 0%nat, (@nil (jstr * PathState), @None nat).
  induction H as [|r ns Hr _ IH]; intros i st; cbn [validate_loop]; [by eexists|].
  destruct (normal_view r Hr) as (v & -> & _ & _ & He). cbn [mbind option_bind].
  destruct (check_route_total i v st He) as [[e|st'] ->]; cbn [mbind option_bind]; [by eexists|apply IH].
Qed.

Lemma group_rows_total rows g : Forall (fun row => normal_route (row_route row)) rows ->
  exists gs, group_rows rows g = Some gs.
Proof.
  intros H. revert g. induction H as [|row rows Hr _ IH]; intros g; cbn [group_rows]; [by eexists|].
  rewrite (normal_path _ Hr). cbn [mbind option_bind]. apply IH.
Qed.

Lemma imap_route keys ns : map row_route (imap (row_at keys) ns) = ns.
Proof.
  apply list_eq. intros i. change (map row_route) with (fmap (M := list) row_route).
  rewrite list_lookup_fmap, list_lookup_imap. by destruct (ns !! i).
Qed.

Lemma Forall_rows (P : jsval -> Prop) rows : Forall P (map row_route rows) <-> Forall (fun row => P (row_route row)) rows.
Proof. apply List.Forall_map. Qed.

(** A typed dialog renders, and shows its routes in normal form. *)
Lemma render_typed d : typed_config (config d) ->
  exists ns gs e, normalizeAdvancedCustomConfig (config d) = Some (config_val ns)
    /\ Forall normal_route ns /\ length ns = length (config_routes (config d))
    /\ group_rows (imap (row_at (routeKeys d)) ns) [] = Some gs
    /\ validateAdvancedCustomConfig parse_url (config_val ns) = Some e
    /\ render parse_url d = Some (mkDialogView (config_val ns) (imap (row_at (routeKeys d)) ns) gs e).
Proof.
  intros H. destruct (typed_config_normal _ H) as (ns & En & Hn & Hl).
  destruct (validate_total ns Hn) as [e Ee].
  destruct (group_rows_total (imap (row_at (routeKeys d)) ns) []) as [gs Eg].
  { apply Forall_rows. by rewrite imap_route. }
  exists ns, gs, e. split_and!; try done. unfold render. rewrite En. cbn [mbind option_bind].
  unfold buildRouteGroups. rewrite config_routes_val, Eg. cbn [mbind option_bind]. by rewrite Ee.
Qed.

(** ** The invariant *)

(** The keys made so far. *)
Definition key_below (counter : N) (k : jsval) : Prop :=
  (exists i, k = initial_key i)
  \/ exists n, (n <= counter)%N /\ k = JStr (u "advanced-custom-route-" ++ N_str n).

(** A text of a configuration that the validator accepts. *)
Definition valid_text (text : jstr) : Prop :=
  exists ns, parseAdvancedCustomConfig (Some text) = Some (config_val ns)
             /\ validateAdvancedCustomConfig parse_url (config_val ns) = Some None.

(** The types hold, nothing was thrown, every route has a key of its own, and what was
    saved is valid. *)
Record dialog_ok (d : Dialog) : Prop := mkDialogOk {
  do_config : typed_config (config d);
  do_json : typed_value (jsonText d);
  do_keys : NoDup (routeKeys d);
  do_below : Forall (key_below (routeKeyCounter d)) (routeKeys d);
  do_length : length (routeKeys d) = length (config_routes (config d));
  do_quiet : crashed d = false /\ exceptions d = 0%nat;
  do_saved : Forall valid_text (saved d);
  do_once : saved d = [] \/ isOpen d = false /\ length (saved d) = 1%nat
}.

Lemma set_routes_ok d rs keys counter : dialog_ok d -> Forall typed_route rs -> NoDup keys ->
  Forall (key_below counter) keys -> length keys = length rs -> dialog_ok (setRoutes (config_val rs) keys counter d).
Proof. intros [] Hrs Hk Hb Hl. split; try done. by exists rs. Qed.

Lemma set_config_ok d rs : dialog_ok d -> Forall typed_route rs -> length rs = length (config_routes (config d)) ->
  dialog_ok (setConfig (config_val rs) d).
Proof. intros Hd Hrs Hl. destruct Hd. apply set_routes_ok; try done. congruence. Qed.

Lemma set_json_ok d text error : dialog_ok d -> typed_value text -> dialog_ok (setJson text error d).
Proof. by intros [] H. Qed.

Lemma set_mode_ok d m : dialog_ok d -> dialog_ok (setEditMode m d).
Proof. by intros []. Qed.

(** *** Keys *)

Lemma N_str_inj a b : N_str a = N_str b -> a = b.
Proof.
  intros E. rewrite <- (N2Z.id a), <- (N2Z.id b). f_equal.
  rewrite <- (parse_digits_Z_str (Z.of_N a)), <- (parse_digits_Z_str (Z.of_N b)) by lia.
  rewrite !Z_str_nonneg, !N2Z.id by lia. by rewrite E.
Qed.

Lemma initial_key_inj i j : initial_key i = initial_key j -> i = j.
Proof. intros [= E%N_str_inj]. lia. Qed.

Lemma fresh_key counter k : key_below counter k -> k <> JStr (u "advanced-custom-route-" ++ N_str (counter + 1)).
Proof.
  intros [(i & ->)|(n & Hn & ->)] E.
  - injection E as E.
    pose proof (N_str_digits (counter + 1)) as Hd. rewrite <- E in Hd. by apply Forall_cons in Hd as [Hd _].
  - injection E as E%N_str_inj. lia.
Qed.

Lemma key_below_mono a b k : (a <= b)%N -> key_below a k -> key_below b k.
Proof. intros Hab [H|(n & Hn & ->)]; [by left|right]. exists n. split; [lia|done]. Qed.

Lemma create_keys_ok n : forall counter, let '(keys, counter') := createRouteKeys n counter in
  NoDup keys /\ Forall (key_below counter') keys /\ length keys = n /\ (counter <= counter')%N
  /\ forall k, k ∈ keys -> exists m, (counter < m)%N /\ k = JStr (u "advanced-custom-route-" ++ N_str m).
Proof.
  induction n as [|n IH]; intros counter; cbn [createRouteKeys].
  - split_and!; [constructor|constructor|done|lia|]. intros k Hk. by apply elem_of_nil in Hk.
  - unfold createRouteKey at 1. specialize (IH (counter + 1)%N).
    destruct (createRouteKeys n (counter + 1)) as [keys counter']. destruct IH as (Hnd & Hb & Hl & Hc & Hf).
    split_and!; [|constructor| |lia|].
    + constructor; [|done]. intros Hin. destruct (Hf _ Hin) as (m & Hm & E). injection E as E%N_str_inj. lia.
    + right. exists (counter + 1)%N. split; [lia|done].
    + done.
    + cbn. by rewrite Hl.
    + intros k [->|Hk]%elem_of_cons; [exists (counter + 1)%N; split; [lia|done]|].
      destruct (Hf k Hk) as (m & Hm & ->). exists m. split; [lia|done].
Qed.

Lemma load_config_ok d rs : dialog_ok d -> Forall typed_route rs -> dialog_ok (load_config (config_val rs) d).
Proof.
  intros Hd Hrs. unfold load_config. rewrite config_routes_val.
  pose proof (create_keys_ok (length rs) (routeKeyCounter d)) as H.
  destruct (createRouteKeys _ _) as [keys counter]. destruct H as (Hnd & Hb & Hl & _).
  by apply set_routes_ok.
Qed.

(** The keys a render shows are the keys of the state. *)
Lemma key_truthy c k : key_below c k -> truthy k = true.
Proof. by intros [(i & ->)|(n & _ & ->)]. Qed.

Lemma row_keys_ok d ns : dialog_ok d -> length ns = length (config_routes (config d)) ->
  map row_key (imap (row_at (routeKeys d)) ns) = routeKeys d.
Proof.
  intros Hd Hl. rewrite <- (do_length d Hd) in Hl. apply list_eq. intros i.
  change (map row_key) with (fmap (M := list) row_key). rewrite list_lookup_fmap, list_lookup_imap.
  destruct (ns !! i) as [r|] eqn:Er; cbn.
  - destruct (lookup_lt_is_Some_2 (routeKeys d) i) as [k Ek].
    { rewrite <- Hl. by eapply lookup_lt_Some. }
    rewrite Ek. cbn. f_equal. unfold val_or at 1.
    by rewrite (key_truthy _ _ (Forall_lookup_1 _ _ _ _ (do_below d Hd) Ek)).
  - symmetry. apply lookup_ge_None. apply lookup_ge_None in Er. lia.
Qed.

(** *** Rearranging routes *)

Lemma replace_ok d rs keys : dialog_ok d -> Forall typed_route rs -> keys ≡ₚ routeKeys d ->
  length rs = length (config_routes (config d)) ->
  exists d', replaceRoutes rs keys d = Some d' /\ dialog_ok d'.
Proof.
  intros Hd Hrs Hp Hl. destruct (typed_config_normal _ (do_config d Hd)) as (ns & En & _ & _).
  unfold replaceRoutes. rewrite En. eexists. split; [done|]. destruct Hd. apply set_routes_ok; try done.
  - by rewrite Hp.
  - by rewrite Hp.
  - rewrite Hp. congruence.
Qed.

Lemma swap_at_perm {A} i j (l : list A) : swap_at i j l ≡ₚ l.
Proof.
  unfold swap_at. destruct (l !! i) as [x|] eqn:Ei; [|done]. destruct (l !! j) as [y|] eqn:Ej; [|done].
  by apply Permutation_insert_swap.
Qed.

Lemma move_to_perm {A} i j (l : list A) : move_to i j l ≡ₚ l.
Proof.
  unfold move_to. destruct (l !! i) as [x|] eqn:Ei; [|done].
  rewrite <- Permutation_middle, take_drop. unfold without. rewrite <- delete_take_drop.
  symmetry. by apply delete_Permutation.
Qed.

Definition on_path (p : jstr) (row : AdvancedCustomRouteRow) : bool := seqb (path_of (row_route row)) p.

Definition normal_rows (rows : list AdvancedCustomRouteRow) : Prop :=
  Forall (fun row => normal_route (row_route row)) rows.

Lemma group_rows_get rows : normal_rows rows -> forall g gs, group_rows rows g = Some gs ->
  forall p, default [] (map_get gs p) = default [] (map_get g p) ++ List.filter (on_path p) rows.
Proof.
  induction 1 as [|row rows Hr _ IH]; intros g gs; cbn [group_rows].
  - intros [= <-] p. by rewrite app_nil_r.
  - rewrite (normal_path _ Hr). cbn [mbind option_bind]. intros H p. rewrite (IH _ _ H p), map_get_set.
    cbn [List.filter]. unfold on_path at 2.
    case_bool_decide as E; [subst; rewrite seqb_refl|]; cbn.
    + by rewrite <- app_assoc.
    + apply seqb_neq in E. by rewrite E.
Qed.

(** Taking the rows of every path from a queue of as many rows of that path. *)
Lemma take_ordered_spec rows : normal_rows rows -> forall m,
  (forall p, length (default [] (map_get m p)) = length (List.filter (on_path p) rows)
             /\ Forall (fun row => path_of (row_route row) = p) (default [] (map_get m p))) ->
  exists next, take_ordered rows m = Some next
    /\ map (fun row => path_of (row_route row)) next = map (fun row => path_of (row_route row)) rows
    /\ forall p, List.filter (on_path p) next = default [] (map_get m p).
Proof.
  induction 1 as [|row rows Hr _ IH]; intros m Hm; cbn [take_ordered].
  - exists []. split_and!; try done. intros p. destruct (Hm p) as [Hl _]. by destruct (default [] (map_get m p)).
  - rewrite (normal_path _ Hr). cbn [mbind option_bind]. set (p := path_of (row_route row)).
    pose proof (Hm p) as [Hl Hp]. cbn [List.filter] in Hl. unfold on_path at 1 in Hl. fold p in Hl.
    rewrite seqb_refl in Hl. destruct (map_get m p) as [[|x xs]|] eqn:E; cbn in Hl, Hp; try lia.
    apply Forall_cons in Hp as [Hx Hxs].
    destruct (IH (map_set m p xs)) as (next & En & Hpaths & Hf).
    { intros q. rewrite map_get_set. specialize (Hm q). cbn [List.filter] in Hm. unfold on_path at 1 in Hm.
      fold p in Hm. case_bool_decide as Eq; cbn; [subst q; split; [lia|done]|].
      apply seqb_neq in Eq. by rewrite Eq in Hm. }
    exists (x :: next). rewrite En. split_and!; [done|cbn; by rewrite Hx, Hpaths|].
    intros q. cbn [List.filter]. unfold on_path at 1. rewrite Hx, Hf, map_get_set.
    case_bool_decide as Eq; cbn; [subst q; rewrite seqb_refl, E; done|].
    apply seqb_neq in Eq. by rewrite Eq.
Qed.

Lemma ordered_rows_perm rows : orderedRows rows ≡ₚ rows.
Proof.
  unfold orderedRows. induction rows as [|row rows IH]; cbn; [done|].
  destruct (isCatchAllRoute (row_route row)); cbn; [rewrite <- Permutation_middle|]; by rewrite IH.
Qed.

Lemma perm_by_path rows : forall next,
  (forall p, List.filter (on_path p) next ≡ₚ List.filter (on_path p) rows) -> next ≡ₚ rows.
Proof.
  induction rows as [|row rows IH]; intros next H.
  - destruct next as [|x next]; [done|]. specialize (H (path_of (row_route x))). cbn in H.
    unfold on_path at 1 in H. rewrite seqb_refl in H. by apply Permutation_nil_r in H.
  - assert (Hin : row ∈ next).
    { pose proof (H (path_of (row_route row))) as Hp. cbn in Hp. unfold on_path at 2 in Hp.
      rewrite seqb_refl in Hp.
      assert (Hr : row ∈ List.filter (on_path (path_of (row_route row))) next) by (rewrite Hp; left).
      apply list_elem_of_In, filter_In in Hr as [Hr _]. by apply list_elem_of_In. }
    apply list_elem_of_split in Hin as (l1 & l2 & ->). rewrite <- Permutation_middle. constructor. apply IH.
    intros p. specialize (H p). rewrite List.filter_app in H |- *. cbn in H.
    destruct (on_path p row); [|done]. rewrite <- Permutation_middle in H. by apply (inj (cons row)) in H.
Qed.

(** What fixing the order makes of the rows. *)
Lemma next_rows_spec rows : normal_rows rows -> exists next, nextRows rows = Some next
  /\ map (fun row => path_of (row_route row)) next = map (fun row => path_of (row_route row)) rows
  /\ next ≡ₚ rows
  /\ forall p, List.filter (on_path p) next = orderedRows (List.filter (on_path p) rows).
Proof.
  intros H. unfold nextRows. destruct (group_rows_total rows [] H) as [gs Eg]. rewrite Eg. cbn [mbind option_bind].
  pose proof (group_rows_get rows H [] gs Eg) as Hg.
  assert (Hm : forall p, default [] (map_get (prod_map id orderedRows <$> gs) p)
                         = orderedRows (List.filter (on_path p) rows)).
  { intros p. rewrite <- (Hg p : _ = List.filter _ _). clear. unfold fmap, list_fmap.
    induction gs as [|[k x] gs IH]; [done|]. cbn. case_bool_decide; [done|]. apply IH. }
  destruct (take_ordered_spec rows H (prod_map id orderedRows <$> gs)) as (next & En & Hp & Hf).
  { intros p. rewrite Hm, ordered_rows_perm. split; [done|]. apply List.Forall_forall.
    intros row [_ Hr]%filter_In. by apply seqb_eq in Hr. }
  exists next. split_and!; [done|done|..].
  - apply perm_by_path. intros p. by rewrite Hf, Hm, ordered_rows_perm.
  - intros p. by rewrite Hf, Hm.
Qed.

(** *** Typed patches *)

Lemma typed_str s : units s -> typed_text (JStr s).
Proof. right. by exists s. Qed.

Lemma typed_text_member k s : k ∈ [u "incoming_path"; u "upstream_path"; u "converter"] -> units s ->
  typed_member k (JStr s).
Proof.
  intros Hk Hs. split; [intros _; by apply typed_str|..]; intros ->;
    repeat (apply elem_of_cons in Hk as [Hk|Hk]; [done|]); by apply elem_of_nil in Hk.
Qed.

Lemma typed_models_member l : Forall units l -> typed_member (u "models") (JArr (map JStr l)).
Proof.
  intros Hl. split; [|intros _; right; by exists l|done].
  intros Hk. repeat (apply elem_of_cons in Hk as [Hk|Hk]; [done|]). by apply elem_of_nil in Hk.
Qed.

Lemma typed_auth_member a : typed_auth a -> typed_member (u "auth") a.
Proof.
  intros Ha. split; [|done|done].
  intros Hk. repeat (apply elem_of_cons in Hk as [Hk|Hk]; [done|]). by apply elem_of_nil in Hk.
Qed.

Lemma typed_auth_val t n w : units t -> typed_text n -> typed_text w -> typed_auth (auth_val (JStr t) n w).
Proof. intros Ht Hn Hw. right. split; [by eexists _, _|]. by split. Qed.

(** The tables hold strings. *)
Lemma path_options_units p l : (p, l) ∈ ADVANCED_CUSTOM_INCOMING_PATH_OPTIONS -> units p.
Proof.
  intros H. apply (proj1 (Forall_forall (fun o => units o.1) ADVANCED_CUSTOM_INCOMING_PATH_OPTIONS)) in H; [done|].
  unfold ADVANCED_CUSTOM_INCOMING_PATH_OPTIONS. repeat (constructor; [by apply units_check|]). constructor.
Qed.

Lemma units_str_or a b : units a -> units b -> units (str_or a b).
Proof. intros Ha Hb. unfold str_or. by destruct (str_truthy a). Qed.

Lemma default_path_units c : units (getDefaultAdvancedCustomIncomingPath c).
Proof.
  unfold getDefaultAdvancedCustomIncomingPath. apply units_str_or; [|by apply units_check].
  destruct (head _) as [[p l]|] eqn:E; cbn; [|constructor]. apply (path_options_units p l).
  apply head_Some_elem_of in E. unfold getAdvancedCustomIncomingPathOptions in E.
  apply list_elem_of_In, filter_In in E as [E _]. by apply list_elem_of_In.
Qed.

Lemma native_auth_typed p : typed_auth (getAdvancedCustomNativeAuth p).
Proof.
  unfold getAdvancedCustomNativeAuth. repeat break_goal; apply typed_auth_val;
    try apply typed_str; by apply units_check.
Qed.

Lemma converter_defaults_typed c p : units c -> units p ->
  units (getAdvancedCustomConverterDefaults c p).1 /\ typed_auth (getAdvancedCustomConverterDefaults c p).2.
Proof.
  intros Hc Hp. unfold getAdvancedCustomConverterDefaults.
  assert (Hn : units (str_or (trim p) (getDefaultAdvancedCustomIncomingPath c))).
  { apply units_str_or; [by apply units_trim|apply default_path_units]. }
  set (n := str_or (trim p) _) in *.
  assert (Ht : typed_auth bearerHeaderAuth /\ typed_auth apiKeyHeaderAuth /\ typed_auth geminiQueryAuth).
  { split_and!; apply typed_auth_val; try apply typed_str; by apply units_check. }
  destruct Ht as (H1 & H2 & H3).
  repeat break_goal; cbn [fst snd]; split; try apply native_auth_typed; try done; try by apply units_check.
  by apply units_str_or; [|apply units_check].
Qed.

Lemma converter_units r : normal_route r -> units (converter_of r).
Proof.
  intros (inc & up & conv & ms & auth & -> & _ & _ & Hc & _). unfold converter_of.
  change (get (route_val (JStr inc) up (JStr conv) ms auth) (u "converter")) with (JStr conv).
  unfold val_or. cbn. destruct conv; [by apply units_check|done].
Qed.

Lemma incoming_units r : normal_route r -> units (incoming_of r).
Proof.
  intros Hr. unfold incoming_of.
  destruct (typed_val_or (get r (u "incoming_path")) (getDefaultAdvancedCustomIncomingPath (converter_of r)))
    as (s & -> & Hs & _); [|apply default_path_units|done].
  apply (tm_text _ _ (proj2 (normal_typed r Hr) (u "incoming_path"))). rewrite !elem_of_cons; auto.
Qed.

Lemma normal_auth r : normal_route r -> get r (u "auth") = JUndef \/
  exists t n w, get r (u "auth") = auth_val (JStr t) (JStr n) (JStr w) /\ units t /\ units n /\ units w.
Proof.
  intros (inc & up & conv & ms & auth & -> & _ & _ & _ & _ & _ & _ & _ & Ha). rewrite get_route_val_auth.
  destruct auth as [a|]; [right|by left]. destruct Ha as (t & n & w & -> & H). by exists t, n, w.
Qed.

Lemma set_converter_typed r c : normal_route r -> units c ->
  Forall (fun p => typed_member p.1 p.2) (setConverter r c).
Proof.
  intros Hr Hc. unfold setConverter. set (p := if isAdvancedCustomIncomingPathAllowed _ _ then _ else _).
  assert (Hp : units p) by (unfold p; destruct (isAdvancedCustomIncomingPathAllowed _ _);
    [by apply incoming_units|apply default_path_units]).
  pose proof (converter_defaults_typed c p Hc Hp) as [Hu Ha].
  destruct (getAdvancedCustomConverterDefaults c p) as [up auth].
  repeat first [apply Forall_nil_2|apply Forall_cons_2]; cbn [fst snd]; try (by apply typed_text_member; [rewrite !elem_of_cons; auto|]).
  by apply typed_auth_member.
Qed.

Lemma set_auth_typed r m : normal_route r -> Forall (fun p => typed_member p.1 p.2) (setAuthMode r m).
Proof.
  intros Hr. constructor; [|constructor]. apply typed_auth_member. unfold buildAdvancedCustomAuth. cbn [fst snd].
  assert (Hk : forall k d, k = u "name" \/ k = u "value" -> units d ->
    typed_text (val_or (get (get r (u "auth")) k) (JStr d))).
  { intros k d Hk Hd. destruct (typed_val_or (get (get r (u "auth")) k) d) as (s & -> & Hs & _); [|done|by apply typed_str].
    destruct (normal_auth r Hr) as [->|(t & n & w & -> & _ & Hn & Hw)]; [by left|].
    destruct Hk as [->| ->]; by apply typed_str. }
  destruct (seqb m (u "default")); [by left|]. destruct (seqb m (u "none")).
  { right. split; [|split; by left]. eexists _, _. split_and!; [done|reflexivity|by apply units_check]. }
  destruct (seqb m (u "header")); apply typed_auth_val; try by apply units_check.
  all: apply Hk; [by (left; reflexivity) || (right; reflexivity)|by apply units_check].
Qed.

Lemma update_auth_typed r k s : normal_route r -> k = u "name" \/ k = u "value" -> units s ->
  match updateAuth r k s with Some patch => Forall (fun p => typed_member p.1 p.2) patch | None => True end.
Proof.
  intros Hr Hk Hs. unfold updateAuth. destruct (normal_auth r Hr) as [->|(t & n & w & -> & Ht & Hn & Hw)]; [done|].
  change (truthy (auth_val (JStr t) (JStr n) (JStr w))) with true. cbn [negb orb].
  destruct (is_str _ _); [done|]. constructor; [|constructor]. apply typed_auth_member. cbn [fst snd].
  change (get (auth_val (JStr t) (JStr n) (JStr w)) (u "type")) with (JStr t).
  change (get (auth_val (JStr t) (JStr n) (JStr w)) (u "name")) with (JStr n).
  change (get (auth_val (JStr t) (JStr n) (JStr w)) (u "value")) with (JStr w).
  replace (val_or (JStr n) (JStr [])) with (JStr n) by (by destruct n).
  replace (val_or (JStr w) (JStr [])) with (JStr w) by (by destruct w).
  destruct Hk as [->| ->].
  - change (typed_auth (auth_val (JStr t) (JStr s) (JStr w))). by apply typed_auth_val; [|apply typed_str..].
  - change (typed_auth (auth_val (JStr t) (JStr n) (JStr s))). by apply typed_auth_val; [|apply typed_str..].
Qed.

Lemma route_for_path_typed p r : normal_route r -> units p -> typed_route (route_for_path p r).
Proof.
  intros Hr Hp. pose proof (normal_typed r Hr) as Ht. unfold route_for_path.
  destruct (seqb p _); apply typed_patch; try done; repeat first [apply Forall_nil_2|apply Forall_cons_2]; cbn [fst snd].
  - apply typed_text_member; [rewrite !elem_of_cons; auto|done].
  - apply typed_text_member; [rewrite !elem_of_cons; auto|by apply units_check].
  - apply typed_text_member; [rewrite !elem_of_cons; auto|by apply units_check].
  - apply (typed_models_member []). constructor.
  - apply typed_text_member; [rewrite !elem_of_cons; auto|done].
  - destruct (isAdvancedCustomIncomingPathAllowed _ _).
    + destruct (typed_val_or (get r (u "converter")) (u "none")) as (s & -> & Hs & _).
      * apply (tm_text _ _ (proj2 Ht (u "converter"))). rewrite !elem_of_cons; auto.
      * by apply units_check.
      * apply typed_text_member; [rewrite !elem_of_cons; auto|done].
    + apply typed_text_member; [rewrite !elem_of_cons; auto|by apply units_check].
Qed.

(** *** Templates *)

Lemma template_normal inc up conv t n w :
  forallb (forallb (fun c => c <? 65536)%N) [inc; up; conv; t; n; w] && seqb (trim up) up && str_truthy conv = true ->
  normal_route (route_val (JStr inc) up (JStr conv) [] (Some (auth_val (JStr t) (JStr n) (JStr w)))).
Proof.
  cbn [forallb]. rewrite !andb_true_iff. intros [[(Hi & Hu & Hc & Ht & Hn & Hw & _) Hup] Hcv].
  apply units_check in Hi, Hu, Hc, Ht, Hn, Hw. apply seqb_eq in Hup.
  eexists inc, up, conv, [], _. split_and!; try done; try constructor; [by destruct conv|].
  by exists t, n, w.
Qed.

Lemma template_typed key : exists ns, getAdvancedCustomTemplateConfig key = Some (config_val ns) /\ Forall normal_route ns.
Proof.
  assert (F : Forall (fun p => exists ns, cloneAdvancedCustomConfig p.2 = Some (config_val ns) /\ Forall normal_route ns)
                ADVANCED_CUSTOM_TEMPLATE_OPTIONS).
  { unfold ADVANCED_CUSTOM_TEMPLATE_OPTIONS.
    repeat (apply Forall_cons_2; [eexists; split; [vm_compute; reflexivity|]|]); [..|apply Forall_nil_2].
    all: repeat (apply Forall_cons_2; [by apply template_normal|]); apply Forall_nil_2. }
  unfold getAdvancedCustomTemplateConfig. destruct (map_get ADVANCED_CUSTOM_TEMPLATE_OPTIONS key) as [c|] eqn:E.
  - apply map_get_Some_elem in E. rewrite Forall_forall in F. exact (F _ E).
  - unfold ADVANCED_CUSTOM_TEMPLATE_OPTIONS in F |- *. by apply Forall_cons_1 in F as [F _].
Qed.

(** ** Every handler keeps the invariant *)

(** Events carry strings of UTF-16 units, and texts whose configurations are typed. *)
Definition event_typed (ev : Event) : Prop :=
  match ev with
  | JsonChange text => typed_value text
  | AddRoute p | AddSplit p | ChangeGroupPath _ p => units p
  | SetConverter _ s | TypeModels _ s | BlurModels _ s | SetAuthName _ s | SetAuthValue _ s
  | SetUpstreamPath _ s => units s
  | _ => True
  end.

(** What the render of a dialog that is [dialog_ok] shows. *)
Record view_ok (d : Dialog) (v : View) : Prop := mkViewOk {
  vo_routes : Forall normal_route (routes v);
  vo_config : normalizedConfig v = config_val (routes v);
  vo_source : normalizeAdvancedCustomConfig (config d) = Some (normalizedConfig v);
  vo_length : length (routes v) = length (config_routes (config d));
  vo_rows : routeRows v = imap (row_at (routeKeys d)) (routes v);
  vo_keys : row_keys v = routeKeys d;
  vo_error : validateAdvancedCustomConfig parse_url (normalizedConfig v) = Some (validationError v)
}.

Lemma route_render_ok d : dialog_ok d -> exists v, render parse_url d = Some v /\ view_ok d v.
Proof.
  intros Hd. destruct (render_typed d (do_config d Hd)) as (ns & gs & e & En & Hn & Hl & Eg & Ee & ->).
  eexists. split; [done|]. split; try done. by apply row_keys_ok.
Qed.

Lemma rows_normal d v : view_ok d v -> normal_rows (routeRows v).
Proof. intros Hv. apply Forall_rows. rewrite (vo_rows d v Hv), imap_route. apply (vo_routes d v Hv). Qed.

Lemma normal_rows_typed rs : Forall normal_route rs -> Forall typed_route rs.
Proof. intros H. eapply Forall_impl; [exact H|]. apply normal_typed. Qed.

Lemma rows_lookup d v i row : view_ok d v -> routeRows v !! i = Some row -> routes v !! i = Some (row_route row).
Proof.
  intros Hv. rewrite (vo_rows d v Hv), list_lookup_imap. destruct (routes v !! i) eqn:E; [|done].
  by intros [= <-].
Qed.

Lemma change_route_ok d v i patch : dialog_ok d -> view_ok d v ->
  (forall r, normal_route r -> match patch r with Some p => Forall (fun p => typed_member p.1 p.2) p | None => True end) ->
  exists d', change_route v i patch d = Some d' /\ dialog_ok d'.
Proof.
  intros Hd Hv Hp. unfold change_route. destruct (routeRows v !! i) as [row|] eqn:E; cbn; [|by exists d].
  apply (rows_lookup d v i row Hv) in E as Er.
  pose proof (Forall_lookup_1 _ _ _ _ (vo_routes d v Hv) Er) as Hr. specialize (Hp _ Hr).
  destruct (patch (row_route row)) as [p|]; [|by exists d].
  unfold updateRoute. rewrite (vo_source d v Hv). eexists. split; [done|].
  rewrite (vo_config d v Hv), config_routes_val. apply set_config_ok; [done|..].
  - apply Forall_alter; [by apply normal_rows_typed, (vo_routes d v Hv)|].
    intros x Hx _. by apply typed_patch; [apply normal_typed; rewrite Er in Hx; injection Hx as <-|].
  - rewrite length_alter. apply (vo_length d v Hv).
Qed.

Lemma append_route_ok d v p : dialog_ok d -> view_ok d v -> units p ->
  exists d', append_route p d = Some d' /\ dialog_ok d'.
Proof.
  intros Hd Hv Hp. unfold append_route. rewrite (vo_source d v Hv). cbn [mbind option_bind createRouteKey].
  eexists. split; [done|]. rewrite (vo_config d v Hv), config_routes_val. apply set_routes_ok; [done|..].
  - apply Forall_app_2; [by apply normal_rows_typed, (vo_routes d v Hv)|]. constructor; [|constructor].
    apply typed_patch.
    + apply normal_typed. eexists openAIChatPath, openAIChatPath, (u "none"), [], None.
      split_and!; try done; by apply units_check || constructor.
    + repeat first [apply Forall_nil_2|apply Forall_cons_2]; cbn [fst snd];
        (apply typed_text_member; [rewrite !elem_of_cons; auto|done]).
  - apply NoDup_app. split_and!; [apply (do_keys d Hd)| |apply NoDup_singleton].
    intros k Hk Hk'. apply list_elem_of_singleton in Hk'. pose proof (do_below d Hd) as Hb.
    rewrite Forall_forall in Hb. by apply (fresh_key _ k (Hb k Hk)).
  - apply Forall_app_2.
    + eapply Forall_impl; [apply (do_below d Hd)|]. intros k. apply key_below_mono. lia.
    + constructor; [|constructor]. right. eexists. split; [|done]. lia.
  - rewrite !length_app, (do_length d Hd), (vo_length d v Hv). done.
Qed.

Lemma length_without {A} i (l : list A) : (i < length l)%nat -> length (without i l) = (length l - 1)%nat.
Proof. intros H. unfold without. rewrite length_app, length_take, length_drop. lia. Qed.

Lemma without_big {A} i (l : list A) : (length l <= i)%nat -> without i l = l.
Proof. intros H. unfold without. rewrite take_ge, drop_ge, app_nil_r by lia. done. Qed.

Lemma without_sublist {A} i (l : list A) : without i l `sublist_of` l.
Proof. unfold without. rewrite <- delete_take_drop. apply sublist_delete. Qed.

Lemma without_Forall {A} (P : A -> Prop) i l : Forall P l -> Forall P (without i l).
Proof. intros H. apply Forall_app_2; [by apply Forall_take|by apply Forall_drop]. Qed.

Lemma remove_route_ok d v i : dialog_ok d -> view_ok d v -> exists d', removeRoute i d = Some d' /\ dialog_ok d'.
Proof.
  intros Hd Hv. unfold removeRoute. rewrite (vo_source d v Hv). eexists. split; [done|].
  rewrite (vo_config d v Hv), config_routes_val. apply set_routes_ok; [done|..].
  - by apply without_Forall, normal_rows_typed, (vo_routes d v Hv).
  - eapply sublist_NoDup; [apply (do_keys d Hd)|apply without_sublist].
  - by apply without_Forall, (do_below d Hd).
  - pose proof (do_length d Hd). pose proof (vo_length d v Hv).
    destruct (decide (i < length (routes v))%nat) as [Hi|Hi].
    + rewrite !length_without by lia. lia.
    + rewrite !without_big by lia. lia.
Qed.

Lemma perm_routes_ok d v (f : forall A, list A -> list A) : dialog_ok d -> view_ok d v ->
  (forall A (l : list A), f A l ≡ₚ l) ->
  exists d', replaceRoutes (f _ (routes v)) (f _ (row_keys v)) d = Some d' /\ dialog_ok d'.
Proof.
  intros Hd Hv Hf. apply replace_ok; [done|..].
  - rewrite Hf. by apply normal_rows_typed, (vo_routes d v Hv).
  - rewrite Hf, (vo_keys d v Hv). done.
  - rewrite Hf. apply (vo_length d v Hv).
Qed.

Lemma swap_routes_ok d v i j : dialog_ok d -> view_ok d v -> exists d', swapRoutes v i j d = Some d' /\ dialog_ok d'.
Proof.
  intros Hd Hv. unfold swapRoutes. destruct (i =? j)%nat; [by exists d|].
  apply (perm_routes_ok d v (fun A => @swap_at A i j)); [done|done|]. intros A l. apply swap_at_perm.
Qed.

Lemma same_path_indexes d v i row : view_ok d v -> routeRows v !! i = Some row ->
  exists indexes, samePathIndexes v i = Some indexes.
Proof.
  intros Hv Hr. unfold samePathIndexes. apply (rows_lookup d v i row Hv) in Hr.
  assert (E : mapM getRouteIncomingPath (routes v) = Some (map path_of (routes v))).
  { apply mapM_Some. pose proof (vo_routes d v Hv) as H. clear -H.
    induction H; cbn; constructor; [by apply normal_path|done]. }
  rewrite E. cbn [mbind option_bind]. change (map path_of) with (fmap (M := list) path_of).
  rewrite list_lookup_fmap, Hr. by eexists.
Qed.

Lemma move_within_ok d v i dir row : dialog_ok d -> view_ok d v -> routeRows v !! i = Some row ->
  exists d', moveRouteWithinGroup v i dir d = Some d' /\ dialog_ok d'.
Proof.
  intros Hd Hv Hr. unfold moveRouteWithinGroup. destruct (same_path_indexes d v i row Hv Hr) as [ixs ->].
  cbn [mbind option_bind]. destruct (at_ _ _); [by apply swap_routes_ok|by exists d].
Qed.

Lemma move_to_end_ok d v i row : dialog_ok d -> view_ok d v -> routeRows v !! i = Some row ->
  exists d', moveRouteToGroupEnd v i d = Some d' /\ dialog_ok d'.
Proof.
  intros Hd Hv Hr. unfold moveRouteToGroupEnd. destruct (same_path_indexes d v i row Hv Hr) as [ixs ->].
  cbn [mbind option_bind]. destruct (last ixs) as [j|]; [|by exists d]. destruct (i =? j)%nat; [by exists d|].
  apply (perm_routes_ok d v (fun A => @move_to A i j)); [done|done|]. intros A l. apply move_to_perm.
Qed.

Lemma fix_order_ok d v : dialog_ok d -> view_ok d v -> exists d', fixCatchAllOrder v d = Some d' /\ dialog_ok d'.
Proof.
  intros Hd Hv. unfold fixCatchAllOrder.
  destruct (next_rows_spec (routeRows v) (rows_normal d v Hv)) as (next & -> & _ & Hp & _).
  cbn [mbind option_bind]. assert (Hr : map row_route next ≡ₚ routes v).
  { change (map row_route) with (fmap (M := list) row_route). rewrite Hp.
    change (fmap (M := list) row_route) with (map row_route). by rewrite (vo_rows d v Hv), imap_route. }
  apply replace_ok; [done|..].
  - rewrite Hr. by apply normal_rows_typed, (vo_routes d v Hv).
  - rewrite <- (vo_keys d v Hv). unfold row_keys. change (map row_key) with (fmap (M := list) row_key). by rewrite Hp.
  - rewrite Hr. apply (vo_length d v Hv).
Qed.

Lemma group_path_ok d v g p : dialog_ok d -> view_ok d v -> units p ->
  exists d', updateGroupIncomingPath v g (Some p) d = Some d' /\ dialog_ok d'.
Proof.
  intros Hd Hv Hp. apply replace_ok; [done|..].
  - apply Forall_lookup. intros i x. rewrite list_lookup_imap. destruct (routes v !! i) as [r|] eqn:E; [|done].
    pose proof (Forall_lookup_1 _ _ _ _ (vo_routes d v Hv) E) as Hr. intros [= <-].
    destruct (set_has _ i); [|by apply normal_typed]. apply route_for_path_typed; [done|].
    by apply units_str_or; [|apply units_check].
  - by rewrite (vo_keys d v Hv).
  - rewrite length_imap. apply (vo_length d v Hv).
Qed.

(** The text of the JSON editor. *)
Lemma validate_typed c : typed_config c -> exists ns e, normalizeAdvancedCustomConfig c = Some (config_val ns)
  /\ Forall normal_route ns /\ validateAdvancedCustomConfig parse_url c = Some e
  /\ validateAdvancedCustomConfig parse_url (config_val ns) = Some e.
Proof.
  intros Hc. destruct (typed_config_normal c Hc) as (ns & En & Hn & _). destruct (validate_total ns Hn) as [e Ee].
  exists ns, e. split_and!; [done|done| |done]. rewrite <- Ee. destruct Hc as (rs & -> & _).
  unfold validateAdvancedCustomConfig. change (truthy (config_val rs)) with true.
  change (truthy (config_val ns)) with true. cbn [negb]. by rewrite En, (normal_config_stable ns Hn).
Qed.

Lemma parse_json_ok d : dialog_ok d -> exists error o, parseJsonEditorConfig parse_url d = Some (setJsonError error d, o)
  /\ dialog_ok (setJsonError error d)
  /\ match o with
     | Some c => parseAdvancedCustomConfig (Some (jsonText d)) = Some c
                 /\ exists ns, normalizeAdvancedCustomConfig c = Some (config_val ns) /\ Forall normal_route ns
                    /\ validateAdvancedCustomConfig parse_url (config_val ns) = Some None
     | None => True
     end.
Proof.
  intros Hd. unfold parseJsonEditorConfig.
  assert (Hok : forall error, dialog_ok (setJsonError error d)) by (intros error; exact (set_json_ok d _ error Hd (do_json d Hd))).
  destruct (parseAdvancedCustomConfig _) as [c|] eqn:E; [|by eexists _, None].
  destruct (validate_typed c (do_json d Hd c E)) as (ns & e & En & Hn & Ee & Ee'). rewrite Ee. cbn [mbind option_bind].
  destruct e as [[i m]|]; [by eexists _, None|]. eexists _, (Some c).
  split; [done|]. split; [apply Hok|]. split; [done|]. by exists ns.
Qed.

Lemma apply_config_ok d c ns : dialog_ok d -> normalizeAdvancedCustomConfig c = Some (config_val ns) ->
  Forall normal_route ns -> exists d', apply_config c d = Some d' /\ dialog_ok d'.
Proof.
  intros Hd En Hn. unfold apply_config. rewrite En. cbn [mbind option_bind].
  destruct (normal_text ns Hn) as (t & Et & Ep). rewrite Et. cbn [mbind option_bind]. eexists. split; [done|].
  apply set_json_ok; [by apply load_config_ok, normal_rows_typed|]. by apply (normal_text_typed ns).
Qed.

Lemma apply_template_ok d v append : dialog_ok d -> view_ok d v ->
  exists d', applyTemplate parse_url v append d = Some d' /\ dialog_ok d'.
Proof.
  intros Hd Hv. unfold applyTemplate. destruct (template_typed (templateKey d)) as (ts & -> & Ht).
  cbn [mbind option_bind]. destruct append; [|by apply (apply_config_ok d _ ts); [|apply normal_config_stable|]].
  assert (Happ : forall d c ns, dialog_ok d -> normalizeAdvancedCustomConfig c = Some (config_val ns) ->
    Forall normal_route ns -> exists d',
      (base ← normalizeAdvancedCustomConfig c; template ← normalizeAdvancedCustomConfig (config_val ts);
       apply_config (config_val (config_routes base ++ config_routes template)) d) = Some d' /\ dialog_ok d').
  { intros d0 c ns Hd0 Ec Hn. rewrite Ec, (normal_config_stable ts Ht). cbn [mbind option_bind].
    rewrite !config_routes_val. apply (apply_config_ok d0 _ (ns ++ ts)); [done| |by apply Forall_app_2].
    apply normal_config_stable. by apply Forall_app_2. }
  case_bool_decide.
  - destruct (parse_json_ok d Hd) as (err & o & -> & Hd' & Ho). cbn [mbind option_bind].
    destruct o as [c|]; [|by eexists]. destruct Ho as (_ & ns & En & Hn & _). by apply (Happ _ c ns).
  - cbn [mbind option_bind]. apply (Happ d _ (routes v)); [done| |apply (vo_routes d v Hv)].
    rewrite (vo_config d v Hv). apply normal_config_stable, (vo_routes d v Hv).
Qed.

Lemma save_ok d c ns : dialog_ok d -> isOpen d = true -> normalizeAdvancedCustomConfig c = Some (config_val ns) -> Forall normal_route ns ->
  validateAdvancedCustomConfig parse_url (config_val ns) = Some None ->
  exists d', (text ← stringifyAdvancedCustomConfig c; Some (close (onSave text d))) = Some d' /\ dialog_ok d'.
Proof.
  intros Hd Hopen En Hn Hv. unfold stringifyAdvancedCustomConfig. rewrite En.
  destruct (normal_text ns Hn) as (t & Et & Ep). unfold stringifyAdvancedCustomConfig in Et.
  rewrite (normal_config_stable ns Hn) in Et. cbn [mbind option_bind] in *. rewrite Et. eexists. split; [done|].
  destruct Hd as [? ? ? ? ? ? Hs Hone]. split; try done; cbn [saved isOpen close onSave].
  - apply Forall_app_2; [done|]. constructor; [|constructor]. by exists ns.
  - right. destruct Hone as [->|[Hclosed _]]; [done|congruence].
Qed.

Lemma toast_ok d m : dialog_ok d -> dialog_ok (toast_error m d).
Proof. by intros []. Qed.

Lemma save_config_ok d v : dialog_ok d -> isOpen d = true -> view_ok d v -> exists d', saveConfig parse_url v d = Some d' /\ dialog_ok d'.
Proof.
  intros Hd Hopen Hv. unfold saveConfig. case_bool_decide.
  - destruct (parse_json_ok d Hd) as (err & o & -> & Hd' & Ho). cbn [mbind option_bind].
    destruct o as [c|]; [|eexists; split; [done|by apply toast_ok]].
    destruct Ho as (_ & ns & En & Hn & Ee). by apply (save_ok _ c ns).
  - pose proof (vo_error d v Hv) as He. destruct (validationError v) as [[i m]|].
    + eexists. split; [done|by apply toast_ok].
    + rewrite (vo_config d v Hv) in He |- *.
      apply (save_ok d _ (routes v)); [done|done|apply normal_config_stable, (vo_routes d v Hv)|apply (vo_routes d v Hv)|done].
Qed.

Lemma switch_visual_ok d : dialog_ok d -> exists d', switchToVisualMode parse_url d = Some d' /\ dialog_ok d'.
Proof.
  intros Hd. unfold switchToVisualMode. destruct (parse_json_ok d Hd) as (err & o & -> & Hd' & Ho).
  cbn [mbind option_bind]. destruct o as [c|]; [|by eexists]. destruct Ho as (_ & ns & -> & Hn & _).
  cbn [mbind option_bind]. eexists. split; [done|]. by apply set_mode_ok, load_config_ok, normal_rows_typed.
Qed.

Lemma switch_json_ok d v : dialog_ok d -> view_ok d v -> exists d', switchToJsonMode v d = Some d' /\ dialog_ok d'.
Proof.
  intros Hd Hv. unfold switchToJsonMode. pose proof (vo_routes d v Hv) as Hn. rewrite (vo_config d v Hv).
  destruct (normal_text _ Hn) as (t & Et & Ep). rewrite Et. cbn [mbind option_bind]. eexists. split; [done|].
  apply set_mode_ok, set_json_ok; [done|]. by apply (normal_text_typed (routes v)).
Qed.

Lemma route_offered_row v i p : route_offered v i p = true -> exists row, routeRows v !! i = Some row.
Proof.
  unfold route_offered, row_position. destruct (routeRows v !! i) as [row|]; [by exists row|done].
Qed.

Lemma route_handle_ok d v ev : dialog_ok d -> isOpen d = true -> view_ok d v -> offered v d ev = true -> event_typed ev ->
  exists d', handle parse_url v ev d = Some d' /\ dialog_ok d'.
Proof.
  intros Hd Hopen Hv Ho He.
  destruct ev; cbn [handle event_typed offered] in *;
    try (apply change_route_ok; [done|done|]; intros r Hr;
         first [by apply set_converter_typed|by apply set_auth_typed|by apply update_auth_typed; [|left|]
               |by apply update_auth_typed; [|right|]|constructor; [|constructor]; cbn [fst snd]]).
  - by apply switch_visual_ok.
  - by apply switch_json_ok.
  - eexists. split; [done|]. by apply set_json_ok.
  - eexists. split; [done|]. by destruct Hd.
  - by apply apply_template_ok.
  - unfold addRoute. destruct (_ || _); [by eexists|]. by apply (append_route_ok d v).
  - unfold addRouteForIncomingPath. apply (append_route_ok d v); [done|done|]. by apply units_str_or; [|apply units_check].
  - by apply group_path_ok.
  - apply andb_true_iff in Ho as [_ Ho]. apply route_offered_row in Ho as [row Hrow]. by apply (move_within_ok d v _ _ row).
  - apply andb_true_iff in Ho as [_ Ho]. apply route_offered_row in Ho as [row Hrow]. by apply (move_within_ok d v _ _ row).
  - apply andb_true_iff in Ho as [_ Ho]. apply route_offered_row in Ho as [row Hrow]. by apply (move_to_end_ok d v _ row).
  - by apply (remove_route_ok d v).
  - apply typed_models_member. destruct (seqb value []); [constructor|by apply units_split].
  - apply typed_models_member. by apply units_parse_models.
  - apply typed_text_member; [rewrite !elem_of_cons; auto|done].
  - by apply fix_order_ok.
  - by apply save_config_ok.
  - eexists. split; [done|]. destruct Hd as [? ? ? ? ? ? ? [Hs|[_ Hs]]]; split; try done; [by left|by right].
Qed.

Lemma route_dispatch_ok d ev : dialog_ok d -> event_typed ev -> dialog_ok (dispatch parse_url d ev).
Proof.
  intros Hd He. unfold dispatch. destruct (negb (isOpen d) || crashed d) eqn:E; [done|].
  apply orb_false_iff in E as [E _]. apply negb_false_iff in E.
  destruct (route_render_ok d Hd) as (v & -> & Hv). destruct (offered v d ev) eqn:Ho; [|done].
  destruct (route_handle_ok d v ev Hd E Hv Ho He) as (d' & -> & Hd'). unfold commit. destruct (isOpen d'); [|done].
  by destruct (route_render_ok d' Hd') as (v' & -> & _).
Qed.

Lemma route_initial_ok value : typed_value value -> exists d, open_dialog parse_url value = Some d /\ dialog_ok d
  /\ editMode d = VisualMode /\ isOpen d = true
  /\ (forall c, parseAdvancedCustomConfig (Some value) = Some c -> config d = c
                /\ exists ns, normalizeAdvancedCustomConfig c = Some (config_val ns) /\ Forall normal_route ns
                              /\ parseAdvancedCustomConfig (Some (jsonText d)) = Some (config_val ns)).
Proof.
  intros Ht. unfold open_dialog, initial_dialog.
  assert (Hc : typed_config (default createAdvancedCustomConfig (parseAdvancedCustomConfig (Some value)))).
  { destruct (parseAdvancedCustomConfig (Some value)) as [c|] eqn:E; [by apply Ht|].
    apply normal_config_typed. constructor; [|constructor].
    eexists openAIChatPath, openAIChatPath, (u "none"), [], None.
    split_and!; try done; by apply units_check || constructor. }
  set (c := default _ _) in *. destruct (typed_config_normal c Hc) as (ns & En & Hn & Hl).
  destruct (normal_text ns Hn) as (t & Et & Ep). unfold stringifyAdvancedCustomConfig in Et |- *.
  rewrite En. rewrite (normal_config_stable ns Hn) in Et. cbn [mbind option_bind] in *. rewrite Et.
  cbn [mbind option_bind]. rewrite config_routes_val.
  set (d := mkDialog _ _ _ _ _ _ _ _ _ _ _ _).
  assert (Hd : dialog_ok d).
  { split; try done; cbn [config jsonText routeKeys routeKeyCounter saved d].
    - intros c' E'. rewrite Ep in E'. injection E' as <-. by apply normal_config_typed.
    - apply NoDup_alt. intros i j x. rewrite !list_lookup_imap.
      destruct (ns !! i), (ns !! j); try done. intros Ei Ej. apply initial_key_inj.
      change (Some (initial_key i) = Some x) in Ei. change (Some (initial_key j) = Some x) in Ej. congruence.
    - apply Forall_lookup. intros i x. rewrite list_lookup_imap. destruct (ns !! i); [|done]. intros [= <-].
      left. by exists i.
    - by rewrite length_imap.
    - by left. }
  destruct (route_render_ok d Hd) as (v & -> & _). exists d. split_and!; try done.
  intros c' E'. unfold d, c in *. rewrite E' in En |- *. cbn. split; [done|]. exists ns. by split_and!.
Qed.

Lemma route_run_ok value es : typed_value value -> Forall event_typed es ->
  exists d, run_dialog parse_url value es = Some d /\ dialog_ok d.
Proof.
  intros Hv He. unfold run_dialog. destruct (route_initial_ok value Hv) as (d0 & -> & Hd & _). cbn.
  eexists. split; [done|]. revert d0 Hd. induction He as [|ev es Hev _ IH]; intros d0 Hd; [done|].
  cbn [fold_left]. apply IH. by apply route_dispatch_ok.
Qed.

(** ** The order of catch-all routes *)

(** The validator's complaint about the order comes from a catch-all route before a
    route of the same path that has models. *)
Definition in_order (v w : RouteView) : Prop :=
  rv_incoming v = rv_incoming w -> rv_models v = [] -> rv_models w = [].

Ltac other_message H := exfalso; discriminate H.

Lemma auth_message a m : validateRouteAuth a = Some (Some m) -> m <> catchAllOrderErrorMessage.
Proof.
  unfold validateRouteAuth, mbind, option_bind. intros H ->. repeat (break_hyp H; try done); other_message H.
Qed.

Lemma models_message i ms : forall seen st j,
  models_loop i ms seen st <> inl (j, catchAllOrderErrorMessage).
Proof.
  induction ms as [|m ms IH]; intros seen st j; cbn [models_loop]; [done|].
  repeat break_goal; try (intros H; other_message H). apply IH.
Qed.

Lemma order_message vs st i v j : known_models vs st.1 -> Forall (fun w => in_order w v) vs ->
  check_route parse_url i v st <> Some (inl (j, catchAllOrderErrorMessage)).
Proof.
  intros Hk Hord H. unfold check_route in H.
  destruct (negb (str_truthy (rv_incoming v))); [other_message H|].
  destruct (negb (startsWith _ _)); [other_message H|].
  destruct (includes _ _); [other_message H|].
  destruct (check_model_list i v st.2) as [e|ml] eqn:El.
  { injection H as ->. unfold check_model_list in El. repeat (break_hyp El; try done); other_message El. }
  destruct (validateAdvancedCustomRouteModels i (rv_incoming v) (rv_models v) st.1) as [e|byPath] eqn:Em.
  - injection H as ->. clear El. unfold validateAdvancedCustomRouteModels in Em.
    pose proof (Hk (rv_incoming v)) as Hp.
    destruct (default (None, []) (map_get st.1 (rv_incoming v))) as [ca known]. destruct Hp as [Hca _]. cbn in Hca.
    destruct (Nat.eqb_spec (length (rv_models v)) 0) as [E|E].
    { destruct ca; [other_message Em|done]. }
    destruct ca as [k|].
    + assert (Some k = None) as E'; [|done]. apply Hca. intros w Hw Hwp Hwm. rewrite Forall_forall in Hord.
      apply E. by rewrite (Hord w Hw Hwp Hwm).
    + destruct (models_loop _ _ _ _) eqn:Eml; [injection Em as ->; by apply models_message in Eml|done].
  - unfold check_upstream, mbind, option_bind in H. repeat (break_hyp H; try done); try other_message H.
    all: repeat match goal with E : Some _ = Some _ |- _ => injection E as E end; subst;
      try done; try discriminate.
    all: match goal with E : validateRouteAuth _ = Some (Some _) |- _ => by apply auth_message in E end.
Qed.

Lemma order_message_loop rs : forall vs st i ws j, known_models vs st.1 -> mapM view_route rs = Some ws ->
  ForallOrdPairs in_order (vs ++ ws) ->
  validate_loop parse_url i rs st <> Some (Some (j, catchAllOrderErrorMessage)).
Proof.
  induction rs as [|r rs IH]; intros vs st i ws j Hk Hws Hord; cbn [validate_loop]; [done|].
  cbn in Hws. destruct (view_route r) as [v|]; [|done]. cbn in Hws. destruct (mapM view_route rs) as [ws'|]; [|done].
  cbn in Hws. injection Hws as <-. cbn [mbind option_bind].
  assert (Hv : Forall (fun w => in_order w v) vs).
  { clear -Hord. induction vs as [|w vs IHvs]; [constructor|]. cbn in Hord. inversion Hord as [|? ? Hw Hrest]; subst.
    constructor; [|by apply IHvs]. apply Forall_app in Hw as [_ Hw]. by apply Forall_cons in Hw as [Hw _]. }
  pose proof (order_message vs st i v j Hk Hv) as Hm.
  destruct (check_route parse_url i v st) as [[e|st']|] eqn:E; cbn [mbind option_bind];
    [intros H; apply Hm; by injection H as ->| |done].
  apply (IH (vs ++ [v]) st' (S i) ws' j); [|done|by rewrite <- app_assoc].
  clear -E Hk. unfold check_route in E. pose proof (routeModels_spec parse_url vs st.1 i v Hk) as Hs.
  destruct (validateAdvancedCustomRouteModels i (rv_incoming v) (rv_models v) st.1) as [e|byPath];
    unfold mbind, option_bind in E; repeat (break_hyp E; try done); injection E as <-; apply Hs.
Qed.

(** Rows of which every catch-all comes after the others of its path. *)
Definition rows_in_order (a b : AdvancedCustomRouteRow) : Prop :=
  path_of (row_route a) = path_of (row_route b) ->
  isCatchAllRoute (row_route a) = true -> isCatchAllRoute (row_route b) = true.

Lemma ordered_rows_pairs rs :
  ForallOrdPairs (fun a b => isCatchAllRoute (row_route a) = true -> isCatchAllRoute (row_route b) = true)
    (orderedRows rs).
Proof.
  unfold orderedRows. set (cs := List.filter (fun row => isCatchAllRoute (row_route row)) rs).
  assert (Hc : Forall (fun row => isCatchAllRoute (row_route row) = true) cs).
  { apply List.Forall_forall. by intros row [_ H]%filter_In. }
  assert (Hn : Forall (fun row => isCatchAllRoute (row_route row) = false)
                 (List.filter (fun row => negb (isCatchAllRoute (row_route row))) rs)).
  { apply List.Forall_forall. by intros row [_ H%negb_true_iff]%filter_In. }
  clearbody cs. induction Hn as [|row ns Hr _ IH]; cbn [app].
  - induction Hc as [|c cs Hc' Hcs IH]; constructor; [|done]. eapply Forall_impl; [exact Hcs|]. done.
  - constructor; [|done]. apply List.Forall_forall. intros b _ Ha. congruence.
Qed.

Lemma ordered_by_path rows :
  (forall p, exists rs, List.filter (on_path p) rows = orderedRows rs) -> ForallOrdPairs rows_in_order rows.
Proof.
  intros H. assert (H' : forall p, ForallOrdPairs (fun a b => isCatchAllRoute (row_route a) = true ->
      isCatchAllRoute (row_route b) = true) (List.filter (on_path p) rows)).
  { intros p. destruct (H p) as [rs ->]. apply ordered_rows_pairs. }
  clear H. induction rows as [|a rows IH]; constructor.
  - apply List.Forall_forall. intros b Hb Hp. specialize (H' (path_of (row_route a))). cbn in H'.
    unfold on_path at 1 in H'. rewrite seqb_refl in H'. inversion H' as [|? ? Ha _]; subst.
    rewrite List.Forall_forall in Ha. apply Ha. apply filter_In. split; [done|]. by apply seqb_eq.
  - apply IH. intros p. specialize (H' p). cbn in H'. destruct (on_path p a); [by inversion H'|done].
Qed.

Lemma views_in_order rows : normal_rows rows -> ForallOrdPairs rows_in_order rows ->
  exists ws, mapM view_route (map row_route rows) = Some ws /\ ForallOrdPairs in_order ws.
Proof.
  intros Hn Ho.
  assert (exists ws, Forall2 (fun row w => rv_incoming w = path_of (row_route row)
                       /\ (rv_models w = [] <-> isCatchAllRoute (row_route row) = true)) rows ws
                     /\ mapM view_route (map row_route rows) = Some ws) as (ws & H2 & Em).
  { clear Ho. induction Hn as [|row rows Hr _ (ws & H2 & Em)]; [by exists []|].
    destruct (normal_view _ Hr) as (v & Ev & Hp & Hc & _). exists (v :: ws). split; [by constructor|].
    cbn. rewrite Ev. cbn. by rewrite Em. }
  exists ws. split; [done|]. clear Em Hn. induction H2 as [|row w rows ws [Hp Hc] H2 IH]; [constructor|].
  inversion Ho as [|? ? Hr Ho']; subst. constructor; [|by apply IH]. clear IH Ho Ho'.
  induction H2 as [|row' w' rows ws [Hp' Hc'] H2 IH]; [constructor|]. apply Forall_cons in Hr as [Hr Hrs].
  constructor; [|by apply IH]. intros E Em. apply Hc'. apply Hr; [congruence|by apply Hc].
Qed.

Lemma rows_on_path p rows :
  List.filter (fun r => seqb (path_of r) p) (map row_route rows) = map row_route (List.filter (on_path p) rows).
Proof.
  induction rows as [|row rows IH]; [done|]. cbn. unfold on_path at 1. destruct (seqb _ p); cbn; by rewrite IH.
Qed.

Lemma rows_zip rows :
  map (fun row => (row_route row, row_key row)) rows = zip (map row_route rows) (map row_key rows).
Proof. induction rows as [|row rows IH]; [done|]. cbn. by rewrite IH. Qed.

(** The dialog after the button, and what it shows. *)
Lemma fix_order_view d v next : dialog_ok d -> view_ok d v -> nextRows (routeRows v) = Some next ->
  normal_rows next -> exists d' v', fixCatchAllOrder v d = Some d' /\ render parse_url d' = Some v' /\ view_ok d' v'
    /\ normalizedConfig v' = config_val (map row_route next) /\ row_keys v' = map row_key next.
Proof.
  intros Hd Hv En Hn. destruct (fix_order_ok d v Hd Hv) as (d' & Ed & Hd').
  destruct (route_render_ok d' Hd') as (v' & Ev & Hv'). exists d', v'. split; [done|]. split; [done|]. split; [done|].
  unfold fixCatchAllOrder in Ed. rewrite En in Ed. cbn [mbind option_bind] in Ed. unfold replaceRoutes in Ed.
  rewrite (vo_source d v Hv) in Ed. cbn [mbind option_bind] in Ed. split.
  - pose proof (vo_source d' v' Hv') as Es. injection Ed as <-. cbn [config setRoutes] in Es.
    rewrite normal_config_stable in Es by (by apply Forall_rows). by injection Es.
  - rewrite (vo_keys d' v' Hv'). by injection Ed as <-.
Qed.

(** Rows in order are not reported. *)
Lemma in_order_not_reported rows j : normal_rows rows -> ForallOrdPairs rows_in_order rows ->
  validateAdvancedCustomConfig parse_url (config_val (map row_route rows))
  <> Some (Some (j, catchAllOrderErrorMessage)).
Proof.
  intros Hn Ho He. unfold validateAdvancedCustomConfig in He.
  change (truthy (config_val (map row_route rows))) with true in He.
  cbn [negb] in He. rewrite normal_config_stable in He by (by apply Forall_rows). cbn [mbind option_bind] in He.
  rewrite config_routes_val in He. destruct (_ =? 0)%nat; [by other_message He|].
  destruct (views_in_order rows Hn Ho) as (ws & Ews & Hord).
  revert He. apply (order_message_loop _ [] ([], None) 0 ws j); [|done|done].
  intros p. split; cbn; setoid_rewrite elem_of_nil; [naive_solver|]. intros m. naive_solver.
Qed.

(** C17: Fixing the order of catch-all routes works: from every state the dialog can reach,
    the button's handler succeeds and the next render has the same rows (routes with their
    keys) in another order, with the same incoming path at every position; on each path
    the routes with models come first and the catch-all routes after them, both in their
    old order; and the validator no longer complains about that order. *)
Theorem fix_order_result (value : jstr) (es : list Event) (d : Dialog) (v : View) :
  typed_value value -> Forall event_typed es -> run_dialog parse_url value es = Some d ->
  render parse_url d = Some v ->
  exists d' v', handle parse_url v FixOrder d = Some d' /\ render parse_url d' = Some v'
    /\ map (fun row => (row_route row, row_key row)) (routeRows v')
       ≡ₚ map (fun row => (row_route row, row_key row)) (routeRows v)
    /\ map path_of (routes v') = map path_of (routes v)
    /\ (forall p, let on_p := List.filter (fun r => seqb (path_of r) p) in
          on_p (routes v') = List.filter (fun r => negb (isCatchAllRoute r)) (on_p (routes v))
                             ++ List.filter isCatchAllRoute (on_p (routes v)))
    /\ canFixCatchAllOrder v' = false.
Proof.
  intros Hval Hes Hrun Hr. destruct (route_run_ok value es Hval Hes) as (d0 & E & Hd). rewrite Hrun in E. injection E as <-.
  destruct (route_render_ok d Hd) as (v0 & E & Hv). rewrite Hr in E. injection E as <-.
  pose proof (rows_normal d v Hv) as Hn.
  destruct (next_rows_spec (routeRows v) Hn) as (next & En & Hpaths & Hperm & Hf).
  assert (Hnn : normal_rows next) by (unfold normal_rows in *; by rewrite Hperm).
  destruct (fix_order_view d v next Hd Hv En Hnn) as (d' & v' & Ed & Ev & Hv' & Ec & Ek). exists d', v'.
  assert (Er : routes v' = map row_route next) by (unfold routes; by rewrite Ec).
  assert (Erows : map row_route (routeRows v) = routes v) by (by rewrite (vo_rows d v Hv), imap_route).
  split; [done|]. split; [done|]. split_and!.
  - assert (Erows' : map row_route (routeRows v') = map row_route next) by (by rewrite (vo_rows d' v' Hv'), imap_route).
    unfold row_keys in Ek. rewrite (rows_zip (routeRows v')), Erows', Ek, <- rows_zip.
    change (map (fun row => (row_route row, row_key row)))
      with (fmap (M := list) (fun row => (row_route row, row_key row))). by rewrite Hperm.
  - rewrite Er, <- Erows, !map_map. exact Hpaths.
  - intros p on_p. subst on_p. cbv beta. rewrite Er, <- Erows, !rows_on_path, Hf. clear. unfold orderedRows.
    rewrite map_app. f_equal; induction (List.filter (on_path p) (routeRows v)) as [|row rows IH]; cbn; try done;
      destruct (isCatchAllRoute (row_route row)); cbn; by rewrite IH.
  - unfold canFixCatchAllOrder. pose proof (vo_error d' v' Hv') as He. rewrite Ec in He.
    destruct (validationError v') as [[j m]|]; [|done]. apply seqb_neq. intros ->.
    revert He. apply in_order_not_reported; [done|]. apply ordered_by_path. intros p. eexists. apply Hf.
Qed.

(** C18: The dialog keeps to its types. When the text it is opened on and the texts typed
    into its JSON editor have configurations of the declared type, or none, then in every
    run, whatever controls are used, no render and no handler throws, the configuration
    has that type, and the rows of a render are the routes with a key each, all different. *)
Theorem dialog_type_safe (value : jstr) (es : list Event) :
  typed_value value -> Forall event_typed es ->
  exists d v, run_dialog parse_url value es = Some d /\ render parse_url d = Some v
    /\ crashed d = false /\ exceptions d = 0%nat /\ typed_config (config d)
    /\ map row_route (routeRows v) = routes v /\ NoDup (map row_key (routeRows v)).
Proof.
  intros Hv He. destruct (route_run_ok value es Hv He) as (d & Ed & Hd). destruct (route_render_ok d Hd) as (v & Er & Hw).
  exists d, v. split; [done|]. split; [done|]. split; [apply (do_quiet d Hd)|]. split; [apply (do_quiet d Hd)|].
  split; [apply (do_config d Hd)|]. split; [by rewrite (vo_rows d v Hw), imap_route|].
  fold (row_keys v). rewrite (vo_keys d v Hw). apply (do_keys d Hd).
Qed.

(** C16: What the dialog saves is valid: in every run on typed texts a text is saved at
    most once, the dialog closes with it, and the text parses to a configuration that the
    validator of the form accepts, whichever editor it was written in. *)
Theorem saved_routes_valid (value : jstr) (es : list Event) (d : Dialog) (text : jstr) :
  typed_value value -> Forall event_typed es -> run_dialog parse_url value es = Some d -> text ∈ saved d ->
  saved d = [text] /\ isOpen d = false
  /\ exists config, parseAdvancedCustomConfig (Some text) = Some config
                    /\ validateAdvancedCustomConfig parse_url config = Some None.
Proof.
  intros Hv He Hr Hin. destruct (route_run_ok value es Hv He) as (d0 & E & Hd). rewrite Hr in E. injection E as <-.
  pose proof (do_saved d Hd) as Hs. rewrite Forall_forall in Hs. destruct (Hs text Hin) as (ns & Hp & Hok).
  destruct (do_once d Hd) as [E|[Ho Hl]]; [rewrite E in Hin; by apply elem_of_nil in Hin|].
  split_and!; [|done|by exists (config_val ns)].
  destruct (saved d) as [|t [|]]; try done. apply list_elem_of_singleton in Hin. by subst.
Qed.

(** ** The button of the current mode *)

(** The controls of the routes. *)
Definition route_edit (ev : Event) : bool :=
  match ev with
  | SwitchToVisual | SwitchToJson | JsonChange _ | SelectTemplate _ | ApplyTemplate _ | Save | Cancel => false
  | _ => true
  end.

Definition same_text (d d' : Dialog) : Prop := jsonText d' = jsonText d /\ isOpen d' = isOpen d.

Lemma route_edit_text v ev d d' : route_edit ev = true -> handle parse_url v ev d = Some d' -> same_text d d'.
Proof.
  assert (Hrep : forall rs keys, replaceRoutes rs keys d = Some d' -> same_text d d').
  { unfold replaceRoutes. intros rs keys H. destruct (normalizeAdvancedCustomConfig _); [|done]. by injection H as <-. }
  assert (Hswap : forall i j, swapRoutes v i j d = Some d' -> same_text d d').
  { unfold swapRoutes. intros i j H. destruct (i =? j)%nat; [by injection H as <-|]. by eapply Hrep. }
  assert (Happ : forall p, append_route p d = Some d' -> same_text d d').
  { unfold append_route. intros p H. destruct (normalizeAdvancedCustomConfig _); [|done]. by injection H as <-. }
  assert (Hch : forall i patch, change_route v i patch d = Some d' -> same_text d d').
  { unfold change_route, updateRoute. intros i patch H. destruct (_ <$> _) as [[p|]|]; [|by injection H as <-..].
    destruct (normalizeAdvancedCustomConfig _); [|done]. by injection H as <-. }
  destruct ev; cbn [route_edit handle]; intros Hev; try done; try apply Hch.
  - unfold addRoute. destruct (_ || _); [by intros [= <-]|]. apply Happ.
  - apply Happ.
  - apply Hrep.
  - unfold moveRouteWithinGroup. destruct (samePathIndexes v index); [|done]. cbn.
    destruct (at_ _ _); [apply Hswap|by intros [= <-]].
  - unfold moveRouteWithinGroup. destruct (samePathIndexes v index); [|done]. cbn.
    destruct (at_ _ _); [apply Hswap|by intros [= <-]].
  - unfold moveRouteToGroupEnd. destruct (samePathIndexes v index); [|done]. cbn.
    destruct (last _); [|by intros [= <-]]. destruct (_ =? _)%nat; [by intros [= <-]|apply Hrep].
  - unfold removeRoute. destruct (normalizeAdvancedCustomConfig _); [|done]. by intros [= <-].
  - unfold fixCatchAllOrder. destruct (nextRows _); [|done]. apply Hrep.
Qed.

Lemma route_edits_text es : forall d, forallb route_edit es = true ->
  same_text d (fold_left (dispatch parse_url) es d).
Proof.
  induction es as [|ev es IH]; intros d H; [done|]. cbn [forallb fold_left] in *. apply andb_true_iff in H as [Hev H].
  assert (same_text d (dispatch parse_url d ev)) as [E1 E2].
  { unfold dispatch. destruct (_ || _); [done|]. destruct (render _ d) as [v|]; [|done].
    destruct (offered v d ev); [|done]. destruct (handle _ v ev d) as [d'|] eqn:E; [|done].
    apply route_edit_text in E; [|done]. unfold commit. destruct (isOpen d'); [|done]. by destruct (render _ d'). }
  destruct (IH (dispatch parse_url d ev) H) as [E3 E4]. split; congruence.
Qed.

(** Pressing the button of the visual mode, which is not disabled in that mode, throws
    the edits away: for a valid configuration, after any edits of its routes, the dialog
    has the configuration it was opened with. The handler reads the text of the JSON
    editor, which only the other controls keep up to date. *)
Theorem visual_button_discards (value : jstr) (es : list Event) (c : jsval) (d : Dialog) :
  typed_value value -> Forall event_typed es -> forallb route_edit es = true ->
  parseAdvancedCustomConfig (Some value) = Some c -> validateAdvancedCustomConfig parse_url c = Some None ->
  run_dialog parse_url value (es ++ [SwitchToVisual]) = Some d -> config d = c.
Proof.
  intros Hval Hes Hed Hc Hvalid. unfold run_dialog. destruct (route_initial_ok value Hval) as (d0 & -> & Hd0 & _ & Ho & Hi).
  destruct (Hi c Hc) as (_ & ns & En & Hn & Hj). cbn. rewrite fold_left_app. cbn [fold_left].
  destruct (route_edits_text es d0 Hed) as [Et Eo].
  assert (Hd : dialog_ok (fold_left (dispatch parse_url) es d0)).
  { clear -Hd0 Hes. revert d0 Hd0. induction Hes as [|ev es Hev _ IH]; intros d0 Hd0; [done|].
    cbn [fold_left]. by apply IH, route_dispatch_ok. }
  set (d1 := fold_left (dispatch parse_url) es d0) in *. clearbody d1.
  assert (Ecn : config_val ns = c).
  { unfold parseAdvancedCustomConfig in Hc. destruct (negb _); [done|].
    destruct (JSON_parse value) as [[]|]; try done. apply normalize_config_idemp in Hc. congruence. }
  intros H. injection H as <-. unfold dispatch. rewrite Eo, Ho, (proj1 (do_quiet d1 Hd)). cbn [negb orb].
  destruct (route_render_ok d1 Hd) as (v & -> & Hv). cbn [offered handle].
  unfold switchToVisualMode, parseJsonEditorConfig. rewrite Et, Hj, Ecn, Hvalid. cbn [mbind option_bind].
  rewrite En. cbn [mbind option_bind]. unfold load_config. cbn [routeKeyCounter setJsonError setJson].
  destruct (createRouteKeys _ _) as [keys counter]. unfold commit. rewrite Ecn.
  destruct (render _ _); by destruct (isOpen (setEditMode _ _)).
Qed.
End Dialog.

(** ** Typing a comma *)

Lemma split_snoc_sep sep s : split sep (s ++ [sep]) = split sep s ++ [[]].
Proof.
  induction s as [|c s IH]; cbn [app split].
  - by rewrite N.eqb_refl.
  - rewrite IH. destruct (c =? sep)%N; [done|]. pose proof (split_nonempty sep s). by destruct (split sep s).
Qed.

Lemma models_text_comma s :
  normalizeAdvancedCustomRouteModels (JArr (map JStr (split 44%N (s ++ [44%N]))))
  = normalizeAdvancedCustomRouteModels (JArr (map JStr (split 44%N s))).
Proof.
  rewrite split_snoc_sep. unfold normalizeAdvancedCustomRouteModels.
  assert (E : forall l, mapM call_trim (map JStr l) = Some (map trim l)).
  { intros l. apply mapM_Some. induction l; cbn; by constructor. }
  rewrite !E. cbn [mbind option_bind]. by rewrite map_app, List.filter_app, app_nil_r.
Qed.

(** A comma at the end of the list of models cannot be typed: after it the route is, in
    normal form and so in every later render, the one it is without the comma, and the
    field shows the text without it. *)
Theorem typed_comma_lost (r : jsval) (s : jstr) :
  s <> [] ->
  normalizeAdvancedCustomRoute (patch_route r (setModelsInput (s ++ [44%N])))
  = normalizeAdvancedCustomRoute (patch_route r (setModelsInput s)).
Proof.
  intros Hs. unfold setModelsInput, patch_route. cbn [fold_left fst snd].
  rewrite (proj2 (seqb_neq (s ++ [44%N]) []) ltac:(by destruct s)), (proj2 (seqb_neq s []) Hs).
  set (ps := match r with JObj ps => ps | _ => [] end). clearbody ps.
  unfold normalizeAdvancedCustomRoute, getAdvancedCustomRouteUpstreamPath, prop. rewrite !get_map_set.
  rewrite !seqb_refl. by rewrite models_text_comma.
Qed.

(** ** Witnesses *)

(** A URL parser that parses nothing. *)
Definition no_url (s : jstr) : option (jstr * jstr) := None.

Lemma normal_value_typed c : normal_route c -> forall text,
  parseAdvancedCustomConfig (Some text) = Some (config_val [c]) -> typed_value text.
Proof. intros Hc text E c' E'. rewrite E in E'. injection E' as <-. by apply normal_config_typed, Forall_singleton. Qed.

Lemma empty_text_typed : typed_value [].
Proof. by intros c H. Qed.

(** One route for all models of the chat path, then a second one with models. *)
Definition demo_edits : list Event := [AddSplit (u "/v1/chat/completions"); TypeModels 1 (u "gpt-4o")].

Lemma demo_edits_typed : Forall event_typed demo_edits.
Proof. repeat (constructor; [by apply units_check|]). constructor. Qed.

Lemma fix_order_result_witness :
  exists d v v', run_dialog no_url [] demo_edits = Some d /\ render no_url d = Some v
    /\ canFixCatchAllOrder v = true
    /\ render no_url (dispatch no_url d FixOrder) = Some v'
    /\ map path_of (routes v') = map path_of (routes v) /\ canFixCatchAllOrder v' = false.
Proof.
  eexists _, _, _. split; [vm_compute; reflexivity|]. split; [vm_compute; reflexivity|].
  split; [vm_compute; reflexivity|]. split; [vm_compute; reflexivity|].
  edestruct (fix_order_result no_url [] demo_edits) as (d' & v' & H1 & H2 & _ & H3 & _ & H4);
    [apply empty_text_typed|apply demo_edits_typed|vm_compute; reflexivity|vm_compute; reflexivity|].
  vm_compute in H1. injection H1 as <-. vm_compute in H2. injection H2 as <-. split; [exact H3|exact H4].
Defined.

Lemma dialog_type_safe_witness :
  exists d v, run_dialog no_url [] demo_edits = Some d /\ render no_url d = Some v
    /\ crashed d = false /\ exceptions d = 0%nat /\ typed_config (config d)
    /\ map row_route (routeRows v) = routes v /\ NoDup (map row_key (routeRows v)).
Proof. apply (dialog_type_safe no_url [] demo_edits); [apply empty_text_typed|apply demo_edits_typed]. Defined.

Lemma saved_routes_valid_witness :
  exists d text, run_dialog no_url [] [Save] = Some d /\ saved d = [text] /\ isOpen d = false
    /\ exists config, parseAdvancedCustomConfig (Some text) = Some config
                      /\ validateAdvancedCustomConfig no_url config = Some None.
Proof.
  eexists _, _. split; [vm_compute; reflexivity|].
  apply (saved_routes_valid no_url [] [Save]);
    [apply empty_text_typed|by repeat constructor|vm_compute; reflexivity|by left].
Defined.

Definition demo_route : jsval := route_val (JStr (u "/v1/responses")) (u "/up") (JStr (u "none")) [] None.
Definition demo_text : jstr := default [] (stringifyAdvancedCustomConfig (config_val [demo_route])).

Lemma visual_button_discards_witness :
  exists d, run_dialog no_url demo_text [SetUpstreamPath 0 (u "/other"); SwitchToVisual] = Some d
    /\ config d = config_val [demo_route].
Proof.
  eexists. split; [vm_compute; reflexivity|].
  apply (visual_button_discards no_url demo_text [SetUpstreamPath 0 (u "/other")]).
  - apply (normal_value_typed demo_route); [|vm_compute; reflexivity].
    eexists (u "/v1/responses"), (u "/up"), (u "none"), [], None.
    split_and!; try done; by apply units_check || constructor.
  - repeat (constructor; [by apply units_check|]). constructor.
  - reflexivity.
  - vm_compute. reflexivity.
  - vm_compute. reflexivity.
  - vm_compute. reflexivity.
Defined.

