(* ===== verification/ChannelTest.v ===== *)
(** * Testing the models of a channel
    (src/web/src/features/channels/components/dialogs/channel-test-dialog.tsx,
     handleTestChannel of src/web/src/features/channels/lib/channel-actions.ts)

    The dialog of one channel, which stays mounted while it is closed. Tests are
    asynchronous: a batch sends its models in chunks, waits until all tests of a chunk
    are settled, sleeps and goes on; batches and single tests that are under way are part
    of the state, and their resumptions are events of the environment, in any order.
    A step is a handler or what an answer runs up to the next await; the render that
    follows it is part of the step. Translated texts are their keys. *)

From Stdlib Require Import ZArith SpecFloat.
From stdpp Require Import base numbers option list sorting.
From S2P Require Import Prelude Collections JsNumber.

(** ** Results *)

Inductive TestStatus := StatusIdle | StatusTesting | StatusSuccess | StatusError.

#[export] Instance TestStatus_eq_dec : EqDecision TestStatus.
Proof. solve_decision. Defined.

Record TestResult := mkResult {
  status : TestStatus;
  responseTime : option num;
  completedAt : option Z;
  error : option jstr;
  errorCode : option jstr
}.

Record BatchProgress := mkProgress {
  total : nat;
  completed : nat;
  success : nat;
  failed : nat
}.

Record ChannelTestCachePatch := mkPatch { patchResponseTime : num; patchTestTime : Z }.

Definition createChannelTestCachePatch (time : option num) (completedAt : Z) : option ChannelTestCachePatch :=
  match time with
  | Some time => if isFinite time then Some (mkPatch time (completedAt / 1000)) else None
  | None => None
  end.

(** One step of the [reduce]: the latest patch so far and when it was completed. *)
Definition latest_patch (latest : option (ChannelTestCachePatch * Z)) (result : TestResult)
    : option (ChannelTestCachePatch * Z) :=
  let completedAt := default 0 (completedAt result) in
  match createChannelTestCachePatch (responseTime result) completedAt with
  | None => latest
  | Some patch =>
      match latest with
      | None => Some (patch, completedAt)
      | Some (_, at_) => if at_ <=? completedAt then Some (patch, completedAt) else latest
      end
  end.

Definition getLatestChannelTestCachePatch (results : list TestResult) : option ChannelTestCachePatch :=
  fst <$> fold_left latest_patch results None.

(** The rows of a cached list; a row of another channel is kept. *)
Record ChannelRow := mkChannelRow { channel_id : Z; response_time : num; test_time : Z }.

Definition updateChannelTestCache (currentChannelId : Z) (patch : option ChannelTestCachePatch)
    (items : list ChannelRow) : list ChannelRow :=
  match patch with
  | None => items
  | Some patch =>
      map (fun channel => if channel_id channel =? currentChannelId
                          then mkChannelRow (channel_id channel) (patchResponseTime patch) (patchTestTime patch)
                          else channel) items
  end.

(** ** Failures *)

Definition MODEL_PRICE_ERROR_CODE : jstr := u "model_price_error".
Definition FAILURE_SUMMARY_MAX_LENGTH : nat := 96.

(** [s.replaceAll(/\s+/g, ' ')]; [after] tells whether the last unit was a space. *)
Fixpoint collapse_spaces (after : bool) (s : jstr) : jstr :=
  match s with
  | [] => []
  | c :: s =>
      if is_space c then if after then collapse_spaces true s else 32%N :: collapse_spaces true s
      else c :: collapse_spaces false s
  end.

Definition normalizeInlineError (errorText : jstr) : jstr := trim (collapse_spaces false errorText).

(** [s.split(/\r?\n/)]. *)
Definition drop_cr (line : jstr) : jstr :=
  match last line with Some 13%N => removelast line | _ => line end.

Definition split_lines (s : jstr) : list jstr :=
  let lines := split 10%N s in map drop_cr (removelast lines) ++ drop (length lines - 1) lines.

Definition getFirstErrorLine (errorText : jstr) : option jstr :=
  snd <$> list_find (fun line => str_truthy line = true) (map trim (split_lines errorText)).

Definition truncateFailureSummary (summary : jstr) : jstr :=
  if (length summary <=? FAILURE_SUMMARY_MAX_LENGTH)%nat then summary
  else trimEnd (take FAILURE_SUMMARY_MAX_LENGTH summary) ++ u "...".

(** The summary and the details. *)
Definition getFailureStatusDisplay (errorText : option jstr) (fallbackSummary : jstr) (isModelPriceError : bool)
    (modelPriceSummary : jstr) : jstr * option jstr :=
  let rawError := default [] (trim <$> errorText) in
  if negb (str_truthy rawError) then (fallbackSummary, None)
  else if isModelPriceError then
    (modelPriceSummary, if seqb rawError modelPriceSummary then None else Some rawError)
  else
    let summary := truncateFailureSummary (normalizeInlineError (default rawError (getFirstErrorLine rawError))) in
    (summary, if seqb summary (normalizeInlineError rawError) then None else Some rawError).

(** ** Requests and answers *)

Definition STREAM_INCOMPATIBLE_ENDPOINTS : list jstr :=
  [u "embeddings"; u "image-generation"; u "jina-rerank"; u "openai-response-compact"].
Definition BATCH_TEST_CONCURRENCY : nat := 5.

Definition endpointTypeOptions : list jstr :=
  [u "auto"; u "openai"; u "openai-response"; u "openai-response-compact"; u "anthropic"; u "gemini";
   u "jina-rerank"; u "image-generation"; u "embeddings"].

(** What a test asks for: the options its closure captured. *)
Record TestOptions := mkOptions { endpoint_type : option jstr; stream : bool }.

(** [ChannelTestResponse], or the message of a rejection. *)
Inductive TestAnswer :=
| Answered (ok : bool) (message error_code : option jstr) (time data_response_time : option num)
| Rejected (message : option jstr).

(** [Math.round] of a number greater than 0. *)
Definition round_pos (n : num) : num :=
  match n with
  | S754_finite false m e =>
      if 0 <=? e then n else num_of_Z ((2 * Z.pos m + 2 ^ (- e)) / (2 * 2 ^ (- e)))
  | _ => n
  end.

Definition getChannelTestResponseTime (time data_response_time : option num) : option num :=
  match data_response_time with
  | Some t => if isFinite t then Some t else
      match time with
      | Some t => if isFinite t && num_ltb (num_of_Z 0) t then Some (round_pos (num_mul t (num_of_Z 1000))) else None
      | None => None
      end
  | None =>
      match time with
      | Some t => if isFinite t && num_ltb (num_of_Z 0) t then Some (round_pos (num_mul t (num_of_Z 1000))) else None
      | None => None
      end
  end.

Definition formatChannelTestDuration (responseTime : option num) : option jstr :=
  match responseTime with
  | None => None
  | Some t =>
      if num_leb (num_of_Z 1000) t then Some (toFixed 2 (num_div t (num_of_Z 1000)) ++ u " s")
      else let r := round_pos t in
           Some (num_str (if num_ltb r (num_of_Z 1) then num_of_Z 1 else r) ++ u " ms")
  end.

Definition TEST_FAILED : jstr := u "Failed to test channel".

(** [a || d] on an optional string. *)
Definition opt_or (a : option jstr) (d : jstr) : jstr := str_or (default [] a) d.

(** The result [onTestComplete] gets at [now]; [handleTestChannel] catches a rejection. *)
Definition test_result (answer : TestAnswer) (now : Z) : TestResult :=
  match answer with
  | Answered ok message error_code time data_time =>
      let t := getChannelTestResponseTime time data_time in
      if ok then mkResult StatusSuccess t (Some now) None None
      else mkResult StatusError t (Some now) (Some (opt_or message TEST_FAILED)) error_code
  | Rejected message => mkResult StatusError None (Some now) (Some (opt_or message TEST_FAILED)) None
  end.

(** ** State *)

(** A call of [handleBatchTest] that is under way: its local variables, the tests of the
    current chunk that are not settled, and whether it sleeps. *)
Record Batch := mkBatch {
  uniqueModels : list jstr;
  options : TestOptions;
  startIndex : nat;
  waiting : list jstr;
  sleeping : bool;
  results : list TestResult;
  completedCount : nat;
  successCount : nat;
  failedCount : nat
}.

Inductive Toast :=
| TestToast (model : jstr) (ok : bool) (text : option jstr)
| BatchStopped (completed total success failed : nat)
| BatchFailed (success failed : nat)
| BatchSucceeded (count : nat)
| FailedDeleted (count : nat)
| DeleteFailed (message : jstr).

(** The model, the summary and the details of a failure. *)
Definition FailureDetailsState : Type := jstr * jstr * jstr.

(** The states of the component. *)
Record Ui := mkUi {
  endpointType : jstr;
  isStreamTest : bool;
  searchTerm : jstr;
  testResults : list (jstr * TestResult);
  rowSelection : list (jstr * bool);
  testingModels : list jstr;
  isBatchTesting : bool;
  isBatchStopRequested : bool;
  batchProgress : option BatchProgress;
  removedModels : list jstr;
  isDeleteFailedDialogOpen : bool;
  isDeletingFailed : bool;
  failureDetails : option FailureDetailsState;
  pagination : nat * nat
}.

Definition setEndpointType (x : jstr) (d : Ui) : Ui :=
  mkUi
    x (isStreamTest d) (searchTerm d) (testResults d) (rowSelection d) (testingModels d) (isBatchTesting d)
    (isBatchStopRequested d) (batchProgress d) (removedModels d) (isDeleteFailedDialogOpen d)
    (isDeletingFailed d) (failureDetails d) (pagination d).
Definition setIsStreamTest (x : bool) (d : Ui) : Ui :=
  mkUi
    (endpointType d) x (searchTerm d) (testResults d) (rowSelection d) (testingModels d) (isBatchTesting d)
    (isBatchStopRequested d) (batchProgress d) (removedModels d) (isDeleteFailedDialogOpen d)
    (isDeletingFailed d) (failureDetails d) (pagination d).
Definition setSearchTerm (x : jstr) (d : Ui) : Ui :=
  mkUi
    (endpointType d) (isStreamTest d) x (testResults d) (rowSelection d) (testingModels d) (isBatchTesting d)
    (isBatchStopRequested d) (batchProgress d) (removedModels d) (isDeleteFailedDialogOpen d)
    (isDeletingFailed d) (failureDetails d) (pagination d).
Definition setTestResults (x : list (jstr * TestResult)) (d : Ui) : Ui :=
  mkUi
    (endpointType d) (isStreamTest d) (searchTerm d) x (rowSelection d) (testingModels d) (isBatchTesting d)
    (isBatchStopRequested d) (batchProgress d) (removedModels d) (isDeleteFailedDialogOpen d)
    (isDeletingFailed d) (failureDetails d) (pagination d).
Definition setRowSelection (x : list (jstr * bool)) (d : Ui) : Ui :=
  mkUi
    (endpointType d) (isStreamTest d) (searchTerm d) (testResults d) x (testingModels d) (isBatchTesting d)
    (isBatchStopRequested d) (batchProgress d) (removedModels d) (isDeleteFailedDialogOpen d)
    (isDeletingFailed d) (failureDetails d) (pagination d).
Definition setTestingModels (x : list jstr) (d : Ui) : Ui :=
  mkUi
    (endpointType d) (isStreamTest d) (searchTerm d) (testResults d) (rowSelection d) x (isBatchTesting d)
    (isBatchStopRequested d) (batchProgress d) (removedModels d) (isDeleteFailedDialogOpen d)
    (isDeletingFailed d) (failureDetails d) (pagination d).
Definition setIsBatchTesting (x : bool) (d : Ui) : Ui :=
  mkUi
    (endpointType d) (isStreamTest d) (searchTerm d) (testResults d) (rowSelection d) (testingModels d) x
    (isBatchStopRequested d) (batchProgress d) (removedModels d) (isDeleteFailedDialogOpen d)
    (isDeletingFailed d) (failureDetails d) (pagination d).
Definition setIsBatchStopRequested (x : bool) (d : Ui) : Ui :=
  mkUi
    (endpointType d) (isStreamTest d) (searchTerm d) (testResults d) (rowSelection d) (testingModels d)
    (isBatchTesting d) x (batchProgress d) (removedModels d) (isDeleteFailedDialogOpen d) (isDeletingFailed d)
    (failureDetails d) (pagination d).
Definition setBatchProgress (x : option BatchProgress) (d : Ui) : Ui :=
  mkUi
    (endpointType d) (isStreamTest d) (searchTerm d) (testResults d) (rowSelection d) (testingModels d)
    (isBatchTesting d) (isBatchStopRequested d) x (removedModels d) (isDeleteFailedDialogOpen d)
    (isDeletingFailed d) (failureDetails d) (pagination d).
Definition setRemovedModels (x : list jstr) (d : Ui) : Ui :=
  mkUi
    (endpointType d) (isStreamTest d) (searchTerm d) (testResults d) (rowSelection d) (testingModels d)
    (isBatchTesting d) (isBatchStopRequested d) (batchProgress d) x (isDeleteFailedDialogOpen d)
    (isDeletingFailed d) (failureDetails d) (pagination d).
Definition setIsDeleteFailedDialogOpen (x : bool) (d : Ui) : Ui :=
  mkUi
    (endpointType d) (isStreamTest d) (searchTerm d) (testResults d) (rowSelection d) (testingModels d)
    (isBatchTesting d) (isBatchStopRequested d) (batchProgress d) (removedModels d) x (isDeletingFailed d)
    (failureDetails d) (pagination d).
Definition setIsDeletingFailed (x : bool) (d : Ui) : Ui :=
  mkUi
    (endpointType d) (isStreamTest d) (searchTerm d) (testResults d) (rowSelection d) (testingModels d)
    (isBatchTesting d) (isBatchStopRequested d) (batchProgress d) (removedModels d)
    (isDeleteFailedDialogOpen d) x (failureDetails d) (pagination d).
Definition setFailureDetails (x : option FailureDetailsState) (d : Ui) : Ui :=
  mkUi
    (endpointType d) (isStreamTest d) (searchTerm d) (testResults d) (rowSelection d) (testingModels d)
    (isBatchTesting d) (isBatchStopRequested d) (batchProgress d) (removedModels d)
    (isDeleteFailedDialogOpen d) (isDeletingFailed d) x (pagination d).
Definition setPagination (x : nat * nat) (d : Ui) : Ui :=
  mkUi
    (endpointType d) (isStreamTest d) (searchTerm d) (testResults d) (rowSelection d) (testingModels d)
    (isBatchTesting d) (isBatchStopRequested d) (batchProgress d) (removedModels d)
    (isDeleteFailedDialogOpen d) (isDeletingFailed d) (failureDetails d) x.

(** [requests] are the calls of [testChannel], with the batch they belong to; [updates] the
    calls of [updateChannel] with the list of models; [refreshed] the calls of
    [refreshChannelLists]. [singles] are the single tests under way and [deleting] the
    failed models of each deletion under way. *)
Record Dialog := mkDialog {
  isOpen : bool;
  batchStopRequestedRef : bool;
  ui : Ui;
  batches : list (nat * Batch);
  nextBatch : nat;
  singles : list jstr;
  deleting : list (list jstr);
  requests : list (option nat * jstr * TestOptions);
  updates : list jstr;
  toasts : list Toast;
  refreshed : list (option ChannelTestCachePatch)
}.

Definition put_isOpen (x : bool) (d : Dialog) : Dialog :=
  mkDialog
    x (batchStopRequestedRef d) (ui d) (batches d) (nextBatch d) (singles d) (deleting d) (requests d)
    (updates d) (toasts d) (refreshed d).
Definition put_batchStopRequestedRef (x : bool) (d : Dialog) : Dialog :=
  mkDialog
    (isOpen d) x (ui d) (batches d) (nextBatch d) (singles d) (deleting d) (requests d) (updates d) (toasts d)
    (refreshed d).
Definition put_ui (x : Ui) (d : Dialog) : Dialog :=
  mkDialog
    (isOpen d) (batchStopRequestedRef d) x (batches d) (nextBatch d) (singles d) (deleting d) (requests d)
    (updates d) (toasts d) (refreshed d).
Definition put_batches (x : list (nat * Batch)) (d : Dialog) : Dialog :=
  mkDialog
    (isOpen d) (batchStopRequestedRef d) (ui d) x (nextBatch d) (singles d) (deleting d) (requests d)
    (updates d) (toasts d) (refreshed d).
Definition put_nextBatch (x : nat) (d : Dialog) : Dialog :=
  mkDialog
    (isOpen d) (batchStopRequestedRef d) (ui d) (batches d) x (singles d) (deleting d) (requests d) (updates d)
    (toasts d) (refreshed d).
Definition put_singles (x : list jstr) (d : Dialog) : Dialog :=
  mkDialog
    (isOpen d) (batchStopRequestedRef d) (ui d) (batches d) (nextBatch d) x (deleting d) (requests d)
    (updates d) (toasts d) (refreshed d).
Definition put_deleting (x : list (list jstr)) (d : Dialog) : Dialog :=
  mkDialog
    (isOpen d) (batchStopRequestedRef d) (ui d) (batches d) (nextBatch d) (singles d) x (requests d)
    (updates d) (toasts d) (refreshed d).

Definition on_ui (f : Ui -> Ui) (d : Dialog) : Dialog := put_ui (f (ui d)) d.

Definition calls (rq : list (option nat * jstr * TestOptions)) (ups : list jstr) (ts : list Toast)
    (rf : list (option ChannelTestCachePatch)) (d : Dialog) : Dialog :=
  mkDialog (isOpen d) (batchStopRequestedRef d) (ui d) (batches d) (nextBatch d) (singles d) (deleting d)
    (requests d ++ rq) (updates d ++ ups) (toasts d ++ ts) (refreshed d ++ rf).

Definition initial_ui : Ui :=
  mkUi (u "auto") false [] [] [] [] false false None [] false false None (0, 30)%nat.

Definition initial_dialog : Dialog := mkDialog true false initial_ui [] 0 [] [] [] [] [] [].

(** Every state is set to its initial value; what is under way goes on. *)
Definition resetState (d : Dialog) : Dialog := put_ui initial_ui (put_batchStopRequestedRef true d).

Definition handleClose (d : Dialog) : Dialog := put_isOpen false (resetState d).

(** ** Single tests *)

Definition markModelTesting (key : jstr) (isTesting : bool) (d : Ui) : Ui :=
  setTestingModels (if isTesting then set_add (testingModels d) key
                    else List.filter (fun m => negb (seqb m key)) (testingModels d)) d.

Definition updateTestResult (key : jstr) (result : TestResult) (d : Ui) : Ui :=
  let d := match failureDetails d with
           | Some (model, _, _) => if seqb model key then setFailureDetails None d else d
           | None => d
           end in
  setTestResults (map_set (testResults d) key result) d.

Definition streamDisabled (d : Ui) : bool := set_has STREAM_INCOMPATIBLE_ENDPOINTS (endpointType d).
Definition effectiveStreamTest (d : Ui) : bool := negb (streamDisabled d) && isStreamTest d.

(** What the closure of [testSingleModel] captures. *)
Definition current_options (d : Ui) : TestOptions :=
  mkOptions (if seqb (endpointType d) (u "auto") then None else Some (endpointType d)) (effectiveStreamTest d).

(** [testSingleModel] up to the request. *)
Definition begin_test (batch : option nat) (opts : TestOptions) (model : jstr) (d : Dialog) : Dialog :=
  calls [(batch, model, opts)] [] [] []
    (on_ui (fun d => updateTestResult model (mkResult StatusTesting None None None None)
                       (markModelTesting model true d)) d).

(** And from its answer on, without the refresh of the lists. *)
Definition end_test (model : jstr) (result : TestResult) (d : Ui) : Ui :=
  markModelTesting model false (updateTestResult model result d).

(** The toast of a test that is not silent. *)
Definition test_toast (model : jstr) (answer : TestAnswer) (result : TestResult) : Toast :=
  match status result with
  | StatusSuccess => TestToast model true (formatChannelTestDuration (responseTime result))
  | _ => TestToast model false
           (match answer, error result with
            | Answered _ _ (Some code) _ _, Some message =>
                if str_truthy code then Some (message ++ u " (" ++ code ++ u ")") else Some message
            | _, message => message
            end)
  end.

Definition answer_single (model : jstr) (answer : TestAnswer) (now : Z) (d : Dialog) : Dialog :=
  let result := test_result answer now in
  calls [] [] [test_toast model answer result]
    [createChannelTestCachePatch (responseTime result) (default now (completedAt result))]
    (on_ui (end_test model result) d).

(** ** Batches *)

Definition set_batch (id : nat) (b : Batch) (d : Dialog) : Dialog := put_batches (map_set (batches d) id b) d.

(** The chunk at the start index is sent. *)
Definition begin_chunk (id : nat) (b : Batch) (d : Dialog) : Dialog :=
  let batch := take BATCH_TEST_CONCURRENCY (drop (startIndex b) (uniqueModels b)) in
  fold_left (fun d model => begin_test (Some id) (options b) model d) batch
    (set_batch id
       (mkBatch (uniqueModels b) (options b) (startIndex b) batch false (results b) (completedCount b)
          (successCount b) (failedCount b)) d).

(** After the loop, and the [finally] block. *)
Definition finish_batch (id : nat) (b : Batch) (d : Dialog) : Dialog :=
  let resultPatch := getLatestChannelTestCachePatch (results b) in
  let stopped := batchStopRequestedRef d && (completedCount b <? length (uniqueModels b))%nat in
  let toast :=
    if stopped then BatchStopped (completedCount b) (length (uniqueModels b)) (successCount b) (failedCount b)
    else if (0 <? failedCount b)%nat then BatchFailed (successCount b) (failedCount b)
    else BatchSucceeded (successCount b) in
  calls [] [] [toast] [resultPatch]
    (on_ui (fun d => setRowSelection [] (setBatchProgress None (setIsBatchStopRequested false (setIsBatchTesting false d))))
       (put_batchStopRequestedRef false (put_batches (map_delete (batches d) id) d))).

(** The head of the loop. *)
Definition loop_batch (id : nat) (b : Batch) (d : Dialog) : Dialog :=
  if (startIndex b <? length (uniqueModels b))%nat && negb (batchStopRequestedRef d) then begin_chunk id b d
  else finish_batch id b d.

Definition handleBatchTest (modelsToTest : list jstr) (d : Dialog) : Dialog :=
  let uniqueModels := new_set (List.filter str_truthy (map trim modelsToTest)) in
  if (length uniqueModels =? 0)%nat then d
  else
    loop_batch (nextBatch d)
      (mkBatch uniqueModels (current_options (ui d)) 0 [] false [] 0 0 0)
      (put_nextBatch (S (nextBatch d))
         (on_ui (fun d => setBatchProgress (Some (mkProgress (length uniqueModels) 0 0 0))
                            (setIsBatchStopRequested false (setIsBatchTesting true d)))
            (put_batchStopRequestedRef false d))).

(** [recordBatchResult] on the batch's variables. *)
Definition recordBatchResult (model : jstr) (result : TestResult) (b : Batch) : Batch :=
  let completed := S (completedCount b) in
  let success := if bool_decide (status result = StatusSuccess) then S (successCount b) else successCount b in
  mkBatch (uniqueModels b) (options b) (startIndex b) (List.filter (fun m => negb (seqb m model)) (waiting b))
    (sleeping b) (results b ++ [result]) completed success (completed - success).

Definition progress (b : Batch) : BatchProgress :=
  mkProgress (length (uniqueModels b)) (completedCount b) (successCount b) (failedCount b).

(** A test of the batch is answered; once all tests of the chunk are settled the loop
    ends or sleeps. *)
Definition answer_batch (id : nat) (b : Batch) (model : jstr) (result : TestResult) (d : Dialog) : Dialog :=
  let b := recordBatchResult model result b in
  let d := on_ui (fun d => setBatchProgress (Some (progress b)) (end_test model result d)) d in
  match waiting b with
  | _ :: _ => set_batch id b d
  | [] =>
      if batchStopRequestedRef d || (length (uniqueModels b) <=? startIndex b + BATCH_TEST_CONCURRENCY)%nat
      then finish_batch id b d
      else set_batch id
             (mkBatch (uniqueModels b) (options b) (startIndex b) [] true (results b) (completedCount b)
                (successCount b) (failedCount b)) d
  end.

(** The sleep is over: the increment of the loop and its head. *)
Definition wake_batch (id : nat) (b : Batch) (d : Dialog) : Dialog :=
  loop_batch id
    (mkBatch (uniqueModels b) (options b) (startIndex b + BATCH_TEST_CONCURRENCY) [] false (results b)
       (completedCount b) (successCount b) (failedCount b)) d.

(** A second press finds [isBatchStopRequested] set. *)
Definition handleStopBatchTest (d : Dialog) : Dialog :=
  if negb (isBatchTesting (ui d)) || isBatchStopRequested (ui d) then d
  else on_ui (setIsBatchStopRequested true) (put_batchStopRequestedRef true d).

(** ** The models shown *)

Section Models.
(** [currentRow.models], and [toLowerCase]. *)
Context (modelsValue : jstr) (toLowerCase : jstr -> jstr).

Definition baseModels : list jstr := List.filter str_truthy (map trim (split 44%N modelsValue)).

Definition models (d : Ui) : list jstr :=
  List.filter (fun model => negb (set_has (removedModels d) model)) baseModels.

Definition with_status (s : TestStatus) (d : Ui) : list jstr :=
  List.filter (fun model => match map_get (testResults d) model with
                            | Some r => bool_decide (status r = s)
                            | None => false
                            end) (models d).

Definition successModels (d : Ui) : list jstr := with_status StatusSuccess d.
Definition failedModels (d : Ui) : list jstr := with_status StatusError d.

Definition filteredModels (d : Ui) : list jstr :=
  if negb (str_truthy (searchTerm d)) then models d
  else List.filter (fun model => includes (toLowerCase model) (toLowerCase (searchTerm d))) (models d).

Definition isAnyTesting (d : Ui) : bool := negb (length (testingModels d) =? 0)%nat || isBatchTesting d.

(** ** Deleting failed models *)

(** Up to the request. *)
Definition handleDeleteFailedModels (d : Dialog) : Dialog :=
  let failed := failedModels (ui d) in
  if (length failed =? 0)%nat then on_ui (setIsDeleteFailedDialogOpen false) d
  else
    let remaining := List.filter (fun model => negb (set_has (new_set failed) model)) (models (ui d)) in
    calls [] [join [44%N] remaining] [] []
      (put_deleting (deleting d ++ [failed]) (on_ui (setIsDeletingFailed true) d)).

(** From the answer on; [None] is a success, [Some message] the message of a failure or of
    an exception. *)
Definition delete_answered (failed : list jstr) (answer : option jstr) (d : Dialog) : Dialog :=
  match answer with
  | None =>
      calls [] [] [FailedDeleted (length failed)] [None]
        (on_ui (fun d => setIsDeletingFailed false (setIsDeleteFailedDialogOpen false
           (setRowSelection (fold_left map_delete failed (rowSelection d))
             (setTestResults (fold_left map_delete failed (testResults d))
               (setRemovedModels (fold_left set_add failed (removedModels d)) d))))) d)
  | Some message =>
      calls [] [] [DeleteFailed (str_or message (u "Failed to delete failed models"))] []
        (on_ui (setIsDeletingFailed false) d)
  end.

(** ** Steps *)

Inductive Event :=
| Open
| Close
| SetEndpoint (value : jstr)
| SetStream (value : bool)
| SetSearch (value : jstr)
| SetPage (page : nat * nat)
| SelectRows (selection : list (jstr * bool))
| SelectSuccessful
| ShowDetails (model : jstr)
| HideDetails
| TestOne (model : jstr)
| TestAll
| StopBatch
| AskDelete
| CancelDelete
| DeleteFailedModels
| AnswerSingle (index : nat) (answer : TestAnswer) (now : Z)
| AnswerBatch (id : nat) (model : jstr) (answer : TestAnswer) (now : Z)
| Wake (id : nat)
| DeleteAnswered (index : nat) (answer : option jstr).

Definition handleEndpointTypeChange (value : jstr) (d : Ui) : Ui :=
  let d := setEndpointType value d in
  if set_has STREAM_INCOMPATIBLE_ENDPOINTS value then setIsStreamTest false d else d.

Definition handleSearchTermChange (value : jstr) (d : Ui) : Ui :=
  setPagination (if (fst (pagination d) =? 0)%nat then pagination d else (0%nat, snd (pagination d)))
    (setSearchTerm value d).

Definition handleSelectSuccessfulModels (d : Ui) : Ui :=
  setRowSelection (fold_left (fun next model => map_set next model true) (successModels d) []) d.

(** The details a failed row offers. *)
Definition failure_details (model : jstr) (d : Ui) : option FailureDetailsState :=
  match map_get (testResults d) model with
  | Some r =>
      if bool_decide (status r = StatusError) then
        let '(summary, details) :=
          getFailureStatusDisplay (trim <$> error r) (u "Test failed")
            (seqb (default [] (errorCode r)) MODEL_PRICE_ERROR_CODE)
            (u "Model price is not configured. Please complete model pricing in settings.") in
        (fun details => (model, summary, details)) <$> details
      else None
  | None => None
  end.

(** [None]: the control is not offered, or there is nothing under way to resume. *)
Definition step (d : Dialog) (ev : Event) : option Dialog :=
  let s := ui d in
  let offer (b : bool) (d' : Dialog) := if isOpen d && b then Some d' else None in
  match ev with
  | Open => if isOpen d then None else Some (put_isOpen true d)
  | Close => offer true (handleClose d)
  | SetEndpoint value => offer (set_has endpointTypeOptions value) (on_ui (handleEndpointTypeChange value) d)
  | SetStream value => offer (negb (streamDisabled s)) (on_ui (setIsStreamTest value) d)
  | SetSearch value => offer true (on_ui (handleSearchTermChange value) d)
  | SetPage page => offer true (on_ui (setPagination page) d)
  | SelectRows selection => offer true (on_ui (setRowSelection selection) d)
  | SelectSuccessful =>
      offer (negb (isBatchTesting s) && negb (length (successModels s) =? 0)%nat) (on_ui handleSelectSuccessfulModels d)
  | ShowDetails model =>
      match failure_details model s with
      | Some details => offer (set_has (filteredModels s) model) (on_ui (setFailureDetails (Some details)) d)
      | None => None
      end
  | HideDetails => offer true (on_ui (setFailureDetails None) d)
  | TestOne model =>
      offer (set_has (filteredModels s) model && negb (set_has (testingModels s) model) && negb (isBatchTesting s))
        (put_singles (singles d ++ [model]) (begin_test None (current_options s) model d))
  | TestAll =>
      offer (negb (isAnyTesting s) && negb (length (filteredModels s) =? 0)%nat) (handleBatchTest (filteredModels s) d)
  | StopBatch => offer (isBatchTesting s && negb (isBatchStopRequested s)) (handleStopBatchTest d)
  | AskDelete =>
      offer (negb (isBatchTesting s) && negb (length (failedModels s) =? 0)%nat)
        (on_ui (setIsDeleteFailedDialogOpen true) d)
  | CancelDelete => offer (isDeleteFailedDialogOpen s) (on_ui (setIsDeleteFailedDialogOpen false) d)
  | DeleteFailedModels =>
      offer (isDeleteFailedDialogOpen s && negb (isDeletingFailed s)) (handleDeleteFailedModels d)
  | AnswerSingle index answer now =>
      match singles d !! index with
      | Some model =>
          Some (answer_single model answer now
                  (put_singles (take index (singles d) ++ drop (S index) (singles d)) d))
      | None => None
      end
  | AnswerBatch id model answer now =>
      match map_get (batches d) id with
      | Some b => if set_has (waiting b) model then Some (answer_batch id b model (test_result answer now) d) else None
      | None => None
      end
  | Wake id =>
      match map_get (batches d) id with
      | Some b => if sleeping b then Some (wake_batch id b d) else None
      | None => None
      end
  | DeleteAnswered index answer =>
      match deleting d !! index with
      | Some failed =>
          Some (delete_answered failed answer (put_deleting (take index (deleting d) ++ drop (S index) (deleting d)) d))
      | None => None
      end
  end.

(** A run; events that are not possible are skipped. *)
Definition run (d : Dialog) (es : list Event) : Dialog := fold_left (fun d ev => default d (step d ev)) es d.
End Models.
