(* ===== verification/ChannelTestProps.v ===== *)
(** * Properties of the test dialog

    What holds of every batch that is under way in any interleaving of batches, single
    tests, their answers and the user's actions: [batch_ok]. From it: the accounts of a
    batch, that it ends, that a stop is final, and what deleting failed models saves. *)

From Stdlib Require Import ZArith SpecFloat.
From stdpp Require Import base numbers option list sorting.
From S2P Require Import Prelude Collections JsNumber ModelMapping ChannelTest.

(** ** The invariant of a batch *)

Definition rq_of (id : nat) (r : option nat * jstr * TestOptions) : bool := bool_decide (r.1.1 = Some id).

(** The models whose tests a batch has sent, in order. *)
Definition requests_of (id : nat) (rs : list (option nat * jstr * TestOptions)) : list jstr :=
  map (fun r => r.1.2) (List.filter (rq_of id) rs).

Definition chunk (b : Batch) : list jstr := take BATCH_TEST_CONCURRENCY (drop (startIndex b) (uniqueModels b)).

Definition succeeded (rs : list TestResult) : nat :=
  length (List.filter (fun r => bool_decide (status r = StatusSuccess)) rs).

Record batch_ok (rs : list (option nat * jstr * TestOptions)) (id : nat) (b : Batch) : Prop := mkBatchOk {
  bo_models : NoDup (uniqueModels b);
  bo_start : (startIndex b < length (uniqueModels b))%nat;
  bo_waiting : NoDup (waiting b) /\ Forall (fun m => m ∈ chunk b) (waiting b);
  bo_phase : if sleeping b then waiting b = []
               /\ (startIndex b + BATCH_TEST_CONCURRENCY < length (uniqueModels b))%nat
             else waiting b <> [];
  bo_sent : (length (results b) + length (waiting b)
             = Nat.min (startIndex b + BATCH_TEST_CONCURRENCY) (length (uniqueModels b)))%nat;
  bo_counts : completedCount b = length (results b) /\ successCount b = succeeded (results b)
              /\ failedCount b = (completedCount b - successCount b)%nat;
  bo_requests : requests_of id rs = take (startIndex b + BATCH_TEST_CONCURRENCY) (uniqueModels b)
}.

Record dialog_ok (d : Dialog) : Prop := mkDialogOk {
  do_map : map_ok (batches d);
  do_batches : forall id b, map_get (batches d) id = Some b -> (id < nextBatch d)%nat /\ batch_ok (requests d) id b;
  do_ids : Forall (fun r => match r.1.1 with Some id => (id < nextBatch d)%nat | None => True end) (requests d)
}.

Lemma requests_of_app id a b : requests_of id (a ++ b) = requests_of id a ++ requests_of id b.
Proof. unfold requests_of. by rewrite List.filter_app, map_app. Qed.

Lemma requests_of_other id id' rq : id' <> id -> Forall (fun r => r.1.1 = Some id) rq -> requests_of id' rq = [].
Proof.
  intros Hne. unfold requests_of. induction 1 as [|r rq Hr _ IH]; [done|]. cbn. unfold rq_of at 1. rewrite Hr.
  by rewrite bool_decide_eq_false_2 by congruence.
Qed.

(** A step that leaves the batches alone may send single tests. *)
Definition same_core (d d' : Dialog) : Prop :=
  batches d' = batches d /\ (nextBatch d <= nextBatch d')%nat
  /\ exists rq, requests d' = requests d ++ rq /\ Forall (fun r => r.1.1 = None) rq.

Lemma requests_of_singles id rs rq : Forall (fun r => r.1.1 = None) rq -> requests_of id (rs ++ rq) = requests_of id rs.
Proof.
  intros H. rewrite requests_of_app. rewrite <- (app_nil_r (requests_of id rs)) at 2. f_equal. unfold requests_of.
  induction H as [|r rq Hr _ IH]; [done|]. cbn. unfold rq_of at 1. rewrite Hr. by rewrite bool_decide_eq_false_2 by congruence.
Qed.

Lemma batch_ok_requests rs rs' id b : requests_of id rs' = requests_of id rs -> batch_ok rs id b -> batch_ok rs' id b.
Proof. intros E []. split; try done. by rewrite E. Qed.

Lemma same_core_ok d d' : same_core d d' -> dialog_ok d -> dialog_ok d'.
Proof.
  intros (Eb & En & rq & Er & Hrq) [Hm Hb Hi]. split; [by rewrite Eb| |].
  - intros id b. rewrite Eb, Er. intros Hg. destruct (Hb id b Hg) as [Hlt Hok]. split; [lia|].
    eapply batch_ok_requests; [|exact Hok]. by apply requests_of_singles.
  - rewrite Er. apply Forall_app_2; (eapply Forall_impl; [eassumption|]); intros r; cbn beta.
    + destruct r.1.1; [lia|done].
    + by intros ->.
Qed.

Lemma on_ui_ok f d : dialog_ok d -> dialog_ok (on_ui f d).
Proof. apply same_core_ok. split_and!; [done|done|]. exists []. by rewrite app_nil_r. Qed.

(** A batch is stored, with requests of its own. *)
Lemma stored_ok d d' id b rq : dialog_ok d -> batches d' = map_set (batches d) id b -> (nextBatch d <= nextBatch d')%nat ->
  requests d' = requests d ++ rq -> Forall (fun r => r.1.1 = Some id) rq -> (id < nextBatch d')%nat ->
  batch_ok (requests d') id b -> dialog_ok d'.
Proof.
  intros Hd Eb En Er Hrq Hid Hb.
  assert (Hother : forall id', id' <> id -> requests_of id' (requests d') = requests_of id' (requests d)).
  { intros id' Hne. by rewrite Er, requests_of_app, (requests_of_other id id' rq), app_nil_r. }
  split.
  - rewrite Eb. apply map_set_ok, (do_map d Hd).
  - intros id' b'. rewrite Eb, map_get_set. case_bool_decide as E; [subst; by intros [= <-]|].
    intros Hg. destruct (do_batches d Hd id' b' Hg) as [Hlt Hok]. split; [lia|].
    eapply batch_ok_requests; [|exact Hok]. apply Hother. congruence.
  - rewrite Er. apply Forall_app_2.
    + eapply Forall_impl; [apply (do_ids d Hd)|]. intros r. cbn beta. destruct r.1.1; [lia|done].
    + eapply Forall_impl; [exact Hrq|]. intros r Hr. cbn. rewrite Hr. done.
Qed.

Lemma removed_ok d d' id : dialog_ok d -> batches d' = map_delete (batches d) id -> nextBatch d' = nextBatch d ->
  requests d' = requests d -> dialog_ok d'.
Proof.
  intros Hd Eb En Er. split.
  - rewrite Eb. apply map_delete_ok, (do_map d Hd).
  - intros id' b. rewrite Eb, map_get_delete by apply (do_map d Hd). rewrite En, Er.
    case_bool_decide; [done|]. apply (do_batches d Hd).
  - rewrite En, Er. apply (do_ids d Hd).
Qed.

(** ** Sending a chunk *)

Lemma begin_tests_core id opts ms : forall d,
  let d' := fold_left (fun d model => begin_test (Some id) opts model d) ms d in
  batches d' = batches d /\ nextBatch d' = nextBatch d
  /\ requests d' = requests d ++ map (fun m => (Some id, m, opts)) ms
  /\ batchStopRequestedRef d' = batchStopRequestedRef d.
Proof.
  induction ms as [|m ms IH]; intros d; cbn [fold_left map]; [by rewrite app_nil_r|].
  destruct (IH (begin_test (Some id) opts m d)) as (E1 & E2 & E3 & E4). cbn zeta in *.
  rewrite E1, E2, E3, E4. cbn. by rewrite <- app_assoc.
Qed.

Lemma requests_of_own id opts ms : requests_of id (map (fun m => (Some id, m, opts)) ms) = ms.
Proof.
  unfold requests_of. induction ms as [|m ms IH]; [done|]. cbn. unfold rq_of at 1. cbn.
  rewrite bool_decide_eq_true_2 by done. cbn. by rewrite IH.
Qed.

Definition sent_chunk (b : Batch) : Batch :=
  mkBatch (uniqueModels b) (options b) (startIndex b) (chunk b) false (results b) (completedCount b)
    (successCount b) (failedCount b).

Lemma begin_chunk_core id b d : let d' := begin_chunk id b d in
  batches d' = map_set (batches d) id (sent_chunk b) /\ nextBatch d' = nextBatch d
  /\ requests d' = requests d ++ map (fun m => (Some id, m, options b)) (chunk b)
  /\ batchStopRequestedRef d' = batchStopRequestedRef d.
Proof. apply (begin_tests_core id (options b) (chunk b)). Qed.

Lemma chunk_length b : length (chunk b) = Nat.min BATCH_TEST_CONCURRENCY (length (uniqueModels b) - startIndex b).
Proof. unfold chunk. by rewrite length_take, length_drop. Qed.

(** Sending the chunk of a batch whose earlier chunks are all settled. *)
Lemma begin_chunk_ok d id b : dialog_ok d -> (id < nextBatch d)%nat -> NoDup (uniqueModels b) ->
  (startIndex b < length (uniqueModels b))%nat ->
  length (results b) = startIndex b ->
  (completedCount b = length (results b) /\ successCount b = succeeded (results b)
   /\ failedCount b = (completedCount b - successCount b)%nat) ->
  requests_of id (requests d) = take (startIndex b) (uniqueModels b) -> dialog_ok (begin_chunk id b d).
Proof.
  intros Hd Hid Hnd Hs Hl Hc Hr. destruct (begin_chunk_core id b d) as (E1 & E2 & E3 & _). cbn zeta in *.
  eapply stored_ok; [exact Hd|exact E1|lia|exact E3| |lia|].
  - apply List.Forall_map. by apply List.Forall_forall.
  - pose proof (chunk_length b) as Hcl. unfold BATCH_TEST_CONCURRENCY in *. split; cbn [sent_chunk sleeping waiting uniqueModels startIndex results]; try done.
    + split; [|by apply Forall_forall]. unfold chunk. eapply sublist_NoDup; [exact Hnd|].
      etrans; [apply sublist_take|apply sublist_drop].
    + intros E. rewrite E in Hcl. cbn [length] in Hcl. lia.
    + rewrite Hl, Hcl. unfold BATCH_TEST_CONCURRENCY. lia.
    + rewrite E3, requests_of_app, requests_of_own, Hr. unfold chunk, BATCH_TEST_CONCURRENCY.
      apply take_take_drop.
Qed.

(** ** The steps of a batch *)

Definition settled (b : Batch) : Prop :=
  completedCount b = length (results b) /\ successCount b = succeeded (results b)
  /\ failedCount b = (completedCount b - successCount b)%nat.

Lemma finish_batch_ok d id b : dialog_ok d -> dialog_ok (finish_batch id b d).
Proof. intros Hd. eapply (removed_ok d); [exact Hd| | |]; cbn; [done|done|apply app_nil_r]. Qed.

Lemma loop_batch_ok d id b : dialog_ok d -> (id < nextBatch d)%nat -> NoDup (uniqueModels b) ->
  length (results b) = startIndex b -> settled b ->
  requests_of id (requests d) = take (startIndex b) (uniqueModels b) -> dialog_ok (loop_batch id b d).
Proof.
  intros Hd Hid Hnd Hl Hs Hr. unfold loop_batch. destruct (_ && _) eqn:E; [|by apply finish_batch_ok].
  apply andb_true_iff in E as [E%Nat.ltb_lt _]. by apply begin_chunk_ok.
Qed.

Lemma without_length (m : jstr) l : NoDup l -> m ∈ l ->
  S (length (List.filter (fun x => negb (seqb x m)) l)) = length l.
Proof.
  induction 1 as [|x l Hx Hnd IH]; [by intros ?%elem_of_nil|]. cbn [List.filter]. intros [->|Hm]%elem_of_cons.
  - rewrite seqb_refl. cbn. do 2 f_equal. clear IH Hnd. induction l as [|y l IH]; [done|]. cbn.
    apply not_elem_of_cons in Hx as [Hy Hl]. destruct (seqb y x) eqn:E; [by apply seqb_eq in E|]. cbn. by rewrite IH.
  - destruct (seqb x m) eqn:E; [apply seqb_eq in E; by subst|]. cbn. by rewrite IH.
Qed.

Lemma succeeded_snoc rs r : succeeded (rs ++ [r])
  = if bool_decide (status r = StatusSuccess) then S (succeeded rs) else succeeded rs.
Proof. unfold succeeded. rewrite List.filter_app, length_app. cbn. case_bool_decide; cbn; lia. Qed.

Lemma recorded_settled m r b : settled b -> settled (recordBatchResult m r b).
Proof.
  intros (E1 & E2 & E3). split_and!; cbn [recordBatchResult completedCount successCount failedCount results]; [rewrite length_app; cbn; lia| |done].
  rewrite succeeded_snoc, E2. done.
Qed.

Lemma answer_batch_ok d id b m r : dialog_ok d -> map_get (batches d) id = Some b -> m ∈ waiting b ->
  dialog_ok (answer_batch id b m r d).
Proof.
  intros Hd Hg Hm. destruct (do_batches d Hd id b Hg) as [Hid Hb]. pose proof Hb as [Hnd Hs [Hw Hc] Hp Hl Hn Hr].
  pose proof (recorded_settled m r b Hn) as Hn'. pose proof (without_length m (waiting b) Hw Hm) as Hlen.
  destruct (sleeping b) eqn:Es; [destruct Hp as [Hp _]; rewrite Hp in Hm; by apply elem_of_nil in Hm|].
  unfold answer_batch. destruct (waiting (recordBatchResult m r b)) as [|w ws] eqn:Ew.
  - cbn in Ew. rewrite Ew in Hlen. cbn [length] in Hlen.
    destruct (_ || _) eqn:E; [by apply finish_batch_ok, on_ui_ok|].
    apply orb_false_iff in E as [_ E%Nat.leb_gt]. eapply (stored_ok d _ id _ []); [exact Hd|done|done| |done|done|]; [cbn; by rewrite app_nil_r|].
    split; try done; cbn.
    + split; constructor.
    + rewrite length_app. cbn. lia.
  - eapply (stored_ok d _ id _ []); [exact Hd|done|done| |done|done|]; [cbn; by rewrite app_nil_r|].
    cbn in Ew. split; try done; cbn.
    + split; [by apply NoDup_ListNoDup, List.NoDup_filter, NoDup_ListNoDup|]. apply Forall_forall. intros x Hx. rewrite Forall_forall in Hc. apply Hc.
      apply list_elem_of_In, filter_In in Hx as [Hx _]. by apply list_elem_of_In.
    + rewrite Es. by rewrite Ew.
    + rewrite length_app. cbn. lia.
Qed.

Lemma wake_batch_ok d id b : dialog_ok d -> map_get (batches d) id = Some b -> sleeping b = true ->
  dialog_ok (wake_batch id b d).
Proof.
  intros Hd Hg Es. destruct (do_batches d Hd id b Hg) as [Hid [Hnd Hs [Hw Hc] Hp Hl Hn Hr]]. rewrite Es in Hp.
  destruct Hp as [Ew Hlt]. rewrite Ew in Hl. cbn [length] in Hl. apply loop_batch_ok; try done. cbn. lia.
Qed.

Lemma requests_of_new d : dialog_ok d -> requests_of (nextBatch d) (requests d) = [].
Proof.
  intros [_ _ Hi]. unfold requests_of. induction Hi as [|r rs Hr _ IH]; [done|]. cbn. unfold rq_of at 1.
  rewrite bool_decide_eq_false_2; [done|]. intros E. rewrite E in Hr. lia.
Qed.

Lemma handleBatchTest_ok ms d : dialog_ok d -> dialog_ok (handleBatchTest ms d).
Proof.
  intros Hd. unfold handleBatchTest. destruct (_ =? 0)%nat; [done|]. apply loop_batch_ok; cbn; try done.
  - eapply same_core_ok; [|exact Hd]. split_and!; [done|cbn; lia|]. exists []. by rewrite app_nil_r.
  - lia.
  - apply NoDup_new_set.
  - rewrite take_0. by apply requests_of_new.
Qed.

(** What the steps of a batch leave in the table of batches. *)
Lemma loop_batch_table id b d : let d' := loop_batch id b d in nextBatch d' = nextBatch d
  /\ (batches d' = map_set (batches d) id (sent_chunk b) \/ batches d' = map_delete (batches d) id).
Proof.
  cbn zeta. unfold loop_batch. destruct (_ && _); [|by split; [|right]].
  destruct (begin_chunk_core id b d) as (E1 & E2 & _). split; [done|by left].
Qed.

Lemma answer_batch_table id b m r d : let d' := answer_batch id b m r d in nextBatch d' = nextBatch d
  /\ (batches d' = map_delete (batches d) id
      \/ exists b', batches d' = map_set (batches d) id b' /\ uniqueModels b' = uniqueModels b
                    /\ completedCount b' = S (completedCount b)).
Proof.
  cbn zeta. unfold answer_batch. destruct (waiting _); [|by split; [|right; eexists]].
  destruct (_ || _); [by split; [|left]|by split; [|right; eexists]].
Qed.

Lemma handleBatchTest_table ms d : let d' := handleBatchTest ms d in (nextBatch d <= nextBatch d')%nat
  /\ (batches d' = batches d \/ (exists b, batches d' = map_set (batches d) (nextBatch d) b)
      \/ batches d' = map_delete (batches d) (nextBatch d)).
Proof.
  cbn zeta. unfold handleBatchTest. destruct (_ =? 0)%nat; [by split; [|left]|].
  match goal with |- context [loop_batch ?i ?b ?d0] => destruct (loop_batch_table i b d0) as [E1 E2] end.
  cbn zeta in *. split; [rewrite E1; cbn; lia|right]. destruct E2 as [E2|E2]; [left; eauto|right; exact E2].
Qed.

(** Events that leave the batches alone. *)
Definition batch_event (ev : Event) : bool :=
  match ev with TestAll | AnswerBatch _ _ _ _ | Wake _ => true | _ => false end.

Section Steps.
Context (modelsValue : jstr) (toLowerCase : jstr -> jstr).
Notation step := (step modelsValue toLowerCase).
Notation run := (run modelsValue toLowerCase).

Ltac simple_core := split_and!; [done|done|]; first [by exists []; cbn; rewrite ?app_nil_r | eexists; split; [reflexivity|by repeat constructor]].

Lemma step_core d ev d' : step d ev = Some d' -> batch_event ev = false -> same_core d d'.
Proof.
  intros H Hev.
  destruct ev; try discriminate Hev; cbn [ChannelTest.step] in H; repeat case_match; simplify_eq; try simple_core.
  - unfold handleStopBatchTest. destruct (_ || _); simple_core.
  - unfold handleDeleteFailedModels. destruct (_ =? 0)%nat; simple_core.
  - unfold delete_answered. case_match; simple_core.
Qed.

Lemma step_ok d ev d' : dialog_ok d -> step d ev = Some d' -> dialog_ok d'.
Proof.
  intros Hd H. destruct (batch_event ev) eqn:Hev; [|by eapply same_core_ok; [apply (step_core d ev)|]].
  destruct ev; try discriminate Hev; cbn [ChannelTest.step] in H; repeat case_match; simplify_eq.
  - by apply handleBatchTest_ok.
  - apply answer_batch_ok; [done|done|]. by apply set_has_true.
  - by apply wake_batch_ok.
Qed.

Lemma run_ok es : forall d, dialog_ok d -> dialog_ok (run d es).
Proof.
  induction es as [|ev es IH]; intros d Hd; [done|]. cbn. apply IH. destruct (step d ev) eqn:E; [|done]. by eapply step_ok.
Qed.

Lemma initial_ok : dialog_ok initial_dialog.
Proof. by split; [constructor| |constructor]. Qed.

(** C13: In every state the dialog can reach, whatever batches, single tests, answers and
    user actions are interleaved, each batch under way has sent the tests of the chunks up
    to its current one, each distinct model once and in order; at most five of them are
    not settled, every settled one is counted once, as a success or as a failure, and the
    requests are the settled tests and those that are waited for. *)
Theorem batch_accounts es id b : let d := run initial_dialog es in
  map_get (batches d) id = Some b ->
  requests_of id (requests d) = take (startIndex b + BATCH_TEST_CONCURRENCY) (uniqueModels b)
  /\ NoDup (requests_of id (requests d))
  /\ (forall m, m ∈ waiting b -> m ∈ requests_of id (requests d))
  /\ (length (waiting b) <= 5)%nat
  /\ length (requests_of id (requests d)) = (completedCount b + length (waiting b))%nat
  /\ (successCount b + failedCount b = completedCount b)%nat
  /\ successCount b = succeeded (results b) /\ completedCount b = length (results b).
Proof.
  intros d Hg. destruct (do_batches _ (run_ok es _ initial_ok) id b Hg) as [_ [Hnd Hs [Hw Hc] Hp Hl (E1 & E2 & E3) Hr]].
  assert (Hin : forall m, m ∈ waiting b -> m ∈ take (startIndex b + BATCH_TEST_CONCURRENCY) (uniqueModels b)).
  { intros m Hm. rewrite Forall_forall in Hc. specialize (Hc m Hm). rewrite <- take_take_drop. apply elem_of_app. by right. }
  fold d in Hr. rewrite Hr. split_and!; try done.
  - eapply sublist_NoDup; [exact Hnd|apply sublist_take].
  - apply (NoDup_submseteq _ (chunk b)), submseteq_length in Hw; [|by rewrite Forall_forall in Hc].
    rewrite chunk_length in Hw. unfold BATCH_TEST_CONCURRENCY in Hw. lia.
  - rewrite length_take. lia.
  - rewrite E3, E2, E1. unfold succeeded. pose proof (filter_length_le (fun r => bool_decide (status r = StatusSuccess)) (results b)). lia.
Qed.

(** ** A batch ends *)

(** An answer to a test of the batch, or the end of its sleep. *)
Definition resumes (id : nat) (ev : Event) : bool :=
  match ev with AnswerBatch id' _ _ _ | Wake id' => (id' =? id)%nat | _ => false end.

(** How often a run resumes the batch. *)
Fixpoint resumptions (id : nat) (d : Dialog) (es : list Event) : nat :=
  match es with
  | [] => 0
  | ev :: es =>
      match step d ev with
      | Some d' => (if resumes id ev then S else fun n => n) (resumptions id d' es)
      | None => resumptions id d es
      end
  end.

(** The resumptions a batch needs at most. *)
Definition pending (d : Dialog) (id : nat) : nat :=
  match map_get (batches d) id with
  | Some b => 2 * (length (uniqueModels b) - completedCount b) + (if sleeping b then 1 else 0)
  | None => 0
  end.

Lemma pending_other d d' id id' : map_ok (batches d) -> id' <> id ->
  (exists b, batches d' = map_set (batches d) id' b) \/ batches d' = map_delete (batches d) id' ->
  pending d' id = pending d id.
Proof.
  intros Hm Hne [[b E]|E]; unfold pending; rewrite E.
  - by rewrite map_get_set_ne.
  - rewrite map_get_delete by done. by rewrite bool_decide_eq_false_2.
Qed.

Lemma pending_deleted d d' id : map_ok (batches d) -> batches d' = map_delete (batches d) id -> pending d' id = 0%nat.
Proof. intros Hm E. unfold pending. rewrite E, map_get_delete by done. by rewrite bool_decide_eq_true_2. Qed.

Lemma answer_pending d id b m r : dialog_ok d -> map_get (batches d) id = Some b -> m ∈ waiting b ->
  (S (pending (answer_batch id b m r d) id) <= pending d id)%nat.
Proof.
  intros Hd Hg Hm. destruct (do_batches d Hd id b Hg) as [_ Hb]. pose proof Hb as [_ _ _ Hp Hl (E1 & _) _].
  assert (Hw : (1 <= length (waiting b))%nat) by (destruct (waiting b); [by apply elem_of_nil in Hm|cbn; lia]).
  destruct (answer_batch_table id b m r d) as [_ [E|(b' & E & Eu & Ec)]]; cbn zeta in *.
  - rewrite (pending_deleted d) by (done || apply (do_map d Hd)). unfold pending. rewrite Hg. lia.
  - unfold pending. rewrite E, Hg, map_get_set_eq, Eu, Ec. destruct (sleeping b'), (sleeping b); lia.
Qed.

Lemma wake_pending d id b : dialog_ok d -> map_get (batches d) id = Some b -> sleeping b = true ->
  (S (pending (wake_batch id b d) id) <= pending d id)%nat.
Proof.
  intros Hd Hg Es. unfold wake_batch.
  match goal with |- context [loop_batch _ ?b' _] => destruct (loop_batch_table id b' d) as [_ [E|E]] end; cbn zeta in *.
  - unfold pending. rewrite E, Hg, map_get_set_eq, Es. cbn. lia.
  - rewrite (pending_deleted d) by (done || apply (do_map d Hd)). unfold pending. rewrite Hg, Es. lia.
Qed.

Lemma step_pending d ev d' id : dialog_ok d -> (id < nextBatch d)%nat -> step d ev = Some d' ->
  (nextBatch d <= nextBatch d')%nat
  /\ ((if resumes id ev then S else fun n => n) (pending d' id) <= pending d id)%nat.
Proof.
  intros Hd Hid H. destruct (batch_event ev) eqn:Hev.
  2: { destruct (step_core _ _ _ H Hev) as (Eb & En & _). split; [done|]. unfold pending. rewrite Eb. by destruct ev. }
  pose proof (do_map d Hd) as Hm.
  destruct ev as [| | | | | | | | | | | | | | | | |id' m a now|id'|]; try discriminate Hev; cbn [ChannelTest.step] in H;
    repeat match type of H with context [match ?x with _ => _ end] => destruct x eqn:? end; simplify_eq; cbn [resumes].
  - destruct (handleBatchTest_table (filteredModels modelsValue toLowerCase (ui d)) d) as [En Et]. split; [done|].
    cbn zeta in *. destruct Et as [Et|Et]; [unfold pending; by rewrite Et|].
    erewrite pending_other; [reflexivity|done| |exact Et]. lia.
  - destruct (answer_batch_table id' b m (test_result a now) d) as [En Et]. split; [by rewrite En|]. cbn zeta in *.
    destruct (Nat.eqb_spec id' id) as [->|Hne]; [apply answer_pending; [done|done|by apply set_has_true]|].
    erewrite (pending_other d); [reflexivity|done|exact Hne|]. destruct Et as [Et|(b' & Et & _)]; eauto.
  - unfold wake_batch. match goal with |- context [loop_batch _ ?b' _] => destruct (loop_batch_table id' b' d) as [En Et] end.
    split; [by rewrite En|]. cbn zeta in *.
    destruct (Nat.eqb_spec id' id) as [->|Hne]; [by apply wake_pending|].
    erewrite (pending_other d); [reflexivity|done|exact Hne|]. destruct Et as [Et|Et]; eauto.
Qed.

Lemma resumptions_bounded id es : forall d, dialog_ok d -> (id < nextBatch d)%nat -> (resumptions id d es <= pending d id)%nat.
Proof.
  induction es as [|ev es IH]; intros d Hd Hid; cbn [resumptions]; [lia|].
  destruct (step d ev) as [d'|] eqn:E; [|by apply IH].
  destruct (step_pending _ _ _ id Hd Hid E) as [Hn Hp]. pose proof (IH d' (step_ok _ _ _ Hd E) ltac:(lia)).
  destruct (resumes id ev); lia.
Qed.

(** C14: A batch ends: however its answers and wake-ups are interleaved with everything else,
    it is resumed at most twice per model it still has to settle; and as long as it is
    under way an answer to one of its tests or the end of its sleep is possible. *)
Theorem batch_ends es id b : let d := run initial_dialog es in
  map_get (batches d) id = Some b ->
  (forall es', (resumptions id d es' <= 2 * length (uniqueModels b))%nat)
  /\ exists ev, resumes id ev = true /\ is_Some (step d ev).
Proof.
  intros d Hg. pose proof (run_ok es _ initial_ok) as Hd. fold d in Hd. destruct (do_batches _ Hd id b Hg) as [Hid Hb].
  pose proof Hb as [_ _ _ Hp Hl (E1 & _) _]. split.
  - intros es'. etrans; [by apply resumptions_bounded|]. unfold pending. rewrite Hg.
    destruct (sleeping b) eqn:Es; [|lia]. destruct Hp as [Ew Hlt]. rewrite Ew in Hl. cbn [length] in Hl.
    unfold BATCH_TEST_CONCURRENCY in *. lia.
  - destruct (sleeping b) eqn:Es.
    + exists (Wake id). split; [apply Nat.eqb_refl|]. cbn. rewrite Hg, Es. eauto.
    + destruct (waiting b) as [|m ws] eqn:Ew; [done|]. exists (AnswerBatch id m (Rejected None) 0).
      split; [apply Nat.eqb_refl|]. cbn [ChannelTest.step]. rewrite Hg, Ew.
      rewrite (proj2 (set_has_true (m :: ws) m)) by constructor. eauto.
Qed.

(** ** A stop is final *)

Lemma map_get_single {V} (l : list (nat * V)) id v : (length l <= 1)%nat -> map_get l id = Some v -> l = [(id, v)].
Proof.
  destruct l as [|[k w] [|? ?]]; cbn; [done| |lia]. intros _. case_bool_decide; [|done]. intros [= ->]. by subst.
Qed.

Lemma map_set_single {V} (id : nat) (v w : V) : map_set [(id, v)] id w = [(id, w)].
Proof. cbn. by rewrite bool_decide_eq_true_2. Qed.

Lemma map_delete_single {V} (id : nat) (v : V) : map_delete [(id, v)] id = [].
Proof. cbn. by rewrite bool_decide_eq_true_2. Qed.

(** What holds as long as the dialog is not closed. *)
Record one_batch (d : Dialog) : Prop := mkOneBatch {
  ob_length : (length (batches d) <= 1)%nat;
  ob_testing : isBatchTesting (ui d) = false -> batches d = [];
  ob_stop : isBatchStopRequested (ui d) = true -> batchStopRequestedRef d = true
}.

Definition is_close (ev : Event) : bool := match ev with Close => true | _ => false end.
Definition is_start (ev : Event) : bool := match ev with TestAll => true | _ => false end.

Lemma finish_one_batch d id b b' : batches d = [(id, b')] -> one_batch (finish_batch id b d).
Proof. intros E. split; cbn; rewrite ?E, ?map_delete_single; try done. cbn. lia. Qed.

Lemma begin_tests_ui id opts ms : forall d,
  let d' := fold_left (fun d model => begin_test (Some id) opts model d) ms d in
  isBatchTesting (ui d') = isBatchTesting (ui d) /\ isBatchStopRequested (ui d') = isBatchStopRequested (ui d).
Proof.
  induction ms as [|m ms IH]; intros d; [done|]. cbn [fold_left]. destruct (IH (begin_test (Some id) opts m d)) as [E1 E2].
  cbn zeta in *. rewrite E1, E2. unfold begin_test, updateTestResult, markModelTesting. cbn.
  by destruct (failureDetails _) as [[[x ?] ?]|]; [destruct (seqb x m)|].
Qed.

Lemma begin_chunk_one_batch d id b : isBatchTesting (ui d) = true -> isBatchStopRequested (ui d) = false ->
  (length (map_set (batches d) id (sent_chunk b)) <= 1)%nat -> one_batch (begin_chunk id b d).
Proof.
  intros Ht Hs Hl. destruct (begin_chunk_core id b d) as (E1 & _ & _ & _). cbn zeta in *.
  match type of E1 with context [begin_chunk] => unfold begin_chunk in * end.
  match goal with |- one_batch (fold_left _ ?ms ?d0) => destruct (begin_tests_ui id (options b) ms d0) as [E3 E4] end.
  cbn zeta in *. split; rewrite ?E1, ?E3, ?E4; [done|cbn|cbn]; congruence.
Qed.

Lemma end_test_flags m r x : let x' := end_test m r x in
  isBatchTesting x' = isBatchTesting x /\ isBatchStopRequested x' = isBatchStopRequested x.
Proof.
  unfold end_test, updateTestResult, markModelTesting. cbn.
  by destruct (failureDetails _) as [[[y ?] ?]|]; [destruct (seqb y m)|].
Qed.

Lemma answer_one_batch d id b m r : one_batch d -> map_get (batches d) id = Some b -> one_batch (answer_batch id b m r d).
Proof.
  intros [Hl Ht Hs] Hg. pose proof (map_get_single _ _ _ Hl Hg) as E. destruct (end_test_flags m r (ui d)) as [F1 F2].
  unfold answer_batch. cbn zeta in *.
  assert (Hset : forall b', one_batch (set_batch id b' (on_ui (fun x => setBatchProgress
            (Some (progress (recordBatchResult m r b))) (end_test m r x)) d))).
  { intros b'. split; cbn [set_batch put_batches on_ui put_ui batches ui isBatchTesting isBatchStopRequested
      batchStopRequestedRef setBatchProgress]; rewrite ?F1, ?F2, ?E, ?map_set_single; [cbn; lia| |done].
    intros H. specialize (Ht H). congruence. }
  destruct (waiting _); [|apply Hset]. destruct (_ || _); [|apply Hset]. by eapply finish_one_batch.
Qed.

Lemma wake_one_batch d id b : one_batch d -> map_get (batches d) id = Some b -> one_batch (wake_batch id b d).
Proof.
  intros [Hl Ht Hs] Hg. pose proof (map_get_single _ _ _ Hl Hg) as E. unfold wake_batch, loop_batch.
  destruct (_ && _) eqn:Ec; [|by eapply finish_one_batch].
  apply andb_true_iff in Ec as [_ Er%negb_true_iff]. apply begin_chunk_one_batch.
  - destruct (isBatchTesting (ui d)); [done|]. specialize (Ht eq_refl). congruence.
  - destruct (isBatchStopRequested (ui d)); [|done]. specialize (Hs eq_refl). congruence.
  - by rewrite E, map_set_single.
Qed.

Lemma start_one_batch d ms : one_batch d -> isBatchTesting (ui d) = false -> one_batch (handleBatchTest ms d).
Proof.
  intros Hd Hf. pose proof (ob_testing d Hd Hf) as E. unfold handleBatchTest. destruct (_ =? 0)%nat; [done|].
  unfold loop_batch. destruct (_ && _); [apply begin_chunk_one_batch; cbn; [done|done|rewrite E; cbn; lia]|].
  split; cbn; rewrite ?E; cbn; [lia|done|done].
Qed.

Lemma quiet_one_batch d d' : one_batch d -> batches d' = batches d -> batchStopRequestedRef d' = batchStopRequestedRef d ->
  isBatchTesting (ui d') = isBatchTesting (ui d) -> isBatchStopRequested (ui d') = isBatchStopRequested (ui d) -> one_batch d'.
Proof. intros [? ? ?] E1 E2 E3 E4. split; rewrite ?E1, ?E2, ?E3, ?E4; done. Qed.

Lemma step_one_batch d ev d' : one_batch d -> step d ev = Some d' -> is_close ev = false -> one_batch d'.
Proof.
  intros Hd H Hc. destruct ev; try discriminate Hc; cbn [ChannelTest.step] in H; repeat case_match; simplify_eq;
    try (eapply (quiet_one_batch d); [exact Hd|done..]).
  all: try (apply andb_true_iff in H0 as [_ H0]).
  - unfold handleEndpointTypeChange. apply (quiet_one_batch d); [exact Hd|done|done|..]; cbn; by case_match.
  - apply (quiet_one_batch d); [exact Hd|done|done|..]; unfold begin_test, updateTestResult; cbn; repeat case_match; done.
  - apply start_one_batch; [done|]. apply andb_true_iff in H0 as [H0%negb_true_iff _]. by apply orb_false_iff in H0 as [_ ?].
  - unfold handleStopBatchTest. destruct (_ || _); [done|]. destruct Hd as [? ? ?]. by split.
  - unfold handleDeleteFailedModels. destruct (_ =? 0)%nat; apply (quiet_one_batch d); done.
  - apply (quiet_one_batch d); [exact Hd|done|done|..]; apply end_test_flags.
  - by apply answer_one_batch.
  - by apply wake_one_batch.
  - unfold delete_answered. case_match; apply (quiet_one_batch d); done.
Qed.

Lemma run_one_batch es : forall d, one_batch d -> Forall (fun ev => is_close ev = false) es -> one_batch (run d es).
Proof.
  induction es as [|ev es IH]; intros d Hd H; [done|]. apply Forall_cons in H as [H1 H2]. cbn. apply IH; [|done].
  destruct (step d ev) eqn:E; [|done]. by eapply step_one_batch.
Qed.

(** Once a stop is requested: no batch, or one that the flag will end. *)
Definition stopped (d : Dialog) : Prop :=
  batches d = [] \/ ((length (batches d) <= 1)%nat /\ batchStopRequestedRef d = true).

Definition sent_same (d d' : Dialog) : Prop := forall id, requests_of id (requests d') = requests_of id (requests d).

Lemma step_stopped d ev d' : stopped d -> step d ev = Some d' -> is_start ev = false -> stopped d' /\ sent_same d d'.
Proof.
  intros Hd H Hs. destruct (batch_event ev) eqn:Hev.
  - assert (Hone : forall id b, map_get (batches d) id = Some b -> batches d = [(id, b)] /\ batchStopRequestedRef d = true).
    { intros id b Hg. destruct Hd as [Hd|[Hl Hr]]; [by rewrite Hd in Hg|]. split; [|done]. by apply map_get_single. }
    assert (Hfin : forall id b b' e, batches e = [(id, b')] -> requests e = requests d ->
              stopped (finish_batch id b e) /\ sent_same d (finish_batch id b e)).
    { intros id b b' e E Er. split; [left; cbn; by rewrite E, map_delete_single|]. intros i. cbn. by rewrite app_nil_r, Er. }
    destruct ev as [| | | | | | | | | | | | | | | | |id m a now|id|]; try discriminate; cbn [ChannelTest.step] in H;
      repeat case_match; simplify_eq; destruct (Hone _ _ H0) as [E Er].
    + unfold answer_batch. destruct (waiting (recordBatchResult _ _ _)).
      * cbn zeta. change (batchStopRequestedRef (on_ui ?f d)) with (batchStopRequestedRef d). rewrite Er. cbn [orb].
        by eapply Hfin.
      * split; [right|done]. cbn. rewrite E, map_set_single. cbn. split; [lia|done].
    + unfold wake_batch, loop_batch. rewrite Er, andb_false_r. by eapply Hfin.
  - destruct (step_core _ _ _ H Hev) as (Eb & _ & rq & Er & Hrq). split; [|intros id; rewrite Er; by apply requests_of_singles].
    destruct Hd as [Hd|[Hl Hr]]; [left; congruence|right]. rewrite Eb. split; [done|].
    destruct ev; try discriminate Hev; cbn [ChannelTest.step] in H; repeat case_match; simplify_eq; try done.
    + unfold handleStopBatchTest. by destruct (_ || _).
    + unfold handleDeleteFailedModels. by destruct (_ =? 0)%nat.
    + unfold delete_answered. by case_match.
Qed.

Lemma run_stopped es : forall d, stopped d -> Forall (fun ev => is_start ev = false) es -> sent_same d (run d es).
Proof.
  induction es as [|ev es IH]; intros d Hd H; [done|]. apply Forall_cons in H as [H1 H2]. cbn.
  destruct (step d ev) as [d'|] eqn:E; [|by apply IH]. destruct (step_stopped _ _ _ Hd E H1) as [H3 H4].
  intros id. cbn [default from_option]. etrans; [by apply IH|apply H4].
Qed.

(** C12: A stop is final: in a dialog that was not closed, once the user presses Stop no
    further test of the batch is sent until a new batch is started, whatever answers,
    wake-ups, single tests or even a later close arrive. *)
Theorem stop_is_final es es' d' : Forall (fun ev => is_close ev = false) es ->
  step (run initial_dialog es) StopBatch = Some d' -> Forall (fun ev => is_start ev = false) es' ->
  forall id, requests_of id (requests (run d' es')) = requests_of id (requests (run initial_dialog es)).
Proof.
  intros H1 Hs H2 id. assert (Hone : one_batch (run initial_dialog es)).
  { apply run_one_batch; [|done]. split; [cbn; lia|done|done]. }
  cbn [ChannelTest.step] in Hs. case_match; simplify_eq.
  assert (Hst : stopped (handleStopBatchTest (run initial_dialog es))
                /\ requests (handleStopBatchTest (run initial_dialog es)) = requests (run initial_dialog es)).
  { destruct Hone as [Hl Ht Hr]. unfold handleStopBatchTest. destruct (negb _ || _) eqn:E; [|by split; [right|]].
    split; [|done]. apply orb_true_iff in E as [E%negb_true_iff|E]; [left; auto|right; auto]. }
  destruct Hst as [Hst E]. rewrite <- E. by apply run_stopped.
Qed.

(** ** Deleting failed models *)

Lemma baseModels_names mv : Forall model_name (baseModels mv).
Proof.
  unfold baseModels. apply Forall_forall. intros m Hm.
  apply list_elem_of_In, filter_In in Hm as [Hm Ht]. apply in_map_iff in Hm as (p & <- & Hp).
  pose proof (split_no_sep 44%N mv) as Hs. rewrite List.Forall_forall in Hs. split_and!.
  - by intros E; rewrite E in Ht.
  - apply trim_idemp.
  - intros H%trim_subset. by apply (Hs p).
Qed.

Lemma baseModels_join ms : Forall model_name ms -> baseModels (join [44%N] ms) = ms.
Proof.
  intros H. unfold baseModels. destruct ms as [|m ms]; [done|].
  rewrite split_join; [by apply names_kept|done|]. eapply Forall_impl; [exact H|]. by intros x (_ & _ & ?).
Qed.

Lemma filter_sub {A} (P : A -> Prop) (f : A -> bool) l : Forall P l -> Forall P (List.filter f l).
Proof. induction 1; cbn; [constructor|]. destruct (f x); [by constructor|done]. Qed.

Lemma filter_filter {A} (f g : A -> bool) l :
  List.filter f (List.filter g l) = List.filter (fun x => g x && f x) l.
Proof. induction l as [|x l IH]; [done|]. cbn. destruct (g x); cbn; [destruct (f x); by rewrite IH|done]. Qed.

Definition shown_failed (d : Dialog) (m : jstr) : bool :=
  match map_get (testResults (ui d)) m with Some r => bool_decide (status r = StatusError) | None => false end.

Lemma failed_has d m : m ∈ models modelsValue (ui d) -> set_has (failedModels modelsValue (ui d)) m = shown_failed d m.
Proof.
  intros Hm. destruct (shown_failed d m) eqn:E; [apply set_has_true|apply set_has_false].
  - apply list_elem_of_In, filter_In. split; [by apply list_elem_of_In|exact E].
  - intros H. apply list_elem_of_In, filter_In in H as [_ H]. unfold shown_failed in E. congruence.
Qed.

(** C15: Deleting the failed models saves exactly the shown models whose last test did not
    fail: the text that is sent reads back as them, in order and with repetitions; and
    when the request succeeds these are the models the dialog shows. *)
Theorem deleted_exactly_failed d d' d'' : step d DeleteFailedModels = Some d' ->
  failedModels modelsValue (ui d) <> [] ->
  step d' (DeleteAnswered (length (deleting d)) None) = Some d'' ->
  let kept := List.filter (fun m => negb (shown_failed d m)) (models modelsValue (ui d)) in
  (exists text, updates d'' = updates d ++ [text] /\ baseModels text = kept)
  /\ models modelsValue (ui d'') = kept.
Proof.
  intros Hs Hf Ha kept. cbn [ChannelTest.step] in Hs. case_match; simplify_eq. unfold handleDeleteFailedModels in Ha.
  destruct (_ =? 0)%nat eqn:El; [apply Nat.eqb_eq, length_zero_iff_nil in El; by rewrite El in Hf|].
  assert (Ek : List.filter (fun m => negb (set_has (failedModels modelsValue (ui d)) m)) (models modelsValue (ui d)) = kept).
  { apply List.filter_ext_in. intros m Hm. rewrite failed_has; [done|by apply list_elem_of_In]. }
  cbn in Ha. rewrite lookup_app_r, Nat.sub_diag in Ha by done. cbn in Ha. simplify_eq. cbn. split.
  - eexists. rewrite app_nil_r. split; [reflexivity|].
    erewrite (List.filter_ext (fun m => negb (set_has (new_set _) m))), Ek.
    + apply baseModels_join. apply filter_sub, filter_sub, baseModels_names.
    + intros m. apply (f_equal negb), eq_true_iff_eq. by rewrite !set_has_true, elem_of_new_set.
  - rewrite <- Ek. unfold models. rewrite filter_filter. cbn. apply List.filter_ext. intros m.
    rewrite <- negb_orb. apply (f_equal negb), eq_true_iff_eq. rewrite orb_true_iff, !set_has_true. apply fold_set_add_elem.
Qed.
End Steps.

(** ** Runs *)

(** Seven models, one of them twice; an answer that succeeds and one that fails. *)
Definition seven : jstr := u "a, b,c,d,e,f,a".
Definition good : TestAnswer := Answered true None None (Some (num_of_Z 2)) None.
Definition bad : TestAnswer := Answered false (Some (u "no quota")) None None None.
Definition answered_chunk (id : nat) (answer : TestAnswer) : list Event :=
  map (fun m => AnswerBatch id m answer 7) [u "a"; u "b"; u "c"; u "d"; u "e"].

Lemma batch_accounts_witness :
  let d := run seven id initial_dialog [TestAll; AnswerBatch 0 (u "b") good 7; AnswerBatch 0 (u "d") bad 8] in
  exists b, map_get (batches d) 0%nat = Some b
    /\ requests_of 0 (requests d) = [u "a"; u "b"; u "c"; u "d"; u "e"] /\ waiting b = [u "a"; u "c"; u "e"]
    /\ (successCount b + failedCount b = 2)%nat.
Proof.
  cbn zeta. eexists. split; [vm_compute; reflexivity|].
  destruct (batch_accounts seven id [TestAll; AnswerBatch 0 (u "b") good 7; AnswerBatch 0 (u "d") bad 8] 0%nat _ eq_refl)
    as (H1 & _ & _ & _ & _ & H2 & _).
  split; [exact H1|split; [vm_compute; reflexivity|exact H2]].
Defined.

Lemma batch_ends_witness :
  let d := run seven id initial_dialog (TestAll :: answered_chunk 0 good) in
  (forall es', (resumptions seven id 0 d es' <= 12)%nat)
  /\ exists ev, resumes 0 ev = true /\ is_Some (step seven id d ev).
Proof.
  cbn zeta. pose proof (batch_ends seven id (TestAll :: answered_chunk 0 good) 0%nat) as H. cbn zeta in H.
  destruct (map_get (batches (run seven id initial_dialog (TestAll :: answered_chunk 0 good))) 0%nat) as [b|] eqn:E;
    [|by vm_compute in E].
  assert (Eb : length (uniqueModels b) = 6%nat).
  { assert (Hb : (length ∘ uniqueModels) <$> map_get (batches (run seven id initial_dialog
        (TestAll :: answered_chunk 0 good))) 0%nat = Some 6%nat) by (vm_compute; reflexivity).
    rewrite E in Hb. by injection Hb. }
  specialize (H b eq_refl). rewrite Eb in H. exact H.
Defined.

Lemma stop_is_final_witness :
  let d := run seven id initial_dialog [TestAll] in
  match step seven id d StopBatch with
  | Some d' => requests_of 0 (requests (run seven id d' (answered_chunk 0 bad ++ [Wake 0; TestOne (u "f")])))
               = [u "a"; u "b"; u "c"; u "d"; u "e"]
  | None => False
  end.
Proof.
  cbn zeta. destruct (step seven id (run seven id initial_dialog [TestAll]) StopBatch) as [d'|] eqn:E; [|by vm_compute in E].
  rewrite (stop_is_final seven id [TestAll] (answered_chunk 0 bad ++ [Wake 0; TestOne (u "f")]) d');
    [vm_compute; reflexivity|by repeat constructor|exact E|by repeat constructor].
Defined.

Definition with_failures : Dialog :=
  run seven id initial_dialog
    [TestOne (u "b"); AnswerSingle 0 bad 3; TestOne (u "a"); AnswerSingle 0 good 4; AskDelete].

Lemma deleted_exactly_failed_witness :
  match step seven id with_failures DeleteFailedModels with
  | Some d' =>
      match step seven id d' (DeleteAnswered (length (deleting with_failures)) None) with
      | Some d'' => models seven (ui d'') = [u "a"; u "c"; u "d"; u "e"; u "f"; u "a"]
      | None => False
      end
  | None => False
  end.
Proof.
  destruct (step seven id with_failures DeleteFailedModels) as [d'|] eqn:E1; [|by vm_compute in E1].
  destruct (step seven id d' (DeleteAnswered (length (deleting with_failures)) None)) as [d''|] eqn:E2.
  - destruct (deleted_exactly_failed seven id with_failures d' d'' E1 ltac:(vm_compute; done) E2) as [_ ->].
    vm_compute. reflexivity.
  - assert (E : (d ← step seven id with_failures DeleteFailedModels;
                 updates <$> step seven id d (DeleteAnswered (length (deleting with_failures)) None))
                = Some [u "a,c,d,e,f,a"]) by (vm_compute; reflexivity).
    rewrite E1 in E. cbn [mbind option_bind] in E. by rewrite E2 in E.
Defined.

(** The flag is shared by all batches: a batch stopped by closing the dialog goes on once
    another one is started, and clears the testing state of that one when it ends. *)
Theorem closed_batch_revived :
  let d := run seven id initial_dialog
             ([TestAll; Close; Open; TestAll] ++ answered_chunk 0 good ++ [Wake 0]) in
  requests_of 0 (requests (run seven id initial_dialog [TestAll; Close; Open])) = [u "a"; u "b"; u "c"; u "d"; u "e"]
  /\ requests_of 0 (requests d) = [u "a"; u "b"; u "c"; u "d"; u "e"; u "f"]
  /\ let d' := run seven id d [AnswerBatch 0 (u "f") good 9] in
     isBatchTesting (ui d') = false /\ map_keys (batches d') = [1%nat].
Proof. vm_compute. done. Qed.
