(* ===== verification/TierEditor.v ===== *)
(** * The editor of tiered prices
    (src/web/src/features/system-settings/models/tiered-pricing-editor.tsx)

    The editor keeps a table of tiers, groups of request rules and one text of both, and
    its parent keeps the two texts that are saved. Effects carry texts to the parent and,
    until the editor is initialized, back. A step is a handler, then the renders with
    their effects until nothing changes. The effects of one render all see the values of
    that render; what they set is applied together. [None] is an exception in a render, a
    handler or an effect. Folding and selection of text are left out. *)

From Stdlib Require Import ZArith SpecFloat.
From stdpp Require Import base numbers option list sorting.
From S2P Require Import Prelude Collections JsNumber JsValue Json Regex JsCoerce BillingRules Tiers.

(** ** Numbers that are typed *)

Definition unitCostToPrice (uc : num) : num := or_zero uc.
Definition priceToUnitCost (price : num) : num := or_zero price.

Definition formatNumberDraft (value : TierValue) : jstr :=
  match value with
  | VStr s => s
  | VNum n => if isFinite n then num_str n else u "0"
  end.

Definition parseNumberDraft (value : jstr) : num :=
  if seqb (trim value) [] then num_of_Z 0
  else let next := string_to_number value in if isFinite next then next else num_of_Z 0.

Definition isZeroDraft (value : jstr) : bool :=
  negb (seqb (trim value) []) && num_eqb (parseNumberDraft value) (num_of_Z 0).

(** [DraftNumberInput]: what is typed is kept while the field has the focus. *)
Record DraftInput := mkDraft { draft : jstr; focused : bool }.

Definition draft_effect (value : TierValue) (i : DraftInput) : DraftInput :=
  if focused i then i else mkDraft (formatNumberDraft value) false.

(** The new draft and the value reported. *)
Definition handleChange (text : jstr) (i : DraftInput) : DraftInput * num :=
  (mkDraft text (focused i), parseNumberDraft text).

Definition handleFocus (i : DraftInput) : DraftInput := mkDraft (draft i) true.

Definition handleBlur (i : DraftInput) : DraftInput * num :=
  let normalized := parseNumberDraft (draft i) in (mkDraft (num_str normalized) false, normalized).

(** ** Tiers *)

Definition CACHE_PRICE_VARS : list BillingVar :=
  List.filter (fun v => bool_decide (bv_group v = Some (u "cache"))) BILLING_EXTRA_VARS.
Definition MEDIA_PRICE_VARS : list BillingVar :=
  List.filter (fun v => bool_decide (bv_group v = Some (u "media"))) BILLING_EXTRA_VARS.

Definition CONDITION_INPUT_OPTIONS : list jstr := [u "len"; u "p"; u "c"].
Definition OPS : list jstr := [u "<"; u "<="; u ">"; u ">="].

(** [{ ...tier, ... }]. *)
Definition with_label (x : jstr) (t : VisualTier) : VisualTier :=
  mkTier x (vt_conditions t) (input_unit_cost t) (output_unit_cost t) (cache_mode t) (cache_read_unit_cost t)
    (cache_create_unit_cost t) (cache_create_1h_unit_cost t) (image_unit_cost t) (image_output_unit_cost t)
    (audio_input_unit_cost t) (audio_output_unit_cost t).
Definition with_conditions (x : list TierConditionInput) (t : VisualTier) : VisualTier :=
  mkTier (vt_label t) x (input_unit_cost t) (output_unit_cost t) (cache_mode t) (cache_read_unit_cost t)
    (cache_create_unit_cost t) (cache_create_1h_unit_cost t) (image_unit_cost t) (image_output_unit_cost t)
    (audio_input_unit_cost t) (audio_output_unit_cost t).

(** [{ ...tier, [field]: value }]. *)
Definition handlePriceChange (field : jstr) (value : num) (t : VisualTier) : VisualTier :=
  let put f old := if seqb field f then value else old in
  mkTier (vt_label t) (vt_conditions t) (put (u "input_unit_cost") (input_unit_cost t))
    (put (u "output_unit_cost") (output_unit_cost t)) (cache_mode t)
    (put (u "cache_read_unit_cost") (cache_read_unit_cost t))
    (put (u "cache_create_unit_cost") (cache_create_unit_cost t))
    (put (u "cache_create_1h_unit_cost") (cache_create_1h_unit_cost t))
    (put (u "image_unit_cost") (image_unit_cost t)) (put (u "image_output_unit_cost") (image_output_unit_cost t))
    (put (u "audio_input_unit_cost") (audio_input_unit_cost t))
    (put (u "audio_output_unit_cost") (audio_output_unit_cost t)).

Definition handleCacheModeChange (mode : CacheMode) (t : VisualTier) : VisualTier :=
  mkTier (vt_label t) (vt_conditions t) (input_unit_cost t) (output_unit_cost t) mode (cache_read_unit_cost t)
    (cache_create_unit_cost t)
    (match mode with CACHE_MODE_TIMED => cache_create_1h_unit_cost t | CACHE_MODE_GENERIC => num_of_Z 0 end)
    (image_unit_cost t) (image_output_unit_cost t) (audio_input_unit_cost t) (audio_output_unit_cost t).

Definition without {A} (index : nat) (l : list A) : list A := take index l ++ drop (S index) l.

Definition handleConditionChange (index : nat) (next : TierConditionInput) (t : VisualTier) : VisualTier :=
  with_conditions (<[index := next]> (vt_conditions t)) t.

Definition handleConditionRemove (index : nat) (t : VisualTier) : VisualTier :=
  with_conditions (without index (vt_conditions t)) t.

Definition renormalize (t : VisualTier) : VisualTier := normalizeVisualTier (as_partial_tier t).

(** The handlers of [VisualEditor] on its normalized table. *)
Definition handleTierChange (index : nat) (next : VisualTier) (tiers : list VisualTier) : list VisualTier :=
  <[index := renormalize next]> tiers.

Definition default_condition (var : jstr) : TierConditionInput :=
  mkInput var (u "<") (Some (VNum (num_of_Z 200000))).

Definition handleAddTier (tiers : list VisualTier) : list VisualTier :=
  let lastIndex := (length tiers - 1)%nat in
  let tiers :=
    match tiers !! lastIndex with
    | Some t =>
        if (length (vt_conditions t) =? 0)%nat
        then <[lastIndex := renormalize (with_conditions [default_condition (u "len")] t)]> tiers else tiers
    | None => tiers
    end in
  tiers ++ [normalizeVisualTier (mkPartialTier (Some (u "tier_" ++ Z_str (Z.of_nat (length tiers + 1)))) (Some [])
              (Some (num_of_Z 0)) (Some (num_of_Z 0)) None [])].

Definition handleRemoveTier (index : nat) (tiers : list VisualTier) : list VisualTier :=
  let rest := without index tiers in if (0 <? length rest)%nat then rest else tiers.

(** A third condition is refused. *)
Definition handleAddCondition (index : nat) (tiers : list VisualTier) : list VisualTier :=
  match tiers !! index with
  | None => tiers
  | Some t =>
      if (2 <=? length (vt_conditions t))%nat then tiers
      else
        let usedVars := new_set (map ti_var (vt_conditions t)) in
        let nextVar := if set_has usedVars (u "len") then u "c" else u "len" in
        <[index := with_conditions (vt_conditions t ++ [default_condition nextVar]) t]> tiers
  end.

(** ** Request rules *)

(** What a row of a condition can change; numbers are typed. *)
Inductive RuleEdit :=
| EditSource (source : jstr)
| EditMode (mode : jstr)
| EditTimeFunc (timeFunc : jstr)
| EditTimezone (timezone : jstr)
| EditPath (path : jstr)
| EditValue (value : jstr)
| EditRangeStart (text : jstr)
| EditRangeEnd (text : jstr).

Definition handleSourceChange (source : jstr) (c : RequestCondition) : RequestCondition :=
  if seqb source SOURCE_TIME then createEmptyTimeCondition
  else if seqb source SOURCE_HEADER || seqb source SOURCE_PARAM then
    match createEmptyCondition with
    | ParamHeaderCondition _ p m v => ParamHeaderCondition source p m v
    | c => c
    end
  else c.

Definition typed (text : jstr) : jstr := num_str (parseNumberDraft text).

(** The row of a condition; a control that the row does not have changes nothing. *)
Definition edit_condition (edit : RuleEdit) (c : RequestCondition) : RequestCondition :=
  match edit, c with
  | EditSource source, _ => handleSourceChange source c
  | EditMode mode, TimeCondition f tz _ v s e => TimeCondition f tz mode v s e
  | EditMode mode, ParamHeaderCondition s p _ v => ParamHeaderCondition s p mode v
  | EditTimeFunc f, TimeCondition _ tz m v s e => TimeCondition f tz m v s e
  | EditTimezone tz, TimeCondition f _ m v s e => TimeCondition f tz m v s e
  | EditValue text, TimeCondition f tz m v s e =>
      if seqb m MATCH_RANGE then c else TimeCondition f tz m (typed text) s e
  | EditRangeStart text, TimeCondition f tz m v s e =>
      if seqb m MATCH_RANGE then TimeCondition f tz m v (typed text) e else c
  | EditRangeEnd text, TimeCondition f tz m v s e =>
      if seqb m MATCH_RANGE then TimeCondition f tz m v s (typed text) else c
  | EditPath path, ParamHeaderCondition s _ m v => ParamHeaderCondition s path m v
  | EditValue value, ParamHeaderCondition s p m _ =>
      if seqb m MATCH_EXISTS then c else ParamHeaderCondition s p m value
  | _, _ => c
  end.

(** What a card of a group can change. *)
Inductive GroupEdit :=
| EditCondition (index : nat) (edit : RuleEdit)
| RemoveCondition (index : nat)
| AddRuleCondition (timeMode : bool)
| EditMultiplier (text : jstr).

Definition edit_group (edit : GroupEdit) (g : RequestRuleGroup) : RequestRuleGroup :=
  match edit with
  | EditCondition index edit =>
      mkGroup (alter (edit_condition edit) index (conditions g)) (multiplier g)
  | RemoveCondition index => mkGroup (without index (conditions g)) (multiplier g)
  | AddRuleCondition timeMode =>
      mkGroup (conditions g ++ [if timeMode then createEmptyTimeCondition else createEmptyCondition]) (multiplier g)
  | EditMultiplier text => mkGroup (conditions g) (typed text)
  end.

(** ** Presets *)

Record Preset := mkPreset { preset_key : jstr; preset_expr : jstr; preset_rules : list RequestRuleGroup }.

Definition PRESET_GROUPS : list (jstr * list Preset) := [
  (u "Fixed price", [
    mkPreset (u "flat") (uq "tier('base', p * 2 + c * 4)") [];
    mkPreset (u "claude-opus") (uq "tier('base', p * 5 + c * 25 + cr * 0.5 + cc * 6.25 + cc1h * 10)") [];
    mkPreset (u "gpt-5.4") (uq "len <= 272000 ? tier('standard', p * 2.5 + c * 15 + cr * 0.25) : tier('long_context', p * 5 + c * 22.5 + cr * 0.5)") []]);
  (u "Tiered", [
    mkPreset (u "claude-sonnet") (uq "len <= 200000 ? tier('standard', p * 3 + c * 15 + cr * 0.3 + cc * 3.75 + cc1h * 6) : tier('long_context', p * 6 + c * 22.5 + cr * 0.6 + cc * 7.5 + cc1h * 12)") [];
    mkPreset (u "qwen3-max") (uq "len <= 32000 ? tier('short', p * 1.2 + c * 6 + cr * 0.24 + cc * 1.5) : len <= 128000 ? tier('mid', p * 2.4 + c * 12 + cr * 0.48 + cc * 3) : tier('long', p * 3 + c * 15 + cr * 0.6 + cc * 3.75)") [];
    mkPreset (u "glm-4.5-air") (uq "len < 32000 && c < 200 ? tier('short_output', p * 0.8 + c * 2 + cr * 0.16) : len < 32000 && c >= 200 ? tier('long_output', p * 0.8 + c * 6 + cr * 0.16) : tier('mid_context', p * 1.2 + c * 8 + cr * 0.24)") [];
    mkPreset (u "doubao-seed-1.8") (uq "len <= 32000 && c <= 200 ? tier('discount', p * 0.8 + c * 2 + cr * 0.16 + cc * 0.17) : len <= 32000 ? tier('short', p * 0.8 + c * 8 + cr * 0.16 + cc * 0.17) : len <= 128000 ? tier('mid', p * 1.2 + c * 16 + cr * 0.16 + cc * 0.17) : tier('long', p * 2.4 + c * 24 + cr * 0.16 + cc * 0.17)") []]);
  (u "Multimodal", [
    mkPreset (u "gpt-image-1-mini") (uq "tier('base', p * 2 + c * 8 + img * 2.5)") [];
    mkPreset (u "gemini-2.5-flash") (uq "tier('base', p * 0.3 + c * 2.5 + cr * 0.03 + ai * 1.0)") [];
    mkPreset (u "gemini-3-pro-image") (uq "tier('base', p * 2 + c * 12 + img_o * 120)") [];
    mkPreset (u "qwen3-omni-flash") (uq "tier('base', p * 0.43 + c * 3.06 + img * 0.78 + ai * 3.81 + ao * 15.11)") []]);
  (u "Request rule", [
    mkPreset (u "claude-opus-fast") (uq "tier('base', p * 5 + c * 25 + cr * 0.5 + cc * 6.25 + cc1h * 10)")
      [mkGroup [ParamHeaderCondition SOURCE_HEADER (u "anthropic-beta") MATCH_CONTAINS (u "fast-mode-2026-02-01")] (u "6")];
    mkPreset (u "gpt-5.4-tiers") (uq "len <= 272000 ? tier('standard', p * 2.5 + c * 15 + cr * 0.25) : tier('long_context', p * 5 + c * 22.5 + cr * 0.5)")
      [mkGroup [ParamHeaderCondition SOURCE_PARAM (u "service_tier") MATCH_EQ (u "priority")] (u "2");
       mkGroup [ParamHeaderCondition SOURCE_PARAM (u "service_tier") MATCH_EQ (u "flex")] (u "0.5")]]);
  (u "Time-based", [
    mkPreset (u "night-discount") (uq "tier('base', p * 3 + c * 15)")
      [mkGroup [TimeCondition (u "hour") (u "Asia/Shanghai") MATCH_RANGE [] (u "21") (u "6")] (u "0.5")];
    mkPreset (u "weekend-discount") (uq "tier('base', p * 3 + c * 15)")
      [mkGroup [TimeCondition (u "weekday") (u "Asia/Shanghai") MATCH_EQ (u "0") [] []] (u "0.8");
       mkGroup [TimeCondition (u "weekday") (u "Asia/Shanghai") MATCH_EQ (u "6") [] []] (u "0.8")]])].

Definition presets : list Preset := concat (map snd PRESET_GROUPS).

(** ** The editor *)

Inductive EditorMode := Visual | Raw.

#[export] Instance EditorMode_eq_dec : EqDecision EditorMode.
Proof. solve_decision. Defined.

(** [currentExpr] and [currentRequestRuleExpr] belong to the parent; [seen] are their
    values when the first effect last looked at them. *)
Record Editor := mkEditor {
  editorMode : EditorMode;
  visualConfig : option (list VisualTier);
  rawExpr : jstr;
  requestRuleGroups : list RequestRuleGroup;
  initRef : bool;
  seen : jstr * jstr;
  currentExpr : jstr;
  currentRequestRuleExpr : jstr
}.

(** The state set by handlers and the first effect. *)
Definition put (mode : EditorMode) (config : option (list VisualTier)) (raw : jstr) (groups : list RequestRuleGroup)
    (e : Editor) : Editor :=
  mkEditor mode config raw groups (initRef e) (seen e) (currentExpr e) (currentRequestRuleExpr e).

Definition setVisualConfig (config : list VisualTier) (e : Editor) : Editor :=
  put (editorMode e) (Some config) (rawExpr e) (requestRuleGroups e) e.
Definition setRequestRuleGroups (groups : list RequestRuleGroup) (e : Editor) : Editor :=
  put (editorMode e) (visualConfig e) (rawExpr e) groups e.
Definition setInitRef (x : bool) (e : Editor) : Editor :=
  mkEditor (editorMode e) (visualConfig e) (rawExpr e) (requestRuleGroups e) x (seen e) (currentExpr e)
    (currentRequestRuleExpr e).
Definition onRequestRuleExprChange (rule : jstr) (e : Editor) : Editor :=
  mkEditor (editorMode e) (visualConfig e) (rawExpr e) (requestRuleGroups e) (initRef e) (seen e) (currentExpr e) rule.

(** [tryParseRequestRuleExpr(expr) || []]. *)
Definition read_groups (expr : jstr) : option (list RequestRuleGroup) :=
  default [] <$> tryParseRequestRuleExpr expr.

Definition canUseVisualRules (e : Editor) : option bool :=
  if negb (str_truthy (currentRequestRuleExpr e)) then Some true
  else (fun parsed => match parsed with Some _ => true | None => false end)
       <$> tryParseRequestRuleExpr (currentRequestRuleExpr e).

Definition effectiveExpr (e : Editor) : option jstr :=
  match editorMode e with
  | Visual => Some (generateExprFromVisualConfig (visualConfig e))
  | Raw => fst <$> splitBillingExprAndRequestRules (rawExpr e)
  end.

(** The first effect when the editor is not initialized. *)
Definition initialize (e : Editor) : option Editor :=
  groups ← read_groups (currentRequestRuleExpr e);
  let raw := combineBillingExpr (currentExpr e) (currentRequestRuleExpr e) in
  Some (setInitRef true
    (match tryParseVisualConfig (currentExpr e) with
     | Some parsedConfig => put Visual (Some parsedConfig) raw groups e
     | None =>
         if str_truthy (currentExpr e) then put Raw None raw groups e
         else put (editorMode e) (Some createDefaultVisualConfig) raw groups e
     end)).

(** The two effects that tell the parent: they compare with the render [e] and apply to
    what the first effect made of it. *)
Definition tell_parent (e : Editor) (expr : jstr) (e' : Editor) : Editor :=
  mkEditor (editorMode e') (visualConfig e') (rawExpr e') (requestRuleGroups e') (initRef e')
    (currentExpr e, currentRequestRuleExpr e)
    (if seqb expr (currentExpr e) then currentExpr e else expr)
    (match editorMode e with
     | Visual =>
         let ruleExpr := buildRequestRuleExpr (requestRuleGroups e) in
         if seqb ruleExpr (currentRequestRuleExpr e) then currentRequestRuleExpr e else ruleExpr
     | Raw => currentRequestRuleExpr e
     end).

(** A render and its effects. *)
Definition commit (e : Editor) : option Editor :=
  _ ← canUseVisualRules e;
  expr ← effectiveExpr e;
  e' ← (if initRef e || bool_decide (seen e = (currentExpr e, currentRequestRuleExpr e)) then Some e
        else initialize e);
  Some (tell_parent e expr e').

(** Renders until nothing changes; four are enough. *)
Fixpoint commits (n : nat) (e : Editor) : option Editor :=
  match n with O => Some e | S n => e ← commit e; commits n e end.

Definition settle (e : Editor) : option Editor := commits 4 e.

(** The first render: the first effect runs, and the effect of the model's name, which
    comes after it, marks the editor as not initialized again. *)
Definition mount (expr rule : jstr) : option Editor :=
  groups ← read_groups rule;
  let e := mkEditor Visual (tryParseVisualConfig expr) (combineBillingExpr expr rule) groups false (expr, rule) expr rule in
  _ ← canUseVisualRules e;
  shown ← effectiveExpr e;
  e' ← initialize e;
  settle (setInitRef false (tell_parent e shown e')).

(** ** Handlers *)

(** The table [VisualEditor] shows. *)
Definition config (e : Editor) : list VisualTier := normalizeVisualConfig (visualConfig e).

Definition handleRawChange (value : jstr) (e : Editor) : option Editor :=
  '(_, ruleStr) ← splitBillingExprAndRequestRules value;
  Some (onRequestRuleExprChange ruleStr (put (editorMode e) (visualConfig e) value (requestRuleGroups e) e)).

Definition handleModeChange (next : EditorMode) (e : Editor) : option Editor :=
  match next with
  | Visual =>
      '(billingExpr, ruleStr) ← splitBillingExprAndRequestRules (rawExpr e);
      parsedGroups ← read_groups ruleStr;
      Some (onRequestRuleExprChange ruleStr
              (put Visual (Some (default createDefaultVisualConfig (tryParseVisualConfig billingExpr))) (rawExpr e)
                 parsedGroups e))
  | Raw =>
      let expr := generateExprFromVisualConfig (visualConfig e) in
      let ruleExpr := buildRequestRuleExpr (requestRuleGroups e) in
      Some (put Raw (visualConfig e) (str_or (combineBillingExpr expr ruleExpr) expr) (requestRuleGroups e) e)
  end.

Definition applyPreset (preset : Preset) (e : Editor) : Editor :=
  let presetGroups := preset_rules preset in
  let ruleExpr := buildRequestRuleExpr presetGroups in
  let combined := str_or (combineBillingExpr (preset_expr preset) ruleExpr) (preset_expr preset) in
  onRequestRuleExprChange ruleExpr
    (match tryParseVisualConfig (preset_expr preset) with
     | Some parsed => put Visual (Some parsed) combined presetGroups e
     | None => put Raw None combined presetGroups e
     end).

(** What a card of a tier can change. *)
Inductive TierEdit :=
| EditLabel (label : jstr)
| EditConditionVar (index : nat) (var : jstr)
| EditConditionOp (index : nat) (op : jstr)
| EditConditionValue (index : nat) (text : jstr)
| RemoveTierCondition (index : nat)
| EditPrice (field : jstr) (text : jstr)
| EditCacheMode (mode : CacheMode).

(** The price fields of a card. *)
Definition price_fields (t : VisualTier) : list jstr :=
  [u "input_unit_cost"; u "output_unit_cost"]
  ++ omap tierField (List.filter (fun v => negb (seqb (bv_key v) (u "cc1h"))
                                           || match getTierCacheMode (Some (as_partial_tier t)) with
                                              | CACHE_MODE_TIMED => true
                                              | CACHE_MODE_GENERIC => false
                                              end)
                       CACHE_PRICE_VARS)
  ++ omap tierField MEDIA_PRICE_VARS.

Definition edit_tier (edit : TierEdit) (t : VisualTier) : VisualTier :=
  match edit with
  | EditLabel label => with_label label t
  | EditConditionVar i var =>
      match vt_conditions t !! i with
      | Some c => handleConditionChange i (mkInput var (ti_op c) (ti_value c)) t
      | None => t
      end
  | EditConditionOp i op =>
      match vt_conditions t !! i with
      | Some c => handleConditionChange i (mkInput (ti_var c) op (ti_value c)) t
      | None => t
      end
  | EditConditionValue i text =>
      match vt_conditions t !! i with
      | Some c => handleConditionChange i (mkInput (ti_var c) (ti_op c) (Some (VNum (parseNumberDraft text)))) t
      | None => t
      end
  | RemoveTierCondition i => handleConditionRemove i t
  | EditPrice field text => handlePriceChange field (priceToUnitCost (parseNumberDraft text)) t
  | EditCacheMode mode => handleCacheModeChange mode t
  end.

(** The choices a card offers. *)
Definition tier_offers (edit : TierEdit) (t : VisualTier) : bool :=
  match edit with
  | EditLabel _ | EditCacheMode _ => true
  | EditConditionVar i var => (i <? length (vt_conditions t))%nat && set_has CONDITION_INPUT_OPTIONS var
  | EditConditionOp i op => (i <? length (vt_conditions t))%nat && set_has OPS op
  | EditConditionValue i _ | RemoveTierCondition i => (i <? length (vt_conditions t))%nat
  | EditPrice field _ => set_has (price_fields t) field
  end.

Inductive Event :=
| ModeChange (next : EditorMode)
| RawChange (value : jstr)
| ApplyPreset (index : nat)
| EditTier (index : nat) (edit : TierEdit)
| AddTier
| RemoveTier (index : nat)
| AddCondition (index : nat)
| EditGroup (index : nat) (edit : GroupEdit)
| AddGroup
| RemoveGroup (index : nat)
| NameChanged.

(** The controls that are rendered and enabled. *)
Definition offered (e : Editor) (ev : Event) : bool :=
  let visual := bool_decide (editorMode e = Visual) in
  let rules := match canUseVisualRules e with Some true => true | _ => false end in
  match ev with
  | ModeChange next => negb (bool_decide (next = editorMode e))
  | RawChange _ => negb visual
  | ApplyPreset i => (i <? length presets)%nat
  | EditTier i edit => visual && match config e !! i with Some t => tier_offers edit t | None => false end
  | AddTier => visual
  | RemoveTier i => visual && (i <? length (config e))%nat && negb (length (config e) <=? 1)%nat
  | AddCondition i =>
      visual && match config e !! i with Some t => negb (2 <=? length (vt_conditions t))%nat | None => false end
  | EditGroup i _ | RemoveGroup i => visual && rules && (i <? length (requestRuleGroups e))%nat
  | AddGroup => visual && rules
  | NameChanged => true
  end.

Definition handle (e : Editor) (ev : Event) : option Editor :=
  match ev with
  | ModeChange next => handleModeChange next e
  | RawChange value => handleRawChange value e
  | ApplyPreset i => Some (match presets !! i with Some preset => applyPreset preset e | None => e end)
  | EditTier i edit =>
      Some (match config e !! i with
            | Some t => setVisualConfig (handleTierChange i (edit_tier edit t) (config e)) e
            | None => e
            end)
  | AddTier => Some (setVisualConfig (handleAddTier (config e)) e)
  | RemoveTier i => Some (setVisualConfig (handleRemoveTier i (config e)) e)
  | AddCondition i => Some (setVisualConfig (handleAddCondition i (config e)) e)
  | EditGroup i edit => Some (setRequestRuleGroups (alter (edit_group edit) i (requestRuleGroups e)) e)
  | AddGroup => Some (setRequestRuleGroups (requestRuleGroups e ++ [createEmptyRuleGroup]) e)
  | RemoveGroup i => Some (setRequestRuleGroups (without i (requestRuleGroups e)) e)
  | NameChanged => Some (setInitRef false e)
  end.

Definition step (e : Editor) (ev : Event) : option Editor :=
  if offered e ev then e' ← handle e ev; settle e' else Some e.

Fixpoint steps (e : Editor) (es : list Event) : option Editor :=
  match es with [] => Some e | ev :: es => e ← step e ev; steps e es end.

Definition texts (e : Editor) : jstr * jstr := (currentExpr e, currentRequestRuleExpr e).

(** Opening an expression that the table cannot show, and typing in the expression
    editor. *)
Example open_ex :
  (texts <$> mount (uq "tier('base', p * 3 + c * 15)") (buildRequestRuleExpr demo_groups))
  = Some (uq "tier('base', p * 3 + c * 15)", buildRequestRuleExpr demo_groups).
Proof. vm_compute. reflexivity. Qed.

Example open_complex_ex :
  (texts <$> mount (uq "tier('base', max(p, 100) * 3)") []) = Some (EMPTY_PRICE, []).
Proof. vm_compute. reflexivity. Qed.
