(* ===== verification/TierEditorProps.v ===== *)
(** * Properties of the editor of tiered prices

    The effects settle and then the parent holds what is shown; an initialized editor
    keeps every edit; a price and rules that the editor wrote open unchanged; and what
    opening does to a price or rules that the table cannot show. *)

From Stdlib Require Import ZArith SpecFloat.
From stdpp Require Import base numbers option list sorting.
From S2P Require Import Prelude Collections JsNumber JsValue Json Regex JsCoerce BillingRules BillingRulesProps Tiers TiersProps TierEditor.

(** ** Renders *)

(** What the handlers and the first effect set. *)
Definition core (e : Editor) : EditorMode * option (list VisualTier) * jstr * list RequestRuleGroup :=
  (editorMode e, visualConfig e, rawExpr e, requestRuleGroups e).

(** The rules the parent holds after a render. *)
Definition shown_rules (e : Editor) : jstr :=
  match editorMode e with Visual => buildRequestRuleExpr (requestRuleGroups e) | Raw => currentRequestRuleExpr e end.

Lemma told (a b : jstr) : (if seqb a b then b else a) = a.
Proof. destruct (seqb a b) eqn:E; [by apply seqb_eq in E|done]. Qed.

Lemma tell_texts e x e' : currentExpr (tell_parent e x e') = x /\ currentRequestRuleExpr (tell_parent e x e') = shown_rules e.
Proof.
  unfold tell_parent, shown_rules. cbn [currentExpr currentRequestRuleExpr]. rewrite told.
  by destruct (editorMode e); [rewrite told|].
Qed.

Lemma commit_spec e e1 : commit e = Some e1 ->
  effectiveExpr e = Some (currentExpr e1) /\ currentRequestRuleExpr e1 = shown_rules e /\ seen e1 = texts e
  /\ if initRef e || bool_decide (seen e = texts e) then core e1 = core e /\ initRef e1 = initRef e
     else initRef e1 = true.
Proof.
  unfold commit, texts. destruct (canUseVisualRules e); [|done]. destruct (effectiveExpr e) as [x|] eqn:Ex; [|done].
  cbn [mbind option_bind].
  destruct (initRef e || _) eqn:Ei.
  - cbn [mbind option_bind]. intros H. assert (tell_parent e x e = e1) as <- by congruence. destruct (tell_texts e x e) as [E1 E2].
    by rewrite E1, E2.
  - unfold initialize. destruct (read_groups _); [|done]. cbn [mbind option_bind]. intros H.
    match type of H with Some ?t = _ => assert (t = e1) as <- by congruence end.
    match goal with |- context [tell_parent e x ?e'] => destruct (tell_texts e x e') as [E1 E2] end. rewrite E1, E2.
    by split_and!.
Qed.

Lemma editor_ext (e e' : Editor) : core e = core e' -> initRef e = initRef e' -> seen e = seen e' -> texts e = texts e' -> e = e'.
Proof. destruct e, e'. unfold core, texts. cbn. intros. by simplify_eq. Qed.

Lemma core_shown e e' : core e' = core e -> currentRequestRuleExpr e' = shown_rules e ->
  effectiveExpr e' = effectiveExpr e /\ shown_rules e' = shown_rules e.
Proof. unfold core, effectiveExpr, shown_rules. intros [= -> -> -> ->]. by destruct (editorMode e). Qed.

(** A render that does not initialize, and the one after it. *)
Lemma quiet_twice e e1 e2 : initRef e || bool_decide (seen e = texts e) = true ->
  commit e = Some e1 -> initRef e1 || bool_decide (seen e1 = texts e1) = true -> commit e1 = Some e2 ->
  core e2 = core e /\ initRef e2 = initRef e /\ texts e2 = texts e1 /\ seen e2 = texts e1.
Proof.
  intros Hq H1 Hq1 H2. destruct (commit_spec _ _ H1) as (Ex & Er & Es & Hc). rewrite Hq in Hc. destruct Hc as [Hc Hi].
  destruct (commit_spec _ _ H2) as (Ex2 & Er2 & Es2 & Hc2). rewrite Hq1 in Hc2. destruct Hc2 as [Hc2 Hi2].
  destruct (core_shown e e1 Hc Er) as [Fe Fr]. split_and!; [congruence|congruence| |done]. unfold texts. f_equal; congruence.
Qed.

Lemma initialized_quiet e : initRef e = true -> initRef e || bool_decide (seen e = texts e) = true.
Proof. by intros ->. Qed.

(** An initialized editor settles after two renders, with the parent holding what it shows. *)
Lemma initialized_settles e e1 e2 e3 : initRef e = true -> commit e = Some e1 -> commit e1 = Some e2 ->
  commit e2 = Some e3 ->
  e3 = e2 /\ core e2 = core e /\ initRef e2 = true /\ effectiveExpr e = Some (currentExpr e2)
  /\ currentRequestRuleExpr e2 = shown_rules e.
Proof.
  intros Hi H1 H2 H3. destruct (commit_spec _ _ H1) as (Ex & Er & _ & Hc). rewrite Hi in Hc. destruct Hc as [Hc1 Hi1].
  destruct (quiet_twice e e1 e2 (initialized_quiet e Hi) H1 (initialized_quiet e1 ltac:(congruence)) H2) as (Hc2 & Hi2 & Ht2 & Hs2).
  destruct (quiet_twice e1 e2 e3 (initialized_quiet e1 ltac:(congruence)) H2 (initialized_quiet e2 ltac:(congruence)) H3) as (Hc3 & Hi3 & Ht3 & Hs3).
  assert (E : texts e2 = texts e1) by done. injection E as E1 E2. split_and!; try congruence.
  apply editor_ext; congruence.
Qed.

(** A render that only repeats what an earlier one saw does not throw. *)
Lemma commit_again e e1 e' : commit e = Some e1 -> core e' = core e -> texts e' = texts e ->
  initRef e' || bool_decide (seen e' = texts e') = true -> exists e'', commit e' = Some e''.
Proof.
  unfold commit, canUseVisualRules, effectiveExpr, core, texts. intros H [= Em Ec Er Eg] [= Ee Eq] Hq.
  rewrite Em, Ec, Er, Eq in *. rewrite Ee in *.
  destruct (if negb _ then _ else _); [|done]. cbn [mbind option_bind] in *.
  destruct (match editorMode e with Visual => _ | Raw => _ end); [|done]. cbn [mbind option_bind] in *.
  rewrite Hq. eauto.
Qed.

(** Four renders are enough from any state. *)
Lemma settled_fixed e e4 : settle e = Some e4 -> commit e4 = Some e4.
Proof.
  unfold settle. cbn [commits]. destruct (commit e) as [e1|] eqn:H1; [|done]. cbn [mbind option_bind].
  destruct (commit e1) as [e2|] eqn:H2; [|done]. cbn [mbind option_bind].
  destruct (commit e2) as [e3|] eqn:H3; [|done]. cbn [mbind option_bind].
  destruct (commit e3) as [e4'|] eqn:H4; [|done]. cbn [mbind option_bind]. intros [= ->].
  destruct (initRef e || bool_decide (seen e = texts e)) eqn:Hq.
  2: { destruct (commit_spec _ _ H1) as (_ & _ & _ & Hi). rewrite Hq in Hi.
       destruct (initialized_settles _ _ _ _ Hi H2 H3 H4) as [-> _]. congruence. }
  destruct (initRef e1 || bool_decide (seen e1 = texts e1)) eqn:Hq1.
  2: { destruct (commit_spec _ _ H2) as (_ & _ & _ & Hi). rewrite Hq1 in Hi.
       destruct (commit_spec _ _ H3) as (_ & _ & _ & Hc). rewrite Hi in Hc. destruct Hc as [Hc3 Hi3].
       destruct (quiet_twice e2 e3 e4 (initialized_quiet e2 Hi) H3 (initialized_quiet e3 ltac:(congruence)) H4) as (Hc4 & Hi4 & Ht4 & _).
       destruct (commit_again e3 e4 e4 H4 ltac:(congruence) Ht4 (initialized_quiet e4 ltac:(congruence))) as [e5 H5].
       destruct (initialized_settles _ _ _ _ Hi H3 H4 H5) as [-> _]. done. }
  destruct (quiet_twice _ _ _ Hq H1 Hq1 H2) as (Hc & Hi & Ht & Hs).
  assert (Hq2 : initRef e2 || bool_decide (seen e2 = texts e2) = true).
  { rewrite bool_decide_eq_true_2 by congruence. apply orb_true_r. }
  destruct (quiet_twice _ _ _ Hq1 H2 Hq2 H3) as (Hc3 & Hi3 & Ht3 & Hs3).
  destruct (commit_spec _ _ H1) as (_ & _ & _ & Hc1). rewrite Hq in Hc1. destruct Hc1 as [Hc1 Hi1].
  assert (E : e3 = e2) by (apply editor_ext; congruence). subst e3. congruence.
Qed.

(** A settled editor shows what the parent holds. *)
Lemma fixed_shown e : commit e = Some e ->
  effectiveExpr e = Some (currentExpr e) /\ currentRequestRuleExpr e = shown_rules e.
Proof. intros H. by destruct (commit_spec _ _ H) as (Ex & Er & _). Qed.

(** ** Initialized editors *)

(** An initialized editor keeps every edit: after any control but the model's name, the
    mode, the table, the text and the rules are exactly those its handler set, however
    often the effects run, and the parent holds the expression and the rules they show. *)
Theorem initialized_edits_kept e ev h e' : initRef e = true -> ev <> NameChanged -> offered e ev = true ->
  handle e ev = Some h -> step e ev = Some e' ->
  core e' = core h /\ effectiveExpr h = Some (currentExpr e') /\ currentRequestRuleExpr e' = shown_rules h
  /\ initRef e' = true.
Proof.
  intros Hi Hn Ho Hh Hs. unfold step in Hs. rewrite Ho, Hh in Hs. cbn [mbind option_bind] in Hs.
  assert (Hih : initRef h = true).
  { destruct ev; cbn [handle] in Hh; try done; try (by simplify_eq; repeat case_match).
    - unfold handleModeChange in Hh. destruct next; [|by simplify_eq].
      destruct (splitBillingExprAndRequestRules _) as [[? ?]|]; [|done]. cbn [mbind option_bind] in Hh.
      destruct (read_groups _); [|done]. cbn [mbind option_bind] in Hh. by simplify_eq.
    - unfold handleRawChange in Hh. destruct (splitBillingExprAndRequestRules _) as [[? ?]|]; [|done].
      cbn [mbind option_bind] in Hh. by simplify_eq.
    - simplify_eq. case_match; [|done]. unfold applyPreset. by case_match. }
  unfold settle in Hs. cbn [commits] in Hs. destruct (commit h) as [e1|] eqn:H1; [|done]. cbn [mbind option_bind] in Hs.
  destruct (commit e1) as [e2|] eqn:H2; [|done]. cbn [mbind option_bind] in Hs.
  destruct (commit e2) as [e3|] eqn:H3; [|done]. cbn [mbind option_bind] in Hs.
  destruct (initialized_settles _ _ _ _ Hih H1 H2 H3) as (-> & Hc & Hi2 & Ex & Er).
  rewrite H3 in Hs. cbn [mbind option_bind] in Hs. injection Hs as <-. done.
Qed.

(** ** Every state of the editor *)

Lemma steps_fixed es : forall e e', commit e = Some e -> steps e es = Some e' -> commit e' = Some e'.
Proof.
  induction es as [|ev es IH]; intros e e' He H; cbn [steps] in H; [congruence|].
  destruct (step e ev) as [e1|] eqn:E; [|done]. cbn [mbind option_bind] in H. apply (IH e1); [|done].
  unfold step in E. destruct (offered e ev); [|congruence]. destruct (handle e ev); [|done]. cbn [mbind option_bind] in E.
  by eapply settled_fixed.
Qed.

Lemma mount_fixed expr rule e : mount expr rule = Some e -> commit e = Some e.
Proof.
  unfold mount. destruct (read_groups rule); [|done]. cbn [mbind option_bind].
  destruct (canUseVisualRules _); [|done]. cbn [mbind option_bind].
  destruct (effectiveExpr _); [|done]. cbn [mbind option_bind].
  destruct (initialize _); [|done]. cbn [mbind option_bind]. apply settled_fixed.
Qed.

(** C9: What would be saved is what is shown: after the editor is opened on any two texts
    and any controls are used, the effects have settled, the parent's price is the
    expression shown, and in the visual mode its rules are those of the groups shown. *)
Theorem parent_holds_shown expr rule es e0 e : mount expr rule = Some e0 -> steps e0 es = Some e ->
  commit e = Some e /\ effectiveExpr e = Some (currentExpr e)
  /\ (editorMode e = Visual -> currentExpr e = generateExprFromVisualConfig (visualConfig e)
      /\ currentRequestRuleExpr e = buildRequestRuleExpr (requestRuleGroups e)).
Proof.
  intros Hm Hs. pose proof (steps_fixed es e0 e (mount_fixed _ _ _ Hm) Hs) as H. destruct (fixed_shown e H) as [Ex Er].
  split; [done|]. split; [done|]. unfold effectiveExpr, shown_rules in *. intros E. rewrite E in *. by simplify_eq.
Qed.

(** ** Opening what the editor wrote *)

Lemma normalize_time f tz m v s e : f ∈ TIME_FUNCS -> tz <> [] -> m ∈ [MATCH_EQ; MATCH_GTE; MATCH_LT; MATCH_RANGE] ->
  normalizeCondition (Some (as_partial (TimeCondition f tz m v s e))) = TimeCondition f tz m v s e.
Proof.
  intros Hf Ht Hm. unfold normalizeCondition. cbn [as_partial mbind option_bind pc_source pc_timeFunc pc_timezone pc_mode].
  rewrite bool_decide_eq_true_2, seqb_refl by done. unfold isTimeFunc. rewrite bool_decide_eq_true_2 by done.
  cbn [default from_option]. unfold offered_mode, str_or. rewrite bool_decide_eq_true_2 by (vm_compute; vm_compute in Hm; done).
  by destruct tz.
Qed.

Lemma normalize_param_header s p m v : s ∈ [SOURCE_PARAM; SOURCE_HEADER] -> m ∈ (getRequestRuleMatchOptions s).*1 ->
  normalizeCondition (Some (as_partial (ParamHeaderCondition s p m v))) = ParamHeaderCondition s p m v.
Proof.
  intros Hs Hm. unfold normalizeCondition. cbn [as_partial mbind option_bind pc_source pc_path pc_mode pc_value].
  apply list_elem_of_In in Hs as [<-|[<-|[]]]; cbn [default from_option].
  - change (bool_decide (Some SOURCE_PARAM = Some SOURCE_TIME)) with false.
    change (bool_decide (Some SOURCE_PARAM = Some SOURCE_HEADER)) with false. cbv iota.
    change (seqb SOURCE_PARAM SOURCE_TIME) with false. cbv iota. unfold offered_mode. by rewrite bool_decide_eq_true_2.
  - change (bool_decide (Some SOURCE_HEADER = Some SOURCE_TIME)) with false.
    change (bool_decide (Some SOURCE_HEADER = Some SOURCE_HEADER)) with true. cbv iota.
    change (seqb SOURCE_HEADER SOURCE_TIME) with false. cbv iota. unfold offered_mode. by rewrite bool_decide_eq_true_2.
Qed.

Lemma canon_cond_text c : match canon_cond c with
  | Some c' => buildRequestConditionExpr c' = buildRequestConditionExpr c
  | None => True
  end.
Proof.
  unfold canon_cond, buildRequestConditionExpr at 2. pose proof (normalized_ok c) as Hn.
  destruct (normalizeCondition (Some (as_partial c))) as [f tz m v s e|s p m v].
  - destruct Hn as (Hf & Ht & Hm). destruct (seqb m MATCH_RANGE) eqn:Em.
    + destruct (_ && _); [|done]. unfold buildRequestConditionExpr. rewrite normalize_time; [|done|done|by repeat constructor].
      unfold build_time. rewrite seqb_refl, Em, !trim_idemp. done.
    + destruct (rtest _ _); [|done]. unfold buildRequestConditionExpr. rewrite normalize_time by done.
      unfold build_time. rewrite Em, !trim_idemp. done.
  - destruct Hn as [Hs Hm]. destruct (str_truthy (trim p)) eqn:Ep; [|done]. unfold buildRequestConditionExpr.
    rewrite normalize_param_header by done. unfold build_param_header. rewrite !trim_idemp, Ep. cbn [negb].
    destruct (seqb m MATCH_EXISTS); [done|]. by rewrite !literal_trim, !trim_idemp.
Qed.

Lemma canon_conds_text cs : Forall representable cs ->
  List.filter str_truthy (map buildRequestConditionExpr (omap canon_cond cs))
  = List.filter str_truthy (map buildRequestConditionExpr cs).
Proof.
  induction 1 as [|c cs Hc _ IH]; [done|]. cbn [omap list_omap map List.filter].
  pose proof (canon_cond_text c) as Ht. pose proof (cond_form c Hc) as Hf. destruct (canon_cond c) as [c'|].
  - cbn [map List.filter]. by rewrite Ht, IH.
  - by rewrite Hf, IH.
Qed.

Lemma canon_group_text g : Forall representable (conditions g) -> match canon_group g with
  | Some g' => buildRuleGroupFactor g' = buildRuleGroupFactor g
  | None => buildRuleGroupFactor g = []
  end.
Proof.
  intros H. pose proof (canon_conds_text _ H) as Hc. pose proof (group_factor g H) as Hg. unfold canon_group in *.
  destruct (rtest NUMERIC_LITERAL_REGEX (trim (multiplier g))) eqn:Em; [|done].
  destruct (omap canon_cond (conditions g)) as [|c cs] eqn:Ec; [done|].
  unfold buildRuleGroupFactor. cbn [multiplier conditions]. by rewrite trim_idemp, Hc.
Qed.

(** The groups read back write the same text. *)
Lemma canon_groups_text gs : Forall (fun g => Forall representable (conditions g)) gs ->
  buildRequestRuleExpr (omap canon_group gs) = buildRequestRuleExpr gs.
Proof.
  intros H. unfold buildRequestRuleExpr. f_equal. induction H as [|g gs Hg _ IH]; [done|].
  cbn [omap list_omap map List.filter]. pose proof (canon_group_text g Hg) as Ht. destruct (canon_group g) as [g'|].
  - cbn [map List.filter]. by rewrite Ht, IH.
  - by rewrite Ht, IH.
Qed.

(** A render with nothing to do. *)
Lemma commits_fixed n e : commit e = Some e -> commits n e = Some e.
Proof. intros H. induction n as [|n IH]; [done|]. cbn [commits]. by rewrite H. Qed.

Definition opened (mode : EditorMode) (config : option (list VisualTier)) (raw : jstr) (groups : list RequestRuleGroup)
    (init : bool) (old : jstr * jstr) (expr rule : jstr) : Editor := mkEditor mode config raw groups init old expr rule.

Lemma commit_visual config raw groups init old expr rule parsed : tryParseRequestRuleExpr rule = Some parsed ->
  init || bool_decide (old = (expr, rule)) = true ->
  commit (opened Visual config raw groups init old expr rule)
  = Some (opened Visual config raw groups init (expr, rule) (generateExprFromVisualConfig config) (buildRequestRuleExpr groups)).
Proof.
  intros Hr Hq. unfold commit, canUseVisualRules, effectiveExpr. cbn [opened currentRequestRuleExpr editorMode visualConfig initRef seen currentExpr].
  rewrite Hr, Hq. assert ((if negb (str_truthy rule) then Some true else (fun p => match p with Some _ => true | None => false end) <$> Some parsed) <> None)
    as Hc by (destruct (negb _); done).
  destruct (if negb _ then _ else _); [|done]. cbn [mbind option_bind]. unfold tell_parent, opened.
  cbn [editorMode visualConfig rawExpr requestRuleGroups initRef currentExpr currentRequestRuleExpr]. by rewrite !told.
Qed.

(** What the first render leaves. *)
Definition first_shown (expr : jstr) : EditorMode * option (list VisualTier) :=
  match tryParseVisualConfig expr with
  | Some parsed => (Visual, Some parsed)
  | None => if str_truthy expr then (Raw, None) else (Visual, Some createDefaultVisualConfig)
  end.

Lemma mount_opened expr rule parsed : tryParseRequestRuleExpr rule = Some parsed ->
  mount expr rule
  = settle (opened (fst (first_shown expr)) (snd (first_shown expr)) (combineBillingExpr expr rule) (default [] parsed)
              false (expr, rule) (generateExprFromVisualConfig (tryParseVisualConfig expr))
              (buildRequestRuleExpr (default [] parsed))).
Proof.
  intros Pr. unfold mount, read_groups. rewrite Pr. cbn [fmap option_fmap option_map mbind option_bind]. cbv zeta.
  set (e0 := mkEditor Visual _ _ _ _ _ _ _).
  assert (Hu : exists b, canUseVisualRules e0 = Some b).
  { unfold canUseVisualRules. cbn [e0 currentRequestRuleExpr]. rewrite Pr. destruct (negb _); eauto. }
  destruct Hu as [b ->]. cbn [mbind option_bind]. unfold effectiveExpr, initialize, read_groups.
  cbn [e0 editorMode visualConfig currentExpr currentRequestRuleExpr]. rewrite Pr.
  cbn [fmap option_fmap option_map mbind option_bind]. unfold first_shown, tell_parent, setInitRef, put, opened.
  cbn [e0 editorMode visualConfig requestRuleGroups currentExpr currentRequestRuleExpr]. rewrite !told. subst e0.
  destruct (tryParseVisualConfig expr); [reflexivity|]. by destruct (str_truthy expr).
Qed.

(** C10: A price and rules that the editor wrote open unchanged, for a table of tiers that
    reads back ([good_config]: nonempty labels without quotes, conditions on all tiers but
    the last, bounds without a minus sign, readable prices, the cache mode they imply) and
    for rules whose conditions have plain names and values and test parameters only for
    equality or existence: the opened editor shows exactly that table and the complete
    rules, and the parent's two texts stay as they were. (Other comparisons of parameters
    are deleted; see [comparison_deleted_on_reopen].) *)
Theorem written_price_reopens tiers groups :
  good_config tiers -> Forall (fun g => Forall representable (conditions g)) groups ->
  let expr := generateExprFromVisualConfig (Some tiers) in
  let rule := buildRequestRuleExpr groups in
  exists e, mount expr rule = Some e /\ texts e = (expr, rule) /\ editorMode e = Visual
    /\ visualConfig e = Some tiers /\ requestRuleGroups e = omap canon_group groups.
Proof.
  intros Ht Hg expr rule. pose proof (tiers_read_back tiers Ht) as Pt. fold expr in Pt.
  assert (Pr : tryParseRequestRuleExpr rule = Some (Some (omap canon_group groups))) by (apply factors_parse, groups_factors, Hg).
  pose proof (canon_groups_text groups Hg) as Hc. fold rule in Hc.
  exists (opened Visual (Some tiers) (combineBillingExpr expr rule) (omap canon_group groups) false (expr, rule) expr rule).
  split; [|done]. rewrite (mount_opened _ _ _ Pr). unfold first_shown. rewrite Pt. cbn [fst snd default from_option id].
  fold expr. rewrite Hc. apply commits_fixed. rewrite (commit_visual _ _ _ _ _ _ _ _ Pr) by (by rewrite bool_decide_eq_true_2).
  fold expr. by rewrite Hc.
Qed.

(** ** Opening what the table cannot show *)

Lemma commit_init mode config raw groups old expr rule parsed x : tryParseRequestRuleExpr rule = Some parsed ->
  old <> (expr, rule) -> expr <> [] ->
  effectiveExpr (opened mode config raw groups false old expr rule) = Some x ->
  commit (opened mode config raw groups false old expr rule)
  = Some (opened (fst (first_shown expr)) (snd (first_shown expr)) (combineBillingExpr expr rule) (default [] parsed) true
            (expr, rule) x (shown_rules (opened mode config raw groups false old expr rule))).
Proof.
  intros Pr Hne He Hx. unfold commit. rewrite Hx.
  assert (Hu : exists b, canUseVisualRules (opened mode config raw groups false old expr rule) = Some b).
  { unfold canUseVisualRules. cbn [opened currentRequestRuleExpr]. rewrite Pr. destruct (negb _); eauto. }
  destruct Hu as [b ->]. cbn [mbind option_bind opened initRef seen currentExpr currentRequestRuleExpr].
  rewrite bool_decide_eq_false_2 by done. cbn [orb]. unfold initialize, read_groups.
  cbn [opened currentExpr currentRequestRuleExpr]. rewrite Pr. cbn [fmap option_fmap option_map mbind option_bind].
  assert (str_truthy expr = true) as Et by (by destruct expr). unfold first_shown, tell_parent, setInitRef, put, shown_rules, opened.
  cbn [editorMode visualConfig requestRuleGroups currentExpr currentRequestRuleExpr]. rewrite !told, Et.
  by destruct (tryParseVisualConfig expr).
Qed.

Lemma commit_raw config raw groups init old expr rule parsed x y : tryParseRequestRuleExpr rule = Some parsed ->
  splitBillingExprAndRequestRules raw = Some (x, y) -> init || bool_decide (old = (expr, rule)) = true ->
  commit (opened Raw config raw groups init old expr rule) = Some (opened Raw config raw groups init (expr, rule) x rule).
Proof.
  intros Pr Hs Hq. unfold commit, effectiveExpr.
  assert (Hu : exists b, canUseVisualRules (opened Raw config raw groups init old expr rule) = Some b).
  { unfold canUseVisualRules. cbn [opened currentRequestRuleExpr]. rewrite Pr. destruct (negb _); eauto. }
  destruct Hu as [b ->]. cbn [mbind option_bind opened editorMode rawExpr initRef seen currentExpr currentRequestRuleExpr].
  rewrite Hs, Hq. cbn [fmap option_fmap option_map fst mbind option_bind]. unfold tell_parent, opened.
  cbn [editorMode visualConfig rawExpr requestRuleGroups initRef currentExpr currentRequestRuleExpr]. by rewrite told.
Qed.

Lemma no_rules : tryParseRequestRuleExpr [] = Some (Some []).
Proof. reflexivity. Qed.

(** C11: Opening an expression that the table cannot show replaces it by the price zero: for
    every such text without rules the opened editor is in the expression mode, but both
    its text and the price the parent would save are those of the empty table. *)
Theorem complex_price_zeroed expr : expr <> [] -> tryParseVisualConfig expr = None ->
  splitBillingExprAndRequestRules (combineBillingExpr expr []) <> None ->
  exists e, mount expr [] = Some e /\ editorMode e = Raw /\ rawExpr e = EMPTY_PRICE /\ texts e = (EMPTY_PRICE, []).
Proof.
  intros He Hp Hs. rewrite (mount_opened _ _ _ no_rules). unfold first_shown. rewrite Hp.
  assert (str_truthy expr = true) as -> by (by destruct expr). cbn [fst snd default from_option id].
  change (buildRequestRuleExpr []) with (@nil N). change (generateExprFromVisualConfig None) with EMPTY_PRICE.
  destruct (splitBillingExprAndRequestRules (combineBillingExpr expr [])) as [[x y]|] eqn:Ex; [|done].
  assert (Se : splitBillingExprAndRequestRules EMPTY_PRICE = Some (EMPTY_PRICE, [])) by (vm_compute; reflexivity).
  unfold settle. destruct (decide (expr = EMPTY_PRICE)) as [->|Hne].
  - change (combineBillingExpr EMPTY_PRICE []) with EMPTY_PRICE.
    exists (opened Raw None EMPTY_PRICE [] false (EMPTY_PRICE, []) EMPTY_PRICE []). split; [|done]. apply commits_fixed.
    by rewrite (commit_raw _ _ _ _ _ _ _ _ _ _ no_rules Se) by (by rewrite bool_decide_eq_true_2).
  - cbn [commits]. rewrite (commit_init _ _ _ _ _ _ _ _ x no_rules); [|congruence|done|].
    2: { unfold effectiveExpr. cbn [opened editorMode rawExpr]. by rewrite Ex. }
    assert (first_shown EMPTY_PRICE = (Raw, None)) as -> by (vm_compute; reflexivity).
    change (combineBillingExpr EMPTY_PRICE []) with EMPTY_PRICE. cbn [mbind option_bind fst snd default from_option id].
    change (shown_rules (opened Raw None (combineBillingExpr expr []) [] false (expr, []) EMPTY_PRICE [])) with (@nil N).
    rewrite (commit_raw _ _ _ _ _ _ _ _ _ _ no_rules Se) by done. cbn [mbind option_bind].
    rewrite (commit_raw _ _ _ _ _ _ _ _ _ _ no_rules Se) by done. cbn [mbind option_bind].
    rewrite (commit_raw _ _ _ _ _ _ _ _ _ _ no_rules Se) by done. cbn [mbind option_bind]. by eexists.
Qed.

(** Rules that the editor cannot read are deleted when the editor is opened, although it
    says that they are too complex for it. *)
Theorem unreadable_rules_deleted tiers rule : good_config tiers -> tryParseRequestRuleExpr rule = Some None ->
  let expr := generateExprFromVisualConfig (Some tiers) in
  expr <> [] ->
  exists e, mount expr rule = Some e /\ editorMode e = Visual /\ visualConfig e = Some tiers /\ texts e = (expr, []).
Proof.
  intros Ht Hr expr He. pose proof (tiers_read_back tiers Ht) as Pt. fold expr in Pt.
  rewrite (mount_opened _ _ _ Hr). unfold first_shown. rewrite Pt. cbn [fst snd default from_option id]. fold expr.
  change (buildRequestRuleExpr []) with (@nil N).
  assert (Hne : rule <> []) by (intros ->; by rewrite no_rules in Hr).
  unfold settle. cbn [commits]. rewrite (commit_init _ _ _ _ _ _ _ _ expr no_rules); [|congruence|done|done].
  unfold first_shown. rewrite Pt. cbn [fst snd default from_option id mbind option_bind].
  unfold shown_rules. cbn [opened editorMode requestRuleGroups]. change (buildRequestRuleExpr []) with (@nil N).
  rewrite (commit_visual _ _ _ _ _ _ _ _ no_rules) by done. fold expr. cbn [mbind option_bind]. change (buildRequestRuleExpr []) with (@nil N).
  rewrite (commit_visual _ _ _ _ _ _ _ _ no_rules) by done. fold expr. cbn [mbind option_bind]. change (buildRequestRuleExpr []) with (@nil N).
  rewrite (commit_visual _ _ _ _ _ _ _ _ no_rules) by done. fold expr. cbn [mbind option_bind]. by eexists.
Qed.

(** The rules the editor itself wrote for a parameter that is compared or searched are
    among them. *)
Theorem comparison_deleted_on_reopen tiers path mode value mult : good_config tiers ->
  plain_text path -> trim path <> [] -> plain_text value -> numeric (trim mult) ->
  (mode = MATCH_CONTAINS \/ mode ∈ compare_ops.*1 /\ numeric (trim value)) ->
  let expr := generateExprFromVisualConfig (Some tiers) in
  expr <> [] ->
  exists e, mount expr (buildRequestRuleExpr [mkGroup [ParamHeaderCondition SOURCE_PARAM path mode value] mult]) = Some e
    /\ texts e = (expr, []).
Proof.
  intros Ht Hp Hne Hv Hm Hmode expr He. destruct (param_comparisons_lost path mode value mult Hp Hne Hv Hm Hmode) as [_ Hr].
  destruct (unreadable_rules_deleted tiers _ Ht Hr He) as (e & H & _ & _ & E). eauto.
Qed.

(** ** Runs *)

Definition base_price : jstr := uq "tier('base', p * 3 + c * 15)".

Definition ready : Editor :=
  opened Visual (tryParseVisualConfig base_price) base_price [] true (base_price, []) base_price [].

Lemma initialized_edits_kept_witness :
  match handle ready AddTier, step ready AddTier with
  | Some h, Some e' =>
      core e' = core h /\ currentExpr e'
        = uq "len < 200000 ? tier('base', p * 3 + c * 15) : tier('tier_2', p * 0 + c * 0)"
  | _, _ => False
  end.
Proof.
  destruct (handle ready AddTier) as [h|] eqn:Eh; [|by vm_compute in Eh].
  destruct (step ready AddTier) as [e'|] eqn:Es.
  - assert (Ho : offered ready AddTier = true) by (vm_compute; reflexivity).
    destruct (initialized_edits_kept ready AddTier h e' eq_refl ltac:(done) Ho Eh Es) as (Hc & Hx & _). split; [exact Hc|].
    assert (E : (h ← handle ready AddTier; effectiveExpr h)
                = Some (uq "len < 200000 ? tier('base', p * 3 + c * 15) : tier('tier_2', p * 0 + c * 0)"))
      by (vm_compute; reflexivity).
    rewrite Eh in E. cbn [mbind option_bind] in E. congruence.
  - assert (E : (texts <$> step ready AddTier) <> None) by (vm_compute; discriminate). rewrite Es in E. exact (E eq_refl).
Defined.

Lemma parent_holds_shown_witness :
  match mount base_price [] with
  | Some e0 =>
      match steps e0 [AddTier; EditTier 0 (EditPrice (u "input_unit_cost") (u "2.5"))] with
      | Some e => commit e = Some e /\ effectiveExpr e = Some (currentExpr e)
      | None => False
      end
  | None => False
  end.
Proof.
  destruct (mount base_price []) as [e0|] eqn:Em; [|by vm_compute in Em].
  destruct (steps e0 [AddTier; EditTier 0 (EditPrice (u "input_unit_cost") (u "2.5"))]) as [e|] eqn:Es.
  - destruct (parent_holds_shown _ _ _ e0 e Em Es) as (H1 & H2 & _). split; [exact H1|exact H2].
  - assert (E : (e0 ← mount base_price []; texts <$> steps e0 [AddTier; EditTier 0 (EditPrice (u "input_unit_cost") (u "2.5"))])
                <> None) by (vm_compute; discriminate).
    rewrite Em in E. cbn [mbind option_bind] in E. rewrite Es in E. exact (E eq_refl).
Defined.

Lemma written_price_reopens_witness :
  exists e, mount (generateExprFromVisualConfig (Some demo_tiers)) (buildRequestRuleExpr demo_groups) = Some e
    /\ visualConfig e = Some demo_tiers.
Proof.
  destruct (written_price_reopens demo_tiers demo_groups demo_good) as (e & H & _ & _ & Hv & _);
    [apply representable_checked; vm_compute; reflexivity|].
  exists e. split; [exact H|exact Hv].
Defined.

Lemma complex_price_zeroed_witness :
  exists e, mount (uq "tier('base', max(p, 100) * 3 + c * 15)") [] = Some e /\ texts e = (EMPTY_PRICE, []).
Proof.
  destruct (complex_price_zeroed (uq "tier('base', max(p, 100) * 3 + c * 15)")) as (e & H & _ & _ & E);
    [done|vm_compute; reflexivity|vm_compute; discriminate|].
  exists e. split; [exact H|exact E].
Defined.

(** The first text typed in the expression mode that the table can show switches the
    editor to the visual mode, and the first preset with rules leaves the price alone. *)
Theorem first_edit_overwritten :
  (e0 ← mount base_price []; e ← steps e0 [ModeChange Raw; RawChange (uq "tier('base', p * 3 + c * 16)")];
   Some (bool_decide (editorMode e = Visual))) = Some true
  /\ (e0 ← mount base_price []; e ← steps e0 [ApplyPreset 12]; Some (currentExpr e)) = Some base_price
  /\ (preset_expr <$> presets !! 12%nat)
     = Some (uq "len <= 272000 ? tier('standard', p * 2.5 + c * 15 + cr * 0.25) : tier('long_context', p * 5 + c * 22.5 + cr * 0.5)").
Proof. split; [vm_compute; reflexivity|]. split; vm_compute; reflexivity. Qed.

(** Applied to an initialized editor every preset gives its rules and, up to the printing
    of its numbers, its price. *)
Theorem presets_applied :
  map (fun i => texts <$> step ready (ApplyPreset i)) (seq 0 (length presets))
  = map (fun p => Some (generateExprFromVisualConfig (tryParseVisualConfig (preset_expr p)),
                        buildRequestRuleExpr (preset_rules p))) presets
  /\ forallb (fun p => match tryParseVisualConfig (preset_expr p) with Some _ => true | None => false end) presets = true.
Proof. split; vm_compute; reflexivity. Qed.
