(* ===== verification/SidebarConfig.v ===== *)
(** * The links of the sidebar
    (src/web/src/hooks/use-sidebar-config.ts)

    The sidebar shows a link when the administrator's configuration allows its module and
    the user's own configuration does not hide it. The administrator's text is the one the
    settings page of [NavSettings] writes. Titles and icons of links are left out. *)

From Stdlib Require Import ZArith SpecFloat.
From stdpp Require Import base numbers option list sorting.
From S2P Require Import Prelude Collections JsNumber JsValue Json JsonProps Regex JsCoerce.
From S2P Require Import AuthStore NavModules NavSettings NavModulesProps.

(** ** Configurations *)

Definition SidebarDefaults : Type := list (jstr * list (jstr * bool)).

Definition DEFAULT_SIDEBAR_MODULES : SidebarDefaults := [
  (u "chat", [(u "enabled", true); (u "playground", true); (u "chat", true)]);
  (u "console", [(u "enabled", true); (u "detail", true); (u "token", true); (u "log", true); (u "midjourney", true);
                 (u "task", true)]);
  (u "personal", [(u "enabled", true); (u "topup", true); (u "personal", true)]);
  (u "admin", [(u "enabled", true); (u "channel", true); (u "models", true); (u "redemption", true); (u "user", true);
               (u "setting", true); (u "subscription", true)])].

Definition section_object (s : list (jstr * bool)) : jsval := JObj (map (fun e => (fst e, JBool (snd e))) s).

(** The members that [{ ...v }] copies. *)
Definition spread_entries (v : jsval) : list (jstr * jsval) := default [] (object_entries v).

Definition assign (base entries : list (jstr * jsval)) : list (jstr * jsval) :=
  fold_left (fun m e => map_set m (fst e) (snd e)) entries base.

Definition object_members (v : jsval) : list (jstr * jsval) := match v with JObj ps => ps | _ => [] end.

(** A section over its defaults; what is undefined then takes the default. *)
Definition merge_with_default (defaultSection : list (jstr * bool)) (existingSection : jsval) : jsval :=
  JObj (fold_left (fun m e => match get (JObj m) (fst e) with
                              | JUndef => map_set m (fst e) (JBool (snd e))
                              | _ => m
                              end) defaultSection
          (assign (object_members (section_object defaultSection)) (spread_entries existingSection))).

Definition mergeWithDefaultSidebarModules (config : jsval) : jsval :=
  JObj (fold_left (fun merged '(sectionKey, defaultSection) =>
          let existingSection := get (JObj merged) sectionKey in
          map_set merged sectionKey
            (if negb (truthy existingSection) then section_object defaultSection
             else merge_with_default defaultSection existingSection))
          DEFAULT_SIDEBAR_MODULES (assign [] (spread_entries config))).

Definition default_config : jsval := JObj (map (fun e => (fst e, section_object (snd e))) DEFAULT_SIDEBAR_MODULES).

Definition parseSidebarConfig (value : option jstr) : jsval :=
  match value with
  | None => default_config
  | Some value =>
      if negb (str_truthy value) || seqb (trim value) [] then default_config
      else match JSON_parse value with
           | Some parsed => mergeWithDefaultSidebarModules parsed
           | None => default_config
           end
  end.

(** [None] does not narrow. *)
Definition parseUserSidebarConfig (value : option jstr) : option jsval :=
  match value with
  | None => None
  | Some value =>
      if negb (str_truthy value) || seqb (trim value) [] then None
      else match JSON_parse value with
           | Some parsed => if negb (truthy parsed) || negb (is_object parsed) then None else Some parsed
           | None => None
           end
  end.

Definition URL_TO_CONFIG_MAP : list (jstr * (jstr * jstr)) := [
  (u "/playground", (u "chat", u "playground"));
  (u "/dashboard", (u "console", u "detail"));
  (u "/dashboard/overview", (u "console", u "detail"));
  (u "/dashboard/models", (u "console", u "detail"));
  (u "/dashboard/users", (u "console", u "detail"));
  (u "/keys", (u "console", u "token"));
  (u "/usage-logs", (u "console", u "log"));
  (u "/usage-logs/common", (u "console", u "log"));
  (u "/usage-logs/drawing", (u "console", u "midjourney"));
  (u "/usage-logs/task", (u "console", u "task"));
  (u "/wallet", (u "personal", u "topup"));
  (u "/profile", (u "personal", u "personal"));
  (u "/channels", (u "admin", u "channel"));
  (u "/models", (u "admin", u "models"));
  (u "/models/metadata", (u "admin", u "models"));
  (u "/models/deployments", (u "admin", u "models"));
  (u "/users", (u "admin", u "user"));
  (u "/redemption-codes", (u "admin", u "redemption"));
  (u "/subscriptions", (u "admin", u "subscription"));
  (u "/system-settings", (u "admin", u "setting"));
  (u "/system-settings/site", (u "admin", u "setting"))].

(** ** Visible links *)

Definition is_false (v : jsval) : bool := match v with JBool false => true | _ => false end.

(** The two layers on a section and a module. *)
Definition admin_allows (adminConfig : jsval) (section module : jstr) : bool :=
  let adminSection := get adminConfig section in
  truthy adminSection && truthy (get adminSection (u "enabled")) && is_true (get adminSection module).

Definition user_allows (userConfig : option jsval) (section module : jstr) : bool :=
  match userConfig with
  | None => true
  | Some userConfig =>
      let userSection := get userConfig section in
      if negb (truthy userSection) then true
      else if is_false (get userSection (u "enabled")) then false
      else negb (is_false (get userSection module))
  end.

Definition isModuleEnabled (url : jstr) (adminConfig : jsval) (userConfig : option jsval) : bool :=
  match map_get URL_TO_CONFIG_MAP url with
  | None => true
  | Some (section, module) =>
      if negb (admin_allows adminConfig section module) then false else user_allows userConfig section module
  end.

Inductive NavItem :=
| NavChatPresets
| NavLink (url : jstr) (configUrls : option (list jstr))
| NavCollapsible (items : list jstr).

Definition isNavItemVisible (item : NavItem) (adminConfig : jsval) (userConfig : option jsval) : bool :=
  match item with
  | NavChatPresets =>
      if negb (admin_allows adminConfig (u "chat") (u "chat")) then false
      else user_allows userConfig (u "chat") (u "chat")
  | NavLink url configUrls =>
      if str_truthy url
      then existsb (fun url => isModuleEnabled url adminConfig userConfig) (default [url] configUrls) else true
  | NavCollapsible items => existsb (fun url => isModuleEnabled url adminConfig userConfig) items
  end.

Definition filterNavItems (items : list NavItem) (adminConfig : jsval) (userConfig : option jsval) : list NavItem :=
  List.filter (fun item => isNavItemVisible item adminConfig userConfig)
    (map (fun item => match item with
                      | NavCollapsible items =>
                          NavCollapsible (List.filter (fun url => isModuleEnabled url adminConfig userConfig) items)
                      | item => item
                      end) items).

(** The text a status or a user holds. *)
Definition text_member (v : jsval) (k : jstr) : option jstr := match get v k with JStr s => Some s | _ => None end.

(** The user layer, unless the user cannot configure the sidebar. *)
Definition user_config (auth : AuthState) : option jsval :=
  let user := default JUndef (user auth) in
  if is_false (get (get user (u "permissions")) (u "sidebar_settings")) then None
  else parseUserSidebarConfig (text_member user (u "sidebar_modules")).

Definition useSidebarConfig (status : jsval) (auth : AuthState) (navGroups : list (jstr * list NavItem))
    : list (jstr * list NavItem) :=
  let adminConfig := parseSidebarConfig (text_member status (u "SidebarModulesAdmin")) in
  List.filter (fun group => (0 <? length (snd group))%nat)
    (map (fun group => (fst group, filterNavItems (snd group) adminConfig (user_config auth))) navGroups).

Definition useIsSidebarModuleVisible (status : jsval) (auth : AuthState) (url : jstr) : bool :=
  isModuleEnabled url (parseSidebarConfig (text_member status (u "SidebarModulesAdmin"))) (user_config auth).

(** ** Merged configurations *)

Lemma assign_spread entries : forall base k, NoDup entries.*1 ->
  map_get (assign base entries) k = match map_get entries k with Some v => Some v | None => map_get base k end.
Proof.
  unfold assign. induction entries as [|[k' v] es IH]; intros base k Hn; [done|]. apply NoDup_cons in Hn as [Hk Hn].
  cbn [fold_left map_get fst snd]. rewrite IH by done. case_bool_decide as E; [subst|].
  - rewrite (proj2 (map_get_None es k)) by done. by rewrite map_get_set_eq.
  - by rewrite map_get_set_ne.
Qed.

Lemma spread_get ps k : map_ok ps -> map_get (spread_entries (JObj ps)) k = map_get ps k /\ NoDup (spread_entries (JObj ps)).*1.
Proof.
  intros H. cbn [spread_entries object_entries default from_option]. pose proof (own_entries_perm ps) as Hp.
  assert (Hn : NoDup (own_entries ps).*1) by (by rewrite Hp). split; [|done].
  destruct (map_get ps k) as [v|] eqn:E.
  - apply map_get_elem; [done|]. rewrite Hp. by apply map_get_Some_elem.
  - apply map_get_None. apply map_get_None in E. unfold map_keys in *. by rewrite Hp.
Qed.

(** Assigning to each key what it had before. *)
Lemma fold_sections (f : list (jstr * bool) -> jsval -> jsval) l : forall m k, NoDup l.*1 ->
  get (JObj (fold_left (fun merged '(sk, d) => map_set merged sk (f d (get (JObj merged) sk))) l m)) k
  = match map_get l k with Some d => f d (get (JObj m) k) | None => get (JObj m) k end.
Proof.
  induction l as [|[k' d] l IH]; intros m k Hn; [done|]. apply NoDup_cons in Hn as [Hk Hn]. cbn [fold_left map_get].
  rewrite IH by done. rewrite get_map_set. case_bool_decide as E.
  - subst. rewrite (proj2 (map_get_None l k)) by done. by rewrite seqb_refl.
  - assert (seqb k' k = false) as -> by (by apply seqb_neq). done.
Qed.

(** A section that was saved, over its defaults. *)
Lemma merged_section d s k : NoDup d.*1 -> map_ok s ->
  get (merge_with_default d (Settings.section_val s)) k
  = match map_get s k with Some b => JBool b | None => match map_get d k with Some b => JBool b | None => JUndef end end.
Proof.
  intros Hd Hs. unfold merge_with_default. set (m0 := assign _ _).
  assert (Hm : forall k, map_get m0 k
            = match map_get s k with Some b => Some (JBool b) | None => JBool <$> map_get d k end).
  { intros k'. unfold m0, Settings.section_val.
    destruct (spread_get (map (fun e => (fst e, JBool (snd e))) s) k') as [E Hn]; [unfold map_ok, map_keys; by rewrite keys_vals|].
    rewrite assign_spread by done. rewrite E, (map_get_vals JBool). cbn [object_members section_object]. rewrite (map_get_vals JBool).
    by destruct (map_get s k'). }
  assert (Hfix : forall l m, (forall e, e ∈ l -> get (JObj m) (fst e) <> JUndef) ->
    fold_left (fun m (e : jstr * bool) => match get (JObj m) (fst e) with JUndef => map_set m (fst e) (JBool (snd e)) | _ => m end) l m = m).
  { induction l as [|e l IH]; intros m H; [done|]. cbn [fold_left].
    pose proof (H e ltac:(left)). destruct (get (JObj m) (fst e)); [done|apply IH; intros; apply H; by right..]. }
  rewrite Hfix; [cbn [get]; rewrite Hm; by destruct (map_get s k), (map_get d k)|].
  intros [k' b] He. cbn [get fst]. rewrite Hm. destruct (map_get s k'); [done|].
  by rewrite (map_get_elem d k' b Hd He).
Qed.

(** What a configuration says of a module; what it does not mention is on. *)
Definition setting (c : Settings.SidebarModulesAdminConfig) (section k : jstr) : bool :=
  default true (map_get c section ≫= fun s => map_get s k).

Definition known (section module : jstr) : Prop :=
  exists d, map_get DEFAULT_SIDEBAR_MODULES section = Some d /\ NoDup d.*1
    /\ map_get d (u "enabled") = Some true /\ map_get d module = Some true.

Lemma mapped_known url section module : map_get URL_TO_CONFIG_MAP url = Some (section, module) -> known section module.
Proof.
  intros H%map_get_Some_elem. unfold URL_TO_CONFIG_MAP in H. apply list_elem_of_In in H. cbn [In] in H.
  repeat (destruct H as [H|H]; [injection H as _ <- <-; eexists; split; [vm_compute; reflexivity|];
    split; [by apply (bool_decide_unpack _); vm_compute|by split; vm_compute]|]). done.
Qed.

Lemma merged_get ps section d : map_ok ps -> map_get DEFAULT_SIDEBAR_MODULES section = Some d ->
  get (mergeWithDefaultSidebarModules (JObj ps)) section
  = if negb (truthy (get (JObj ps) section)) then section_object d else merge_with_default d (get (JObj ps) section).
Proof.
  intros Hm Hd. unfold mergeWithDefaultSidebarModules.
  rewrite (fold_sections (fun d v => if negb (truthy v) then section_object d else merge_with_default d v));
    [|by apply (bool_decide_unpack _); vm_compute].
  rewrite Hd. assert (get (JObj (assign [] (spread_entries (JObj ps)))) section = get (JObj ps) section) as ->; [|done].
  destruct (spread_get ps section Hm) as [E Hn]. cbn [get]. rewrite assign_spread by done. rewrite E. by destruct (map_get ps section).
Qed.

Lemma admin_saved c section module : sidebar_ok c -> known section module ->
  admin_allows (parseSidebarConfig (Some (Settings.serializeSidebarModulesAdmin c))) section module
  = setting c section (u "enabled") && setting c section module.
Proof.
  intros Hc (d & Hd & Hn & He & Hm). destruct (sidebar_text c Hc) as (t & Et & Ht & Hb & Ep). rewrite Et.
  unfold parseSidebarConfig. rewrite Ht, Hb, Ep. cbn [negb orb]. destruct Hc as (Hok & _ & Hs).
  unfold admin_allows, setting. rewrite (merged_get _ _ d); [|unfold map_ok, map_keys; by rewrite keys_vals|done].
  assert (Hg : get (JObj (map (fun e => (fst e, Settings.section_val (snd e))) c)) section
               = match map_get c section with Some s => Settings.section_val s | None => JUndef end).
  { cbn [get]. rewrite (map_get_vals Settings.section_val). by destruct (map_get c section). }
  rewrite Hg. destruct (map_get c section) as [s|] eqn:Ec; cbn [mbind option_bind].
  - change (truthy (Settings.section_val s)) with true. cbn [negb].
    assert (Hsok : map_ok s).
    { apply map_get_Some_elem in Ec. rewrite Forall_forall in Hs. by destruct (Hs _ Ec). }
    rewrite !merged_section by done. rewrite He, Hm. change (truthy (merge_with_default d (Settings.section_val s))) with true.
    by destruct (map_get s (u "enabled")) as [[]|], (map_get s module) as [[]|].
  - cbn [truthy negb]. unfold section_object. cbn [get]. rewrite !(map_get_vals JBool), He, Hm. done.
Qed.

(** The links of the sidebar follow the two configurations: when the status holds the text
    an administrator saved, a link that has a module is shown exactly when the saved
    configuration switches off neither its section nor its module and the user's own
    configuration does not hide it; the user can only hide more. *)
Theorem sidebar_links_decided c status auth url section module : sidebar_ok c ->
  get status (u "SidebarModulesAdmin") = JStr (Settings.serializeSidebarModulesAdmin c) ->
  map_get URL_TO_CONFIG_MAP url = Some (section, module) ->
  useIsSidebarModuleVisible status auth url
  = setting c section (u "enabled") && setting c section module && user_allows (user_config auth) section module.
Proof.
  intros Hc Hs Hu. unfold useIsSidebarModuleVisible, isModuleEnabled, text_member. rewrite Hu, Hs.
  rewrite (admin_saved c section module Hc (mapped_known _ _ _ Hu)).
  by destruct (_ && _).
Qed.

(** The guard of the pages and the sidebar agree on the administrator's layer. *)
Theorem sidebar_agrees_with_guard c status m b auth url section module : sidebar_ok c -> json_ok status ->
  get status (u "SidebarModulesAdmin") = JStr (Settings.serializeSidebarModulesAdmin c) ->
  Site.has_window b = true -> Site.readable b = true -> (forall t, Site.stores b t = true) ->
  map_get URL_TO_CONFIG_MAP url = Some (section, module) -> user_config auth = None ->
  Site.isSidebarModuleEnabled (Site.getFreshModuleAccess (Some status) m b).2 section module
  = Some (useIsSidebarModuleVisible status auth url).
Proof.
  intros Hc Hj Hs Hw Hr Hst Hu Hn. rewrite (saved_sidebar_decides c) by done.
  rewrite (sidebar_links_decided c _ _ _ section module) by done. rewrite Hn. cbn [user_allows]. rewrite andb_true_r. f_equal.
  unfold setting, switched_off. destruct (map_get c section) as [s|]; [|done]. cbn [mbind option_bind].
  by destruct (map_get s (u "enabled")) as [[]|], (map_get s module) as [[]|].
Qed.

(** What is shown is enabled: no group is empty, no collapsible is, and every link of the
    result, also inside a collapsible, leads to an enabled module. *)
Lemma filter_items_enabled items a us item : item ∈ filterNavItems items a us ->
  match item with
  | NavChatPresets => admin_allows a (u "chat") (u "chat") && user_allows us (u "chat") (u "chat") = true
  | NavLink url urls => str_truthy url = true -> exists x, x ∈ default [url] urls /\ isModuleEnabled x a us = true
  | NavCollapsible urls => urls <> [] /\ Forall (fun x => isModuleEnabled x a us = true) urls
  end.
Proof.
  unfold filterNavItems. intros H. apply list_elem_of_In, filter_In in H as [H Hv]. apply in_map_iff in H as (i & <- & _).
  destruct i as [|url urls|urls]; cbn [isNavItemVisible] in *.
  - by destruct (admin_allows _ _ _).
  - intros Ht. rewrite Ht in Hv. apply existsb_exists in Hv as (x & Hx & He). exists x. split; [by apply list_elem_of_In|done].
  - split; [by intros E; rewrite E in Hv|]. apply Forall_forall. intros x Hx.
    by apply list_elem_of_In, filter_In in Hx as [_ Hx].
Qed.

Example sidebar_ex :
  let a := parseSidebarConfig (Some (uq "{'chat':{'enabled':1,'playground':'false'},'console':{'enabled':false}}")) in
  filterNavItems [NavChatPresets; NavLink (u "/playground") None; NavCollapsible [u "/usage-logs/task"; u "/keys"];
                  NavCollapsible [u "/models"; u "/keys"]; NavLink (u "/about") None] a None
  = [NavChatPresets; NavCollapsible [u "/models"]; NavLink (u "/about") None].
Proof. vm_compute. reflexivity. Qed.

Lemma sidebar_links_decided_witness :
  useIsSidebarModuleVisible demo_sidebar_status useAuthStore (u "/playground") = false
  /\ useIsSidebarModuleVisible demo_sidebar_status useAuthStore (u "/channels") = true.
Proof.
  assert (Hc : sidebar_ok demo_sidebar) by (apply sidebar_checked; by vm_compute).
  split.
  - rewrite (sidebar_links_decided demo_sidebar _ _ (u "/playground") (u "chat") (u "playground") Hc); [by vm_compute..].
  - rewrite (sidebar_links_decided demo_sidebar _ _ (u "/channels") (u "admin") (u "channel") Hc); [by vm_compute..].
Defined.
