(* ===== verification/Passkey.v ===== *)
(** * Binary values of passkeys as text
    (src/web/src/lib/passkey.ts)

    The credentials of a passkey are sent as base64url: the standard alphabet with two
    letters replaced and without padding. [atob] and [btoa] are the functions of the
    browser; a buffer is the list of its bytes. The options of a credential, which come
    from the server untyped, and the calls of the browser's credential store are left
    out. *)

From Stdlib Require Import ZArith.
From stdpp Require Import base numbers option list.
From S2P Require Import Prelude Collections.

Open Scope N_scope.

(** ** Base64 *)

Definition sextet_char (n : N) : N :=
  if n <? 26 then 65 + n else if n <? 52 then 71 + n else if n <? 62 then n - 4 else if n =? 62 then 43 else 47.

Definition char_sextet (c : N) : option N :=
  if (65 <=? c) && (c <=? 90) then Some (c - 65)
  else if (97 <=? c) && (c <=? 122) then Some (c - 71)
  else if (48 <=? c) && (c <=? 57) then Some (c + 4)
  else if c =? 43 then Some 62
  else if c =? 47 then Some 63
  else None.

Definition PAD : N := 61.

Fixpoint encode_groups (bytes : list N) : jstr :=
  match bytes with
  | a :: b :: c :: rest =>
      map sextet_char [N.shiftr a 2; N.lor (N.shiftl (N.land a 3) 4) (N.shiftr b 4);
                       N.lor (N.shiftl (N.land b 15) 2) (N.shiftr c 6); N.land c 63] ++ encode_groups rest
  | [a; b] => map sextet_char [N.shiftr a 2; N.lor (N.shiftl (N.land a 3) 4) (N.shiftr b 4); N.shiftl (N.land b 15) 2] ++ [PAD]
  | [a] => map sextet_char [N.shiftr a 2; N.shiftl (N.land a 3) 4] ++ [PAD; PAD]
  | [] => []
  end.

(** A code unit over 255 is an InvalidCharacterError. *)
Definition btoa (data : jstr) : option jstr :=
  if forallb (fun c => c <? 256) data then Some (encode_groups data) else None.

Fixpoint decode_groups (sextets : list N) : list N :=
  match sextets with
  | p :: q :: r :: s :: rest =>
      N.lor (N.shiftl p 2) (N.shiftr q 4) :: N.lor (N.shiftl (N.land q 15) 4) (N.shiftr r 2)
      :: N.lor (N.shiftl (N.land r 3) 6) s :: decode_groups rest
  | [p; q; r] => [N.lor (N.shiftl p 2) (N.shiftr q 4); N.lor (N.shiftl (N.land q 15) 4) (N.shiftr r 2)]
  | [p; q] => [N.lor (N.shiftl p 2) (N.shiftr q 4)]
  | _ => []
  end.

(** One or two characters of padding at the end of a text of whole groups. *)
Definition strip_padding (data : jstr) : jstr :=
  if (length data mod 4 =? 0)%nat then
    match reverse data with
    | a :: b :: rest => if a =? PAD then if b =? PAD then reverse rest else reverse (b :: rest) else data
    | _ => data
    end
  else data.

Definition ascii_space (c : N) : bool := existsb (N.eqb c) [9; 10; 12; 13; 32].

Definition atob (data : jstr) : option jstr :=
  let data := strip_padding (List.filter (fun c => negb (ascii_space c)) data) in
  if (length data mod 4 =? 1)%nat then None
  else decode_groups <$> mapM char_sextet data.

(** ** Buffers and texts *)

(** [s.replaceAll(a, b)] on single characters. *)
Definition replace_char (a b : N) (s : jstr) : jstr := map (fun c => if c =? a then b else c) s.

(** [s.replace(/=+$/g, '')]. *)
Fixpoint drop_pads (s : jstr) : jstr :=
  match s with
  | [] => []
  | c :: s => match drop_pads s with [] => if c =? PAD then [] else [c] | s' => c :: s' end
  end.

Definition arrayBufferToBase64Url (buffer : option (list N)) : option jstr :=
  match buffer with
  | None => Some []
  | Some bytes => (fun text => drop_pads (replace_char 47 95 (replace_char 43 45 text))) <$> btoa bytes
  end.

(** [None]: the text is no base64. The code units are stored as bytes. *)
Definition base64UrlToArrayBuffer (value : option jstr) : option (list N) :=
  match value with
  | None | Some [] => Some []
  | Some value =>
      let padding := repeat PAD ((4 - length value mod 4) mod 4)%nat in
      map (fun c => c mod 256) <$> atob (replace_char 95 47 (replace_char 45 43 (value ++ padding)))
  end.

Example passkey_ex :
  arrayBufferToBase64Url (Some [251; 255; 254; 1]) = Some (u "-__-AQ")
  /\ base64UrlToArrayBuffer (Some (u "-__-AQ")) = Some [251; 255; 254; 1]
  /\ base64UrlToArrayBuffer (Some (u "a")) = None /\ base64UrlToArrayBuffer (Some (u "a*bc")) = None.
Proof. vm_compute. done. Qed.

(** ** Round trip *)

(** Finitely many cases by evaluation. *)
Definition below (k : nat) : list N := map N.of_nat (seq 0 k).

Lemma below_all k (P : N -> bool) : forallb P (below k) = true -> forall n, n < N.of_nat k -> P n = true.
Proof.
  intros H n Hn. rewrite forallb_forall in H. apply H. unfold below. apply in_map_iff. exists (N.to_nat n).
  split; [lia|]. apply in_seq. lia.
Qed.

Lemma below_all2 k (P : N -> N -> bool) : forallb (fun a => forallb (P a) (below k)) (below k) = true ->
  forall a b, a < N.of_nat k -> b < N.of_nat k -> P a b = true.
Proof. intros H a b Ha Hb. apply (below_all k (P a)); [|done]. by apply (below_all k (fun a => forallb (P a) (below k))). Qed.

Definition middle (a b : N) : N := N.lor (N.shiftl (N.land a 3) 4) (N.shiftr b 4).
Definition next (b c : N) : N := N.lor (N.shiftl (N.land b 15) 2) (N.shiftr c 6).

Lemma middle_parts a b : a < 256 -> b < 256 ->
  middle a b < 64 /\ N.shiftr (middle a b) 4 = N.land a 3 /\ N.land (middle a b) 15 = N.shiftr b 4.
Proof.
  intros Ha Hb. pose proof (below_all2 256 (fun a b => (middle a b <? 64) && (N.shiftr (middle a b) 4 =? N.land a 3)
    && (N.land (middle a b) 15 =? N.shiftr b 4)) ltac:(vm_compute; reflexivity) a b Ha Hb) as H.
  apply andb_true_iff in H as [[H1%N.ltb_lt H2%N.eqb_eq]%andb_true_iff H3%N.eqb_eq]. done.
Qed.

Lemma next_parts b c : b < 256 -> c < 256 ->
  next b c < 64 /\ N.shiftr (next b c) 2 = N.land b 15 /\ N.land (next b c) 3 = N.shiftr c 6.
Proof.
  intros Ha Hb. pose proof (below_all2 256 (fun b c => (next b c <? 64) && (N.shiftr (next b c) 2 =? N.land b 15)
    && (N.land (next b c) 3 =? N.shiftr c 6)) ltac:(vm_compute; reflexivity) b c Ha Hb) as H.
  apply andb_true_iff in H as [[H1%N.ltb_lt H2%N.eqb_eq]%andb_true_iff H3%N.eqb_eq]. done.
Qed.

Lemma byte_parts a : a < 256 ->
  N.shiftr a 2 < 64 /\ N.land a 63 < 64
  /\ N.lor (N.shiftl (N.shiftr a 2) 2) (N.land a 3) = a /\ N.lor (N.shiftl (N.shiftr a 4) 4) (N.land a 15) = a
  /\ N.lor (N.shiftl (N.shiftr a 6) 6) (N.land a 63) = a.
Proof.
  intros Ha. pose proof (below_all 256 (fun a => (N.shiftr a 2 <? 64) && (N.land a 63 <? 64)
    && (N.lor (N.shiftl (N.shiftr a 2) 2) (N.land a 3) =? a) && (N.lor (N.shiftl (N.shiftr a 4) 4) (N.land a 15) =? a)
    && (N.lor (N.shiftl (N.shiftr a 6) 6) (N.land a 63) =? a)) ltac:(vm_compute; reflexivity) a Ha) as H.
  apply andb_true_iff in H as [[[[H1%N.ltb_lt H2%N.ltb_lt]%andb_true_iff H3%N.eqb_eq]%andb_true_iff
    H4%N.eqb_eq]%andb_true_iff H5%N.eqb_eq]. done.
Qed.

(** The text without its padding, as sextets. *)
Fixpoint sextets (bytes : list N) : list N :=
  match bytes with
  | a :: b :: c :: rest => N.shiftr a 2 :: middle a b :: next b c :: N.land c 63 :: sextets rest
  | [a; b] => [N.shiftr a 2; middle a b; next b 0]
  | [a] => [N.shiftr a 2; middle a 0]
  | [] => []
  end.

Definition padding_of (n : nat) : nat := ((3 - n mod 3) mod 3)%nat.

(** Induction by groups of three. *)
Lemma groups_ind (P : list N -> Prop) : P [] -> (forall a, P [a]) -> (forall a b, P [a; b]) ->
  (forall a b c rest, P rest -> P (a :: b :: c :: rest)) -> forall l, P l.
Proof.
  intros H0 H1 H2 H3. fix IH 1. intros [|a [|b [|c rest]]]; [exact H0|apply H1|apply H2|]. apply H3, IH.
Qed.

Lemma decode_sextets bytes : Forall (fun c => c < 256) bytes -> decode_groups (sextets bytes) = bytes.
Proof.
  induction bytes as [|a|a b|a b c rest IH] using groups_ind; intros H.
  - done.
  - apply Forall_cons in H as [Ha _]. cbn [sextets decode_groups].
    destruct (middle_parts a 0 Ha ltac:(lia)) as (_ & -> & _). by destruct (byte_parts a Ha) as (_ & _ & -> & _).
  - apply Forall_cons in H as [Ha [Hb _]%Forall_cons]. cbn [sextets decode_groups].
    destruct (middle_parts a b Ha Hb) as (_ & -> & ->). destruct (next_parts b 0 Hb ltac:(lia)) as (_ & -> & _).
    destruct (byte_parts a Ha) as (_ & _ & -> & _). by destruct (byte_parts b Hb) as (_ & _ & _ & -> & _).
  - apply Forall_cons in H as [Ha [Hb [Hc Hr]%Forall_cons]%Forall_cons]. cbn [sextets decode_groups].
    destruct (middle_parts a b Ha Hb) as (_ & -> & ->). destruct (next_parts b c Hb Hc) as (_ & -> & ->).
    destruct (byte_parts a Ha) as (_ & _ & -> & _). destruct (byte_parts b Hb) as (_ & _ & _ & -> & _).
    destruct (byte_parts c Hc) as (_ & _ & _ & _ & ->). by rewrite IH.
Qed.

Lemma encode_sextets bytes : encode_groups bytes = map sextet_char (sextets bytes) ++ repeat PAD (padding_of (length bytes)).
Proof.
  induction bytes as [|a|a b|a b c rest IH] using groups_ind.
  - done.
  - cbn [encode_groups sextets]. unfold middle. by rewrite N.shiftr_0_l, N.lor_0_r.
  - cbn [encode_groups sextets]. unfold next. by rewrite N.shiftr_0_l, N.lor_0_r.
  - cbn [encode_groups sextets map app]. rewrite IH. unfold padding_of. cbn [length].
    replace (S (S (S (length rest))))%nat with (length rest + 1 * 3)%nat by lia. by rewrite Nat.Div0.mod_add.
Qed.

Lemma sextets_bound bytes : Forall (fun c => c < 256) bytes -> Forall (fun n => n < 64) (sextets bytes).
Proof.
  induction bytes as [|a|a b|a b c rest IH] using groups_ind; intros H; cbn [sextets].
  - constructor.
  - apply Forall_cons in H as [Ha _]. destruct (middle_parts a 0 Ha ltac:(lia)) as (? & _). destruct (byte_parts a Ha) as (? & _).
    by repeat constructor.
  - apply Forall_cons in H as [Ha [Hb _]%Forall_cons]. destruct (middle_parts a b Ha Hb) as (? & _).
    destruct (next_parts b 0 Hb ltac:(lia)) as (? & _). destruct (byte_parts a Ha) as (? & _). by repeat constructor.
  - apply Forall_cons in H as [Ha [Hb [Hc Hr]%Forall_cons]%Forall_cons]. destruct (middle_parts a b Ha Hb) as (? & _).
    destruct (next_parts b c Hb Hc) as (? & _). destruct (byte_parts a Ha) as (? & _). destruct (byte_parts c Hc) as (_ & ? & _).
    repeat constructor; try done. by apply IH.
Qed.

Lemma sextets_length bytes : (length (sextets bytes) + padding_of (length bytes) = 4 * ((length bytes + 2) / 3))%nat
  /\ (length (sextets bytes) mod 4 = 0 /\ padding_of (length bytes) = 0
      \/ length (sextets bytes) mod 4 = 2 /\ padding_of (length bytes) = 2
      \/ length (sextets bytes) mod 4 = 3 /\ padding_of (length bytes) = 1)%nat.
Proof.
  induction bytes as [|a|a b|a b c rest [IH1 IH2]] using groups_ind.
  - vm_compute. split; [done|by left].
  - vm_compute. split; [done|by right; left].
  - vm_compute. split; [done|by right; right].
  - cbn [sextets length]. unfold padding_of in *.
    replace (S (S (S (length rest))))%nat with (length rest + 1 * 3)%nat by lia.
    replace (S (S (S (S (length (sextets rest))))))%nat with (length (sextets rest) + 1 * 4)%nat by lia.
    rewrite !Nat.Div0.mod_add. split; [|done].
    replace (length rest + 1 * 3 + 2)%nat with (length rest + 2 + 1 * 3)%nat by lia. rewrite Nat.div_add by done. lia.
Qed.

(** The letters of the text that is sent. *)
Definition url_char (n : N) : N := if n =? 62 then 45 else if n =? 63 then 95 else sextet_char n.

Definition url_letter (c : N) : bool :=
  ((65 <=? c) && (c <=? 90)) || ((97 <=? c) && (c <=? 122)) || ((48 <=? c) && (c <=? 57)) || (c =? 45) || (c =? 95).

Lemma letter_facts n : n < 64 ->
  (fun c => if c =? 47 then 95 else c) ((fun c => if c =? 43 then 45 else c) (sextet_char n)) = url_char n
  /\ (fun c => if c =? 95 then 47 else c) ((fun c => if c =? 45 then 43 else c) (url_char n)) = sextet_char n
  /\ url_letter (url_char n) = true /\ url_char n <> PAD /\ sextet_char n <> PAD
  /\ ascii_space (sextet_char n) = false /\ char_sextet (sextet_char n) = Some n.
Proof.
  intros Hn.
  set (P := fun n => bool_decide ((fun c => if c =? 47 then 95 else c) ((fun c => if c =? 43 then 45 else c) (sextet_char n)) = url_char n
      /\ (fun c => if c =? 95 then 47 else c) ((fun c => if c =? 45 then 43 else c) (url_char n)) = sextet_char n
      /\ url_letter (url_char n) = true /\ url_char n <> PAD /\ sextet_char n <> PAD
      /\ ascii_space (sextet_char n) = false /\ char_sextet (sextet_char n) = Some n)).
  assert (H : forallb P (below 64) = true) by (vm_compute; reflexivity).
  apply (below_all 64 P H n) in Hn. by apply bool_decide_eq_true_1 in Hn.
Qed.

Lemma drop_pads_text s k : Forall (fun c => c <> PAD) s -> drop_pads (s ++ repeat PAD k) = s.
Proof.
  intros H. induction H as [|c s Hc Hs IH].
  - induction k as [|k IH]; [done|]. cbn [app repeat drop_pads] in *. by rewrite IH.
  - cbn [app drop_pads]. rewrite IH. destruct s; [by apply N.eqb_neq in Hc as ->|done].
Qed.

Lemma replace_repeat a b k : a <> PAD -> replace_char a b (repeat PAD k) = repeat PAD k.
Proof.
  intros H. induction k as [|k IH]; [done|]. cbn [repeat]. unfold replace_char in *. cbn [map]. rewrite IH.
  by rewrite (proj2 (N.eqb_neq PAD a)) by congruence.
Qed.

Lemma replace_app a b s t : replace_char a b (s ++ t) = replace_char a b s ++ replace_char a b t.
Proof. apply map_app. Qed.

(** The text of a buffer. *)
Lemma buffer_text bytes : Forall (fun c => c < 256) bytes ->
  arrayBufferToBase64Url (Some bytes) = Some (map url_char (sextets bytes)).
Proof.
  intros H. unfold arrayBufferToBase64Url, btoa.
  assert (forallb (fun c => c <? 256) bytes = true) as ->.
  { apply forallb_forall. intros c Hc. rewrite List.Forall_forall in H. apply N.ltb_lt. by apply H. }
  cbn [fmap option_fmap option_map]. f_equal. rewrite encode_sextets, !replace_app, !replace_repeat by done.
  pose proof (sextets_bound bytes H) as Hs.
  assert (replace_char 47 95 (replace_char 43 45 (map sextet_char (sextets bytes))) = map url_char (sextets bytes)) as ->.
  { unfold replace_char. rewrite !map_map. apply map_ext_in. intros n Hn. rewrite List.Forall_forall in Hs.
    by destruct (letter_facts n (Hs n Hn)) as (E & _). }
  apply drop_pads_text. apply List.Forall_map. eapply Forall_impl; [exact Hs|]. intros n Hn.
  by destruct (letter_facts n Hn) as (_ & _ & _ & ? & _).
Qed.

Lemma strip_padding_text s k : Forall (fun c => c <> PAD) s -> (k <= 2)%nat -> ((length s + k) mod 4 = 0)%nat -> s <> [] ->
  strip_padding (s ++ repeat PAD k) = s.
Proof.
  intros H Hk Hm Hne. unfold strip_padding. rewrite length_app, repeat_length, Hm. cbn [Nat.eqb].
  rewrite reverse_app. destruct (reverse s) as [|c r] eqn:E.
  { apply (f_equal reverse) in E. rewrite reverse_involutive in E. done. }
  assert (Hs : s = reverse (c :: r)) by (by rewrite <- E, reverse_involutive).
  assert (Hc : c <> PAD). { rewrite Forall_forall in H. apply H. rewrite Hs. rewrite elem_of_reverse. left. }
  apply N.eqb_neq in Hc. destruct k as [|[|[|k]]]; [..|lia]; cbn [repeat app].
  - rewrite app_nil_r. change (reverse []) with (@nil N). cbn [app]. destruct r; [done|]. by rewrite Hc.
  - change (reverse [PAD]) with [PAD]. cbn [app]. by rewrite N.eqb_refl, Hc, Hs.
  - change (reverse [PAD; PAD]) with [PAD; PAD]. cbn [app]. by rewrite !N.eqb_refl, Hs.
Qed.

Lemma mapM_letters ss : Forall (fun n => n < 64) ss -> mapM char_sextet (map sextet_char ss) = Some ss.
Proof.
  induction 1 as [|n ss Hn _ IH]; [done|]. cbn [map mapM]. destruct (letter_facts n Hn) as (_ & _ & _ & _ & _ & _ & ->).
  cbn [mbind option_bind]. by rewrite IH.
Qed.

(** Bytes survive the way through the server: the text of a buffer uses only letters,
    digits, - and _, without padding, and reads back as the same bytes, for buffers of
    every length. *)
Theorem passkey_bytes_roundtrip bytes : Forall (fun c => c < 256) bytes ->
  exists text, arrayBufferToBase64Url (Some bytes) = Some text /\ Forall (fun c => url_letter c = true) text
    /\ base64UrlToArrayBuffer (Some text) = Some bytes.
Proof.
  intros H. pose proof (sextets_bound bytes H) as Hs. exists (map url_char (sextets bytes)).
  split; [by apply buffer_text|]. split.
  { apply List.Forall_map. eapply Forall_impl; [exact Hs|]. intros n Hn. by destruct (letter_facts n Hn) as (_ & _ & ? & _). }
  destruct bytes as [|b bs] eqn:Eb; [done|]. rewrite <- Eb in *. destruct (sextets_length bytes) as [_ Hl].
  set (ss := sextets bytes) in *. assert (Hne : ss <> []).
  { unfold ss. rewrite Eb. destruct bs as [|? [|? ?]]; done. }
  unfold base64UrlToArrayBuffer. destruct (map url_char ss) as [|c t] eqn:Et; [by destruct ss|]. rewrite <- Et.
  assert (Hp : ((4 - length (map url_char ss) mod 4) mod 4 = padding_of (length bytes))%nat).
  { rewrite length_map. destruct Hl as [[-> ->]|[[-> ->]|[-> ->]]]; done. }
  rewrite Hp, !replace_app, !replace_repeat by done.
  assert (replace_char 95 47 (replace_char 45 43 (map url_char ss)) = map sextet_char ss) as ->.
  { unfold replace_char. rewrite !map_map. apply map_ext_in. intros n Hn. rewrite List.Forall_forall in Hs.
    by destruct (letter_facts n (Hs n Hn)) as (_ & E & _). }
  unfold atob. rewrite filter_all.
  2: { apply Forall_app_2; [|by apply Forall_forall; intros x Hx%list_elem_of_In%repeat_spec; subst].
       apply List.Forall_map. eapply Forall_impl; [exact Hs|]. intros n Hn. by destruct (letter_facts n Hn) as (_ & _ & _ & _ & _ & -> & _). }
  rewrite strip_padding_text; [|..].
  - rewrite length_map. assert ((length ss mod 4 =? 1)%nat = false) as ->.
    { destruct Hl as [[-> _]|[[-> _]|[-> _]]]; done. }
    rewrite mapM_letters by done. cbn [fmap option_fmap option_map]. f_equal. unfold ss. rewrite decode_sextets by done.
    clear -H. induction H as [|c l Hc _ IH]; [done|]. cbn [map]. rewrite IH. by rewrite N.mod_small.
  - apply List.Forall_map. eapply Forall_impl; [exact Hs|]. intros n Hn. by destruct (letter_facts n Hn) as (_ & _ & _ & _ & ? & _).
  - destruct Hl as [[_ ->]|[[_ ->]|[_ ->]]]; lia.
  - rewrite length_map. rewrite Nat.Div0.add_mod. destruct Hl as [[-> ->]|[[-> ->]|[-> ->]]]; done.
  - by destruct ss.
Qed.

Lemma passkey_bytes_roundtrip_witness :
  exists text, arrayBufferToBase64Url (Some [251; 255; 254; 1]) = Some text
    /\ base64UrlToArrayBuffer (Some text) = Some [251; 255; 254; 1].
Proof.
  destruct (passkey_bytes_roundtrip [251; 255; 254; 1]) as (t & H1 & _ & H2); [repeat (constructor; [lia|]); constructor|].
  exists t. split; [exact H1|exact H2].
Defined.
